(* ===== verification/_CoqProject ===== *)
-Q . S2P
Prelude.v
JsString.v
JsNumber.v
JsJson.v
JsUrl.v
Async.v
SdkTypes.v
SdkClient.v
SdkTracer.v
SdkFacade.v
Formatters.v
Diff.v
SpanRollup.v
SpanMessages.v
TimeRange.v
Ui.v
Widgets.v
Visuals.v
JsonCodeBlock.v
AnalyticsBatch.v
DashboardData.v
Dashboard.v
DashboardProps.v
Shell.v
App.v
Toast.v
FilterGroup.v
Settings.v
Admin.v
EvalRules.v
Prompts.v
PromptsProps.v
Datasets.v
DatasetsProps.v
DatasetModals.v
DatasetDetail.v
DatasetDetailProps.v
Conversations.v
ConversationsProps.v
Traces.v
TracesProps.v
TraceDetail.v
TraceDetailProps.v
