(* ===== verification/Prelude.v ===== *)
(** * Omneval, the TypeScript side: SDK and user interface

    Omneval collects traces of applications that call language models and shows and
    evaluates them.  Of the repository this development models the TypeScript code: the
    SDK an application links (src/sdk/ts/src) and the core of the web interface
    (src/ui/src).  The back end (Go) and the SDKs for other languages are outside; what
    they answer is arbitrary here.

    ** The program and its parts

    The SDK.  An application creates an [OmnevalSDK] (omneval.ts), which passes calls to
    a tracer (tracer.ts), a client of the prompt, score and rule API (client.ts) and an
    exporter (exporter.ts).  Ids come from id.ts, the data from types.ts.  Under Node,
    node/index.ts configures an OpenTelemetry SDK instead, with node/exporter.ts.

    The interface.  App.tsx owns the session, the project, the URL and the overlay, and
    shows one page inside Header, Layout and Sidebar, with toasts from Toast.tsx.  The
    evaluation rules page (EvalRules.tsx) edits filters with FilterGroup.tsx.  The trace
    list (Traces.tsx) asks for traces by time range, kind, text and page; the trace
    detail (TraceDetail.tsx) draws the spans of one trace as tree and waterfall and asks
    again while the trace is live.  The prompts page (Prompts.tsx) lists, creates and
    labels prompts and compares versions with the diff; the datasets page (Datasets.tsx)
    imports items from files, DatasetDetail.tsx shows one with its evaluation runs, and
    two dialogs add spans to datasets; the conversations pages list conversations and
    show what was said in one.  Settings.tsx manages a project's API keys, Admin.tsx all
    keys, projects and traces.  The dashboard (Dashboard.tsx) fans out analytics requests
    over a few workers and draws their answers.  The functions under utils/ turn spans
    into what the pages show.

    ** The files

    Infrastructure, in this order:
    - Prelude: the result type and its notation, record updates, stable sorting, list
      lemmas and tactics.
    - JsString: strings as lists of UTF-16 code units, with the methods the code uses.
    - JsNumber: doubles, computed exactly as rationals and rounded; printing.
    - JsJson: values, objects as ordered property lists, [JSON.stringify], [JSON.parse].
    - JsUrl: UTF-8 and [encodeURIComponent].
    - Async: programs of the SDK that wait for answers over a shared world; the steps of
      several of them in any interleaving, reachability and rule induction.

    The SDK:
    - SdkTypes: types.ts and id.ts.
    - SdkClient: client.ts; a method is a program over the two prompt caches.
    - SdkTracer: exporter.ts and tracer.ts; a method is a program over the pending spans.
    - SdkFacade: Module Omneval is omneval.ts, Module Node is node/index.ts and
      node/exporter.ts.

    The interface:
    - Formatters, Diff, SpanRollup, SpanMessages, TimeRange: utils/formatters.ts,
      diff.ts, spanRollup.ts, spanMessages.ts and timeRange.ts.
    - Ui: views, what a view lets the user do, requests and answers, and components as
      state machines whose requests are answered in any order.
    - Widgets: the small components of several pages (Skeleton.tsx, EmptyState.tsx,
      ErrorBanner.tsx with the error boundary, CopyButton.tsx, Breadcrumb.tsx and
      OnboardingEmptyState.tsx).
    - Visuals: theme.ts and modules/spanKindVisuals.tsx.
    - JsonCodeBlock: components/JsonCodeBlock.tsx, the highlighted text as HTML.
    - AnalyticsBatch: the workers of fetchAnalyticsBatch in pages/Dashboard.tsx, over a
      batch kept anywhere in a state; DashboardData: its queries and what is made of the
      answers; Dashboard, DashboardProps: the page and its theorems.
    - Shell: Modules Header, Sidebar and Layout are the components of these names.
    - App: App.tsx and pages/Login.tsx: its state is the component's hooks together with
      the browser's URL, history, viewport and local storage.
    - Toast: components/Toast.tsx, with a clock and the timers that are pending.
    - FilterGroup: components/FilterGroup.tsx.
    - Settings: pages/Settings.tsx (Module Keys, with Module KeysProps for the theorems,
      and Module NewProject for the dialog); Admin: pages/Admin.tsx.
    - EvalRules: pages/EvalRules.tsx, its form, validation, preview and requests.
    - Traces, TracesProps: pages/Traces.tsx, the definitions and the theorems.
    - TraceDetail, TraceDetailProps: pages/TraceDetail.tsx, likewise.
    - Prompts, PromptsProps: pages/Prompts.tsx.
    - Datasets, DatasetsProps: pages/Datasets.tsx; DatasetModals:
      components/SaveToDatasetModal.tsx and BulkAddToDatasetModal.tsx, over one state;
      DatasetDetail, DatasetDetailProps: pages/DatasetDetail.tsx.
    - Conversations, ConversationsProps: pages/Conversations.tsx (Module List) and
      pages/ConversationDetail.tsx (Module Detail).

    Definitions have the names of the source.  A handler of a component is a function
    from its state to the new state and the requests it starts; what the code does after
    an [await] is the continuation of such a request.  A method of the SDK that throws
    returns an [Err] with the message the code gives.

    ** What the theorems show

    - Safety over every interleaving: no stale prompt after 30 seconds, and none of
      another name or label unless they hold the separator of the keys
      ([getPrompt_staleness]), versions come from their own request
      ([getPromptByVersion_provenance]), batches are well formed ([tracer_exports_valid]),
      no span is lost ([tracer_no_loss]); pages behind the login ([login_guard]), the
      active project ([active_project_listed]), the rows and the trace on the screen are
      those asked for ([rows_follow_query], [shown_trace_is_asked]), rules and prompts
      are created when their forms are valid ([create_when_valid],
      [create_when_publishable]), no text can put a tag of its own into the JSON block
      ([json_block_tags]), the toggle of a conversation is the stored one
      ([history_toggle_persists]), the dashboard shows the answers for the present project
      and window whatever older batches do ([latest_shown]), a dialog asks for one key
      ([one_key_per_dialog]), runs are polled while they go on ([runs_polled]) and started
      for enabled rules ([run_of_enabled_rule]).
    - Refinement: the trace list with its numbered requests is a machine with one query
      and one request ([trace_list_refines]).
    - Termination: live polling ends ([live_polling_ends]), an import ends and sends
      every item once ([import_ends]), toasts go away ([toasts_expire]), a batch of
      workers makes no request twice, all of them unless every worker had one rejected,
      and settles once ([batch_settles]), everything of the administration is fetched
      ([fetchAll_ends]).
    - Functions against specifications: the diff replays and is minimal
      ([diffText_replays], [diffText_minimal], and as the page shows it
      [comparison_replays]), durations are accurate to half a unit
      ([formatDurationMs_accurate]), totals are exact ([annotateSpanTree_totals]),
      messages round trip ([numbered_messages_roundtrip]), so do CSV files
      ([csv_roundtrip]) and windows of time ([presetToFromTo_window]), filters are
      normalised ([normalizeFilter_numbers]) and have the builder's grammar
      ([builder_grammar]), the waterfall covers its spans ([waterfall_covers]), the
      tables of span kinds agree ([span_kinds_drawn]), a conversation shows what the
      last model call with a text of each trace says, in whatever order the answers come
      ([extractTraceIO_last], [previews_any_order]), the ticks of an axis are where they
      should be ([axis_ticks]), errors are merged by time ([merge_errors_last]), the keys
      shown are those searched for ([keys_shown]).
    - Every branch of single operations: [endSpan_flushes], [startSpan_trace],
      [getPrompt_failures], [client_validation], [dispatch_by_init],
      [navigate_reload_back], [sidebar_reaches_all], [arrows_move], [bulk_save_reports].
    - Behaviour that a reader of the code may not expect, each on a run of the model:
      [label_cache_collision], [overlapping_exports_duplicate],
      [exported_ancestor_splits_trace], [instrument_needs_test_hook],
      [popstate_bypasses_login], [logout_keeps_overlay], [stale_rules_shown],
      [failed_delete_blocks_page], [blank_number_sent_as_text], [lmnr_not_iterable],
      [failed_switch_keeps_rows], [late_poll_reverts], [missing_import_breaks],
      [label_menu_sticks], [other_project_versions], [unlisted_model_sent],
      [import_error_unseen], [bad_file_keeps_items], [enter_creates_twice],
      [early_save_is_empty], [late_page_mixes], [closed_dialog_loses_key],
      [stale_keys_revoked], [deleted_key_asked_again], [late_count_shown],
      [mount_doubles_load], [refused_answers_look_empty], [expanded_run_collapses],
      [polls_pile_up], [failed_refetch_blocks_tab], [unloaded_rules_say_none],
      [late_dataset_shown].

    ** Bounds, fuel and assumptions

    - The walk back of the diff has the sum of the lengths as fuel, the climb to a root
      span the number of pending spans, [JSON.parse] the length of the text: each is
      shown to be enough, or runs out only where the code throws or loops no longer.
      The batches of an import have the number of items as fuel, a worker of the
      dashboard one more than the number of requests, the ticks of an axis one more than
      the intervals the window has room for ([batch_settles], [axis_ticks]).
    - Exactness of numbers is claimed for integers below 2^53 in magnitude.
      [numbered_messages_roundtrip] takes at most a thousand messages per list.
    - The two zeros of a double are one value; strings hold any code units.
    - The body of an answer to the interface is of the type the code declares, or no
      JSON.  Requests of the SDK are answered with any status and body.
    - Parameters: the random source, the rendering of dates in a locale, the
      OpenTelemetry packages.

    ** Not modelled

    Styles, icons and drawings; the console; the OpenTelemetry and chart libraries (a
    chart is the points and ticks it is given).  Every page of the interface is modelled
    by itself; App treats a page as a node whose callbacks can trigger what App lets
    them.  The end-to-end check under scripts/qa_validation_ts drives a running
    deployment and is a test; main.tsx and index.ts only mount and
    re-export. *)
From stdpp Require Export prelude list strings.
From stdpp Require Export gmap fin_maps sorting.

(** ** Options of the library *)
#[export] Set Default Goal Selector "!".
#[export] Set Default Proof Using "Type".

Declare Scope js_scope.
Delimit Scope js_scope with js.

(** ** Results: a value, or the exception the code throws *)

Inductive result (E A : Type) : Type :=
| Ok (a : A)
| Err (e : E).
Arguments Ok {E A} a.
Arguments Err {E A} e.

Definition result_bind {E A B} (m : result E A) (f : A → result E B) : result E B :=
  match m with Ok a => f a | Err e => Err e end.

Definition result_of_option {E A} (e : E) (o : option A) : result E A :=
  match o with Some a => Ok a | None => Err e end.

#[export] Instance result_eq_dec {E A} `{EqDecision E, EqDecision A} : EqDecision (result E A).
Proof. solve_decision. Defined.

Notation "'let!' x ':=' m 'in' k" := (result_bind m (λ x, k))
  (at level 10, x pattern, m at level 100, k at level 200) : js_scope.

(** ** Tactics *)

(** Destruct the scrutinee of every match and conditional of the goal and the
    hypotheses, keeping the equations. *)
Ltac destruct_matches :=
  repeat (case_match; simplify_eq/=).

(** Decide every boolean comparison that guards a conditional. *)
Ltac bool_cases :=
  repeat match goal with
  | H : context [bool_decide ?P] |- _ => destruct (bool_decide_reflect P); simplify_eq/=
  | |- context [bool_decide ?P] => destruct (bool_decide_reflect P); simplify_eq/=
  end.

(** Close a conjunction of closed computations. *)
Ltac compute_all := repeat split; vm_compute; reflexivity.

Create HintDb jsdb.

(** ** Options *)

(** The value of a JavaScript [a ?? b]. *)
Definition nullish {A} (o : option A) (d : A) : A := default d o.

Lemma is_Some_bool {A} (o : option A) : is_Some o ↔ bool_decide (is_Some o) = true.
Proof. by rewrite bool_decide_eq_true. Qed.

(** ** Lists *)

Section lists.
Context {A B : Type}.
Implicit Types l : list A.

(** [Array.prototype.array_find]: the first element satisfying the predicate. *)
Fixpoint array_find (p : A → bool) (l : list A) : option A :=
  match l with
  | [] => None
  | x :: r => if p x then Some x else array_find p r
  end.

Lemma array_find_Some p l x : array_find p l = Some x → x ∈ l ∧ p x = true.
Proof.
  induction l as [|y l IH]; simpl; [done|].
  destruct (p y) eqn:E; [intros [= ->]; split; [left|done]|].
  intros [??]%IH; split; [by right|done].
Qed.

Lemma array_find_None p l : array_find p l = None ↔ ∀ x, x ∈ l → p x = false.
Proof.
  induction l as [|y l IH]; simpl; [split; [|done]; intros _ x Hx; inversion Hx|].
  destruct (p y) eqn:E.
  - split; [done|]. intros H. specialize (H y ltac:(left)). congruence.
  - rewrite IH. split.
    + intros H x [->|?]%elem_of_cons; auto.
    + intros H x ?. apply H. by right.
Qed.

(** Apply a mutation to the first element satisfying the predicate: what the
    code does to the object [array_find] returns. *)
Fixpoint update_first (p : A → bool) (f : A → A) (l : list A) : list A :=
  match l with
  | [] => []
  | x :: r => if p x then f x :: r else x :: update_first p f r
  end.

Lemma update_first_length p f l : length (update_first p f l) = length l.
Proof. induction l as [|x l IH]; simpl; [done|]. destruct (p x); simpl; congruence. Qed.

Lemma update_first_None p f l : array_find p l = None → update_first p f l = l.
Proof. induction l as [|x l IH]; simpl; [done|]. destruct (p x); [done|]. intros ?%IH; congruence. Qed.

Lemma update_first_elem p f l x :
  x ∈ update_first p f l → x ∈ l ∨ ∃ y, array_find p l = Some y ∧ x = f y.
Proof.
  induction l as [|y l IH]; simpl; [by intros H; inversion H|].
  destruct (p y) eqn:E.
  - intros [->|?]%elem_of_cons; [right; eauto|left; by right].
  - intros [->|?]%elem_of_cons; [left; by left|].
    destruct IH as [?|?]; [done|left; by right|by right].
Qed.

Lemma update_first_map {C} p f (g : A → C) l :
  (∀ x, g (f x) = g x) → g <$> update_first p f l = g <$> l.
Proof.
  intros Hg. induction l as [|x l IH]; csimpl; [done|].
  destruct (p x); csimpl; [by rewrite Hg|by rewrite IH].
Qed.

Lemma list_filter_iff' (P Q : A → Prop) `{∀ x, Decision (P x)} `{∀ x, Decision (Q x)} l :
  (∀ x, x ∈ l → P x ↔ Q x) → filter P l = filter Q l.
Proof.
  induction l as [|x l IH]; intros Hl; [done|].
  assert (filter P l = filter Q l) as E by (apply IH; intros y ?; apply Hl; by right).
  destruct (decide (P x)) as [HP|HP].
  - rewrite !filter_cons_True, E; [done|apply Hl; [left|done]|done].
  - rewrite !filter_cons_False, E; [done|rewrite <- Hl; [done|left]|done].
Qed.

Lemma update_first_hit p f l x : array_find p l = Some x → f x ∈ update_first p f l.
Proof.
  induction l as [|y l IH]; simpl; [done|].
  destruct (p y); [intros [= ->]; left|intros ?%IH; by right].
Qed.

(** What the mutation does not touch. *)
Lemma update_first_keeps p f l x : x ∈ l → p x = false → x ∈ update_first p f l.
Proof.
  intros Hin Hx. induction l as [|y l IH]; simpl; [done|].
  apply elem_of_cons in Hin as [->|Hin].
  - rewrite Hx. left.
  - destruct (p y); right; auto.
Qed.

Lemma update_first_other p q f l :
  (∀ x, p x = true → q x = false ∧ q (f x) = false) →
  array_find q (update_first p f l) = array_find q l.
Proof.
  intros Hpq. induction l as [|y l IH]; simpl; [done|].
  destruct (p y) eqn:Hp; simpl.
  - by destruct (Hpq y Hp) as [-> ->].
  - by rewrite IH.
Qed.

(** Dropping by key what a predicate selects is dropping what it selects. *)
Lemma filter_not_listed {K} `{EqDecision K} (key : A → K) (P : A → Prop) `{∀ x, Decision (P x)} l :
  NoDup (key <$> l) → filter (λ x, key x ∉ key <$> filter P l) l = filter (λ x, ¬ P x) l.
Proof.
  intros Hnd. assert (∀ x y, x ∈ l → y ∈ l → key x = key y → x = y) as Hinj.
  { intros x y (i & Hi)%list_elem_of_lookup (j & Hj)%list_elem_of_lookup E.
    assert ((key <$> l) !! i = Some (key x) ∧ (key <$> l) !! j = Some (key y)) as [Hi' Hj']
      by (by rewrite !list_lookup_fmap, Hi, Hj).
    rewrite E in Hi'. pose proof (NoDup_lookup _ _ _ _ Hnd Hi' Hj'). congruence. }
  apply list_filter_iff'. intros x Hx. split.
  - intros Hni HP. apply Hni, list_elem_of_fmap. exists x. split; [done|]. by apply list_elem_of_filter.
  - intros HP (y & E & [Hy Hyl]%list_elem_of_filter)%list_elem_of_fmap.
    by rewrite (Hinj x y) in HP.
Qed.

Lemma rev_replicate n (x : A) : rev (replicate n x) = replicate n x.
Proof. rewrite rev_alt. apply reverse_replicate. Qed.

Lemma filter_all_false (P : A → Prop) `{∀ x, Decision (P x)} l :
  (∀ x, x ∈ l → ¬ P x) → filter P l = [].
Proof.
  induction l as [|x l IH]; intros Hl; [done|].
  rewrite filter_cons_False by (apply Hl; left).
  apply IH. intros y ?. apply Hl. by right.
Qed.

Lemma filter_all_true (P : A → Prop) `{∀ x, Decision (P x)} l :
  (∀ x, x ∈ l → P x) → filter P l = l.
Proof.
  induction l as [|x l IH]; intros Hl; [done|].
  rewrite filter_cons_True by (apply Hl; left).
  f_equal. apply IH. intros y ?. apply Hl. by right.
Qed.
End lists.

#[export] Hint Resolve array_find_Some : jsdb.

(** ** [Array.prototype.sort]: stable, so insertion from the right with the order
    [a before b when compare(a, b) <= 0]. *)

Section sort.
Context {A : Type} (le : A → A → bool).

Fixpoint sort_insert (x : A) (l : list A) : list A :=
  match l with
  | [] => [x]
  | y :: r => if le x y then x :: l else y :: sort_insert x r
  end.

Definition sort_by (l : list A) : list A := foldr sort_insert [] l.

Lemma sort_insert_perm x l : sort_insert x l ≡ₚ x :: l.
Proof.
  induction l as [|y l IH]; simpl; [done|]. destruct (le x y); [done|].
  rewrite IH. apply perm_swap.
Qed.

Lemma sort_by_perm l : sort_by l ≡ₚ l.
Proof. induction l as [|x l IH]; simpl; [done|]. by rewrite sort_insert_perm, IH. Qed.

(** The order need only be total and transitive on the elements of the list. *)
Definition order_on (l : list A) : Prop :=
  (∀ x y, x ∈ l → y ∈ l → le x y = true ∨ le y x = true)
  ∧ (∀ x y z, x ∈ l → y ∈ l → z ∈ l → le x y = true → le y z = true → le x z = true).

Lemma sort_insert_sorted x l : order_on (x :: l) →
  StronglySorted (λ a b, le a b = true) l → StronglySorted (λ a b, le a b = true) (sort_insert x l).
Proof.
  induction l as [|y l IH]; simpl; intros Ho Hs; [repeat constructor|].
  pose proof Ho as [Htot Htr]. inversion Hs as [|?? Hl Hy]; subst.
  destruct (le x y) eqn:E.
  - constructor; [done|]. constructor; [done|]. rewrite Forall_forall in *. intros z Hz.
    apply (Htr x y z); rewrite ?elem_of_cons; auto.
  - assert (le y x = true) as E'.
    { destruct (Htot x y) as [?|?]; rewrite ?elem_of_cons; auto. congruence. }
    constructor.
    + apply IH; [|done]. split.
      * intros a b Ha Hb. apply Htot; rewrite elem_of_cons in *; destruct Ha, Hb; subst; rewrite ?elem_of_cons; tauto.
      * intros a b c Ha Hb Hc. apply Htr; rewrite !elem_of_cons in *; tauto.
    + apply Forall_forall. intros z Hz. rewrite sort_insert_perm in Hz.
      apply elem_of_cons in Hz as [->|Hz]; [done|]. by apply (proj1 (Forall_forall _ _) Hy).
Qed.

Lemma sort_by_sorted l : order_on l → StronglySorted (λ a b, le a b = true) (sort_by l).
Proof.
  induction l as [|x l IH]; simpl; intros [Htot Htr]; [constructor|].
  apply sort_insert_sorted.
  - split.
    + intros a b Ha Hb. apply Htot; rewrite sort_by_perm in *; done.
    + intros a b c Ha Hb Hc. apply Htr; rewrite sort_by_perm in *; done.
  - apply IH. split; [intros a b ??; apply Htot; by right|intros a b c ???; apply Htr; by right].
Qed.
End sort.

(** ** Objects used as maps

    [obj[key]] of a plain object also finds the properties of
    [Object.prototype]: a lookup has three outcomes. *)

Inductive prop_lookup (A : Type) : Type :=
| Own (a : A)
| Inherited
| Absent.
Arguments Own {A} a.
Arguments Inherited {A}.
Arguments Absent {A}.

(** ** Updating a field of a record

    [s <| f := v |>] is [s] with the field [f] set to [v].  A record type declares its
    eta-expansion once, from which the setter of each field is derived. *)

Class Eta (R : Type) : Type := eta : R → R.
Class Setter {R T : Type} (proj : R → T) : Type := set_field : (T → T) → R → R.

Ltac derive_setter :=
  match goal with
  | |- @Setter ?R ?T ?proj =>
    let e := eval hnf in (@eta R _) in
    let e := eval pattern proj in e in
    match e with
    | ?abs _ => exact (λ (f : T → T), abs (λ r, f (proj r)))
    end
  end.

#[export] Hint Extern 0 (Setter _) => derive_setter : typeclass_instances.

Notation "s <| f := v |>" := (set_field (proj := f) (λ _, v) s)
  (at level 12, left associativity, f at next level, v at level 100,
   format "s  <| f  :=  v |>").
Notation "s <| f ::= g |>" := (set_field (proj := f) g s)
  (at level 12, left associativity, f at next level, g at level 100,
   format "s  <| f  ::=  g |>").
Arguments set_field {R T} proj {_} / _ _.
