(* ===== verification/JsString.v ===== *)
(** JavaScript strings: sequences of UTF-16 code units, with the operations of
    [String.prototype] the code uses and the lemmas the components share. *)
From Stdlib Require Import Strings.Byte.
From S2P Require Export Prelude.

(** A string is the list of its UTF-16 code units. *)
Abbreviation jsstr := (list N).

(** ** Literals

    [js "..."] is the JavaScript literal with that text: the bytes of the Rocq
    literal are UTF-8 and every character of the sources' literals is in the
    Basic Multilingual Plane, so a character is one code unit. *)

Fixpoint utf8_decode (l : list Byte.byte) : jsstr :=
  match l with
  | [] => []
  | b :: r =>
    let b := Byte.to_N b in
    if (b <? 128)%N then b :: utf8_decode r else
    if (b <? 224)%N then
      match r with
      | b1 :: r => ((b mod 32) * 64 + Byte.to_N b1 mod 64)%N :: utf8_decode r
      | _ => []
      end
    else
      match r with
      | b1 :: b2 :: r =>
        ((b mod 16) * 4096 + (Byte.to_N b1 mod 64) * 64 + Byte.to_N b2 mod 64)%N :: utf8_decode r
      | _ => []
      end
  end.

Definition js (s : string) : jsstr := utf8_decode (String.list_byte_of_string s).
Arguments js : simpl never.

(** Code units the code names. *)
Definition c_nl : N := 10.
Definition c_quote : N := 34.
Definition c_hash : N := 35.
Definition c_slash : N := 47.
Definition c_dot : N := 46.
Definition c_bar : N := 124.

(** ** Tests *)

(** The truth value of a string: the empty string is falsy. *)
Definition truthy (s : jsstr) : bool := match s with [] => false | _ => true end.

(** The truth value of an optional string. *)
Definition truthy_opt (s : option jsstr) : bool :=
  match s with Some s => truthy s | None => false end.

Fixpoint starts_with (p s : jsstr) : bool :=
  match p, s with
  | [], _ => true
  | a :: p, b :: s => (a =? b)%N && starts_with p s
  | _, [] => false
  end.

(** [s.endsWith(p)]. *)
Definition ends_with (p s : jsstr) : bool := starts_with (rev p) (rev s).

(** [s.indexOf(p)], with [None] for -1. *)
Fixpoint index_of (p s : jsstr) : option nat :=
  if starts_with p s then Some 0
  else match s with [] => None | _ :: r => S <$> index_of p r end.

Definition includes (p s : jsstr) : bool :=
  match index_of p s with Some _ => true | None => false end.

(** ** Slices *)

(** [s.slice(n)] for a non-negative [n]. *)
Definition slice_from (n : nat) (s : jsstr) : jsstr := drop n s.

(** [s.slice(0, n)]: a negative [n] counts from the end. *)
Definition slice_to (n : Z) (s : jsstr) : jsstr :=
  if (n <? 0)%Z then take (Z.to_nat (Z.of_nat (length s) + n)) s else take (Z.to_nat n) s.

(** ** Splitting and joining *)

(** [s.split(c)] for a separator of one code unit. *)
Fixpoint str_split (c : N) (s : jsstr) : list jsstr :=
  match s with
  | [] => [[]]
  | a :: r =>
    if (a =? c)%N then [] :: str_split c r
    else match str_split c r with
         | [] => [[a]]
         | w :: ws => (a :: w) :: ws
         end
  end.

(** [l.str_join(sep)]. *)
Fixpoint str_join (sep : jsstr) (l : list jsstr) : jsstr :=
  match l with
  | [] => []
  | [w] => w
  | w :: ws => w ++ sep ++ str_join sep ws
  end.

(** ** White space *)

(** The code units [trim] removes and the [\s] class matches. *)
Definition is_space (c : N) : bool :=
  bool_decide (c ∈ [9; 10; 11; 12; 13; 32; 160; 5760; 8232; 8233; 8239; 8287; 12288; 65279]%N)
  || ((8192 <=? c) && (c <=? 8202))%N.

Fixpoint trim_start (s : jsstr) : jsstr :=
  match s with
  | c :: r => if is_space c then trim_start r else s
  | [] => []
  end.

Definition trim_end (s : jsstr) : jsstr := rev (trim_start (rev s)).
Definition trim (s : jsstr) : jsstr := trim_end (trim_start s).

(** ** Characters *)

Definition is_digit (c : N) : bool := ((48 <=? c) && (c <=? 57))%N.
Definition is_upper (c : N) : bool := ((65 <=? c) && (c <=? 90))%N.
Definition is_lower (c : N) : bool := ((97 <=? c) && (c <=? 122))%N.

(** The [\w] class. *)
Definition is_word (c : N) : bool := is_digit c || is_upper c || is_lower c || (c =? 95)%N.

(** [c.toUpperCase()] for one code unit. The letters of the ASCII range and every
    other code unit whose upper case has an ASCII letter are mapped as Unicode maps
    them (dotless i, long s, sharp s, the Latin ligatures, and the letters with a
    combining mark in SpecialCasing.txt); the rest, whose upper case is outside
    ASCII, are kept: the code only compares the result with an ASCII literal. *)
Definition upper_unit (c : N) : jsstr :=
  if is_lower c then [c - 32]%N else
  if (c =? 305)%N then [73]%N else
  if (c =? 383)%N then [83]%N else
  if (c =? 223)%N then [83; 83]%N else
  if (c =? 329)%N then [700; 78]%N else
  if (c =? 496)%N then [74; 780]%N else
  if (c =? 7830)%N then [72; 817]%N else
  if (c =? 7831)%N then [84; 776]%N else
  if (c =? 7832)%N then [87; 778]%N else
  if (c =? 7833)%N then [89; 778]%N else
  if (c =? 7834)%N then [65; 702]%N else
  if (c =? 64256)%N then [70; 70]%N else
  if (c =? 64257)%N then [70; 73]%N else
  if (c =? 64258)%N then [70; 76]%N else
  if (c =? 64259)%N then [70; 70; 73]%N else
  if (c =? 64260)%N then [70; 70; 76]%N else
  if (c =? 64261)%N then [83; 84]%N else
  if (c =? 64262)%N then [83; 84]%N else [c].

Definition to_upper (s : jsstr) : jsstr := s ≫= upper_unit.

(** The simple case folding of a regular expression with the [i] flag and without
    the [u] flag: only ASCII letters are identified with ASCII letters. *)
Definition fold_unit (c : N) : N := if is_upper c then (c + 32)%N else c.

(** [/p/i.test(s)] for a [p] of lower-case ASCII letters. *)
Definition test_i (p s : jsstr) : bool := includes p (fold_unit <$> s).

(** ** Decimal numerals *)

Fixpoint digits_go (fuel : nat) (n : Z) (acc : jsstr) : jsstr :=
  match fuel with
  | O => acc
  | S fuel =>
    let acc := Z.to_N (48 + n mod 10) :: acc in
    if (n / 10 =? 0)%Z then acc else digits_go fuel (n / 10) acc
  end.

(** The decimal digits of a non-negative integer; one digit is produced per step
    and [1 + log2 n] bounds their number. *)
Definition digits (n : Z) : jsstr := digits_go (S (Z.to_nat (Z.log2 n))) n [].

(** [String(n)] for an integer the language prints without an exponent. *)
Definition show_Z (n : Z) : jsstr :=
  if (n <? 0)%Z then 45%N :: digits (- n) else digits n.

(** The value of a string of digits. *)
Definition digits_val (s : jsstr) : Z :=
  fold_left (λ acc c, acc * 10 + (Z.of_N c - 48))%Z s 0%Z.

(** ** Lemmas *)

Lemma truthy_spec s : truthy s = true ↔ s ≠ [].
Proof. by destruct s. Qed.

Lemma starts_with_app p s : starts_with p (p ++ s) = true.
Proof. induction p as [|a p IH]; simpl; [done|]. by rewrite N.eqb_refl, IH. Qed.

Lemma starts_with_spec p s : starts_with p s = true ↔ ∃ r, s = p ++ r.
Proof.
  split; [|intros [r ->]; apply starts_with_app].
  revert s. induction p as [|a p IH]; intros s; simpl; [eauto|].
  destruct s as [|b s]; [done|].
  intros [->%N.eqb_eq H]%andb_true_iff. destruct (IH _ H) as [r ->]. by exists r.
Qed.

Lemma slice_from_app p s : slice_from (length p) (p ++ s) = s.
Proof. apply drop_app_length. Qed.

Lemma index_of_None_cons p a s : index_of p (a :: s) = None → index_of p s = None.
Proof.
  simpl. destruct (starts_with p (a :: s)); [done|]. by destruct (index_of p s).
Qed.

Lemma str_split_nonempty c s : str_split c s ≠ [].
Proof. destruct s as [|a s]; simpl; [done|]. destruct (a =? c)%N; [done|]. by destruct (str_split c s). Qed.

(** Joining the pieces with the separator gives the string back. *)
Lemma str_join_split c s : str_join [c] (str_split c s) = s.
Proof.
  induction s as [|a s IH]; simpl; [done|].
  pose proof (str_split_nonempty c s) as Hne.
  destruct (N.eqb_spec a c) as [->|].
  - destruct (str_split c s) as [|w ws]; [done|]. simpl in *. by rewrite IH.
  - destruct (str_split c s) as [|w ws]; [done|].
    destruct ws; simpl in *; by rewrite <- IH.
Qed.

Lemma str_split_no_sep c s w : w ∈ str_split c s → c ∉ w.
Proof.
  revert w. induction s as [|a s IH]; simpl; intros w.
  - intros ->%list_elem_of_singleton. apply not_elem_of_nil.
  - destruct (N.eqb_spec a c) as [->|Hne].
    + intros [->|?]%elem_of_cons; [apply not_elem_of_nil|auto].
    + destruct (str_split c s) as [|u us] eqn:Hs; [by apply str_split_nonempty in Hs|].
      intros [->|?]%elem_of_cons.
      * intros [->|?]%elem_of_cons; [done|]. eapply IH; [left|done].
      * apply IH. by right.
Qed.

(** A string without the separator is one piece. *)
Lemma str_split_no_occurrence c s : c ∉ s → str_split c s = [s].
Proof.
  induction s as [|a s IH]; simpl; [done|].
  intros [Hne Hs]%not_elem_of_cons. destruct (N.eqb_spec a c) as [->|]; [done|].
  by rewrite IH.
Qed.

Lemma str_split_app_sep c s t : c ∉ s → str_split c (s ++ c :: t) = s :: str_split c t.
Proof.
  induction s as [|a s IH]; simpl; [by rewrite N.eqb_refl|].
  intros [Hne Hs]%not_elem_of_cons. destruct (N.eqb_spec a c) as [->|]; [done|].
  by rewrite IH.
Qed.

Lemma length_str_split_pos c s : (1 ≤ length (str_split c s))%nat.
Proof. pose proof (str_split_nonempty c s). destruct (str_split c s); simpl; [done|lia]. Qed.

Lemma length_str_split_app c s t :
  S (length (str_split c (s ++ c :: t))) = (length (str_split c s) + length (str_split c t) + 1)%nat.
Proof.
  induction s as [|a s IH]; simpl; [by rewrite N.eqb_refl; simpl; lia|].
  pose proof (length_str_split_pos c s). pose proof (length_str_split_pos c (s ++ c :: t)).
  destruct (N.eqb_spec a c) as [->|]; simpl; [lia|].
  destruct (str_split c s), (str_split c (s ++ c :: t)); simpl in *; lia.
Qed.

(** Two strings joined by a separator neither left part holds are equal only
    part by part: what makes a composite key injective. *)
Lemma sep_inj c (a b x y : jsstr) :
  c ∉ a → c ∉ x → a ++ c :: b = x ++ c :: y → a = x ∧ b = y.
Proof.
  revert x. induction a as [|u a IH]; intros [|v x] Ha Hx; simpl; intros E; simplify_eq.
  - done.
  - by destruct Hx; left.
  - by destruct Ha; left.
  - apply not_elem_of_cons in Ha as [_ Ha]. apply not_elem_of_cons in Hx as [_ Hx].
    by destruct (IH x Ha Hx) as [-> ->].
Qed.

Lemma digits_go_app fuel n acc : digits_go fuel n acc = digits_go fuel n [] ++ acc.
Proof.
  revert n acc. induction fuel as [|fuel IH]; intros n acc; simpl; [done|].
  destruct (n / 10 =? 0)%Z; [done|].
  rewrite (IH _ (_ :: acc)), (IH _ [_]). by rewrite <- app_assoc.
Qed.

Lemma digits_val_snoc s c : digits_val (s ++ [c]) = (digits_val s * 10 + (Z.of_N c - 48))%Z.
Proof. unfold digits_val. by rewrite fold_left_app. Qed.

Lemma digits_go_val fuel n :
  (0 <= n < 2 ^ Z.of_nat fuel)%Z → digits_val (digits_go fuel n []) = n.
Proof.
  revert n. induction fuel as [|fuel IH]; intros n Hn; simpl.
  - change (2 ^ Z.of_nat 0)%Z with 1%Z in Hn. assert (n = 0%Z) as -> by lia. done.
  - rewrite Nat2Z.inj_succ, Z.pow_succ_r in Hn by lia.
    pose proof (Z.mod_pos_bound n 10 ltac:(lia)) as Hm.
    pose proof (Z.div_mod n 10 ltac:(lia)) as Hd.
    destruct (Z.eqb_spec (n / 10) 0) as [E|E].
    + unfold digits_val. simpl. lia.
    + rewrite digits_go_app, digits_val_snoc, IH; [lia|].
      split; [apply Z.div_pos; lia|]. apply Z.div_lt_upper_bound; lia.
Qed.

(** Reading the digits of a number gives the number. *)
Lemma digits_val_digits n : (0 <= n)%Z → digits_val (digits n) = n.
Proof.
  intros Hn. apply digits_go_val. split; [done|].
  rewrite Nat2Z.inj_succ, Z2Nat.id by apply Z.log2_nonneg.
  destruct (decide (n = 0%Z)) as [->|]; [done|]. apply Z.log2_spec. lia.
Qed.

Lemma digits_go_digit fuel n acc :
  Forall (λ c, is_digit c = true) acc → Forall (λ c, is_digit c = true) (digits_go fuel n acc).
Proof.
  revert n acc. induction fuel as [|fuel IH]; intros n acc H; simpl; [done|].
  assert (Forall (λ c, is_digit c = true) (Z.to_N (48 + n mod 10) :: acc)).
  { constructor; [|done]. pose proof (Z.mod_pos_bound n 10 ltac:(lia)).
    unfold is_digit. apply andb_true_iff. split; apply N.leb_le; lia. }
  destruct (n / 10 =? 0)%Z; auto.
Qed.

Lemma digits_all_digits n : Forall (λ c, is_digit c = true) (digits n).
Proof. apply digits_go_digit. constructor. Qed.

Lemma show_Z_inj a b : show_Z a = show_Z b → a = b.
Proof.
  unfold show_Z. intros E.
  assert (∀ n r, digits n ≠ 45%N :: r) as Hminus.
  { intros n r Hn. pose proof (digits_all_digits n) as H. rewrite Hn in H. inversion H. done. }
  destruct (Z.ltb_spec a 0), (Z.ltb_spec b 0).
  - injection E as E. apply (f_equal digits_val) in E.
    rewrite !digits_val_digits in E by lia. lia.
  - by symmetry in E; apply Hminus in E.
  - by apply Hminus in E.
  - apply (f_equal digits_val) in E. by rewrite !digits_val_digits in E by lia.
Qed.

Lemma show_Z_not_elem c n : is_digit c = false → c ≠ 45%N → c ∉ show_Z n.
Proof.
  intros Hd Hm Hin. unfold show_Z in Hin.
  assert ((c ∉ digits (- n)) ∧ (c ∉ digits n)) as [? ?].
  { split; intros Hi; pose proof (proj1 (Forall_forall _ _) (digits_all_digits _) _ Hi); simpl in *; congruence. }
  destruct (n <? 0)%Z; [|done]. by apply elem_of_cons in Hin as [->|?].
Qed.

#[export] Hint Resolve digits_all_digits str_split_nonempty : jsdb.

