(* ===== verification/JsNumber.v ===== *)
(** JavaScript numbers: IEEE 754 binary64, computed exactly.

    A finite number is the rational it denotes; an arithmetic result is the exact
    rational rounded to the nearest double, ties to even ([rnd]).  The two zeros are
    one value: the code observes numbers through comparisons, [toFixed], [String],
    [Math.round], [Math.floor] and [JSON.stringify], which treat them alike. *)
From Stdlib Require Import QArith Qround Qreduction Qabs Qpower Lqa.
From S2P Require Export JsString.

Inductive num : Type :=
| NaN
| PInf
| NInf
| Fin (q : Q).

Declare Scope num_scope.
Delimit Scope num_scope with num.
Open Scope Z_scope.

(** ** Rounding *)

Definition pow2 (e : Z) : Q := (2 ^ e)%Q.

(** The largest [e] with [2^e <= q], for a positive [q]. *)
Definition qlog2 (q : Q) : Z :=
  let e := Z.log2 (Qnum q) - Z.log2 (Zpos (Qden q)) in
  if Qle_bool (pow2 e) q then e else e - 1.

(** The nearest integer, ties to even. *)
Definition round_even (q : Q) : Z :=
  let n := Qfloor q in
  match Qcompare (q - inject_Z n) (1 # 2) with
  | Lt => n
  | Gt => n + 1
  | Eq => if Z.even n then n else n + 1
  end.

(** The double nearest to a positive rational: 53 bits of significand, least
    exponent -1074, infinity from [2^1024] on. *)
Definition rnd_pos (q : Q) : num :=
  let u := Z.max (qlog2 q - 52) (-1074) in
  let v := (inject_Z (round_even (q / pow2 u)) * pow2 u)%Q in
  if Qle_bool (pow2 1024) v then PInf else Fin (Qred v).

Definition num_neg (x : num) : num :=
  match x with NaN => NaN | PInf => NInf | NInf => PInf | Fin q => Fin (- q) end.

Definition rnd (q : Q) : num :=
  let q := Qred q in
  match Qcompare q 0 with
  | Eq => Fin 0
  | Gt => rnd_pos q
  | Lt => num_neg (rnd_pos (- q))
  end.

(** ** Arithmetic *)

Definition of_Z (z : Z) : num := rnd (inject_Z z).

Definition num_add (x y : num) : num :=
  match x, y with
  | Fin a, Fin b => rnd (a + b)
  | NaN, _ | _, NaN | PInf, NInf | NInf, PInf => NaN
  | PInf, _ | _, PInf => PInf
  | NInf, _ | _, NInf => NInf
  end.

Definition num_sub (x y : num) : num := num_add x (num_neg y).

(** Division by a positive finite number, the only division the code performs. *)
Definition num_div (x : num) (d : positive) : num :=
  match x with Fin a => rnd (a / inject_Z (Zpos d)) | _ => x end.

(** [x % d] for a positive finite [d]: the remainder is exact and has the sign of
    the dividend. *)
Definition num_rem (x : num) (d : positive) : num :=
  match x with
  | Fin a =>
    let d := inject_Z (Zpos d) in
    let k := if Qle_bool 0 a then Qfloor (a / d) else Qceiling (a / d) in
    Fin (Qred (a - inject_Z k * d))
  | _ => NaN
  end.

(** ** Comparisons: false as soon as an operand is NaN *)

Definition is_nan (x : num) : bool := match x with NaN => true | _ => false end.

Definition num_le (x y : num) : bool :=
  match x, y with
  | NaN, _ | _, NaN => false
  | NInf, _ | _, PInf => true
  | PInf, _ | _, NInf => false
  | Fin a, Fin b => Qle_bool a b
  end.

Definition num_lt (x y : num) : bool :=
  match x, y with
  | NaN, _ | _, NaN => false
  | _, _ => negb (num_le y x)
  end.

(** [x === y]. *)
Definition num_eqb (x y : num) : bool := num_le x y && num_le y x.

(** Multiplication; zeros have no sign here. *)
Definition num_mul (x y : num) : num :=
  match x, y with
  | NaN, _ | _, NaN => NaN
  | Fin a, Fin b => rnd (a * b)
  | Fin a, i | i, Fin a =>
    match (a ?= 0)%Q with Eq => NaN | Gt => i | Lt => num_neg i end
  | PInf, PInf | NInf, NInf => PInf
  | _, _ => NInf
  end.

Definition num_min (x y : num) : num :=
  if is_nan x || is_nan y then NaN else if num_le x y then x else y.

Definition is_finite (x : num) : bool := match x with Fin _ => true | _ => false end.

Definition num_max (x y : num) : num :=
  match x, y with
  | NaN, _ | _, NaN => NaN
  | _, _ => if num_le x y then y else x
  end.

(** [Math.floor] and [Math.round] (halves go up) of a finite number. *)
Definition num_floor (x : num) : num :=
  match x with Fin q => Fin (inject_Z (Qfloor q)) | _ => x end.
Definition num_round (x : num) : num :=
  match x with Fin q => Fin (inject_Z (Qfloor (q + (1 # 2)))) | _ => x end.

(** ** Printing *)

(** [x.toFixed(f)] for [0 <= f] and a finite [x] below [10^21] in magnitude: the
    integer nearest to [x * 10^f], the larger of two, as a decimal with [f]
    fraction digits. *)
Definition pad_left (n : nat) (s : jsstr) : jsstr := replicate (n - length s) 48%N ++ s.

Definition fixed_pos (f : nat) (q : Q) : jsstr :=
  let n := Qfloor (q * inject_Z (10 ^ Z.of_nat f) + (1 # 2)) in
  let s := pad_left (S f) (digits n) in
  if Nat.eqb f 0 then s else take (length s - f) s ++ 46%N :: drop (length s - f) s.

(** The digits and exponent of [Number::toString]: the fewest significant digits
    [k], then the nearest [s] of [k] digits, with [s * 10^(n-k)] rounding to [q]. *)
Definition pow10 (e : Z) : Q := (10 ^ e)%Q.

(** The [n] with [10^(n-1) <= q < 10^n], for a positive [q]. *)
Fixpoint decade_go (fuel : nat) (n : Z) (q : Q) : Z :=
  match fuel with
  | O => n
  | S fuel =>
    if Qle_bool (pow10 n) q then decade_go fuel (n + 1) q
    else if Qle_bool (pow10 (n - 1)) q then n
    else decade_go fuel (n - 1) q
  end.

(** The first guess is off by at most three decades: [0.30103] is over-estimated
    by less than [10^-5] per binary digit and a double has at most 1100. *)
Definition decade (q : Q) : Z := decade_go 8 (Qfloor (inject_Z (qlog2 q) * (30103 # 100000)) + 1) q.

Fixpoint shortest_go (fuel : nat) (k : Z) (n : Z) (q : Q) : Z * Z * Z :=
  let s := Qfloor (q * pow10 (k - n) + (1 # 2)) in
  match fuel with
  | O => (s, k, n)
  | S fuel =>
    if num_eqb (rnd (inject_Z s * pow10 (n - k))) (Fin q)
    then if s =? 10 ^ k then (1, 1, n + 1) else (s, k, n)
    else shortest_go fuel (k + 1) n q
  end.

(** Seventeen digits always identify a double. *)
Definition shortest (q : Q) : Z * Z * Z := shortest_go 17 1 (decade q) q.

Definition show_exp (e : Z) : jsstr :=
  js "e" ++ (if e <? 0 then js "-" else js "+") ++ digits (Z.abs e).

Definition show_pos (q : Q) : jsstr :=
  let '(s, k, n) := shortest q in
  let d := digits s in
  if (k <=? n) && (n <=? 21) then d ++ replicate (Z.to_nat (n - k)) 48%N
  else if (0 <? n) && (n <=? 21) then take (Z.to_nat n) d ++ 46%N :: drop (Z.to_nat n) d
  else if (-6 <? n) && (n <=? 0) then js "0." ++ replicate (Z.to_nat (- n)) 48%N ++ d
  else if k =? 1 then d ++ show_exp (n - 1)
  else take 1 d ++ 46%N :: drop 1 d ++ show_exp (n - 1).

(** [String(x)]. *)
Definition show_num (x : num) : jsstr :=
  match x with
  | NaN => js "NaN"
  | PInf => js "Infinity"
  | NInf => js "-Infinity"
  | Fin q =>
    match Qcompare q 0 with
    | Eq => js "0"
    | Gt => show_pos q
    | Lt => 45%N :: show_pos (- q)
    end
  end.

(** [x.toFixed(f)]: NaN, the infinities and magnitudes from [10^21] on print as
    [String] does. *)
Definition to_fixed (f : nat) (x : num) : jsstr :=
  match x with
  | Fin q =>
    if Qle_bool (inject_Z (10 ^ 21)) (Qabs q) then show_num x
    else if Qle_bool 0 q then fixed_pos f q else 45%N :: fixed_pos f (- q)
  | _ => show_num x
  end.

(** ** Integers are exact below [2^53] *)

Definition safe (z : Z) : Prop := - 2 ^ 53 < z < 2 ^ 53.

#[export] Instance safe_dec z : Decision (safe z).
Proof. unfold safe. apply _. Defined.

Lemma Qred_inject_Z z : Qred (inject_Z z) = inject_Z z.
Proof.
  unfold inject_Z, Qred. pose proof (Z.ggcd_gcd z 1) as Hg.
  pose proof (Z.ggcd_correct_divisors z 1) as Hd.
  destruct (Z.ggcd z 1) as [g [a b]]. simpl in *.
  rewrite Z.gcd_1_r in Hg. subst g. destruct Hd as [Ha Hb].
  rewrite Z.mul_1_l in Ha, Hb. by subst.
Qed.

Lemma Qred_integer q z : (q == inject_Z z)%Q → Qred q = inject_Z z.
Proof. intros E. rewrite (Qred_complete _ _ E). apply Qred_inject_Z. Qed.

Lemma round_even_integer q n : (q == inject_Z n)%Q → round_even q = n.
Proof.
  intros E. unfold round_even. rewrite (Qfloor_comp _ _ E), Qfloor_Z.
  assert (q - inject_Z n == 0)%Q as -> by (rewrite E; ring). done.
Qed.

Lemma pow2_pos e : (0 < pow2 e)%Q.
Proof. by apply Qpower_0_lt. Qed.

Lemma pow2_plus a b : (pow2 (a + b) == pow2 a * pow2 b)%Q.
Proof. unfold pow2. apply Qpower_plus. by intros E. Qed.

Lemma pow2_inject e : 0 <= e → (pow2 e == inject_Z (2 ^ e))%Q.
Proof. intros He. unfold pow2. rewrite Zpower_Qpower by done. done. Qed.

Lemma pow2_le a b : a <= b → (pow2 a <= pow2 b)%Q.
Proof. intros. apply Qpower_le_compat_l; [done|]. by unfold Qle. Qed.

Lemma pow2_le_inv a b : (pow2 a <= pow2 b)%Q → a <= b.
Proof. intros. apply (Qpower_le_compat_l_inv 2); [done|]. by unfold Qlt. Qed.

Lemma pow2_lt_inv a b : (pow2 a < pow2 b)%Q → a < b.
Proof. intros. apply (Qpower_lt_compat_l_inv 2); [done|]. by unfold Qlt. Qed.

Lemma inject_Z_le a b : (inject_Z a <= inject_Z b)%Q ↔ a <= b.
Proof. unfold Qle, inject_Z. simpl. lia. Qed.

Lemma inject_Z_lt a b : (inject_Z a < inject_Z b)%Q ↔ a < b.
Proof. unfold Qlt, inject_Z. simpl. lia. Qed.

(** The logarithm is a lower bound. *)
Lemma qlog2_le q : (0 < q)%Q → (pow2 (qlog2 q) <= q)%Q.
Proof.
  intros Hq. unfold qlog2. set (e := Z.log2 (Qnum q) - Z.log2 (Zpos (Qden q))).
  destruct (Qle_bool (pow2 e) q) eqn:Hb; [by apply Qle_bool_iff|].
  assert (0 < Qnum q) as Hn by (unfold Qlt in Hq; simpl in Hq; lia).
  pose proof (Z.log2_spec (Qnum q) Hn) as [Hn1 _].
  pose proof (Z.log2_spec (Zpos (Qden q)) ltac:(lia)) as [_ Hd].
  pose proof (Z.log2_nonneg (Qnum q)). pose proof (Z.log2_nonneg (Zpos (Qden q))).
  assert (q == inject_Z (Qnum q) / inject_Z (Zpos (Qden q)))%Q as E.
  { destruct q as [n d]. apply Qmake_Qdiv. }
  rewrite E. apply Qle_shift_div_l; [by unfold Qlt; simpl|].
  apply (Qle_trans _ (pow2 (e - 1) * pow2 (Z.succ (Z.log2 (Zpos (Qden q)))))).
  - rewrite (Qmult_comm (pow2 _)), (Qmult_comm (pow2 (e - 1))).
    apply Qmult_le_compat_r; [|apply Qlt_le_weak, pow2_pos].
    rewrite pow2_inject by lia. apply inject_Z_le. lia.
  - rewrite <- pow2_plus. replace (e - 1 + _) with (Z.log2 (Qnum q)) by (unfold e; lia).
    rewrite pow2_inject by lia. by apply inject_Z_le.
Qed.

Lemma qlog2_bound q b : (0 < q)%Q → (q < pow2 b)%Q → qlog2 q < b.
Proof. intros H0 Hb. apply pow2_lt_inv. eapply Qle_lt_trans; [by apply qlog2_le|done]. Qed.

Lemma round_even_error x : (Qabs (inject_Z (round_even x) - x) <= 1 # 2)%Q.
Proof.
  unfold round_even. pose proof (Qfloor_le x). pose proof (Qlt_floor x) as Hlt.
  rewrite inject_Z_plus in Hlt. change (inject_Z 1) with 1%Q in Hlt.
  destruct (Qcompare_spec (x - inject_Z (Qfloor x)) (1 # 2)).
  - destruct (Z.even (Qfloor x)); apply Qabs_Qle_condition; rewrite ?inject_Z_plus;
      change (inject_Z 1) with 1%Q; lra.
  - apply Qabs_Qle_condition. lra.
  - apply Qabs_Qle_condition. rewrite inject_Z_plus. change (inject_Z 1) with 1%Q. lra.
Qed.

(** The rounded value of a positive rational below [2^b] is within [2^(b-54)]. *)
Lemma rnd_pos_error q b :
  (0 < q)%Q → (q < pow2 b)%Q → -1000 <= b <= 1000 →
  ∃ v, rnd_pos q = Fin v ∧ (Qabs (v - q) <= pow2 (b - 54))%Q.
Proof.
  intros Hq Hb Hr. unfold rnd_pos. pose proof (qlog2_bound q b Hq Hb) as Hl.
  set (u := Z.max (qlog2 q - 52) (-1074)). set (v := (inject_Z (round_even (q / pow2 u)) * pow2 u)%Q).
  assert (Qabs (v - q) <= pow2 (b - 54))%Q as Herr.
  { assert (v - q == (inject_Z (round_even (q / pow2 u)) - q / pow2 u) * pow2 u)%Q as ->.
    { unfold v. field. intros E. pose proof (pow2_pos u) as Hp. rewrite E in Hp. by apply Qlt_irrefl in Hp. }
    rewrite Qabs_Qmult, (Qabs_pos (pow2 u)) by (apply Qlt_le_weak, pow2_pos).
    apply (Qle_trans _ ((1 # 2) * pow2 u)).
    - apply Qmult_le_compat_r; [apply round_even_error|apply Qlt_le_weak, pow2_pos].
    - change (1 # 2)%Q with (pow2 (-1)). rewrite <- pow2_plus. apply pow2_le. unfold u. lia. }
  destruct (Qle_bool (pow2 1024) v) eqn:Hov.
  - exfalso. apply Qle_bool_iff in Hov. apply Qabs_Qle_condition in Herr as [_ Herr].
    assert (pow2 (b - 54) <= pow2 b)%Q by (apply pow2_le; lia).
    assert (pow2 1024 <= pow2 (b + 1))%Q as H1.
    { rewrite pow2_plus. change (pow2 1) with (2 # 1). lra. }
    apply pow2_le_inv in H1. lia.
  - exists (Qred v). split; [done|]. by rewrite Qred_correct.
Qed.

Lemma rnd_pos_integer z : 0 < z < 2 ^ 53 → rnd_pos (inject_Z z) = Fin (inject_Z z).
Proof.
  intros Hz. unfold rnd_pos.
  assert (0 < inject_Z z)%Q as Hq by (unfold Qlt; simpl; lia).
  assert (inject_Z z < pow2 53)%Q as Hlt by (rewrite pow2_inject by lia; apply inject_Z_lt; lia).
  pose proof (qlog2_bound _ _ Hq Hlt) as Hl.
  set (u := Z.max (qlog2 (inject_Z z) - 52) (-1074)). assert (-1074 <= u <= 0) as Hu by (unfold u; lia).
  assert (~ pow2 u == 0)%Q as Hne.
  { intros E. pose proof (pow2_pos u) as Hp. rewrite E in Hp. by apply Qlt_irrefl in Hp. }
  assert (pow2 u * inject_Z (2 ^ (- u)) == 1)%Q as Hinv.
  { rewrite <- pow2_inject, <- pow2_plus by lia. by rewrite Z.add_opp_diag_r. }
  assert (inject_Z z / pow2 u == inject_Z (z * 2 ^ (- u)))%Q as E.
  { rewrite inject_Z_mult. transitivity (inject_Z z / pow2 u * (pow2 u * inject_Z (2 ^ (- u))))%Q.
    - rewrite Hinv. ring.
    - by field. }
  rewrite (round_even_integer _ _ E), inject_Z_mult.
  assert (inject_Z z * inject_Z (2 ^ (- u)) * pow2 u == inject_Z z)%Q as E2.
  { rewrite <- Qmult_assoc, (Qmult_comm _ (pow2 _)), Hinv. ring. }
  rewrite (Qred_integer _ _ E2), E2.
  destruct (Qle_bool (pow2 1024) (inject_Z z)) eqn:Hb; [|done].
  apply Qle_bool_iff in Hb. exfalso.
  assert (pow2 1024 < pow2 53)%Q as H1 by (by eapply Qle_lt_trans).
  apply pow2_lt_inv in H1. lia.
Qed.

(** A safe integer is its own rounding. *)
Lemma of_Z_safe z : safe z → of_Z z = Fin (inject_Z z).
Proof.
  intros [H1 H2]. unfold of_Z, rnd. rewrite Qred_inject_Z. cbv zeta.
  destruct (Qcompare_spec (inject_Z z) 0) as [E|L|G].
  - unfold Qeq in E. simpl in E. assert (z = 0) as -> by lia. done.
  - assert (z < 0). { unfold Qlt in L. simpl in L. lia. }
    change (- inject_Z z)%Q with (inject_Z (- z)). rewrite rnd_pos_integer by lia.
    unfold num_neg. f_equal. unfold inject_Z, Qopp. simpl. f_equal. lia.
  - assert (0 < z). { unfold Qlt in G. simpl in G. lia. }
    apply rnd_pos_integer. lia.
Qed.


Lemma rnd_comp p q : (p == q)%Q → rnd p = rnd q.
Proof. intros E. unfold rnd. by rewrite (Qred_complete _ _ E). Qed.

(** Arithmetic and comparison of integers, which the components use through
    these lemmas only. *)
Lemma rnd_integer q z : (q == inject_Z z)%Q → safe z → rnd q = Fin (inject_Z z).
Proof. intros E Hz. rewrite (rnd_comp _ _ E). by apply of_Z_safe. Qed.

Section integers.
Context {a b : Z} (Ha : safe a) (Hb : safe b).

Lemma add_of_Z : safe (a + b) → num_add (of_Z a) (of_Z b) = of_Z (a + b).
Proof using Ha Hb.
  intros Hs. rewrite !of_Z_safe by done. simpl. apply rnd_integer; [|done].
  by rewrite inject_Z_plus.
Qed.

Lemma sub_of_Z : safe (a - b) → num_sub (of_Z a) (of_Z b) = of_Z (a - b).
Proof using Ha Hb.
  intros Hs. rewrite !of_Z_safe by done. simpl. apply rnd_integer; [|done].
  unfold Z.sub. by rewrite inject_Z_plus, inject_Z_opp.
Qed.

Lemma le_of_Z : num_le (of_Z a) (of_Z b) = (a <=? b).
Proof using Ha Hb.
  rewrite !of_Z_safe by done. simpl. apply eq_bool_prop_intro.
  rewrite !Is_true_true. rewrite Qle_bool_iff, inject_Z_le, Z.leb_le. done.
Qed.

Lemma lt_of_Z : num_lt (of_Z a) (of_Z b) = (a <? b).
Proof using Ha Hb.
  pose proof (of_Z_safe a Ha) as E1. pose proof (of_Z_safe b Hb) as E2.
  unfold num_lt. rewrite E1, E2. unfold num_le. rewrite Z.ltb_antisym. f_equal.
  apply eq_bool_prop_intro. rewrite !Is_true_true.
  rewrite Qle_bool_iff, inject_Z_le, Z.leb_le. done.
Qed.
End integers.

Lemma Qle_bool_spec a b : BoolSpec (a <= b)%Q (b < a)%Q (Qle_bool a b).
Proof.
  destruct (Qle_bool a b) eqn:E; constructor; [by apply Qle_bool_iff|].
  apply Qnot_le_lt. by intros H%Qle_bool_iff; rewrite H in E.
Qed.

Lemma not_lt_le x y : is_nan x = false → is_nan y = false → num_lt x y = negb (num_le y x).
Proof. by destruct x, y. Qed.

(** [Math.min(hi, Math.max(lo, x))] is between its bounds. *)
Lemma clamp_bounds lo hi x : safe lo → safe hi → lo <= hi → is_nan x = false →
  let r := num_min (of_Z hi) (num_max (of_Z lo) x) in
  num_lt r (of_Z lo) = false ∧ num_lt (of_Z hi) r = false ∧ is_nan r = false.
Proof.
  intros Hlo Hhi Hle Hx. rewrite !of_Z_safe by done. unfold num_min, num_max, num_lt, num_le.
  pose proof (proj2 (inject_Z_le lo hi) Hle) as Hq.
  destruct x as [| | |q]; try done; cbn;
    repeat (match goal with |- context [Qle_bool ?a ?b] => destruct (Qle_bool_spec a b) end; cbn; try lra); done.
Qed.

#[export] Hint Unfold safe : jsdb.

(** ** Quotients of integers *)

Lemma Qfloor_unique v k : (inject_Z k <= v)%Q → (v < inject_Z (k + 1))%Q → Qfloor v = k.
Proof.
  intros H1 H2. pose proof (Qfloor_le v). pose proof (Qlt_floor v).
  assert (k < Qfloor v + 1) by (apply inject_Z_lt; eapply Qle_lt_trans; eauto).
  assert (Qfloor v < k + 1) by (apply inject_Z_lt; eapply Qle_lt_trans; eauto). lia.
Qed.

Lemma rnd_error q b :
  (0 < q)%Q → (q < pow2 b)%Q → -1000 <= b <= 1000 →
  ∃ v, rnd q = Fin v ∧ (Qabs (v - q) <= pow2 (b - 54))%Q.
Proof.
  intros Hq Hb Hr. unfold rnd. cbv zeta.
  assert (Qcompare (Qred q) 0 = Gt) as ->.
  { rewrite Qred_correct. by apply Qgt_alt. }
  destruct (rnd_pos_error (Qred q) b) as (v & Hv & He); [by rewrite Qred_correct..|done|].
  exists v. split; [done|]. by rewrite Qred_correct in He.
Qed.

(** The quotient of a positive integer by [d], to within less than [1/d]. *)
Section quotient.
Context (n : Z) (d : positive) (b : Z).
Context (Hn : 0 <= n < Zpos d * 2 ^ b) (Hb : 0 <= b <= 54) (Hd : Zpos d < 2 ^ (54 - b)).

Lemma quotient_error :
  ∃ v, num_div (Fin (inject_Z n)) d = Fin v
    ∧ (inject_Z n - 1 < v * inject_Z (Zpos d))%Q ∧ (v * inject_Z (Zpos d) < inject_Z n + 1)%Q
    ∧ (n mod Zpos d = 0 → (v == inject_Z (n / Zpos d))%Q).
Proof using Hn Hb Hd.
  assert (~ inject_Z (Zpos d) == 0)%Q as Hd0 by (unfold Qeq; simpl; lia).
  assert (n mod Zpos d = 0 → rnd (inject_Z n / inject_Z (Zpos d)) = Fin (inject_Z (n / Zpos d))) as Hexact.
  { intros Hm. apply rnd_integer.
    - pose proof (Z.div_mod n (Zpos d) ltac:(lia)) as E. rewrite Hm, Z.add_0_r in E.
      rewrite E at 1. rewrite inject_Z_mult. by field.
    - assert (n / Zpos d < 2 ^ b) by (apply Z.div_lt_upper_bound; lia).
      pose proof (Z.div_pos n (Zpos d) ltac:(lia) ltac:(lia)).
      assert (Zpos d * (n / Zpos d) <= n) by (apply Z.mul_div_le; lia).
      unfold safe. destruct (decide (b <= 53)).
      + assert (2 ^ b <= 2 ^ 53) by (apply Z.pow_le_mono_r; lia). lia.
      + assert (b = 54) as -> by lia. change (2 ^ (54 - 54)) with 1 in Hd. lia. }
  simpl. destruct (decide (n = 0)) as [->|Hn0].
  { exists (inject_Z 0). rewrite Hexact by done. split; [done|]. split_and!; [unfold Qlt; simpl; lia..|done]. }
  assert (0 < inject_Z n / inject_Z (Zpos d))%Q as Hpos.
  { apply Qlt_shift_div_l; [by unfold Qlt|]. unfold Qlt. simpl. lia. }
  assert (inject_Z n / inject_Z (Zpos d) < pow2 b)%Q as Hlt.
  { apply Qlt_shift_div_r; [by unfold Qlt|]. rewrite pow2_inject by lia.
    rewrite <- inject_Z_mult. apply inject_Z_lt. lia. }
  destruct (rnd_error _ b Hpos Hlt ltac:(lia)) as (v & Hv & He).
  exists v. split; [done|]. apply Qabs_Qle_condition in He.
  assert (pow2 (b - 54) * inject_Z (Zpos d) < 1)%Q as Heps.
  { replace (b - 54) with (- (54 - b)) by lia. unfold pow2. rewrite Qpower_opp.
    fold (pow2 (54 - b)). rewrite pow2_inject by lia.
    rewrite (Qmult_comm (/ _)). apply Qlt_shift_div_r; [|rewrite Qmult_1_l; by apply inject_Z_lt].
    apply (inject_Z_lt 0). apply Z.pow_pos_nonneg; lia. }
  assert (inject_Z n / inject_Z (Zpos d) * inject_Z (Zpos d) == inject_Z n)%Q as Hq by (by field).
  assert (0 < inject_Z (Zpos d))%Q as Hdp by (by unfold Qlt).
  generalize dependent (inject_Z n / inject_Z (Zpos d))%Q. intros q Hex _ _ Hv [He1 He2] Hq.
  split_and!.
  - assert ((q - pow2 (b - 54)) * inject_Z (Zpos d) <= v * inject_Z (Zpos d))%Q as Hm.
    { apply Qmult_le_compat_r; [lra|by apply Qlt_le_weak]. }
    rewrite <- Hq. lra.
  - assert (v * inject_Z (Zpos d) <= (q + pow2 (b - 54)) * inject_Z (Zpos d))%Q as Hm.
    { apply Qmult_le_compat_r; [lra|by apply Qlt_le_weak]. }
    rewrite <- Hq. lra.
  - intros Hm. rewrite Hex in Hv by done. by injection Hv as ->.
Qed.

(** [Math.floor(n / d)] is the integer quotient. *)
Lemma floor_quotient : num_floor (num_div (Fin (inject_Z n)) d) = Fin (inject_Z (n / Zpos d)).
Proof using Hn Hb Hd.
  destruct quotient_error as (v & -> & Hlo & Hhi & Hex). simpl. f_equal. f_equal.
  pose proof (Z.div_mod n (Zpos d) ltac:(lia)) as E.
  pose proof (Z.mod_pos_bound n (Zpos d) ltac:(lia)) as Hm.
  destruct (decide (n mod Zpos d = 0)) as [H0|Hne].
  { rewrite (Qfloor_comp _ _ (Hex H0)). apply Qfloor_Z. }
  assert (0 < inject_Z (Zpos d))%Q as Hdp by (by unfold Qlt).
  apply Qfloor_unique.
  - apply Qlt_le_weak, (Qmult_lt_r _ _ (inject_Z (Zpos d))); [done|].
    eapply Qle_lt_trans; [|exact Hlo]. rewrite <- inject_Z_mult.
    change 1%Q with (inject_Z 1). unfold Qminus. rewrite <- inject_Z_opp, <- inject_Z_plus.
    apply inject_Z_le. lia.
  - apply (Qmult_lt_r _ _ (inject_Z (Zpos d))); [done|].
    eapply Qlt_le_trans; [exact Hhi|]. rewrite <- inject_Z_mult.
    change 1%Q with (inject_Z 1). rewrite <- inject_Z_plus. apply inject_Z_le. lia.
Qed.
End quotient.

(** The remainder of integers is the integer remainder. *)
Lemma rem_integer n d : 0 <= n → num_rem (Fin (inject_Z n)) d = Fin (inject_Z (n mod Zpos d)).
Proof.
  intros Hn. unfold num_rem. cbv zeta. rewrite (proj2 (Qle_bool_iff 0 (inject_Z n))) by (unfold Qle; simpl; lia).
  f_equal. apply Qred_integer.
  assert (Qfloor (inject_Z n / inject_Z (Zpos d)) = n / Zpos d) as ->.
  { unfold inject_Z, Qdiv, Qmult, Qinv, Qfloor. simpl. by rewrite Z.mul_1_r. }
  rewrite Z.mod_eq by lia. unfold Z.sub. rewrite inject_Z_plus, inject_Z_opp, Z.mul_comm, inject_Z_mult. ring.
Qed.

Lemma eqb_integers a b : num_eqb (Fin (inject_Z a)) (Fin (inject_Z b)) = (a =? b).
Proof.
  unfold num_eqb, num_le. apply eq_bool_prop_intro.
  rewrite !Is_true_true, andb_true_iff, !Qle_bool_iff, !inject_Z_le, Z.eqb_eq. lia.
Qed.

(** [Math.round(n / d)] and [(n / d).toFixed(1)] are within half a unit of the exact
    quotient. *)
Section rounded_quotient.
Context (n : Z) (d : positive) (b : Z).
Context (Hn : 0 <= n < Zpos d * 2 ^ b) (Hb : 0 <= b <= 54) (Hd : Zpos d < 2 ^ (54 - b)).

Lemma round_quotient :
  2 <= Zpos d → (2 | Zpos d) →
  ∃ k, num_round (num_div (Fin (inject_Z n)) d) = Fin (inject_Z k)
    ∧ 0 <= k ∧ 2 * Z.abs (Zpos d * k - n) <= Zpos d.
Proof using Hn Hb Hd.
  intros Hd2 [h Hh]. destruct (quotient_error n d b Hn Hb Hd) as (v & -> & Hlo & Hhi & _).
  simpl. exists (Qfloor (v + (1 # 2))). split; [done|].
  pose proof (Qfloor_le (v + (1 # 2))) as H1. pose proof (Qlt_floor (v + (1 # 2))) as H2.
  set (k := Qfloor (v + (1 # 2))) in *.
  assert (inject_Z (Zpos d) == 2 * inject_Z h)%Q as Ed by (rewrite Hh, inject_Z_mult; ring).
  assert (0 < inject_Z h)%Q as Hhp by (unfold Qlt; simpl; lia).
  rewrite Ed in Hlo, Hhi. rewrite inject_Z_plus in H2. change (inject_Z 1) with 1%Q in H2.
  assert (inject_Z (2 * h * k) < inject_Z (n + 1 + h))%Q as A1.
  { rewrite !inject_Z_plus, !inject_Z_mult. change (inject_Z 2) with 2%Q. change (inject_Z 1) with 1%Q. nra. }
  assert (inject_Z (n - 1 + h) < inject_Z (2 * h * k + 2 * h))%Q as A2.
  { unfold Z.sub. rewrite !inject_Z_plus, !inject_Z_mult. change (inject_Z 2) with 2%Q.
    change (inject_Z (- (1))) with (- (1))%Q. nra. }
  apply (proj1 (inject_Z_lt _ _)) in A1. apply (proj1 (inject_Z_lt _ _)) in A2.
  assert (0 <= k) by nia. split; [done|]. rewrite Hh. lia.
Qed.

(** The integer [toFixed(1)] prints. *)
Definition tenths (v : Q) : Z := Qfloor (v * inject_Z 10 + (1 # 2)).

Lemma fixed_quotient :
  (20 | Zpos d) →
  ∃ v, num_div (Fin (inject_Z n)) d = Fin v ∧ (0 <= v)%Q ∧ (v < inject_Z (2 ^ b))%Q
    ∧ 20 * Z.abs (Zpos d * tenths v - 10 * n) <= 10 * Zpos d.
Proof using Hn Hb Hd.
  intros [h Hh]. destruct (quotient_error n d b Hn Hb Hd) as (v & -> & Hlo & Hhi & Hex).
  assert (0 < inject_Z (Zpos d))%Q as Hdp by (by unfold Qlt).
  assert (0 <= v)%Q as Hv0.
  { destruct (decide (n = 0)) as [E|E].
    - rewrite Hex by (by rewrite E). rewrite E. done.
    - apply Qlt_le_weak, (Qmult_lt_r _ _ _ Hdp). rewrite Qmult_0_l.
      eapply Qle_lt_trans; [|exact Hlo]. change (0 <= inject_Z n + inject_Z (-1))%Q.
      rewrite <- inject_Z_plus. apply (inject_Z_le 0). lia. }
  exists v. split; [done|]. split; [done|]. split.
  { destruct (decide (n mod Zpos d = 0)) as [E|E].
    - rewrite (Hex E). apply inject_Z_lt. apply Z.div_lt_upper_bound; lia.
    - apply (Qmult_lt_r _ _ _ Hdp). eapply Qlt_le_trans; [exact Hhi|].
      rewrite <- inject_Z_mult. change 1%Q with (inject_Z 1). rewrite <- inject_Z_plus. apply inject_Z_le.
      lia. }
  unfold tenths. pose proof (Qfloor_le (v * inject_Z 10 + (1 # 2))) as H1.
  pose proof (Qlt_floor (v * inject_Z 10 + (1 # 2))) as H2.
  set (t := Qfloor (v * inject_Z 10 + (1 # 2))) in *.
  assert (inject_Z (Zpos d) == 20 * inject_Z h)%Q as Ed by (rewrite Hh, inject_Z_mult; ring).
  assert (0 < inject_Z h)%Q as Hhp by (unfold Qlt; simpl; lia).
  rewrite Ed in Hlo, Hhi. rewrite inject_Z_plus in H2. change (inject_Z 1) with 1%Q in H2.
  change (inject_Z 10) with (10 # 1)%Q in *.
  assert (inject_Z (2 * h * t) < inject_Z (n + 1 + h))%Q as A1.
  { rewrite !inject_Z_plus, !inject_Z_mult. change (inject_Z 2) with 2%Q. change (inject_Z 1) with 1%Q. nra. }
  assert (inject_Z (n - 1 + h) < inject_Z (2 * h * t + 2 * h))%Q as A2.
  { unfold Z.sub. rewrite !inject_Z_plus, !inject_Z_mult. change (inject_Z 2) with 2%Q.
    change (inject_Z (- (1))) with (- (1))%Q. nra. }
  apply (proj1 (inject_Z_lt _ _)) in A1. apply (proj1 (inject_Z_lt _ _)) in A2.
  rewrite Hh. lia.
Qed.
End rounded_quotient.

(** [toFixed(1)] prints the tenths, below [10^21]. *)
Definition tenths_text (t : Z) : jsstr :=
  let s := pad_left 2 (digits t) in take (length s - 1) s ++ 46%N :: drop (length s - 1) s.

Lemma to_fixed_tenths v : (0 <= v)%Q → (v < inject_Z (10 ^ 21))%Q → to_fixed 1 (Fin v) = tenths_text (tenths v).
Proof.
  intros H0 Hlt. unfold to_fixed.
  destruct (Qle_bool (inject_Z (10 ^ 21)) (Qabs v)) eqn:Hb.
  - apply Qle_bool_iff in Hb. rewrite Qabs_pos in Hb by done.
    exfalso. by eapply Qlt_not_le in Hlt.
  - by rewrite (proj2 (Qle_bool_iff 0 v)) by done.
Qed.
