(* ===== verification/JsJson.v ===== *)
(** JSON values, [JSON.parse] and [JSON.stringify].

    An object is the list of its own properties in enumeration order: the keys that
    are array indices first, in ascending order, then the others in the order they
    were first written. *)
From Stdlib Require Import QArith_base.
From S2P Require Export JsNumber.

Open Scope N_scope.

#[warnings="-register-all"]
Inductive json : Type :=
| JNull
| JBool (b : bool)
| JNum (n : num)
| JStr (s : jsstr)
| JArr (l : list json)
| JObj (fields : list (jsstr * json)).

(** ** Properties of an object *)

(** A canonical array index: digits without a leading zero, below [2^32 - 1]. *)
Definition index_key (k : jsstr) : option Z :=
  match k with
  | [] => None
  | c :: r =>
    if forallb is_digit k && (negb (c =? 48) || bool_decide (r = []))
       && (digits_val k <? 4294967295)%Z
    then Some (digits_val k) else None
  end.

(** [k] is enumerated before [k']. *)
Definition key_before (k k' : jsstr) : bool :=
  match index_key k, index_key k' with
  | Some i, Some j => (i <? j)%Z
  | Some _, None => true
  | None, _ => false
  end.

Section props.
Context {A : Type}.
Implicit Types fs : list (jsstr * A).

Fixpoint prop_get (k : jsstr) fs : option A :=
  match fs with
  | [] => None
  | (k', v) :: r => if decide (k = k') then Some v else prop_get k r
  end.

Fixpoint prop_insert (k : jsstr) (v : A) fs : list (jsstr * A) :=
  match fs with
  | [] => [(k, v)]
  | (k', v') :: r => if key_before k k' then (k, v) :: fs else (k', v') :: prop_insert k v r
  end.

(** [obj[k] = v]: an existing property keeps its place. *)
Definition prop_set (k : jsstr) (v : A) fs : list (jsstr * A) :=
  if decide (k ∈ fs.*1)
  then (λ kv, if decide (kv.1 = k) then (k, v) else kv) <$> fs
  else prop_insert k v fs.

Definition prop_delete (k : jsstr) fs : list (jsstr * A) := filter (λ kv, kv.1 ≠ k) fs.

Lemma prop_get_insert k v fs k' :
  k ∉ fs.*1 → prop_get k' (prop_insert k v fs) = if decide (k' = k) then Some v else prop_get k' fs.
Proof.
  induction fs as [|[k1 v1] fs IH]; csimpl; [done|].
  intros [Hne Hni]%not_elem_of_cons.
  destruct (key_before k k1); simpl; [done|].
  rewrite IH by done. by repeat case_decide; simplify_eq.
Qed.

Lemma prop_get_replace k v fs k' :
  k ∈ fs.*1 →
  prop_get k' ((λ kv : jsstr * A, if decide (kv.1 = k) then (k, v) else kv) <$> fs)
  = if decide (k' = k) then Some v else prop_get k' fs.
Proof.
  induction fs as [|[k1 v1] fs IH]; csimpl; [by intros ?%not_elem_of_nil|].
  intros Hin. destruct (decide (k1 = k)) as [->|Hne].
  - case_decide; [done|]. destruct (decide (k ∈ fs.*1)) as [Hk|Hk].
    + rewrite IH by done. by repeat case_decide.
    + clear IH. induction fs as [|[k2 v2] fs IH]; csimpl; [done|].
      apply not_elem_of_cons in Hk as [? ?].
      assert (k2 ≠ k) by done. rewrite (decide_False (P := k2 = k)) by done.
      csimpl. case_decide; [done|]. apply IH; [by left|done].
  - assert (k ∈ fs.*1) as Hk by (by apply elem_of_cons in Hin as [?|?]; [subst|]).
    rewrite IH by done. destruct (decide (k' = k1)) as [->|]; [|done].
    by rewrite decide_False by done.
Qed.

(** Reading back a written property. *)
Lemma prop_get_set k v fs k' :
  prop_get k' (prop_set k v fs) = if decide (k' = k) then Some v else prop_get k' fs.
Proof.
  unfold prop_set. destruct (decide (k ∈ fs.*1)).
  - by apply prop_get_replace.
  - by apply prop_get_insert.
Qed.

Lemma prop_get_delete k fs k' :
  prop_get k' (prop_delete k fs) = if decide (k' = k) then None else prop_get k' fs.
Proof.
  unfold prop_delete. induction fs as [|[k1 v1] fs IH]; simpl; [by case_decide|].
  destruct (decide (k1 = k)) as [->|Hne].
  - rewrite filter_cons_False by (by intros H; apply H).
    rewrite IH. case_decide; [done|]. done.
  - rewrite filter_cons_True by done. simpl. rewrite IH.
    repeat case_decide; simplify_eq; done.
Qed.

Lemma prop_insert_perm k v fs : prop_insert k v fs ≡ₚ (k, v) :: fs.
Proof.
  induction fs as [|[k1 v1] fs IH]; simpl; [done|]. destruct (key_before k k1); [done|].
  rewrite IH. apply perm_swap.
Qed.

Lemma prop_replace_keys k v fs :
  ((λ kv : jsstr * A, if decide (kv.1 = k) then (k, v) else kv) <$> fs).*1 = fs.*1.
Proof.
  induction fs as [|[k1 v1] fs IH]; csimpl; [done|]. rewrite IH. f_equal. by case_decide.
Qed.

(** The properties after a write: the written one, and the others as they were. *)
Lemma prop_set_elem k v fs kv : kv ∈ prop_set k v fs → kv = (k, v) ∨ kv ∈ fs ∧ kv.1 ≠ k.
Proof.
  unfold prop_set. case_decide as Hk.
  - intros (kv' & -> & Hin)%list_elem_of_fmap. case_decide; auto.
  - rewrite prop_insert_perm. intros [->|Hin]%elem_of_cons; [by left|right]. split; [done|].
    intros <-. apply Hk. by apply list_elem_of_fmap_2.
Qed.

Lemma prop_set_nodup k v fs : NoDup fs.*1 → NoDup (prop_set k v fs).*1.
Proof.
  unfold prop_set. case_decide as Hk; intros Hnd.
  - by rewrite prop_replace_keys.
  - rewrite prop_insert_perm. csimpl. by constructor.
Qed.

Lemma prop_delete_nodup k fs : NoDup fs.*1 → NoDup (prop_delete k fs).*1.
Proof.
  unfold prop_delete. induction fs as [|[k1 v1] fs IH]; csimpl; [done|].
  intros [Hni Hnd]%NoDup_cons. destruct (decide (k1 ≠ k)).
  - rewrite filter_cons_True by done. csimpl. constructor; [|auto].
    intros (kv & E & Hin)%list_elem_of_fmap. apply list_elem_of_filter in Hin as [_ Hin].
    apply Hni. rewrite E. by apply list_elem_of_fmap_2.
  - rewrite filter_cons_False by done. auto.
Qed.

Lemma prop_get_in k v fs : prop_get k fs = Some v → (k, v) ∈ fs.
Proof.
  induction fs as [|[k1 v1] fs IH]; simpl; [done|]. case_decide; [intros; simplify_eq; left|right; auto].
Qed.

Lemma prop_get_None k fs : prop_get k fs = None → k ∉ fs.*1.
Proof.
  induction fs as [|[k1 v1] fs IH]; csimpl; [by intros _ ?%not_elem_of_nil|].
  case_decide; [done|]. intros E. apply not_elem_of_cons. auto.
Qed.

Lemma prop_get_elem k v fs : NoDup fs.*1 → (k, v) ∈ fs → prop_get k fs = Some v.
Proof.
  induction fs as [|[k1 v1] fs IH]; csimpl; [by intros _ ?%not_elem_of_nil|].
  intros [Hni Hnd]%NoDup_cons [E|Hin]%elem_of_cons; [simplify_eq; by rewrite decide_True|].
  rewrite decide_False; [auto|]. intros ->. apply Hni. apply list_elem_of_fmap. by exists (k1, v).
Qed.
End props.

(** [obj[k]] of an object literal: the properties of [Object.prototype] are found too. *)
Definition object_prototype : list jsstr :=
  [js "constructor"; js "__defineGetter__"; js "__defineSetter__"; js "hasOwnProperty";
   js "__lookupGetter__"; js "__lookupSetter__"; js "isPrototypeOf"; js "propertyIsEnumerable";
   js "toString"; js "valueOf"; js "__proto__"; js "toLocaleString"].

Definition object_get {A} (k : jsstr) (fs : list (jsstr * A)) : prop_lookup A :=
  match prop_get k fs with
  | Some v => Own v
  | None => if bool_decide (k ∈ object_prototype) then Inherited else Absent
  end.

(** ** [JSON.stringify] *)

Definition hex_digit (n : N) : N := if n <? 10 then 48 + n else 87 + n.

Definition unicode_escape (c : N) : jsstr :=
  js "\u" ++ [hex_digit (c / 4096 mod 16); hex_digit (c / 256 mod 16);
              hex_digit (c / 16 mod 16); hex_digit (c mod 16)].

Definition is_high (c : N) : bool := (55296 <=? c) && (c <=? 56319).
Definition is_low (c : N) : bool := (56320 <=? c) && (c <=? 57343).

(** The body of a quoted string; an unpaired surrogate is escaped. *)
Fixpoint quote_body (s : jsstr) : jsstr :=
  match s with
  | [] => []
  | c :: r =>
    if c =? 8 then js "\b" ++ quote_body r else
    if c =? 9 then js "\t" ++ quote_body r else
    if c =? 10 then js "\n" ++ quote_body r else
    if c =? 12 then js "\f" ++ quote_body r else
    if c =? 13 then js "\r" ++ quote_body r else
    if c =? 34 then [92; 34] ++ quote_body r else
    if c =? 92 then [92; 92] ++ quote_body r else
    if c <? 32 then unicode_escape c ++ quote_body r else
    if is_low c then unicode_escape c ++ quote_body r else
    if is_high c then
      match r with
      | d :: r' => if is_low d then c :: d :: quote_body r' else unicode_escape c ++ quote_body r
      | [] => unicode_escape c
      end
    else c :: quote_body r
  end.

Definition quote (s : jsstr) : jsstr := c_quote :: quote_body s ++ [c_quote].

Fixpoint stringify (v : json) : jsstr :=
  match v with
  | JNull => js "null"
  | JBool b => if b then js "true" else js "false"
  | JNum n => match n with Fin _ => show_num n | _ => js "null" end
  | JStr s => quote s
  | JArr l => js "[" ++ str_join (js ",") (stringify <$> l) ++ js "]"
  | JObj fs => js "{" ++ str_join (js ",") ((λ '(k, v), quote k ++ js ":" ++ stringify v) <$> fs) ++ js "}"
  end.

(** ** [JSON.parse] *)

Definition json_ws (c : N) : bool := bool_decide (c ∈ [9; 10; 13; 32]).

Fixpoint skip_ws (s : jsstr) : jsstr :=
  match s with c :: r => if json_ws c then skip_ws r else s | [] => [] end.

Definition hex_val (c : N) : option N :=
  if is_digit c then Some (c - 48)
  else if (97 <=? c) && (c <=? 102) then Some (c - 87)
  else if (65 <=? c) && (c <=? 70) then Some (c - 55)
  else None.

Definition escape_val (c : N) : option N :=
  if c =? 34 then Some 34 else if c =? 92 then Some 92 else if c =? 47 then Some 47
  else if c =? 98 then Some 8 else if c =? 102 then Some 12 else if c =? 110 then Some 10
  else if c =? 114 then Some 13 else if c =? 116 then Some 9 else None.

(** The rest of a string literal after its opening quote. *)
Fixpoint parse_string (s : jsstr) : option (jsstr * jsstr) :=
  match s with
  | [] => None
  | c :: r =>
    if c =? 34 then Some ([], r) else
    if c <? 32 then None else
    if c =? 92 then
      match r with
      | 117 :: h1 :: h2 :: h3 :: h4 :: r' =>
        match hex_val h1, hex_val h2, hex_val h3, hex_val h4 with
        | Some a, Some b, Some c, Some d =>
          '(t, u) ← parse_string r'; Some (4096 * a + 256 * b + 16 * c + d :: t, u)
        | _, _, _, _ => None
        end
      | e :: r' =>
        match escape_val e with
        | Some x => '(t, u) ← parse_string r'; Some (x :: t, u)
        | None => None
        end
      | [] => None
      end
    else '(t, u) ← parse_string r; Some (c :: t, u)
  end.

Fixpoint take_digits (s : jsstr) : jsstr * jsstr :=
  match s with
  | c :: r => if is_digit c then let '(d, t) := take_digits r in (c :: d, t) else ([], s)
  | [] => ([], [])
  end.

(** The integer digits of a JSON number: no superfluous leading zero. *)
Definition int_part (s : jsstr) : option (jsstr * jsstr) :=
  let '(d, r) := take_digits s in
  match d with
  | [] => None
  | [_] => Some (d, r)
  | c :: _ => if c =? 48 then None else Some (d, r)
  end.

Definition frac_part (s : jsstr) : option (jsstr * jsstr) :=
  match s with
  | 46 :: r => let '(d, t) := take_digits r in match d with [] => None | _ => Some (d, t) end
  | _ => Some ([], s)
  end.

Definition exp_part (s : jsstr) : option (Z * jsstr) :=
  let signed (sg : Z) (r : jsstr) :=
    let '(d, t) := take_digits r in
    match d with [] => None | _ => Some (sg * digits_val d, t)%Z end in
  match s with
  | c :: r =>
    if (c =? 101) || (c =? 69) then
      match r with
      | 43 :: r' => signed 1%Z r'
      | 45 :: r' => signed (-1)%Z r'
      | _ => signed 1%Z r
      end
    else Some (0%Z, s)
  | [] => Some (0%Z, [])
  end.

Definition parse_number (s : jsstr) : option (num * jsstr) :=
  let '(negative, s) := match s with 45 :: r => (true, r) | _ => (false, s) end in
  '(i, s) ← int_part s;
  '(f, s) ← frac_part s;
  '(e, s) ← exp_part s;
  let m := inject_Z (digits_val (i ++ f)) in
  let x := rnd (m * pow10 (e - Z.of_nat (length f)))%Q in
  Some (if negative : bool then num_neg x else x, s).

Definition strip (p s : jsstr) : option jsstr :=
  if starts_with p s then Some (drop (length p) s) else None.

(** One unit of fuel per call; a call that descends into an array or an object and
    the call on its next element consume a character each, so twice the length of
    the text is enough. *)
Fixpoint parse_value (fuel : nat) (s : jsstr) : option (json * jsstr) :=
  match fuel with
  | O => None
  | S fuel =>
    match skip_ws s with
    | 123 :: r =>
      match skip_ws r with
      | 125 :: r => Some (JObj [], r)
      | _ => parse_members fuel r []
      end
    | 91 :: r =>
      match skip_ws r with
      | 93 :: r => Some (JArr [], r)
      | _ => parse_elements fuel r []
      end
    | 34 :: r => '(t, u) ← parse_string r; Some (JStr t, u)
    | (116 :: _) as s => r ← strip (js "true") s; Some (JBool true, r)
    | (102 :: _) as s => r ← strip (js "false") s; Some (JBool false, r)
    | (110 :: _) as s => r ← strip (js "null") s; Some (JNull, r)
    | s => '(n, r) ← parse_number s; Some (JNum n, r)
    end
  end
with parse_elements (fuel : nat) (s : jsstr) (acc : list json) : option (json * jsstr) :=
  match fuel with
  | O => None
  | S fuel =>
    '(v, r) ← parse_value fuel s;
    match skip_ws r with
    | 44 :: r => parse_elements fuel r (acc ++ [v])
    | 93 :: r => Some (JArr (acc ++ [v]), r)
    | _ => None
    end
  end
with parse_members (fuel : nat) (s : jsstr) (acc : list (jsstr * json)) : option (json * jsstr) :=
  match fuel with
  | O => None
  | S fuel =>
    match skip_ws s with
    | 34 :: r =>
      '(k, r) ← parse_string r;
      match skip_ws r with
      | 58 :: r =>
        '(v, r) ← parse_value fuel r;
        match skip_ws r with
        | 44 :: r => parse_members fuel r (prop_set k v acc)
        | 125 :: r => Some (JObj (prop_set k v acc), r)
        | _ => None
        end
      | _ => None
      end
    | _ => None
    end
  end.

(** [JSON.parse(s)], with [None] for the SyntaxError it throws. *)
Definition parse (s : jsstr) : option json :=
  '(v, r) ← parse_value (2 * length s + 2) s;
  match skip_ws r with [] => Some v | _ => None end.

(** ** Views the code takes of a parsed value *)

(** [typeof v === "string"]. *)
Definition as_string (v : json) : option jsstr := match v with JStr s => Some s | _ => None end.

(** The property [k] of a value: of an object, its own property.  The keys the code
    reads this way are not properties of [Object.prototype], [Array.prototype],
    [String.prototype] or the other prototypes. *)
Definition field (k : jsstr) (v : json) : option json :=
  match v with JObj fs => prop_get k fs | _ => None end.

Definition string_field (k : jsstr) (v : json) : option jsstr := v' ← field k v; as_string v'.

(** The truth value of a JSON value. *)
Definition truthy_json (v : json) : bool :=
  match v with
  | JNull => false
  | JBool b => b
  | JNum n => negb (is_nan n) && negb (num_eqb n (Fin 0))
  | JStr s => truthy s
  | JArr _ | JObj _ => true
  end.
