(* ===== verification/JsUrl.v ===== *)
(** Texts in URLs. *)
From S2P Require Import Prelude.
From S2P Require Import JsString.
From S2P Require Import JsJson.
Local Open Scope Z_scope.

(** The UTF-8 bytes of a string; an unpaired surrogate becomes U+FFFD. *)
Fixpoint utf8_encode (s : jsstr) : list N :=
  (match s with
  | [] => []
  | c :: r =>
    if c <? 128 then c :: utf8_encode r else
    if c <? 2048 then (192 + c / 64) :: (128 + c mod 64) :: utf8_encode r else
    let three c := [224 + c / 4096; 128 + c / 64 mod 64; 128 + c mod 64] in
    if is_high c then
      match r with
      | d :: r' =>
        if is_low d then
          let p := 65536 + (c - 55296) * 1024 + (d - 56320) in
          [240 + p / 262144; 128 + p / 4096 mod 64; 128 + p / 64 mod 64; 128 + p mod 64]
            ++ utf8_encode r'
        else three 65533 ++ utf8_encode r
      | [] => three 65533
      end
    else if is_low c then three 65533 ++ utf8_encode r
    else three c ++ utf8_encode r
  end)%N.

(** [encodeURIComponent]: letters, digits and [-_.!~*'()] stay, any other byte is
    percent-encoded.  For an unpaired surrogate the function throws; here it is
    taken for U+FFFD. *)
Definition component_byte (b : N) : jsstr :=
  (if is_digit b || is_upper b || is_lower b || bool_decide (b ∈ [45; 95; 46; 33; 126; 42; 39; 40; 41]) then [b]
   else let up n := if n <? 10 then 48 + n else 55 + n in [37; up (b / 16); up (b mod 16)])%N.

Definition encodeURIComponent (s : jsstr) : jsstr := utf8_encode s ≫= component_byte.

(** ** [new URLSearchParams({k: v}).toString()] *)

(** application/x-www-form-urlencoded: letters, digits and [*-._] stay, a space is
    a plus sign, any other byte is percent-encoded. *)
Definition form_byte (b : N) : jsstr :=
  (if is_digit b || is_upper b || is_lower b || bool_decide (b ∈ [42; 45; 46; 95]) then [b]
   else if b =? 32 then [43]
   else let up n := if n <? 10 then 48 + n else 55 + n in [37; up (b / 16); up (b mod 16)])%N.

Definition form_encode (s : jsstr) : jsstr := utf8_encode s ≫= form_byte.
Definition search_params (k v : jsstr) : jsstr := form_encode k ++ js "=" ++ form_encode v.
Definition search_string (ps : list (jsstr * jsstr)) : jsstr := str_join (js "&") ((λ '(k, v), search_params k v) <$> ps).
