(* ===== verification/Async.v ===== *)
(** Asynchronous methods and their interleaving.

    An [async] method runs without interruption from one [await] to the next.  A
    [task] is such a method stopped at an [await] of a request: [resume] is the code
    up to the next [await], run on the state as it is when the answer arrives.  A
    [system] is the shared state with the tasks in flight; its steps start a method,
    answer one task, or let the environment act.  [rely_guarantee] lifts an
    invariant checked on the segments of each method to every interleaving. *)
From S2P Require Export JsJson.
From stdpp Require Export relations.

(** ** Requests and their answers *)

Record request : Type := Request {
  r_method : jsstr;
  r_url : jsstr;
  r_headers : list (jsstr * jsstr);
  r_body : option jsstr;
}.

(** What a [fetch] ends with: an HTTP response and its body ([None] when reading the
    body fails), or a rejection (network failure or abort). *)
Inductive outcome : Type :=
| Response (status : Z) (body : option jsstr)
| Rejected.

(** [response.ok]. *)
Definition ok_status (status : Z) : bool := (200 <=? status)%Z && (status <=? 299)%Z.

(** The exceptions the modelled code throws or lets through. *)
Inductive js_error : Type :=
| Error (message : jsstr)
| FetchError
| BodyError
| SyntaxError
| TypeError
| RangeError.

#[export] Instance js_error_eq_dec : EqDecision js_error.
Proof. solve_decision. Defined.

Abbreviation res A := (result js_error A).

(** [await response.text()] and [await response.json()]. *)
Definition body_text (body : option jsstr) : res jsstr := result_of_option BodyError body.
Definition body_json (body : option jsstr) : res json :=
  match body with
  | None => Err BodyError
  | Some t => result_of_option SyntaxError (parse t)
  end.

(** ** Tasks *)

#[warnings="-register-all"]
Inductive task (W A : Type) : Type :=
| Finished (r : res A)
| Awaiting (q : request) (resume : outcome → W → W * task W A).
Arguments Finished {W A} r.
Arguments Awaiting {W A} q resume.

(** The state notes the exchange when its answer arrives. *)
Class World (W : Type) : Type := observe : request → outcome → W → W.

Section tasks.
Context {W : Type}.

(** [await] of another method, then the rest. *)
Fixpoint then_task {A B} (t : task W A) (k : res A → W → W * task W B) (w : W) : W * task W B :=
  match t with
  | Finished r => k r w
  | Awaiting q resume =>
    (w, Awaiting q (λ o w, let '(w', t') := resume o w in then_task t' k w'))
  end.

(** The method returns what the awaited one returns. *)
Definition map_task {A B} (f : res A → res B) (t : task W A) (w : W) : W * task W B :=
  then_task t (λ r w, (w, Finished (f r))) w.
End tasks.

(** ** Systems *)

Record system (W A : Type) : Type := System {
  s_world : W;
  s_tasks : list (task W A);
  s_done : list (res A * W);
}.
Arguments System {W A} _ _ _.
Arguments s_world {W A} _.
Arguments s_tasks {W A} _.
Arguments s_done {W A} _.

Section system.
Context {W A Op : Type} `{World W}.
(** The methods, and what the environment may do between two segments. *)
Context (start : Op → W → W * task W A) (env : W → W → Prop).

(** The state after a segment: a finished task moves to the results. *)
Definition settle (ts : list (task W A)) (ds : list (res A * W)) (wt : W * task W A) : system W A :=
  match wt.2 with
  | Finished r => System wt.1 ts (ds ++ [(r, wt.1)])
  | Awaiting _ _ => System wt.1 (ts ++ [wt.2]) ds
  end.

Inductive step : system W A → system W A → Prop :=
| step_start op w ts ds :
    step (System w ts ds) (settle ts ds (start op w))
| step_answer w ts1 q k ts2 ds o :
    step (System w (ts1 ++ Awaiting q k :: ts2) ds)
         (settle (ts1 ++ ts2) ds (k o (observe q o w)))
| step_env w w' ts ds :
    env w w' → step (System w ts ds) (System w' ts ds).

Definition reachable (w0 : W) (s : system W A) : Prop := rtc step (System w0 [] []) s.

(** ** Rely and guarantee

    [I] is the invariant of the state, [R] relates a state to those it may become,
    [Q] is what a result guarantees when it is delivered. *)
Context (I : W → Prop) (R : W → W → Prop) (Q : res A → W → Prop).

#[warnings="-register-all"]
Inductive safe_task : W * task W A → Prop :=
| safe_finished w r : I w → Q r w → safe_task (w, Finished r)
| safe_awaiting w q k :
    I w →
    (∀ o w', I w' → R w w' →
      R w' (k o (observe q o w')).1 ∧ safe_task (k o (observe q o w'))) →
    safe_task (w, Awaiting q k).

Lemma safe_task_inv wt : safe_task wt → I wt.1.
Proof. by destruct 1. Qed.

Definition system_ok (s : system W A) : Prop :=
  I (s_world s)
  ∧ Forall (λ t, ∃ w, R w (s_world s) ∧ safe_task (w, t)) (s_tasks s)
  ∧ Forall (λ d, Q d.1 d.2 ∧ R d.2 (s_world s)) (s_done s).

Context `{!Reflexive R, !Transitive R}.
Context (Hstart : ∀ op w, I w → R w (start op w).1 ∧ safe_task (start op w)).
Context (Henv : ∀ w w', I w → env w w' → I w' ∧ R w w').

Lemma system_ok_later w w' ts ds :
  R w w' →
  Forall (λ t : task W A, ∃ w0, R w0 w ∧ safe_task (w0, t)) ts ∧
    Forall (λ d : res A * W, Q d.1 d.2 ∧ R d.2 w) ds →
  Forall (λ t : task W A, ∃ w0, R w0 w' ∧ safe_task (w0, t)) ts ∧
    Forall (λ d : res A * W, Q d.1 d.2 ∧ R d.2 w') ds.
Proof using Transitive0.
  intros HR [Ht Hd]. split.
  - eapply Forall_impl; [exact Ht|]. intros t (w0 & ? & ?). exists w0. split; [by etrans|done].
  - eapply Forall_impl; [exact Hd|]. intros d [? ?]. split; [done|by etrans].
Qed.

Lemma settle_ok ts ds w wt :
  R w wt.1 → safe_task wt → system_ok (System w ts ds) → system_ok (settle ts ds wt).
Proof using Reflexive0 Transitive0.
  intros HR Hs (_ & Ht & Hd).
  destruct (system_ok_later w wt.1 ts ds HR (conj Ht Hd)) as [Ht' Hd'].
  unfold settle. destruct Hs as [w' r HI HQ|w' q k HI Hk]; simpl in *.
  - repeat split; simpl; [done|done|]. apply Forall_app. by repeat constructor.
  - repeat split; simpl; [done| |done]. apply Forall_app. split; [done|].
    repeat constructor. exists w'. split; [done|by constructor].
Qed.

Lemma step_ok s s' : step s s' → system_ok s → system_ok s'.
Proof using All.
  intros Hstep Hok. destruct Hstep as [op w ts ds|w ts1 q k ts2 ds o|w w' ts ds Henv'].
  - destruct (Hstart op w) as [HR Hs]; [apply Hok|]. by eapply settle_ok.
  - destruct Hok as (HI & Ht & Hd). simpl in *.
    apply Forall_app in Ht as [Ht1 [(w0 & HR0 & Hs) Ht2]%Forall_cons].
    inversion Hs as [|? ? ? _ Hk]; subst.
    destruct (Hk o w HI HR0) as [HR Hs'].
    eapply settle_ok; [exact HR|exact Hs'|].
    repeat split; simpl; [done| |done]. by apply Forall_app.
  - destruct Hok as (HI & Hrest). destruct (Henv w w' HI Henv') as [HI' HR].
    split; [done|]. by apply (system_ok_later w w').
Qed.

(** Every reachable state satisfies the invariant, every result its guarantee. *)
Lemma rely_guarantee w0 s : I w0 → reachable w0 s → system_ok s.
Proof using All.
  intros HI Hr. assert (system_ok (System w0 [] [])) as H0 by (by split; [done|split; constructor]).
  unfold reachable in Hr. induction Hr as [|s1 s2 s3 Hst _ IH]; [done|].
  by eapply IH, step_ok.
Qed.
End system.

(** ** Building requests *)

(** An object literal whose [undefined] properties [JSON.stringify] leaves out. *)
Definition object_literal (fs : list (jsstr * option json)) : json :=
  JObj (omap (λ '(k, v), (λ v, (k, v)) <$> v) fs).

(** [v.k] for a key that no prototype defines: [null.k] throws. *)
Definition member (k : jsstr) (v : json) : res (option json) :=
  match v with JNull => Err TypeError | _ => Ok (field k v) end.

Definition content_json : jsstr * jsstr := (js "Content-Type", js "application/json").

(** ** Running a schedule

    The executable side of [step]: the [i]-th task in flight is answered, a method is
    started, or the environment applies a function. *)
Inductive event (W Op : Type) : Type :=
| EStart (op : Op)
| EAnswer (i : nat) (o : outcome)
| EEnv (f : W → W).
Arguments EStart {W Op} op.
Arguments EAnswer {W Op} i o.
Arguments EEnv {W Op} f.

Section schedule.
Context {W A Op : Type} `{World W}.
Context (start : Op → W → W * task W A) (env : W → W → Prop).

Definition run_event (e : event W Op) (s : system W A) : system W A :=
  match e with
  | EStart op => settle (s_tasks s) (s_done s) (start op (s_world s))
  | EAnswer i o =>
    match s_tasks s !! i with
    | Some (Awaiting q k) =>
      settle (delete i (s_tasks s)) (s_done s) (k o (observe q o (s_world s)))
    | _ => s
    end
  | EEnv f => System (f (s_world s)) (s_tasks s) (s_done s)
  end.

Definition run (es : list (event W Op)) (s : system W A) : system W A :=
  fold_left (λ s e, run_event e s) es s.

Definition event_ok (e : event W Op) : Prop :=
  match e with EEnv f => ∀ w, env w (f w) | _ => True end.

Lemma run_event_rtc e s : event_ok e → rtc (step start env) s (run_event e s).
Proof.
  intros He. destruct s as [w ts ds], e as [op|i o|f]; simpl.
  - apply rtc_once, step_start.
  - destruct (ts !! i) as [[r|q k]|] eqn:Hi; [done| |done].
    rewrite <- (take_drop_middle _ _ _ Hi) at 1. rewrite delete_take_drop.
    apply rtc_once, step_answer.
  - apply rtc_once. by apply step_env.
Qed.

Lemma run_reachable w0 es : Forall event_ok es → reachable start env w0 (run es (System w0 [] [])).
Proof.
  unfold reachable. generalize (System w0 [] [] : system W A) as s. intros s He. revert s.
  induction He as [|e es He _ IH]; intros s; [done|].
  etrans; [by apply run_event_rtc|]. apply IH.
Qed.
End schedule.
