(* ===== verification/SdkTypes.v ===== *)
(** The TypeScript SDK's data: sdk/ts/src/types.ts and sdk/ts/src/id.ts. *)
From S2P Require Export Async.

Open Scope N_scope.

(** ** types.ts *)

Inductive SpanKind : Type := llm | tool | agent | chain | internal.

#[export] Instance SpanKind_eq_dec : EqDecision SpanKind.
Proof. solve_decision. Defined.

Definition show_kind (k : SpanKind) : jsstr :=
  match k with
  | llm => js "llm" | tool => js "tool" | agent => js "agent"
  | chain => js "chain" | internal => js "internal"
  end.

(** An attribute value: [string | number | boolean]. *)
Inductive attr_value : Type :=
| AStr (s : jsstr)
| ANum (n : num)
| ABool (b : bool).

(** [Record<string, string | number | boolean>], in enumeration order. *)
Abbreviation SpanAttributes := (list (jsstr * attr_value)).

Record OmnevalSpan : Type := {
  span_id : jsstr;
  trace_id : jsstr;
  parent_id : option jsstr;
  conversation_id : option jsstr;
  name : jsstr;
  kind : option SpanKind;
  model : option jsstr;
  input : option jsstr;
  output : option jsstr;
  input_tokens : option num;
  output_tokens : option num;
  prompt_name : option jsstr;
  prompt_version : option num;
  attributes : option SpanAttributes;
  start_time : option Z;
  end_time : option Z;
}.

Record OmnevalConfig : Type := { cfg_baseUrl : jsstr; cfg_apiKey : option jsstr }.

Record GetPromptOptions : Type := { gp_label : option jsstr; gp_version : option Z }.

Record WriteScoreOptions : Type := { ws_name : jsstr; ws_value : num; ws_reasoning : option jsstr }.

Record CreatePromptOptions : Type := { cp_model_config : option json; cp_label : option jsstr }.

Record CreateEvalRuleOptions : Type := {
  er_filter : option json;
  er_judge_model : option jsstr;
  er_sample_rate : option num;
  er_prompt_version : option num;
  er_prompt_label : option jsstr;
}.

(** ** id.ts *)

(** [b.toString(16).padStart(2, "0")] of a byte. *)
Definition hex_byte (b : N) : jsstr :=
  let d := if b <? 16 then [hex_digit b] else [hex_digit (b / 16); hex_digit (b mod 16)] in
  pad_left 2 d.

(** [Array.from(bytes, ...).join("")]. *)
Definition hex_id (bytes : list N) : jsstr := str_join [] (hex_byte <$> bytes).

(** [crypto.getRandomValues(new Uint8Array(n))]: the host's random source, a function
    of the number of calls made so far. *)
Class Crypto : Type := get_random : nat → nat → list N.

(** What the Web Crypto API documents: [n] bytes. *)
Class CryptoOk `{Crypto} : Prop := get_random_bytes :
  ∀ call n, length (get_random call n) = n ∧ Forall (λ b, b < 256) (get_random call n).

Section ids.
Context `{Crypto}.
Definition generateTraceId (call : nat) : jsstr := hex_id (get_random call 16).
Definition generateSpanId (call : nat) : jsstr := hex_id (get_random call 8).
Definition generateConversationId (call : nat) : jsstr := hex_id (get_random call 16).
End ids.

(** A lower-case hexadecimal string of [n] digits: what the ingest API accepts. *)
Definition is_hex (c : N) : bool := is_digit c || ((97 <=? c) && (c <=? 102)).
Definition hex_string (n : nat) (s : jsstr) : Prop := length s = n ∧ Forall (λ c, is_hex c = true) s.

Lemma hex_digit_is_hex n : n < 16 → is_hex (hex_digit n) = true.
Proof.
  intros Hn. unfold is_hex, hex_digit, is_digit.
  destruct (N.ltb_spec n 10); apply orb_true_iff.
  - left. apply andb_true_iff. split; apply N.leb_le; lia.
  - right. apply andb_true_iff. split; apply N.leb_le; lia.
Qed.

Lemma hex_byte_hex b : b < 256 → hex_string 2 (hex_byte b).
Proof.
  intros Hb. unfold hex_byte.
  assert (is_hex 48 = true) by done.
  destruct (N.ltb_spec b 16).
  - split; [done|]. apply Forall_cons. split; [done|].
    apply Forall_singleton. by apply hex_digit_is_hex.
  - assert (b / 16 < 16) by (apply N.Div0.div_lt_upper_bound; lia).
    assert (b mod 16 < 16) by (apply N.mod_upper_bound; lia).
    split; [done|]. apply Forall_cons. split; [by apply hex_digit_is_hex|].
    apply Forall_singleton. by apply hex_digit_is_hex.
Qed.

Lemma hex_id_hex bytes :
  Forall (λ b, b < 256) bytes → hex_string (2 * length bytes) (hex_id bytes).
Proof.
  unfold hex_id. induction 1 as [|b l Hb Hl IH]; [by split; [|constructor]|].
  assert (str_join [] (hex_byte <$> (b :: l)) = hex_byte b ++ str_join [] (hex_byte <$> l)) as ->.
  { csimpl. destruct (hex_byte <$> l); simpl; by rewrite ?app_nil_r. }
  destruct (hex_byte_hex b Hb) as [HL HF], IH as [HL' HF'].
  split; [rewrite length_app; simpl; lia|by apply Forall_app].
Qed.

(** Distinct bytes have distinct digits, so an identifier determines its bytes. *)
Lemma hex_digit_inj a b : a < 16 → b < 16 → hex_digit a = hex_digit b → a = b.
Proof. unfold hex_digit. intros ??. destruct (N.ltb_spec a 10), (N.ltb_spec b 10); lia. Qed.

Lemma hex_byte_unfold b : b < 256 → hex_byte b = [hex_digit (b / 16); hex_digit (b mod 16)].
Proof.
  intros Hb. unfold hex_byte. destruct (N.ltb_spec b 16); [|done].
  rewrite N.div_small, N.mod_small by done. done.
Qed.

Lemma hex_byte_inj a b : a < 256 → b < 256 → hex_byte a = hex_byte b → a = b.
Proof.
  intros Ha Hb. rewrite !hex_byte_unfold by done. intros [= E1 E2].
  assert (∀ x, x < 256 → x / 16 < 16) as Hd by (intros; apply N.Div0.div_lt_upper_bound; lia).
  assert (∀ x, x mod 16 < 16) as Hm by (intros; apply N.mod_upper_bound; lia).
  apply hex_digit_inj in E1; [|auto..]. apply hex_digit_inj in E2; [|auto..].
  rewrite (N.div_mod a 16), (N.div_mod b 16) by done. congruence.
Qed.

Lemma hex_id_cons b l : hex_id (b :: l) = hex_byte b ++ hex_id l.
Proof. unfold hex_id. csimpl. destruct (hex_byte <$> l); simpl; by rewrite ?app_nil_r. Qed.

Lemma hex_id_inj l l' :
  Forall (λ b, b < 256) l → Forall (λ b, b < 256) l' → hex_id l = hex_id l' → l = l'.
Proof.
  intros Hl. revert l'. induction Hl as [|b l Hb Hl IH]; intros [|b' l'] Hl'.
  - done.
  - apply Forall_cons in Hl' as [? _]. rewrite hex_id_cons, hex_byte_unfold by done. done.
  - rewrite hex_id_cons, hex_byte_unfold by done. done.
  - apply Forall_cons in Hl' as [? ?]. rewrite !hex_id_cons. intros E.
    apply app_inj_1 in E as [E1 E2].
    + f_equal; [by apply hex_byte_inj|auto].
    + by rewrite !hex_byte_unfold.
Qed.
