(* ===== verification/SdkClient.v ===== *)
(** The SDK's prompt, score and rule client: [OmnevalClient] of sdk/ts/src/client.ts.

    Each async method is a task over the state [cworld]: the two caches, the clock,
    the number of random draws, and the log of the exchanges with the server.  The
    rely-guarantee lemma of Async gives the cache properties for every interleaving
    of calls. *)
From S2P Require Import JsUrl.
From S2P Require Export SdkTypes.

Open Scope Z_scope.

(** ** State *)

(** The clock is [Date.now()] in milliseconds.  A template is the [template]
    property of a parsed body, [None] when that property is missing. *)
Record cworld : Type := CWorld {
  w_clock : Z;
  w_labelCache : gmap jsstr (option json * Z);
  w_versionCache : gmap jsstr (option json);
  w_draws : nat;
  w_log : list (Z * request * outcome);
}.

#[export] Instance cworld_World : World cworld := λ q o w,
  CWorld (w_clock w) (w_labelCache w) (w_versionCache w) (w_draws w) (w_log w ++ [(w_clock w, q, o)]).

Definition PROMPT_CACHE_TTL_MS : Z := 30000.

Definition set_label (k : jsstr) (e : option json * Z) (w : cworld) : cworld :=
  CWorld (w_clock w) (<[k := e]> (w_labelCache w)) (w_versionCache w) (w_draws w) (w_log w).
Definition set_version (k : jsstr) (t : option json) (w : cworld) : cworld :=
  CWorld (w_clock w) (w_labelCache w) (<[k := t]> (w_versionCache w)) (w_draws w) (w_log w).
Definition draw (w : cworld) : cworld :=
  CWorld (w_clock w) (w_labelCache w) (w_versionCache w) (S (w_draws w)) (w_log w).

(** ** Configuration *)

Definition extractProjectId (apiKey : option jsstr) : jsstr :=
  match apiKey with
  | None => []
  | Some k =>
    if negb (truthy k) then []
    else if starts_with (js "oev_proj_") k then slice_from (length (js "oev_proj_")) k
    else if starts_with (js "oev_svc_") k then slice_from (length (js "oev_svc_")) k
    else k
  end.

Record client : Type := { c_baseUrl : jsstr; c_apiKey : option jsstr; c_projectId : jsstr }.

(** The constructor. *)
Definition new_client (config : OmnevalConfig) : client :=
  {| c_baseUrl := cfg_baseUrl config;
     c_apiKey := cfg_apiKey config;
     c_projectId := extractProjectId (cfg_apiKey config) |}.

Section client.
Context `{Crypto} (self : client).

Abbreviation method A := (cworld → cworld * task cworld A).

Definition return_ {A} (a : A) : method A := λ w, (w, Finished (Ok a)).
Definition throw {A} (e : js_error) : method A := λ w, (w, Finished (Err e)).
Definition fetch {A} (q : request) (k : outcome → method A) : method A :=
  λ w, (w, Awaiting q k).

(** The [X-API-Key] header, sent when a key is configured. *)
Definition api_key_header : list (jsstr * jsstr) :=
  match c_apiKey self with
  | Some k => if truthy k then [(js "X-API-Key", k)] else []
  | None => []
  end.

Definition api_url (path : jsstr) : jsstr := c_baseUrl self ++ path.

(** [throw new Error(`what: ${response.status}: ${body}`)], after reading the body. *)
Definition throw_status {A} (what : jsstr) (status : Z) (body : option jsstr) : method A :=
  match body_text body with
  | Ok text => throw (Error (what ++ js ": " ++ show_Z status ++ js ": " ++ text))
  | Err e => throw e
  end.

(** ** Private helpers *)

Definition prompt_request (name params : jsstr) : request :=
  Request (js "GET") (api_url (js "/api/v1/prompts/" ++ name ++ js "?" ++ params)) [] None.

Definition fetchPromptVersionFromServer (name params : jsstr) : method json :=
  fetch (prompt_request name params) (λ o,
    match o with
    | Rejected => throw FetchError
    | Response status body =>
      if status =? 404 then throw (Error (js "prompt not found: " ++ name))
      else if negb (ok_status status) then throw_status (js "get prompt") status body
      else match body_json body with Ok v => return_ v | Err e => throw e end
    end).

Definition fetchPromptByVersionFromServer (name : jsstr) (version : Z) : method json :=
  fetchPromptVersionFromServer name (search_params (js "version") (show_Z version)).

(** ** Prompts *)

Definition version_key (name : jsstr) (version : Z) : jsstr := name ++ js "|" ++ show_Z version.

Definition getPromptByVersion (name : jsstr) (version : Z) : method (option json) := λ w,
  let cacheKey := version_key name version in
  let miss :=
    let '(w, t) := fetchPromptByVersionFromServer name version w in
    then_task t (λ pv w,
      match pv with
      | Err e => throw e w
      | Ok pv =>
        match member (js "template") pv with
        | Err e => throw e w
        | Ok template => return_ template (set_version cacheKey template w)
        end
      end) w in
  match w_versionCache w !! cacheKey with
  | Some (Some cached) => return_ (Some cached) w
  | _ => miss
  end.

Definition label_key (name label : jsstr) : jsstr := name ++ js "|" ++ label.

Definition getPrompt (name : jsstr) (options : option GetPromptOptions) : method (option json) := λ w,
  let label := nullish (o ← options; gp_label o) (js "production") in
  let version := o ← options; gp_version o in
  let by_label :=
    let cacheKey := label_key name label in
    let miss :=
      let '(w, t) := fetchPromptVersionFromServer name (search_params (js "label") label) w in
      then_task t (λ pv w,
        match pv with
        | Err e => throw e w
        | Ok pv =>
          match member (js "template") pv with
          | Err e => throw e w
          | Ok template =>
            return_ template (set_label cacheKey (template, w_clock w + PROMPT_CACHE_TTL_MS) w)
          end
        end) w in
    match w_labelCache w !! cacheKey with
    | Some (template, expiresAt) =>
      if w_clock w <? expiresAt then return_ template w else miss
    | None => miss
    end in
  match version with
  | Some v => if 0 <? v then getPromptByVersion name v w else by_label
  | None => by_label
  end.

(** ** Scores *)

Definition writeScore (spanId : jsstr) (options : WriteScoreOptions) : method unit :=
  if negb (truthy spanId) then throw (Error (js "span_id is required")) else
  λ w,
  let score := object_literal [
    (js "span_id", Some (JStr spanId));
    (js "trace_id", Some (JStr (generateTraceId (w_draws w))));
    (js "project_id", Some (JStr (c_projectId self)));
    (js "eval_name", Some (JStr (ws_name options)));
    (js "value", Some (JNum (ws_value options)));
    (js "reasoning", JStr <$> ws_reasoning options)] in
  fetch (Request (js "POST") (api_url (js "/api/v1/scores"))
           (content_json :: api_key_header) (Some (stringify score)))
    (λ o,
      match o with
      | Rejected => throw FetchError
      | Response status body =>
        if negb (ok_status status) then throw_status (js "write score") status body else return_ tt
      end) (draw w).

(** [return (await response.json())] after a checked status. *)
Definition json_or_throw (what : jsstr) (o : outcome) : method json :=
  match o with
  | Rejected => throw FetchError
  | Response status body =>
    if negb (ok_status status) then throw_status what status body
    else match body_json body with Ok v => return_ v | Err e => throw e end
  end.

(** ** Prompt management *)

Definition prompt_payload (name template : jsstr) (options : option CreatePromptOptions) : json :=
  object_literal [
    (js "name", Some (JStr name));
    (js "template", Some (JStr template));
    (js "model_config",
      o ← options; c ← cp_model_config o; if truthy_json c then Some c else None);
    (js "label",
      o ← options; l ← cp_label o; if truthy l then Some (JStr l) else None)].

Definition createPrompt (name template : jsstr) (options : option CreatePromptOptions) : method json :=
  if negb (truthy name) then throw (Error (js "name is required")) else
  if negb (truthy template) then throw (Error (js "template is required")) else
  fetch (Request (js "POST") (api_url (js "/api/v1/prompts"))
           (content_json :: api_key_header) (Some (stringify (prompt_payload name template options))))
    (json_or_throw (js "create prompt")).

Definition listPrompts : method json :=
  fetch (Request (js "GET") (api_url (js "/api/v1/prompts")) api_key_header None)
    (json_or_throw (js "list prompts")).

Definition setPromptLabel (name label : jsstr) (version : num) : method unit :=
  if negb (truthy name) then throw (Error (js "name is required")) else
  fetch (Request (js "PUT") (api_url (js "/api/v1/prompts/" ++ name ++ js "/labels/" ++ label))
           (content_json :: api_key_header)
           (Some (stringify (object_literal [(js "version", Some (JNum version))]))))
    (λ o,
      match o with
      | Rejected => throw FetchError
      | Response status body =>
        if negb (ok_status status) then throw_status (js "set prompt label") status body
        else return_ tt
      end).

(** ** Evaluation rules *)

(** [data.rules ?? []]. *)
Definition rules_of (data : json) : res json :=
  match member (js "rules") data with
  | Err e => Err e
  | Ok (Some JNull) | Ok None => Ok (JArr [])
  | Ok (Some v) => Ok v
  end.

Definition listEvalRules : method json :=
  fetch (Request (js "GET") (api_url (js "/api/v1/eval-rules")) api_key_header None)
    (λ o,
      match o with
      | Rejected => throw FetchError
      | Response status body =>
        if negb (ok_status status) then throw_status (js "list eval rules") status body
        else match body_json body with
             | Ok data => λ w, (w, Finished (rules_of data))
             | Err e => throw e
             end
      end).

Definition rule_payload (name promptName : jsstr) (options : option CreateEvalRuleOptions) : json :=
  object_literal [
    (js "name", Some (JStr name));
    (js "prompt_name", Some (JStr promptName));
    (js "filter", Some (nullish (o ← options; er_filter o) (JObj [])));
    (js "sample_rate", Some (JNum (nullish (o ← options; er_sample_rate o) (of_Z 1))));
    (js "judge_model",
      o ← options; m ← er_judge_model o; if truthy m then Some (JStr m) else None);
    (js "prompt_version", JNum <$> (o ← options; er_prompt_version o));
    (js "prompt_label", JStr <$> (o ← options; er_prompt_label o))].

Definition createEvalRule (name promptName : jsstr) (options : option CreateEvalRuleOptions) : method json :=
  if negb (truthy name) then throw (Error (js "name is required")) else
  if negb (truthy promptName) then throw (Error (js "prompt_name is required")) else
  fetch (Request (js "POST") (api_url (js "/api/v1/eval-rules"))
           (content_json :: api_key_header) (Some (stringify (rule_payload name promptName options))))
    (json_or_throw (js "create eval rule")).
End client.

(** ** The client as a system *)

Inductive client_op : Type :=
| GetPrompt (name : jsstr) (options : option GetPromptOptions)
| GetPromptByVersion (name : jsstr) (version : Z)
| WriteScore (spanId : jsstr) (options : WriteScoreOptions)
| CreatePrompt (name template : jsstr) (options : option CreatePromptOptions)
| ListPrompts
| SetPromptLabel (name label : jsstr) (version : num)
| ListEvalRules
| CreateEvalRule (name promptName : jsstr) (options : option CreateEvalRuleOptions).

(** A result carries the call it answers; a method without a value gives [None]. *)
Definition client_result : Type := client_op * res (option json).

Section start.
Context `{Crypto} (self : client).

Definition answer {A} (op : client_op) (f : A → option json) (m : cworld → cworld * task cworld A)
    (w : cworld) : cworld * task cworld client_result :=
  let '(w, t) := m w in
  then_task t (λ r w,
    (w, Finished (Ok (op, match r with Ok a => Ok (f a) | Err e => Err e end)))) w.

Definition start_op (op : client_op) : cworld → cworld * task cworld client_result :=
  match op with
  | GetPrompt name options => answer op id (getPrompt self name options)
  | GetPromptByVersion name version => answer op id (getPromptByVersion self name version)
  | WriteScore spanId options => answer op (λ _, None) (writeScore self spanId options)
  | CreatePrompt name template options => answer op Some (createPrompt self name template options)
  | ListPrompts => answer op Some (listPrompts self)
  | SetPromptLabel name label version => answer op (λ _, None) (setPromptLabel self name label version)
  | ListEvalRules => answer op Some (listEvalRules self)
  | CreateEvalRule name promptName options => answer op Some (createEvalRule self name promptName options)
  end.

(** Time passes. *)
Definition client_env (w w' : cworld) : Prop :=
  ∃ dt, 0 <= dt ∧ w' = CWorld (w_clock w + dt) (w_labelCache w) (w_versionCache w) (w_draws w) (w_log w).

Definition fresh_world (now : Z) : cworld := CWorld now ∅ ∅ 0 [].

Definition client_reachable (now : Z) := reachable start_op client_env (fresh_world now).

(** ** Provenance of the cached templates *)

(** At time [t] the server answered the request for [name] and [params] with a
    success whose [template] is [tpl]. *)
Definition fetched (w : cworld) (name params : jsstr) (tpl : option json) (t : Z) : Prop :=
  ∃ status body v,
    (t, prompt_request self name params, Response status (Some body)) ∈ w_log w
    ∧ ok_status status = true ∧ parse body = Some v ∧ member (js "template") v = Ok tpl.

Definition label_params (label : jsstr) : jsstr := search_params (js "label") label.
Definition version_params (version : Z) : jsstr := search_params (js "version") (show_Z version).

Record cache_inv (w : cworld) : Prop := {
  inv_label k tpl e : w_labelCache w !! k = Some (tpl, e) →
    ∃ name label, k = label_key name label
      ∧ fetched w name (label_params label) tpl (e - PROMPT_CACHE_TTL_MS);
  inv_version k tpl : w_versionCache w !! k = Some tpl →
    ∃ name version t, k = version_key name version ∧ fetched w name (version_params version) tpl t;
  inv_log e : e ∈ w_log w → e.1.1 <= w_clock w;
}.

Definition later (w w' : cworld) : Prop :=
  w_clock w <= w_clock w' ∧ ∃ l, w_log w' = w_log w ++ l.

#[export] Instance later_refl : Reflexive later.
Proof. intros w. split; [lia|exists []; by rewrite app_nil_r]. Qed.
#[export] Instance later_trans : Transitive later.
Proof.
  intros w1 w2 w3 [? [l1 H1]] [? [l2 H2]]. split; [lia|].
  exists (l1 ++ l2). by rewrite H2, H1, app_assoc.
Qed.

Lemma fetched_later w w' name params tpl t :
  later w w' → fetched w name params tpl t → fetched w' name params tpl t.
Proof.
  intros [_ [l Hl]] (st & b & v & Hin & ?). exists st, b, v.
  split; [|done]. rewrite Hl. apply elem_of_app. by left.
Qed.

Lemma fetched_time w name params tpl t : cache_inv w → fetched w name params tpl t → t <= w_clock w.
Proof. intros HI (st & b & v & Hin & _). by apply (inv_log _ HI) in Hin. Qed.

(** What a delivered result guarantees. *)
Definition by_version (options : option GetPromptOptions) : option Z :=
  v ← o ← options; gp_version o; if 0 <? v then Some v else None.
Definition label_of (options : option GetPromptOptions) : jsstr :=
  nullish (o ← options; gp_label o) (js "production").

Definition fresh_label (w : cworld) (name label : jsstr) (tpl : option json) : Prop :=
  ∃ name' label' t, label_key name label = label_key name' label'
    ∧ fetched w name' (label_params label') tpl t
    ∧ w_clock w - PROMPT_CACHE_TTL_MS < t <= w_clock w.
Definition known_version (w : cworld) (name : jsstr) (version : Z) (tpl : option json) : Prop :=
  ∃ name' version' t, version_key name version = version_key name' version'
    ∧ fetched w name' (version_params version') tpl t.

Definition client_post (r : res client_result) (w : cworld) : Prop :=
  match r with
  | Ok (GetPrompt name options, Ok tpl) =>
    match by_version options with
    | Some v => known_version w name v tpl
    | None => fresh_label w name (label_of options) tpl
    end
  | Ok (GetPromptByVersion name v, Ok tpl) => known_version w name v tpl
  | _ => True
  end.

Abbreviation client_safe := (safe_task cache_inv later client_post).

(** ** Every method keeps the invariant *)

Lemma observe_inv q o w : cache_inv w → cache_inv (observe q o w).
Proof.
  intros HI. assert (later w (observe q o w)) as HL.
  { split; [done|by exists [(w_clock w, q, o)]]. }
  split; simpl.
  - intros k tpl e Hk. destruct (inv_label _ HI k tpl e Hk) as (n & l & -> & Hf).
    exists n, l. eauto using fetched_later.
  - intros k tpl Hk. destruct (inv_version _ HI k tpl Hk) as (n & v & t & -> & Hf).
    exists n, v, t. eauto using fetched_later.
  - intros e [?| ->%list_elem_of_singleton]%elem_of_app; [by apply (inv_log _ HI)|done].
Qed.

Lemma later_observe q o w : later w (observe q o w).
Proof. split; [done|by exists [(w_clock w, q, o)]]. Qed.

Lemma observe_fetched st b v name params tpl w :
  ok_status st = true → parse b = Some v → member (js "template") v = Ok tpl →
  fetched (observe (prompt_request self name params) (Response st (Some b)) w) name params tpl (w_clock w).
Proof.
  intros. exists st, b, v. split; [|done]. simpl. apply elem_of_app. right. by left.
Qed.

Lemma set_label_inv w name label tpl :
  cache_inv w → fetched w name (label_params label) tpl (w_clock w) →
  cache_inv (set_label (label_key name label) (tpl, w_clock w + PROMPT_CACHE_TTL_MS) w).
Proof.
  intros HI Hf. split; simpl; [|apply (inv_version _ HI)|apply (inv_log _ HI)].
  intros k tpl' e. rewrite lookup_insert. case_decide as Hk.
  - intros [= <- <-]. exists name, label. split; [done|].
    by replace (w_clock w + PROMPT_CACHE_TTL_MS - PROMPT_CACHE_TTL_MS) with (w_clock w) by lia.
  - apply (inv_label _ HI).
Qed.

Lemma set_version_inv w name version tpl t :
  cache_inv w → fetched w name (version_params version) tpl t →
  cache_inv (set_version (version_key name version) tpl w).
Proof.
  intros HI Hf. split; simpl; [apply (inv_label _ HI)| |apply (inv_log _ HI)].
  intros k tpl'. rewrite lookup_insert. case_decide as Hk; [|apply (inv_version _ HI)].
  intros [= <-]. by exists name, version, t.
Qed.

Lemma client_post_err op e w : client_post (Ok (op, Err e)) w.
Proof. by destruct op. Qed.

Lemma finished_safe w0 w op r :
  cache_inv w → later w0 w → client_post (Ok (op, r)) w →
  later w0 w ∧ client_safe (w, Finished (Ok (op, r))).
Proof. split; [done|by constructor]. Qed.

Lemma error_safe w0 w op e :
  cache_inv w → later w0 w → later w0 w ∧ client_safe (w, Finished (Ok (op, Err e))).
Proof. intros. apply finished_safe; [done..|apply client_post_err]. Qed.

(** The request for a prompt followed by a cache write that the answer justifies. *)
Definition fetch_and_store (name params : jsstr) (store : option json → cworld → cworld)
    : cworld → cworld * task cworld (option json) := λ w,
  let '(w, t) := fetchPromptVersionFromServer self name params w in
  then_task t (λ pv w,
    match pv with
    | Err e => throw e w
    | Ok pv =>
      match member (js "template") pv with
      | Err e => throw e w
      | Ok template => return_ template (store template w)
      end
    end) w.

Lemma fetch_and_store_safe op name params store w :
  cache_inv w →
  (∀ w' tpl, cache_inv w' → fetched w' name params tpl (w_clock w') →
    cache_inv (store tpl w') ∧ later w' (store tpl w') ∧ client_post (Ok (op, Ok tpl)) (store tpl w')) →
  client_safe (answer op id (fetch_and_store name params store) w).
Proof.
  intros HI Hstore. apply safe_awaiting; [done|]. intros o w' HI' _.
  pose proof (observe_inv (prompt_request self name params) o w' HI') as HIo.
  pose proof (later_observe (prompt_request self name params) o w') as HLo.
  destruct o as [st body|]; simpl; [|by apply error_safe].
  destruct (st =? 404); simpl; [by apply error_safe|].
  destruct (ok_status st) eqn:Hst; simpl.
  - destruct body as [b|]; simpl; [|by apply error_safe].
    destruct (parse b) as [v|] eqn:Hb; simpl; [|by apply error_safe].
    destruct (member (js "template") v) as [tpl|e] eqn:Hm; simpl; [|by apply error_safe].
    pose proof (observe_fetched st b v name params tpl w' Hst Hb Hm) as Hf.
    destruct (Hstore _ tpl HIo Hf) as (HI2 & HL2 & HP).
    apply finished_safe; [done|by etrans|done].
  - unfold throw_status. destruct body as [b|]; simpl; by apply error_safe.
Qed.

Lemma known_version_intro w name version tpl t :
  fetched w name (version_params version) tpl t → known_version w name version tpl.
Proof. intros Hf. by exists name, version, t. Qed.

Lemma set_version_later k tpl w : later w (set_version k tpl w).
Proof. split; [done|exists []; by rewrite app_nil_r]. Qed.
Lemma set_label_later k e w : later w (set_label k e w).
Proof. split; [done|exists []; by rewrite app_nil_r]. Qed.

(** A client call that resolves the version [v] of [name]. *)
Lemma by_version_safe op name v w :
  (∀ w tpl, known_version w name v tpl → client_post (Ok (op, Ok tpl)) w) →
  cache_inv w → client_safe (answer op id (getPromptByVersion self name v) w).
Proof.
  intros Hpost HI.
  assert (client_safe (answer op id (fetch_and_store name (version_params v)
            (λ tpl, set_version (version_key name v) tpl)) w)) as Hmiss.
  { apply fetch_and_store_safe; [done|]. intros w' tpl HI' Hf.
    split; [by eapply set_version_inv|]. split; [apply set_version_later|].
    apply Hpost, (known_version_intro _ _ _ _ (w_clock w')), Hf. }
  unfold answer, getPromptByVersion.
  destruct (w_versionCache w !! version_key name v) as [[cached|]|] eqn:Hc; [|exact Hmiss..].
  constructor; [done|]. apply Hpost.
  destruct (inv_version _ HI _ _ Hc) as (n & v' & t & Hk & Hf). by exists n, v', t.
Qed.

Lemma by_label_safe op name options w :
  op = GetPrompt name options → by_version options = None →
  cache_inv w → client_safe (answer op id (getPrompt self name options) w).
Proof.
  intros -> Hv HI. set (label := label_of options).
  assert (client_safe (answer (GetPrompt name options) id (fetch_and_store name (label_params label)
            (λ tpl w, set_label (label_key name label) (tpl, w_clock w + PROMPT_CACHE_TTL_MS) w)) w)) as Hmiss.
  { apply fetch_and_store_safe; [done|]. intros w' tpl HI' Hf.
    split; [by apply set_label_inv|]. split; [apply set_label_later|].
    simpl. rewrite Hv. exists name, label, (w_clock w').
    split; [done|]. split; [exact Hf|]. unfold PROMPT_CACHE_TTL_MS; simpl; lia. }
  assert (answer (GetPrompt name options) id (getPrompt self name options) w
          = answer (GetPrompt name options) id (λ w,
              match w_labelCache w !! label_key name label with
              | Some (tpl, e) => if w_clock w <? e then return_ tpl w else
                  fetch_and_store name (label_params label) (λ tpl w,
                    set_label (label_key name label) (tpl, w_clock w + PROMPT_CACHE_TTL_MS) w) w
              | None => fetch_and_store name (label_params label) (λ tpl w,
                    set_label (label_key name label) (tpl, w_clock w + PROMPT_CACHE_TTL_MS) w) w
              end) w) as ->.
  { unfold by_version in Hv. unfold getPrompt, answer.
    destruct (options ≫= gp_version) as [v|]; simpl in *; [destruct (0 <? v); [done|]|]; done. }
  unfold answer at 1.
  destruct (w_labelCache w !! label_key name label) as [[tpl e]|] eqn:Hc; [|exact Hmiss].
  destruct (Z.ltb_spec (w_clock w) e) as [Hlt|]; [|exact Hmiss].
  constructor; [done|]. simpl. rewrite Hv.
  destruct (inv_label _ HI _ _ _ Hc) as (n & l & Hk & Hf).
  exists n, l, (e - PROMPT_CACHE_TTL_MS). split; [done|]. split; [done|].
  split; [lia|]. by eapply fetched_time.
Qed.

(** A method that only reads: one request, then a result. *)
Definition reads_only {A} (m : cworld → cworld * task cworld A) : Prop :=
  ∀ w, (∃ r, m w = (w, Finished r)) ∨
       ∃ q k w1, m w = (w1, Awaiting q k) ∧ w1 ∈ [w; draw w] ∧ ∀ o w', ∃ r, k o w' = (w', Finished r).

Lemma draw_inv w : cache_inv w → cache_inv (draw w).
Proof. intros HI. split; [apply (inv_label _ HI)|apply (inv_version _ HI)|apply (inv_log _ HI)]. Qed.
Lemma draw_later w : later w (draw w).
Proof. split; [done|exists []; by rewrite app_nil_r]. Qed.

Lemma reads_only_safe {A} op (f : A → option json) m w :
  reads_only m → (∀ a w, client_post (Ok (op, Ok (f a))) w) →
  cache_inv w → later w (answer op f m w).1 ∧ client_safe (answer op f m w).
Proof.
  intros Hm Hpost HI.
  assert (∀ (r : res A) w, client_post (Ok (op, match r with Ok a => Ok (f a) | Err e => Err e end)) w) as Hr.
  { intros [a|e] w'; [apply Hpost|apply client_post_err]. }
  unfold answer. destruct (Hm w) as [[r ->]|(q & k & w1 & -> & Hw1 & Hk)]; simpl.
  - split; [done|by constructor].
  - assert (cache_inv w1 ∧ later w w1) as [HI1 HL1].
    { apply elem_of_cons in Hw1 as [-> | ->%list_elem_of_singleton]; [done|].
      split; [by apply draw_inv|apply draw_later]. }
    split; [done|]. apply safe_awaiting; [done|]. intros o w' HI' _.
    destruct (Hk o (observe q o w')) as [r ->]. simpl.
    split; [apply later_observe|]. constructor; [by apply observe_inv|done].
Qed.

Ltac reads_only_tac :=
  let w := fresh "w" in
  intros w; unfold createPrompt, setPromptLabel, createEvalRule, writeScore, listPrompts, listEvalRules;
  repeat case_match; first
    [ left; by eexists
    | right; do 3 eexists; split; [done|]; split;
      [first [by left|by right; left]|];
      let o := fresh "o" in let w' := fresh "w" in
      intros o w'; unfold json_or_throw, throw_status, throw, return_;
      repeat case_match; by eexists ].

(** The two prompt methods touch the state only when an answer arrives. *)
Lemma answer_fst {A} op (f : A → option json) m w : (m w).1 = w → (answer op f m w).1 = w.
Proof. unfold answer. destruct (m w) as [w1 t]. simpl. intros ->. by destruct t. Qed.

Lemma getPromptByVersion_fst name v w : (getPromptByVersion self name v w).1 = w.
Proof.
  unfold getPromptByVersion. by destruct (w_versionCache w !! version_key name v) as [[?|]|].
Qed.

Lemma getPrompt_fst name options w : (getPrompt self name options w).1 = w.
Proof.
  unfold getPrompt.
  destruct (options ≫= gp_version) as [v|]; [destruct (0 <? v); [apply getPromptByVersion_fst|]|];
    destruct (w_labelCache w !! _) as [[tpl e]|]; try done; by destruct (w_clock w <? e).
Qed.

Lemma start_op_safe op w :
  cache_inv w → later w (start_op op w).1 ∧ client_safe (start_op op w).
Proof.
  intros HI. destruct op as [name options|name v|spanId options|n t o| |n l v| |n pn o]; cbn [start_op];
    try (apply reads_only_safe; [reads_only_tac|done|done]).
  - assert (client_safe (answer (GetPrompt name options) id (getPrompt self name options) w)) as Hs.
    { destruct (by_version options) as [v|] eqn:Hv; [|by apply by_label_safe].
      assert (answer (GetPrompt name options) id (getPrompt self name options) w
              = answer (GetPrompt name options) id (getPromptByVersion self name v) w) as ->.
      { unfold by_version in Hv. unfold getPrompt, answer.
        destruct (options ≫= gp_version) as [v'|]; simpl in *; [destruct (0 <? v'); [|done]|done].
        by simplify_eq. }
      apply by_version_safe; [|done]. intros w' tpl Hk. simpl. by rewrite Hv. }
    split; [|done]. by rewrite answer_fst by apply getPrompt_fst.
  - split; [|by apply by_version_safe].
    by rewrite answer_fst by apply getPromptByVersion_fst.
Qed.

Lemma client_env_safe w w' : cache_inv w → client_env w w' → cache_inv w' ∧ later w w'.
Proof.
  intros HI (dt & Hdt & ->). split.
  - split; [apply (inv_label _ HI)|apply (inv_version _ HI)|].
    intros e He. simpl. apply (inv_log _ HI) in He. lia.
  - split; simpl; [lia|exists []; by rewrite app_nil_r].
Qed.

Lemma fresh_world_inv now : cache_inv (fresh_world now).
Proof. split; simpl; [by intros ??? ?|by intros ?? ?|by intros e ?%not_elem_of_nil]. Qed.

Lemma client_system_ok now s :
  client_reachable now s → system_ok cache_inv later client_post s.
Proof.
  intros Hr. eapply (rely_guarantee _ _ _ _ _ _ _ (fresh_world now)); [..|exact Hr].
  Unshelve.
  all: try exact start_op_safe; try exact client_env_safe; apply fresh_world_inv.
Qed.
End start.

(** ** Keys *)

(** A key of a name and a label without [|] is the key of no other pair. *)
Lemma key_unique (name label name' label' : jsstr) :
  c_bar ∉ name → c_bar ∉ label → label_key name label = label_key name' label' →
  name = name' ∧ label = label'.
Proof.
  intros Hn Hl E. unfold label_key in E. change (js "|") with [c_bar] in E.
  apply (f_equal (str_split c_bar)) in E. simpl in E.
  rewrite str_split_app_sep, (str_split_no_occurrence _ label) in E by done.
  assert (c_bar ∉ name') as Hn'.
  { intros Hin. apply list_elem_of_split in Hin as (a & b & ->).
    assert (length (str_split c_bar ((a ++ c_bar :: b) ++ c_bar :: label')) = 2%nat) as HL by (by rewrite <- E).
    rewrite <- app_assoc in HL. simpl in HL.
    pose proof (length_str_split_app c_bar a (b ++ c_bar :: label')).
    pose proof (length_str_split_app c_bar b label').
    pose proof (length_str_split_pos c_bar a). pose proof (length_str_split_pos c_bar b).
    pose proof (length_str_split_pos c_bar label'). lia. }
  rewrite str_split_app_sep in E by done. injection E as -> E. split; [done|].
  rewrite <- (str_join_split c_bar label'), <- E. done.
Qed.

(** A version number holds no [|], so version keys are injective outright. *)
Lemma version_key_inj (name name' : jsstr) (v v' : Z) :
  version_key name v = version_key name' v' → name = name' ∧ v = v'.
Proof.
  unfold version_key. change (js "|") with [c_bar]. intros E.
  apply (f_equal (@rev N)) in E. rewrite !rev_app_distr in E. simpl in E.
  rewrite <- !app_assoc in E. simpl in E.
  assert (∀ n, c_bar ∉ rev (show_Z n)) as Hb.
  { intros n Hin. apply list_elem_of_In, in_rev, list_elem_of_In in Hin.
    by apply show_Z_not_elem in Hin. }
  apply sep_inj in E as [E1 E2]; [|done..].
  apply (f_equal (@rev N)) in E1, E2. rewrite !rev_involutive in E1, E2.
  split; [done|]. by apply show_Z_inj.
Qed.

(** ** Properties *)

Section properties.
Context `{Crypto} (self : client).
Implicit Types (name label : jsstr) (w : cworld).

(** C1. Staleness bound of the label cache, for every name, label and interleaving of
    client calls, answers and clock advances: a template that [getPrompt] returns for a
    label is the [template] of a successful answer of the server, received less than 30
    seconds before the return, to the request for a name and a label with the same cache
    key; when neither the name nor the label asked for holds a [|] they are this very name
    and label (otherwise they need not be, see [label_cache_collision]). *)
Theorem getPrompt_staleness now s name options tpl w :
  client_reachable self now s →
  (Ok (GetPrompt name options, Ok tpl), w) ∈ s_done s →
  by_version options = None →
  ∃ name' label' t,
    label_key name (label_of options) = label_key name' label'
    ∧ (c_bar ∉ name → c_bar ∉ label_of options → name' = name ∧ label' = label_of options)
    ∧ fetched self w name' (label_params label') tpl t
    ∧ w_clock w - PROMPT_CACHE_TTL_MS < t <= w_clock w.
Proof.
  intros Hr Hin Hv.
  destruct (client_system_ok self now s Hr) as (_ & _ & Hdone).
  destruct (proj1 (Forall_forall _ _) Hdone _ Hin) as [HQ _]. simpl in HQ. rewrite Hv in HQ.
  destruct HQ as (n & l & t & Hk & Hf & Ht). exists n, l, t. split; [exact Hk|]. split; [|exact (conj Hf Ht)].
  intros Hn Hl. by destruct (key_unique name (label_of options) n l Hn Hl Hk) as [-> ->].
Qed.

(** C22. The version cache never answers for another prompt: a template returned for
    an explicit version comes from a successful answer of the server to the request
    for this name and version, whatever calls were interleaved. *)
Theorem getPromptByVersion_provenance now s name v tpl w :
  client_reachable self now s →
  (Ok (GetPromptByVersion name v, Ok tpl), w) ∈ s_done s →
  ∃ t, fetched self w name (version_params v) tpl t.
Proof.
  intros Hr Hin.
  destruct (client_system_ok self now s Hr) as (_ & _ & Hdone).
  destruct (proj1 (Forall_forall _ _) Hdone _ Hin) as [HQ _]. simpl in HQ.
  destruct HQ as (n & v' & t & Hk & Hf).
  destruct (version_key_inj _ _ _ _ Hk) as [-> ->]. eauto.
Qed.

(** A prompt call returns a cached template or asks for the prompt. *)
Definition starts_prompt (name : jsstr) (w : cworld) (wt : cworld * task cworld (option json)) : Prop :=
  (∃ tpl, wt = (w, Finished (Ok tpl)))
  ∨ ∃ params k, wt = (w, Awaiting (prompt_request self name params) k).

Lemma getPromptByVersion_starts name v w : starts_prompt name w (getPromptByVersion self name v w).
Proof.
  unfold getPromptByVersion. destruct (w_versionCache w !! version_key name v) as [[c|]|];
    [left|right|right]; repeat eexists.
Qed.

Lemma getPrompt_starts name options w : starts_prompt name w (getPrompt self name options w).
Proof.
  unfold getPrompt.
  destruct (options ≫= gp_version) as [v|]; [destruct (0 <? v); [apply getPromptByVersion_starts|]|];
    destruct (w_labelCache w !! _) as [[tpl e]|]; try (right; by repeat eexists);
    destruct (w_clock w <? e); solve [left; by repeat eexists | right; by repeat eexists].
Qed.

Definition advance (dt : Z) (w : cworld) : cworld :=
  CWorld (w_clock w + dt) (w_labelCache w) (w_versionCache w) (w_draws w) (w_log w).

(** The label branch of [getPrompt], on a hit and on a miss. *)
Lemma getPrompt_hit name options w tpl e :
  by_version options = None →
  w_labelCache w !! label_key name (label_of options) = Some (tpl, e) → w_clock w < e →
  getPrompt self name options w = (w, Finished (Ok tpl)).
Proof.
  unfold by_version, getPrompt. intros Hv Hc Hlt. fold (label_of options). rewrite Hc.
  rewrite (proj2 (Z.ltb_lt _ _) Hlt).
  destruct (options ≫= gp_version) as [v|]; simpl in *; [destruct (0 <? v); [done|]|]; done.
Qed.

Lemma getPrompt_miss name options w :
  by_version options = None →
  (∀ tpl e, w_labelCache w !! label_key name (label_of options) = Some (tpl, e) → e <= w_clock w) →
  getPrompt self name options w
  = fetch_and_store self name (label_params (label_of options))
      (λ tpl w, set_label (label_key name (label_of options)) (tpl, w_clock w + PROMPT_CACHE_TTL_MS) w) w.
Proof.
  unfold by_version, getPrompt. intros Hv Hc. fold (label_of options).
  destruct (options ≫= gp_version) as [v|]; simpl in *;
    [destruct (0 <? v); [done|]|];
    (destruct (w_labelCache w !! _) as [[tpl e]|]; [|done];
     specialize (Hc tpl e eq_refl); by rewrite (proj2 (Z.ltb_ge _ _) Hc)).
Qed.

(** One request per 30 seconds: once the answer to a label request is in,
    [getPrompt] returns its template without a request for the next 30 seconds, and
    asks the server again afterwards. *)
Theorem getPrompt_caches name options w st body v tpl :
  by_version options = None →
  w_labelCache w !! label_key name (label_of options) = None →
  ok_status st = true → parse body = Some v → member (js "template") v = Ok tpl →
  let q := prompt_request self name (label_params (label_of options)) in
  ∃ k, getPrompt self name options w = (w, Awaiting q k) ∧
    ∀ w1, ∃ w2, k (Response st (Some body)) w1 = (w2, Finished (Ok tpl)) ∧
      ∀ dt, 0 <= dt →
        if dt <? PROMPT_CACHE_TTL_MS
        then getPrompt self name options (advance dt w2) = (advance dt w2, Finished (Ok tpl))
        else ∃ k', getPrompt self name options (advance dt w2) = (advance dt w2, Awaiting q k').
Proof.
  intros Hv Hc Hst Hb Hm q. rewrite getPrompt_miss by (done || by rewrite Hc).
  eexists. split; [done|]. intros w1. eexists. split.
  - simpl. assert ((st =? 404) = false) as ->.
    { unfold ok_status in Hst. lia. }
    rewrite Hst. simpl. rewrite Hb. simpl. rewrite Hm. done.
  - intros dt Hdt. destruct (Z.ltb_spec dt PROMPT_CACHE_TTL_MS) as [Hlt|Hge].
    + eapply getPrompt_hit; [done|simpl; apply lookup_insert_eq|simpl; lia].
    + eexists. rewrite getPrompt_miss; [done|done|].
      intros tpl' e. simpl. rewrite lookup_insert_eq. intros [= <- <-]. lia.
Qed.

(** The calls that ask the server, with the parameters of their request: a label without
    a live entry in its cache, or a version without a template in its cache, whether it is
    given as an option or to [getPromptByVersion]. *)
Inductive asks_server (name : jsstr) (w : cworld) :
    (cworld → cworld * task cworld (option json)) → jsstr → Prop :=
| asks_label options :
    by_version options = None →
    (∀ tpl e, w_labelCache w !! label_key name (label_of options) = Some (tpl, e) → e <= w_clock w) →
    asks_server name w (getPrompt self name options) (label_params (label_of options))
| asks_version_option options v :
    by_version options = Some v →
    (∀ tpl, w_versionCache w !! version_key name v ≠ Some (Some tpl)) →
    asks_server name w (getPrompt self name options) (version_params v)
| asks_version v :
    (∀ tpl, w_versionCache w !! version_key name v ≠ Some (Some tpl)) →
    asks_server name w (getPromptByVersion self name v) (version_params v).

(** An answer that is a success: its body can be read, is JSON, and is not [null]. *)
Definition usable (o : outcome) (tpl : option json) : Prop :=
  ∃ st text v, o = Response st (Some text) ∧ ok_status st = true ∧ parse text = Some v
    ∧ v ≠ JNull ∧ member (js "template") v = Ok tpl.

(** The exception of every other answer. *)
Inductive prompt_failure (name : jsstr) : outcome → js_error → Prop :=
| failure_rejected : prompt_failure name Rejected FetchError
| failure_not_found body :
    prompt_failure name (Response 404 body) (Error (js "prompt not found: " ++ name))
| failure_status st text : ok_status st = false → st ≠ 404 →
    prompt_failure name (Response st (Some text)) (Error (js "get prompt: " ++ show_Z st ++ js ": " ++ text))
| failure_unreadable st : st ≠ 404 → prompt_failure name (Response st None) BodyError
| failure_not_json st text : ok_status st = true → parse text = None →
    prompt_failure name (Response st (Some text)) SyntaxError
| failure_null st text : ok_status st = true → parse text = Some JNull →
    prompt_failure name (Response st (Some text)) TypeError.

Lemma usable_or_failure name o : (∃ tpl, usable o tpl) ∨ ∃ e, prompt_failure name o e.
Proof.
  destruct o as [st body|]; [|right; eexists; apply failure_rejected].
  destruct (decide (st = 404)) as [->|Hne]; [right; eexists; apply failure_not_found|].
  destruct body as [text|]; [|right; eexists; by apply failure_unreadable].
  destruct (ok_status st) eqn:Hst; [|right; eexists; by apply failure_status].
  destruct (parse text) as [v|] eqn:Hp; [|right; eexists; by apply failure_not_json].
  destruct v; [right; eexists; by apply failure_null|..].
  all: left; eexists; do 3 eexists; by split_and!.
Qed.

Lemma ok_status_not_404 st : ok_status st = true → (st =? 404) = false.
Proof. unfold ok_status. lia. Qed.

(** What [fetch_and_store] makes of an answer. *)
Lemma fetch_and_store_answers name params store w :
  ∃ k, fetch_and_store self name params store w = (w, Awaiting (prompt_request self name params) k)
    ∧ ∀ w1 o, (∀ tpl, usable o tpl → k o w1 = (store tpl w1, Finished (Ok tpl)))
              ∧ ∀ e, prompt_failure name o e → k o w1 = (w1, Finished (Err e)).
Proof.
  eexists. split; [done|]. intros w1 o. split.
  - intros tpl (st & text & v & -> & Hst & Hp & _ & Hm). simpl.
    by rewrite ok_status_not_404, Hst by done; simpl; rewrite Hp; simpl; rewrite Hm.
  - intros e He. destruct He as [|body|st text Hst Hne|st Hne|st text Hst Hp|st text Hst Hp]; simpl; try done.
    + by rewrite (proj2 (Z.eqb_neq _ _) Hne), Hst.
    + rewrite (proj2 (Z.eqb_neq _ _) Hne). by destruct (ok_status st).
    + by rewrite ok_status_not_404, Hst by done; simpl; rewrite Hp.
    + by rewrite ok_status_not_404, Hst by done; simpl; rewrite Hp.
Qed.

Lemma getPromptByVersion_miss name v w :
  (∀ tpl, w_versionCache w !! version_key name v ≠ Some (Some tpl)) →
  getPromptByVersion self name v w
  = fetch_and_store self name (version_params v) (set_version (version_key name v)) w.
Proof.
  intros Hc. unfold getPromptByVersion.
  destruct (w_versionCache w !! version_key name v) as [[tpl|]|]; [by destruct (Hc tpl)|done..].
Qed.

Lemma getPrompt_version name options v w :
  by_version options = Some v → getPrompt self name options w = getPromptByVersion self name v w.
Proof.
  unfold by_version, getPrompt. intros Hv.
  destruct (options ≫= gp_version) as [v'|]; [|done]. simpl in Hv. by destruct (0 <? v'); simplify_eq/=.
Qed.

Lemma asks_fetch name w call params :
  asks_server name w call params → ∃ store, call w = fetch_and_store self name params store w.
Proof.
  destruct 1 as [options Hv Hc|options v Hv Hc|v Hc]; eexists.
  - by apply getPrompt_miss.
  - rewrite (getPrompt_version _ _ v) by done. by apply getPromptByVersion_miss.
  - by apply getPromptByVersion_miss.
Qed.

(** C37. The failures of a prompt request, for a label that is not cached or has expired
    and for a version that is not cached: every answer that is not a usable success - a
    rejection, another status than 2xx, a body that cannot be read, is not JSON or is
    [null] - gives its exception and leaves the caches as they were, and every usable
    success gives its template. *)
Theorem getPrompt_failures name w call params :
  asks_server name w call params →
  ∃ k, call w = (w, Awaiting (prompt_request self name params) k)
    ∧ ∀ w1 o, (∃ tpl, usable o tpl ∧ (k o w1).2 = Finished (Ok tpl))
              ∨ ∃ e, prompt_failure name o e ∧ k o w1 = (w1, Finished (Err e)).
Proof.
  intros [store ->]%asks_fetch.
  destruct (fetch_and_store_answers name params store w) as (k & Ek & Hk).
  exists k. split; [done|]. intros w1 o. destruct (Hk w1 o) as [Hu Hf].
  destruct (usable_or_failure name o) as [(tpl & Hok)|(e & Hno)].
  - left. exists tpl. by rewrite (Hu tpl Hok).
  - right. exists e. by rewrite (Hf e Hno).
Qed.

Definition missing_argument (op : client_op) : bool :=
  match op with
  | WriteScore spanId _ => negb (truthy spanId)
  | CreatePrompt name template _ => negb (truthy name) || negb (truthy template)
  | SetPromptLabel name _ _ => negb (truthy name)
  | CreateEvalRule name promptName _ => negb (truthy name) || negb (truthy promptName)
  | _ => false
  end.

(** Argument checks: a call throws its validation error, without a request, if
    and only if a required argument is the empty string. *)
Theorem client_validation op w :
  (∃ message, start_op self op w = (w, Finished (Ok (op, Err (Error message)))))
  ↔ missing_argument op = true.
Proof.
  destruct op as [name options|name v|spanId o|name t o| |name l v| |name pn o]; simpl.
  - split; [|done]. unfold answer.
    by destruct (getPrompt_starts name options w) as [[tpl ->]|(params & k & ->)]; intros [m E].
  - split; [|done]. unfold answer.
    by destruct (getPromptByVersion_starts name v w) as [[tpl ->]|(params & k & ->)]; intros [m E].
  - destruct (truthy spanId) eqn:Hs; unfold answer, writeScore; rewrite Hs; simpl.
    + split; [|done]. by intros [m E].
    + split; [done|eauto].
  - destruct (truthy name) eqn:Hs, (truthy t) eqn:Ht; unfold answer, createPrompt; rewrite Hs, ?Ht; simpl.
    all: split; try done; try eauto. by intros [m E].
  - split; [|done]. by intros [m E].
  - destruct (truthy name) eqn:Hs; unfold answer, setPromptLabel; rewrite Hs; simpl.
    + split; [|done]. by intros [m E].
    + split; [done|eauto].
  - split; [|done]. by intros [m E].
  - destruct (truthy name) eqn:Hs, (truthy pn) eqn:Ht; unfold answer, createEvalRule; rewrite Hs, ?Ht; simpl.
    all: split; try done; try eauto. by intros [m E].
Qed.

Definition reads_prompt (op : client_op) : bool :=
  match op with GetPrompt _ _ | GetPromptByVersion _ _ => true | _ => false end.

(** Authentication: with an API key configured, every request carries it in the
    [X-API-Key] header, except those of [getPrompt] and [getPromptByVersion], which
    carry none (the query service requires one there too). *)
Theorem request_authentication op key w w' q k :
  c_apiKey self = Some key → truthy key = true →
  start_op self op w = (w', Awaiting q k) →
  ((js "X-API-Key", key) ∈ r_headers q ↔ reads_prompt op = false).
Proof.
  intros Hk Ht Hq.
  assert (api_key_header self = [(js "X-API-Key", key)]) as HH by (unfold api_key_header; by rewrite Hk, Ht).
  destruct op as [name options|name v|spanId o|name t o| |name l v| |name pn o]; simpl in *;
    unfold answer in Hq.
  - split; [|done]. intros Hin.
    destruct (getPrompt_starts name options w) as [[tpl E]|(ps & k' & E)]; rewrite E in Hq; simplify_eq/=.
    by apply not_elem_of_nil in Hin.
  - split; [|done]. intros Hin.
    destruct (getPromptByVersion_starts name v w) as [[tpl E]|(ps & k' & E)]; rewrite E in Hq; simplify_eq/=.
    by apply not_elem_of_nil in Hin.
  - unfold writeScore in Hq. destruct (truthy spanId); simplify_eq/=. rewrite HH.
    split; [done|]. intros _. right. by left.
  - unfold createPrompt in Hq. destruct (truthy name), (truthy t); simplify_eq/=. rewrite HH.
    split; [done|]. intros _. right. by left.
  - simplify_eq/=. rewrite HH. split; [done|]. intros _. by left.
  - unfold setPromptLabel in Hq. destruct (truthy name); simplify_eq/=. rewrite HH.
    split; [done|]. intros _. right. by left.
  - simplify_eq/=. rewrite HH. split; [done|]. intros _. by left.
  - unfold createEvalRule in Hq. destruct (truthy name), (truthy pn); simplify_eq/=. rewrite HH.
    split; [done|]. intros _. right. by left.
Qed.

(** The label cache confuses prompts: a live entry for the prompt [a] and the
    label [b|c] is returned for the prompt [a|b] and the label [c]. *)
Theorem label_cache_collision (a b c : jsstr) tpl e w :
  w_labelCache w !! label_key a (b ++ js "|" ++ c) = Some (tpl, e) → w_clock w < e →
  getPrompt self (a ++ js "|" ++ b) (Some {| gp_label := Some c; gp_version := None |}) w
  = (w, Finished (Ok tpl)).
Proof.
  intros Hc Hlt. eapply getPrompt_hit; [done| |done].
  simpl. unfold label_key in *. by rewrite <- !app_assoc in *.
Qed.
End properties.

(** ** Concrete runs *)

Module Runs.
#[export] Instance demo_crypto : Crypto := λ call n, replicate n (N.of_nat call mod 256)%N.

Definition self : client :=
  new_client {| cfg_baseUrl := js "http://localhost:3000"; cfg_apiKey := Some (js "oev_proj_demo") |}.

Definition pause (dt : Z) : event cworld client_op := EEnv (λ w,
  CWorld (w_clock w + dt) (w_labelCache w) (w_versionCache w) (w_draws w) (w_log w)).

Lemma pause_ok dt : 0 <= dt → event_ok client_env (pause dt).
Proof. intros Hdt w. by exists dt. Qed.

Definition body : jsstr := stringify (object_literal [(js "template", Some (JStr (js "Hello")))]).

Definition label_run : list (event cworld client_op) :=
  [EStart (GetPrompt (js "greet") None); pause 40; EAnswer 0 (Response 200 (Some body));
   pause 29999; EStart (GetPrompt (js "greet") None)].

Definition final (es : list (event cworld client_op)) : system cworld client_result :=
  run (start_op self) es (System (fresh_world 0) [] []).

Lemma label_run_reachable : client_reachable self 0 (final label_run).
Proof. apply run_reachable. repeat constructor; by apply pause_ok. Qed.

Lemma getPrompt_staleness_witness :
  ∃ w, (Ok (GetPrompt (js "greet") None, Ok (Some (JStr (js "Hello")))), w) ∈ s_done (final label_run)
    ∧ w_clock w = 30039
    ∧ ∃ t, fetched self w (js "greet") (label_params (js "production")) (Some (JStr (js "Hello"))) t
           ∧ w_clock w - PROMPT_CACHE_TTL_MS < t <= w_clock w.
Proof.
  assert (∃ w, (Ok (GetPrompt (js "greet") None, Ok (Some (JStr (js "Hello")))), w) ∈ s_done (final label_run)
               ∧ w_clock w = 30039) as (w & Hin & Hw).
  { eexists. split; [right; left|vm_compute; reflexivity]. }
  exists w. split; [exact Hin|]. split; [exact Hw|].
  destruct (getPrompt_staleness self 0 (final label_run) (js "greet") None _ _ label_run_reachable Hin eq_refl)
    as (n & l & t & _ & Hu & Ht).
  destruct Hu as [-> ->]; [apply (bool_decide_unpack _); vm_compute; exact I..|]. exists t. exact Ht.
Defined.

Definition version_run : list (event cworld client_op) :=
  [EStart (GetPromptByVersion (js "greet") 3); EAnswer 0 (Response 200 (Some body));
   pause 100000; EStart (GetPromptByVersion (js "greet") 3)].

Lemma version_run_reachable : client_reachable self 0 (final version_run).
Proof. apply run_reachable. repeat constructor; by apply pause_ok. Qed.

Lemma getPromptByVersion_provenance_witness :
  ∃ w, (Ok (GetPromptByVersion (js "greet") 3, Ok (Some (JStr (js "Hello")))), w) ∈ s_done (final version_run)
    ∧ ∃ t, fetched self w (js "greet") (version_params 3) (Some (JStr (js "Hello"))) t.
Proof.
  assert (∃ w, (Ok (GetPromptByVersion (js "greet") 3, Ok (Some (JStr (js "Hello")))), w)
               ∈ s_done (final version_run)) as (w & Hin).
  { eexists. right. left. }
  exists w. split; [exact Hin|].
  apply (getPromptByVersion_provenance self 0 (final version_run) _ _ _ _ version_run_reachable Hin).
Defined.

Lemma getPrompt_caches_witness :
  ∃ k, getPrompt self (js "greet") None (fresh_world 5)
       = (fresh_world 5, Awaiting (prompt_request self (js "greet") (label_params (js "production"))) k).
Proof.
  destruct (getPrompt_caches self (js "greet") None (fresh_world 5) 200 body
              (object_literal [(js "template", Some (JStr (js "Hello")))]) (Some (JStr (js "Hello"))))
    as (k & Hk & _); [vm_compute; reflexivity..|]. by exists k.
Defined.

(** An entry that expired, and the body [null]. *)
Definition expired : cworld :=
  set_label (label_key (js "x") (js "production")) (Some (JStr (js "Old")), 10) (fresh_world 10).

Lemma getPrompt_failures_witness :
  ∃ k, getPrompt self (js "x") None expired
       = (expired, Awaiting (prompt_request self (js "x") (label_params (js "production"))) k)
    ∧ k (Response 200 (Some (js "null"))) expired = (expired, Finished (Err TypeError)).
Proof.
  destruct (getPrompt_failures self (js "x") expired (getPrompt self (js "x") None) (label_params (js "production")))
    as (k & Hk & Ha).
  { apply (asks_label self (js "x") expired None eq_refl). intros tpl e. unfold expired. simpl.
    rewrite lookup_insert_eq. intros [= _ <-]. lia. }
  exists k. split; [exact Hk|].
  destruct (Ha expired (Response 200 (Some (js "null")))) as [(tpl & (st & text & v & E & _ & Hp & Hv & _) & _)|(e & He & ->)].
  - injection E as <- <-. assert (parse (js "null") = Some JNull) as Hn by (vm_compute; reflexivity). by simplify_eq.
  - assert (parse (js "null") = Some JNull) as Hn by (vm_compute; reflexivity).
    inversion He; subst; by simplify_eq.
Defined.

Lemma request_authentication_witness :
  ∃ q k, start_op self ListPrompts (fresh_world 0) = (fresh_world 0, Awaiting q k)
    ∧ (js "X-API-Key", js "oev_proj_demo") ∈ r_headers q.
Proof.
  do 2 eexists. split; [reflexivity|].
  apply (proj2 (request_authentication self ListPrompts (js "oev_proj_demo") (fresh_world 0)
                  (fresh_world 0) _ _ eq_refl eq_refl eq_refl)). reflexivity.
Defined.

Definition cached : cworld :=
  set_label (label_key (js "a") (js "b|c")) (Some (JStr (js "Hello")), 10) (fresh_world 0).

Lemma label_cache_collision_witness :
  getPrompt self (js "a|b") (Some {| gp_label := Some (js "c"); gp_version := None |}) cached
  = (cached, Finished (Ok (Some (JStr (js "Hello"))))).
Proof.
  apply (label_cache_collision self (js "a") (js "b") (js "c") _ 10); vm_compute; reflexivity.
Defined.
End Runs.
