(* ===== verification/SdkTracer.v ===== *)
(** The manual tracer and its exporter: [ManualTracer] of sdk/ts/src/tracer.ts and
    [SpanExporter] of sdk/ts/src/exporter.ts.

    Tracked spans are mutable objects of the [pending] array, found by their id: a
    mutation of the object [find] returns is [update_first].  The array handed to the
    exporter holds copies, so later mutations do not reach a request in flight. *)
From S2P Require Export SdkTypes.

Open Scope Z_scope.

Record TrackedSpan : Type := Tracked {
  t_span_id : jsstr;
  t_trace_id : jsstr;
  t_parent_id : option jsstr;
  t_conversation_id : option jsstr;
  t_name : jsstr;
  t_kind : option SpanKind;
  t_model : option jsstr;
  t_input : option jsstr;
  t_output : option jsstr;
  t_input_tokens : option num;
  t_output_tokens : option num;
  t_prompt_name : option jsstr;
  t_prompt_version : option num;
  t_attributes : option SpanAttributes;
  t_start_time : Z;
  t_end_time : option Z;
}.

(** ** State: the tracer's fields, the clock, the random draws, and the exchanges *)

Record tworld : Type := TWorld {
  w_now : Z;
  w_pending : list TrackedSpan;
  w_activeConversationId : option jsstr;
  w_draws : nat;
  w_exchanges : list (request * outcome);
}.

#[export] Instance tworld_World : World tworld := λ q o w,
  TWorld (w_now w) (w_pending w) (w_activeConversationId w) (w_draws w) (w_exchanges w ++ [(q, o)]).

Definition set_pending (l : list TrackedSpan) (w : tworld) : tworld :=
  TWorld (w_now w) l (w_activeConversationId w) (w_draws w) (w_exchanges w).
Definition draw_id (w : tworld) : tworld :=
  TWorld (w_now w) (w_pending w) (w_activeConversationId w) (S (w_draws w)) (w_exchanges w).

(** ** The exporter *)

Definition json_attr (a : attr_value) : json :=
  match a with AStr s => JStr s | ANum n => JNum n | ABool b => JBool b end.

Definition json_span (s : OmnevalSpan) : json :=
  object_literal [
    (js "span_id", Some (JStr (span_id s)));
    (js "trace_id", Some (JStr (trace_id s)));
    (js "parent_id", JStr <$> parent_id s);
    (js "name", Some (JStr (name s)));
    (js "kind", (λ k, JStr (show_kind k)) <$> kind s);
    (js "model", JStr <$> model s);
    (js "input", JStr <$> input s);
    (js "output", JStr <$> output s);
    (js "input_tokens", JNum <$> input_tokens s);
    (js "output_tokens", JNum <$> output_tokens s);
    (js "prompt_name", JStr <$> prompt_name s);
    (js "prompt_version", JNum <$> prompt_version s);
    (js "conversation_id", JStr <$> conversation_id s);
    (js "attributes", (λ a : SpanAttributes, JObj (prod_map id json_attr <$> a)) <$> attributes s);
    (js "start_time", (JNum ∘ of_Z) <$> start_time s);
    (js "end_time", (JNum ∘ of_Z) <$> end_time s)].

Record exporter : Type := { e_baseUrl : jsstr; e_apiKey : option jsstr }.

(** After [timeoutMs] the controller aborts the request, which rejects the fetch. *)
Definition timeoutMs : Z := 10000.

Section tracer.
Context `{Crypto} (self : exporter).

Abbreviation method A := (tworld → tworld * task tworld A).

Definition export_request (spans : list OmnevalSpan) : request :=
  Request (js "POST") (e_baseUrl self ++ js "/api/v1/spans")
    (content_json ::
      match e_apiKey self with
      | Some k => if truthy k then [(js "X-API-Key", k)] else []
      | None => []
      end)
    (Some (stringify (object_literal [(js "spans", Some (JArr (json_span <$> spans)))]))).

(** [export]: whether the spans were accepted; it never throws. *)
Definition export (spans : list OmnevalSpan) : method bool := λ w,
  if Nat.eqb (length spans) 0 then (w, Finished (Ok true)) else
  (w, Awaiting (export_request spans) (λ o w,
    match o with
    | Rejected => (w, Finished (Ok false))
    | Response status _ =>
      if negb (ok_status status) then (w, Finished (Ok false)) else (w, Finished (Ok true))
    end)).

(** ** [findTraceId]: climb to the root, at most [pending.length] steps.  [None] is
    the case where the code generates a new trace id. *)

Definition tracked_by (id : jsstr) (s : TrackedSpan) : bool := bool_decide (t_span_id s = id).

Fixpoint climb (n : nat) (pending : list TrackedSpan) (currentSpanId : jsstr) : option jsstr :=
  match n with
  | O => None
  | S n =>
    match array_find (tracked_by currentSpanId) pending with
    | None => None
    | Some tracked =>
      if truthy_opt (t_parent_id tracked)
      then climb n pending (nullish (t_parent_id tracked) [])
      else Some (t_trace_id tracked)
    end
  end.

Definition findTraceId (spanId : jsstr) (w : tworld) : tworld * jsstr :=
  match climb (length (w_pending w)) (w_pending w) spanId with
  | Some tid => (w, tid)
  | None => (draw_id w, generateTraceId (w_draws w))
  end.

(** ** Starting a span *)

Record start_options : Type := {
  so_parentSpanId : option jsstr;
  so_kind : option SpanKind;
  so_attributes : option SpanAttributes;
}.

Definition startSpan (name : jsstr) (options : option start_options) (w : tworld) : tworld * jsstr :=
  let spanId := generateSpanId (w_draws w) in
  let w := draw_id w in
  let parent := options ≫= so_parentSpanId in
  let '(w, traceId) :=
    if truthy_opt parent then findTraceId (nullish parent []) w
    else (draw_id w, generateTraceId (w_draws w)) in
  let tracked := {|
    t_span_id := spanId; t_trace_id := traceId; t_parent_id := parent;
    t_conversation_id := w_activeConversationId w; t_name := name;
    t_kind := o ← options; so_kind o;
    t_model := None; t_input := None; t_output := None;
    t_input_tokens := None; t_output_tokens := None;
    t_prompt_name := None; t_prompt_version := None;
    t_attributes := o ← options; so_attributes o;
    t_start_time := w_now w; t_end_time := None |} in
  (set_pending (w_pending w ++ [tracked]) w, spanId).

(** ** Flushing *)

Definition is_ended (s : TrackedSpan) : Prop := is_Some (t_end_time s).
#[export] Instance is_ended_dec s : Decision (is_ended s).
Proof. unfold is_ended. apply _. Defined.

Definition export_copy (s : TrackedSpan) : OmnevalSpan := {|
  span_id := t_span_id s; trace_id := t_trace_id s; parent_id := t_parent_id s;
  conversation_id := t_conversation_id s; name := t_name s; kind := t_kind s;
  model := t_model s; input := t_input s; output := t_output s;
  input_tokens := t_input_tokens s; output_tokens := t_output_tokens s;
  prompt_name := t_prompt_name s; prompt_version := t_prompt_version s;
  attributes := t_attributes s;
  start_time := Some (t_start_time s); end_time := t_end_time s |}.

Definition flush : method unit := λ w,
  if Nat.eqb (length (w_pending w)) 0 then (w, Finished (Ok tt)) else
  let endedSpans := filter is_ended (w_pending w) in
  if Nat.eqb (length endedSpans) 0 then (w, Finished (Ok tt)) else
  let spans := export_copy <$> endedSpans in
  let '(w, t) := export spans w in
  then_task t (λ success w,
    match success with
    | Ok true =>
      let endedIds := t_span_id <$> endedSpans in
      (set_pending (filter (λ s, t_span_id s ∉ endedIds) (w_pending w)) w, Finished (Ok tt))
    | Ok false => (w, Finished (Ok tt))
    | Err e => (w, Finished (Err e))
    end) w.

(** ** Ending a span *)

(** [{ ...a, ...b }]. *)
Definition spread (a : option SpanAttributes) (b : SpanAttributes) : SpanAttributes :=
  fold_left (λ acc kv, prop_set kv.1 kv.2 acc) b
    (fold_left (λ acc kv, prop_set kv.1 kv.2 acc) (nullish a []) []).

Record end_options : Type := {
  eo_output : option jsstr;
  eo_attributes : option SpanAttributes;
}.

Definition end_tracked (now : Z) (options : option end_options) (s : TrackedSpan) : TrackedSpan :=
  Tracked (t_span_id s) (t_trace_id s) (t_parent_id s) (t_conversation_id s) (t_name s) (t_kind s)
    (t_model s) (t_input s) (o ← options; eo_output o) (t_input_tokens s) (t_output_tokens s)
    (t_prompt_name s) (t_prompt_version s)
    (match (o ← options; eo_attributes o) with
     | Some attrs => Some (spread (t_attributes s) attrs)
     | None => t_attributes s
     end)
    (t_start_time s) (Some now).

Definition mutate (spanId : jsstr) (f : TrackedSpan → TrackedSpan) (w : tworld) : tworld :=
  set_pending (update_first (tracked_by spanId) f (w_pending w)) w.

Definition endSpan (spanId : jsstr) (options : option end_options) : method unit := λ w,
  match array_find (tracked_by spanId) (w_pending w) with
  | None => (w, Finished (Ok tt))
  | Some _ => flush (mutate spanId (end_tracked (w_now w) options) w)
  end.

(** ** Setters: each mutates the tracked span when there is one *)

Definition with_model (m : jsstr) (s : TrackedSpan) : TrackedSpan :=
  Tracked (t_span_id s) (t_trace_id s) (t_parent_id s) (t_conversation_id s) (t_name s) (t_kind s)
    (Some m) (t_input s) (t_output s) (t_input_tokens s) (t_output_tokens s)
    (t_prompt_name s) (t_prompt_version s) (t_attributes s) (t_start_time s) (t_end_time s).
Definition with_input (i : jsstr) (s : TrackedSpan) : TrackedSpan :=
  Tracked (t_span_id s) (t_trace_id s) (t_parent_id s) (t_conversation_id s) (t_name s) (t_kind s)
    (t_model s) (Some i) (t_output s) (t_input_tokens s) (t_output_tokens s)
    (t_prompt_name s) (t_prompt_version s) (t_attributes s) (t_start_time s) (t_end_time s).
Definition with_tokens (i o : num) (s : TrackedSpan) : TrackedSpan :=
  Tracked (t_span_id s) (t_trace_id s) (t_parent_id s) (t_conversation_id s) (t_name s) (t_kind s)
    (t_model s) (t_input s) (t_output s) (Some i) (Some o)
    (t_prompt_name s) (t_prompt_version s) (t_attributes s) (t_start_time s) (t_end_time s).
Definition with_prompt (n : jsstr) (v : option num) (s : TrackedSpan) : TrackedSpan :=
  Tracked (t_span_id s) (t_trace_id s) (t_parent_id s) (t_conversation_id s) (t_name s) (t_kind s)
    (t_model s) (t_input s) (t_output s) (t_input_tokens s) (t_output_tokens s)
    (Some n) (match v with Some _ => v | None => t_prompt_version s end)
    (t_attributes s) (t_start_time s) (t_end_time s).
Definition with_conversation (c : jsstr) (s : TrackedSpan) : TrackedSpan :=
  Tracked (t_span_id s) (t_trace_id s) (t_parent_id s) (Some c) (t_name s) (t_kind s)
    (t_model s) (t_input s) (t_output s) (t_input_tokens s) (t_output_tokens s)
    (t_prompt_name s) (t_prompt_version s) (t_attributes s) (t_start_time s) (t_end_time s).

Definition setModel (spanId m : jsstr) : tworld → tworld := mutate spanId (with_model m).
Definition setInput (spanId i : jsstr) : tworld → tworld := mutate spanId (with_input i).
Definition setTokens (spanId : jsstr) (i o : num) : tworld → tworld := mutate spanId (with_tokens i o).
Definition setPrompt (spanId n : jsstr) (v : option num) : tworld → tworld :=
  mutate spanId (with_prompt n v).
Definition setConversationId (spanId c : jsstr) : tworld → tworld :=
  mutate spanId (with_conversation c).
Definition setActiveConversationId (c : jsstr) (w : tworld) : tworld :=
  TWorld (w_now w) (w_pending w) (Some c) (w_draws w) (w_exchanges w).

(** ** The tracer as a system *)

Inductive tracer_op : Type :=
| StartSpan (name : jsstr) (options : option start_options)
| EndSpan (spanId : jsstr) (options : option end_options)
| Flush
| SetModel (spanId m : jsstr)
| SetInput (spanId i : jsstr)
| SetTokens (spanId : jsstr) (i o : num)
| SetPrompt (spanId n : jsstr) (v : option num)
| SetConversationId (spanId c : jsstr)
| SetActiveConversationId (c : jsstr).

(** A synchronous method ends at once; [StartSpan] returns the new id. *)
Definition sync (w : tworld) : tworld * task tworld (option jsstr) := (w, Finished (Ok None)).
Definition no_value (wt : tworld * task tworld unit) : tworld * task tworld (option jsstr) :=
  then_task wt.2 (λ r w, (w, Finished (match r with Ok _ => Ok None | Err e => Err e end))) wt.1.

Definition start_tracer (op : tracer_op) (w : tworld) : tworld * task tworld (option jsstr) :=
  match op with
  | StartSpan name options => let '(w, id) := startSpan name options w in (w, Finished (Ok (Some id)))
  | EndSpan spanId options => no_value (endSpan spanId options w)
  | Flush => no_value (flush w)
  | SetModel spanId m => sync (setModel spanId m w)
  | SetInput spanId i => sync (setInput spanId i w)
  | SetTokens spanId i o => sync (setTokens spanId i o w)
  | SetPrompt spanId n v => sync (setPrompt spanId n v w)
  | SetConversationId spanId c => sync (setConversationId spanId c w)
  | SetActiveConversationId c => sync (setActiveConversationId c w)
  end.

Definition tracer_env (w w' : tworld) : Prop :=
  ∃ dt, 0 <= dt ∧
    w' = TWorld (w_now w + dt) (w_pending w) (w_activeConversationId w) (w_draws w) (w_exchanges w).

Definition new_tracer (now : Z) : tworld := TWorld now [] None 0 [].

Definition tracer_reachable (now : Z) := reachable start_tracer tracer_env (new_tracer now).
End tracer.

(** ** Invariant, rely and guarantee of the tracer *)

Section invariant.
Context `{CryptoOk} (self : exporter).

Definition pending_ids (w : tworld) : list jsstr := t_span_id <$> w_pending w.

(** A span the ingest API accepts: identifiers of 16 and 32 hexadecimal digits, an
    end, and an end that is not before the start. *)
Definition valid_span (s : OmnevalSpan) : Prop :=
  hex_string 16 (span_id s) ∧ hex_string 32 (trace_id s)
  ∧ ∃ a b, start_time s = Some a ∧ end_time s = Some b ∧ a <= b.

Definition wf_tracked (now : Z) (s : TrackedSpan) : Prop :=
  hex_string 16 (t_span_id s) ∧ hex_string 32 (t_trace_id s) ∧ t_start_time s <= now
  ∧ ∀ e, t_end_time s = Some e → t_start_time s <= e <= now.

(** A non-empty batch of valid spans, in one request. *)
Definition valid_request (q : request) : Prop :=
  ∃ spans, q = export_request self spans ∧ spans ≠ [] ∧ Forall valid_span spans.

Record tracer_inv (w : tworld) : Prop := {
  inv_pending : Forall (wf_tracked (w_now w)) (w_pending w);
  inv_exchanges : Forall (λ e, valid_request e.1) (w_exchanges w);
}.

(** The server accepted a batch with a span of this id. *)
Definition accepted (w : tworld) (id : jsstr) : Prop :=
  ∃ spans st body, (export_request self spans, Response st body) ∈ w_exchanges w
    ∧ ok_status st = true ∧ id ∈ span_id <$> spans.

Definition accounted (w : tworld) (id : jsstr) : Prop := id ∈ pending_ids w ∨ accepted w id.

Definition tlater (w w' : tworld) : Prop :=
  w_now w <= w_now w'
  ∧ (∃ l, w_exchanges w' = w_exchanges w ++ l)
  ∧ ∀ id, id ∈ pending_ids w → accounted w' id.

Lemma accepted_prefix w w' id :
  (∃ l, w_exchanges w' = w_exchanges w ++ l) → accepted w id → accepted w' id.
Proof.
  intros [l Hl] (spans & st & b & Hin & ?). exists spans, st, b. split; [|done].
  rewrite Hl. apply elem_of_app. by left.
Qed.

#[export] Instance tlater_refl : Reflexive tlater.
Proof. intros w. split; [lia|]. split; [exists []; by rewrite app_nil_r|]. intros. by left. Qed.
#[export] Instance tlater_trans : Transitive tlater.
Proof.
  intros w1 w2 w3 (Hc1 & [l1 Hl1] & Ha1) (Hc2 & [l2 Hl2] & Ha2). split; [lia|]. split.
  - exists (l1 ++ l2). by rewrite Hl2, Hl1, app_assoc.
  - intros id [Hp|Ha]%Ha1; [auto|]. right. eapply accepted_prefix, Ha. by exists l2.
Qed.

(** [StartSpan] delivers the id of a span that is pending. *)
Definition tracer_post (r : res (option jsstr)) (w : tworld) : Prop :=
  match r with
  | Ok (Some id) => id ∈ pending_ids w
  | Ok None => True
  | Err _ => False
  end.

Abbreviation tracer_safe := (safe_task tracer_inv tlater tracer_post).

Lemma wf_tracked_later now now' s : now <= now' → wf_tracked now s → wf_tracked now' s.
Proof.
  intros Hle (? & ? & ? & He). split_and!; [done..|lia|].
  intros e Hs. apply He in Hs. lia.
Qed.

Lemma export_copy_valid now s : wf_tracked now s → is_ended s → valid_span (export_copy s).
Proof.
  intros (? & ? & ? & He) [e Hs]. split; [done|]. split; [done|].
  exists (t_start_time s), e. specialize (He e Hs). split_and!; [done..|lia].
Qed.

(** A mutation that keeps the identity of the span it is applied to. *)
Definition keeps_identity (now : Z) (f : TrackedSpan → TrackedSpan) : Prop :=
  (∀ s, t_span_id (f s) = t_span_id s) ∧ ∀ s, wf_tracked now s → wf_tracked now (f s).

Lemma mutate_ok id f w :
  keeps_identity (w_now w) f → tracer_inv w → tracer_inv (mutate id f w) ∧ tlater w (mutate id f w).
Proof.
  intros [Hid Hwf] [Hp He]. unfold mutate. split.
  - split; simpl; [|done]. apply Forall_forall. intros s Hs.
    apply update_first_elem in Hs as [Hs|(y & Hy & ->)].
    + by eapply Forall_forall in Hp.
    + apply Hwf. apply array_find_Some in Hy as [Hy _]. by eapply Forall_forall in Hp.
  - split; [done|]. split; [exists []; by rewrite app_nil_r|].
    intros i Hi. left. unfold pending_ids in *. simpl. by rewrite update_first_map.
Qed.

Lemma end_tracked_keeps now o : keeps_identity now (end_tracked now o).
Proof. split; [done|]. intros s (? & ? & ? & He). split_and!; simpl; [done..|].
  intros e [= <-]. lia.
Qed.

Lemma generated_hex n call : hex_string (2 * n) (hex_id (get_random call n)).
Proof using H0.
  destruct (get_random_bytes call n) as [Hl Hb]. rewrite <- Hl at 1. by apply hex_id_hex.
Qed.

Lemma climb_elem n pending id tid :
  climb n pending id = Some tid → ∃ s, s ∈ pending ∧ t_trace_id s = tid.
Proof.
  revert id. induction n as [|n IH]; intros id; simpl; [done|].
  destruct (array_find (tracked_by id) pending) as [s|] eqn:Hf; [|done].
  destruct (truthy_opt (t_parent_id s)); [apply IH|].
  intros [= <-]. apply array_find_Some in Hf as [? _]. eauto.
Qed.

Lemma startSpan_ok name o w :
  tracer_inv w →
  tracer_inv (startSpan name o w).1 ∧ tlater w (startSpan name o w).1
  ∧ (startSpan name o w).2 ∈ pending_ids (startSpan name o w).1.
Proof using H0.
  intros [Hp He]. unfold startSpan.
  set (traced := if truthy_opt _ then _ else _).
  assert (∃ d tid, traced = (TWorld (w_now w) (w_pending w) (w_activeConversationId w) d (w_exchanges w), tid)
    ∧ hex_string 32 tid) as (d & tid & -> & Htid).
  { unfold traced, findTraceId. destruct (truthy_opt _); simpl.
    - destruct (climb _ _ _) as [tid|] eqn:Hc; simpl.
      + apply climb_elem in Hc as (s & Hs & <-). eexists _, _. split; [done|].
        by destruct (proj1 (Forall_forall _ _) Hp s Hs) as (_ & ? & _).
      + eexists _, _. split; [done|]. apply (generated_hex 16).
    - eexists _, _. split; [done|]. apply (generated_hex 16). }
  simpl. split; [|split].
  - split; [|done]. simpl. apply Forall_app. split; [done|]. apply Forall_singleton.
    split_and!; simpl; [apply (generated_hex 8)|done|lia|done].
  - split; [done|]. split; [exists []; by rewrite app_nil_r|].
    intros id Hid. left. unfold pending_ids in *. simpl. rewrite fmap_app. apply elem_of_app. by left.
  - unfold pending_ids. simpl. rewrite fmap_app. apply elem_of_app. right. by left.
Qed.

(** The state after an accepted batch: the exported spans leave [pending]. *)
Lemma drop_accepted_ok w w' ended st body :
  tracer_inv w' → ok_status st = true →
  w_now w <= w_now w' → pending_ids w' = pending_ids w →
  w_exchanges w' = w_exchanges w ++ [(export_request self (export_copy <$> ended), Response st body)] →
  let w'' := set_pending (filter (λ s, t_span_id s ∉ t_span_id <$> ended) (w_pending w')) w' in
  tracer_inv w'' ∧ tlater w w''.
Proof.
  intros [Hp He] Hst Hnow Hids Hlog. simpl. split.
  - split; [|done]. simpl. apply Forall_forall. intros s [_ Hs]%list_elem_of_filter.
    by eapply Forall_forall in Hp.
  - split; [done|]. simpl. split; [by eexists|]. intros id Hid. unfold accounted, pending_ids. simpl.
    rewrite <- Hids in Hid. apply list_elem_of_fmap in Hid as (s & -> & Hs).
    destruct (decide (t_span_id s ∈ t_span_id <$> ended)) as [Hin|Hin].
    + right. exists (export_copy <$> ended), st, body. split; [|split; [done|]].
      * simpl. rewrite Hlog. apply elem_of_app. right. by left.
      * apply list_elem_of_fmap in Hin as (s' & -> & Hs').
        apply list_elem_of_fmap. exists (export_copy s'). split; [done|]. by apply list_elem_of_fmap_2.
    + left. apply list_elem_of_fmap_2. apply list_elem_of_filter. done.
Qed.

Lemma observe_tracer q o w :
  valid_request q → tracer_inv w → tracer_inv (observe q o w) ∧ tlater w (observe q o w).
Proof.
  intros Hq [Hp He]. split.
  - split; [done|]. simpl. apply Forall_app. split; [done|]. by apply Forall_singleton.
  - split; [done|]. split; [by exists [(q, o)]|]. intros. by left.
Qed.

Lemma ended_valid w :
  tracer_inv w → filter is_ended (w_pending w) ≠ [] →
  valid_request (export_request self (export_copy <$> filter is_ended (w_pending w))).
Proof.
  intros [Hp _] Hne. eexists. split; [done|]. split; [by destruct (filter _ _)|].
  apply Forall_fmap, Forall_forall. intros s [Hs Hin]%list_elem_of_filter. simpl.
  eapply export_copy_valid; [|done]. by eapply Forall_forall in Hp.
Qed.

Lemma flush_safe w : tracer_inv w → tracer_safe (no_value (flush self w)).
Proof.
  intros HI. unfold flush, export.
  destruct (Nat.eqb_spec (length (w_pending w)) 0); [by constructor|].
  destruct (Nat.eqb_spec (length (filter is_ended (w_pending w))) 0) as [|Hne]; [by constructor|].
  rewrite length_fmap, (proj2 (Nat.eqb_neq _ _) Hne).
  assert (filter is_ended (w_pending w) ≠ []) as Hne' by (intros E; by rewrite E in Hne).
  pose proof (ended_valid w HI Hne') as Hq.
  apply safe_awaiting; [done|]. intros o w' HI' _.
  destruct (observe_tracer _ o w' Hq HI') as [HIo HLo].
  destruct o as [st body|]; simpl; [|by split; [|constructor]].
  destruct (ok_status st) eqn:Hst; simpl; [|by split; [|constructor]].
  destruct (drop_accepted_ok w' (observe (export_request self (export_copy <$> filter is_ended (w_pending w)))
              (Response st body) w') (filter is_ended (w_pending w)) st body) as [HI2 HL2]; try done.
  split; [done|by constructor].
Qed.

Lemma flush_fst w : (no_value (flush self w)).1 = w.
Proof.
  unfold flush, export. rewrite length_fmap. destruct (Nat.eqb _ _); [done|].
  by destruct (Nat.eqb (length (filter _ _)) 0).
Qed.

Lemma sync_mutate_safe id f w :
  keeps_identity (w_now w) f → tracer_inv w →
  tlater w (sync (mutate id f w)).1 ∧ tracer_safe (sync (mutate id f w)).
Proof.
  intros Hf HI. destruct (mutate_ok id f w Hf HI). by split; [|constructor].
Qed.

Lemma start_tracer_safe op w :
  tracer_inv w → tlater w (start_tracer self op w).1 ∧ tracer_safe (start_tracer self op w).
Proof using H0.
  intros HI. destruct op as [name o|id o| |id m|id i|id i o|id n v|id c|c]; cbn [start_tracer].
  - pose proof (startSpan_ok name o w HI) as (HI' & HL & Hid).
    destruct (startSpan name o w) as [w' id]. by split; [|constructor].
  - unfold endSpan. destruct (array_find (tracked_by id) (w_pending w)) as [s|].
    + destruct (mutate_ok id (end_tracked (w_now w) o) w) as [HI' HL']; [apply end_tracked_keeps|done|].
      split; [by rewrite flush_fst|by apply flush_safe].
    + split; [apply tlater_refl|by constructor].
  - split; [rewrite flush_fst; apply tlater_refl|by apply flush_safe].
  - by apply sync_mutate_safe.
  - by apply sync_mutate_safe.
  - by apply sync_mutate_safe.
  - by apply sync_mutate_safe.
  - by apply sync_mutate_safe.
  - split; [|constructor; [|done]]; [|by destruct HI].
    split; [done|]. split; [exists []; by rewrite app_nil_r|]. intros. by left.
Qed.

Lemma tracer_env_safe w w' : tracer_inv w → tracer_env w w' → tracer_inv w' ∧ tlater w w'.
Proof.
  intros [Hp He] (dt & Hdt & ->). split.
  - split; simpl; [|done]. eapply Forall_impl; [exact Hp|]. intros s. apply wf_tracked_later. lia.
  - split; simpl; [lia|]. split; [exists []; by rewrite app_nil_r|]. intros. by left.
Qed.

Lemma tracer_system_ok now s :
  tracer_reachable self now s → system_ok tracer_inv tlater tracer_post s.
Proof using H0.
  intros Hr. eapply (rely_guarantee _ _ _ _ _ start_tracer_safe tracer_env_safe (new_tracer now)); [|exact Hr].
  split; constructor.
Qed.
End invariant.

(** ** The climb to the root *)

(** [rooted pending id tid]: following parents from [id] through the pending spans
    ends at a root, whose trace is [tid]. *)
Inductive rooted (pending : list TrackedSpan) : jsstr → jsstr → Prop :=
| rooted_here id s :
    array_find (tracked_by id) pending = Some s → truthy_opt (t_parent_id s) = false →
    rooted pending id (t_trace_id s)
| rooted_up id s p tid :
    array_find (tracked_by id) pending = Some s → t_parent_id s = Some p → truthy p = true →
    rooted pending p tid → rooted pending id tid.

Lemma rooted_inv pending id tid :
  rooted pending id tid →
  ∃ s, array_find (tracked_by id) pending = Some s
    ∧ ∀ p, t_parent_id s = Some p → truthy p = true → rooted pending p tid.
Proof.
  destruct 1 as [id s Hf Hr|id s p tid Hf Hp Ht Hr]; exists s; (split; [done|]); intros p' Hp' Ht'.
  - rewrite Hp' in Hr. simpl in Hr. congruence.
  - by simplify_eq.
Qed.

Section climb.
Context (pending : list TrackedSpan).

Lemma climb_S n id tid : climb n pending id = Some tid → climb (S n) pending id = Some tid.
Proof.
  revert id. induction n as [|n IH]; intros id; [done|].
  cbn [climb]. destruct (array_find (tracked_by id) pending) as [s|]; [|done].
  destruct (truthy_opt (t_parent_id s)); [apply IH|done].
Qed.

Lemma climb_mono n m id tid : (n ≤ m)%nat → climb n pending id = Some tid → climb m pending id = Some tid.
Proof. induction 1; [done|]. intros ?%IHle. by apply climb_S. Qed.

Lemma climb_rooted n id tid : climb n pending id = Some tid → rooted pending id tid.
Proof.
  revert id. induction n as [|n IH]; intros id; simpl; [done|].
  destruct (array_find (tracked_by id) pending) as [s|] eqn:Hf; [|done].
  destruct (t_parent_id s) as [p|] eqn:Hp; simpl.
  - destruct (truthy p) eqn:Ht.
    + intros ?%IH. by eapply rooted_up.
    + intros [= <-]. apply rooted_here; [done|]. by rewrite Hp.
  - intros [= <-]. apply rooted_here; [done|]. by rewrite Hp.
Qed.

Lemma rooted_climb id tid : rooted pending id tid → ∃ n, climb n pending id = Some tid.
Proof.
  induction 1 as [id s Hf Hp|id s p tid Hf Hp Ht _ [n IH]].
  - exists 1%nat. simpl. by rewrite Hf, Hp.
  - exists (S n). simpl. rewrite Hf, Hp. simpl. by rewrite Ht.
Qed.

(** The least number of steps visits as many distinct pending ids. *)
Lemma climb_path n id tid :
  climb n pending id = Some tid → (∀ m, (m < n)%nat → climb m pending id = None) →
  ∃ path, length path = n ∧ NoDup path ∧ path ⊆ t_span_id <$> pending
    ∧ ∀ x, x ∈ path → ∃ m t, (m ≤ n)%nat ∧ climb m pending x = Some t.
Proof.
  revert id. induction n as [|n IH]; intros id; [done|]. intros Hc Hmin.
  pose proof Hc as Hc'. simpl in Hc.
  destruct (array_find (tracked_by id) pending) as [s|] eqn:Hf; [|done].
  pose proof (array_find_Some _ _ _ Hf) as [Hs Hid%bool_decide_eq_true].
  assert (id ∈ t_span_id <$> pending) as Hin by (rewrite <- Hid; by apply list_elem_of_fmap_2).
  destruct (truthy_opt (t_parent_id s)) eqn:Ht.
  - destruct (IH _ Hc) as (path & Hl & Hnd & Hsub & Hpath).
    { intros m Hm. specialize (Hmin (S m) ltac:(lia)). simpl in Hmin. by rewrite Hf, Ht in Hmin. }
    exists (id :: path). split; [by rewrite <- Hl|]. split_and!.
    + constructor; [|done]. intros (m & t & Hle & Hm)%Hpath. specialize (Hmin m ltac:(lia)). congruence.
    + intros y [->|Hy]%elem_of_cons; [done|by apply Hsub].
    + intros x [->|Hx]%elem_of_cons; [by exists (S n), tid|].
      destruct (Hpath x Hx) as (m & t & ? & ?). exists m, t. split; [lia|done].
  - destruct n as [|n].
    + exists [id]. split; [done|]. split_and!; [apply NoDup_singleton|by intros y ->%list_elem_of_singleton|].
      intros x ->%list_elem_of_singleton. by exists 1%nat, tid.
    + specialize (Hmin 1%nat ltac:(lia)). simpl in Hmin. by rewrite Hf, Ht in Hmin.
Qed.

Lemma least_climb n id tid :
  climb n pending id = Some tid →
  ∃ m, climb m pending id = Some tid ∧ ∀ k, (k < m)%nat → climb k pending id = None.
Proof.
  induction n as [|n IH]; [done|]. intros Hc.
  destruct (climb n pending id) as [t|] eqn:Hn.
  - apply IH. pose proof (climb_S _ _ _ Hn). congruence.
  - exists (S n). split; [done|]. intros k Hk. destruct (climb k pending id) as [t|] eqn:Hk'; [|done].
    apply (climb_mono k n) in Hk'; [|lia]. congruence.
Qed.

(** The bound of the loop is never reached before a root that exists. *)
Lemma climb_complete id tid :
  rooted pending id tid ↔ climb (length pending) pending id = Some tid.
Proof.
  split; [|apply climb_rooted]. intros (n & Hc)%rooted_climb.
  apply least_climb in Hc as (m & Hc & Hmin).
  apply (climb_mono m); [|done].
  destruct (climb_path m id tid Hc Hmin) as (path & <- & Hnd & Hsub & _).
  rewrite <- (length_fmap t_span_id pending). by apply submseteq_length, NoDup_submseteq.
Qed.
End climb.

(** ** Properties *)

Section properties.
Context `{CryptoOk} (self : exporter).
Implicit Types (w : tworld) (id : jsstr).

(** C8. Every batch the tracer sends, in any interleaving of its calls, is one
    non-empty export request of ended spans whose ids have the format the ingest
    API accepts and whose end is not before their start. *)
Theorem tracer_exports_valid now s q o :
  tracer_reachable self now s → (q, o) ∈ w_exchanges (s_world s) →
  ∃ spans, q = export_request self spans ∧ spans ≠ [] ∧ Forall valid_span spans.
Proof using H0.
  intros Hr Hin. destruct (tracer_system_ok self now s Hr) as (HI & _ & _).
  exact (proj1 (Forall_forall _ _) (inv_exchanges _ _ HI) _ Hin).
Qed.

(** C3. No span is lost: from the moment [startSpan] returned its id, a span is in
    [pending] until a batch that holds it has been answered with a success; and no
    method of the tracer throws. *)
Theorem tracer_no_loss now s r w :
  tracer_reachable self now s → (r, w) ∈ s_done s →
  ∃ v, r = Ok v ∧ ∀ id, v = Some id → accounted self (s_world s) id.
Proof using H0.
  intros Hr Hin. destruct (tracer_system_ok self now s Hr) as (_ & _ & Hd).
  destruct (proj1 (Forall_forall _ _) Hd _ Hin) as [HQ (_ & _ & Hacc)]. simpl in *.
  destruct r as [v|e]; [|done]. exists v. split; [done|]. intros id ->. by apply Hacc.
Qed.

(** The span a call to [endSpan] ends. *)
Lemma ended_in_batch id o w s :
  array_find (tracked_by id) (w_pending w) = Some s →
  ∃ s', s' ∈ filter is_ended (w_pending (mutate id (end_tracked (w_now w) o) w)) ∧ t_span_id s' = id.
Proof.
  intros Hf. exists (end_tracked (w_now w) o s).
  pose proof (array_find_Some _ _ _ Hf) as [_ Hid%bool_decide_eq_true].
  split; [|done]. apply list_elem_of_filter. split; [by eexists|].
  by apply update_first_hit.
Qed.

Lemma endSpan_starts id o w s :
  array_find (tracked_by id) (w_pending w) = Some s →
  let w1 := mutate id (end_tracked (w_now w) o) w in
  ∃ k, endSpan self id o w
       = (w1, Awaiting (export_request self (export_copy <$> filter is_ended (w_pending w1))) k)
    ∧ ∀ w2,
      (∀ st body, k (Response st body) w2 =
        (if ok_status st
         then set_pending (filter (λ s, t_span_id s ∉ t_span_id <$> filter is_ended (w_pending w1)) (w_pending w2)) w2
         else w2, Finished (Ok tt)))
      ∧ k Rejected w2 = (w2, Finished (Ok tt)).
Proof.
  intros Hf w1. unfold endSpan. rewrite Hf. fold w1.
  destruct (ended_in_batch id o w s Hf) as (s' & Hs' & _). fold w1 in Hs'.
  unfold flush, export. rewrite length_fmap.
  destruct (w_pending w1) as [|x l] eqn:Hp; [by apply not_elem_of_nil in Hs'|].
  destruct (filter is_ended (x :: l)) as [|y l'] eqn:Hfl; [by apply not_elem_of_nil in Hs'|].
  simpl. eexists. split; [done|]. intros w2. split; [|done].
  intros st body. by destruct (ok_status st).
Qed.

(** C24. Ending a pending span flushes: the call sends at once all ended spans, this one
    among them.  Whatever happens to the pending spans until the answer is there: on
    success those with the id of a span that was sent are removed, also if they were
    started or ended meanwhile, and all others stay, in order; on an error status, a
    network failure or the time-out all stay, so the next flush sends them again; in each
    case the call ends normally.  If the ids are distinct and no span was started or ended
    meanwhile, exactly the spans that have not ended stay after a success. *)
Theorem endSpan_flushes id o w s :
  array_find (tracked_by id) (w_pending w) = Some s →
  let w1 := mutate id (end_tracked (w_now w) o) w in
  let batch := filter is_ended (w_pending w1) in
  id ∈ t_span_id <$> batch
  ∧ ∃ k, endSpan self id o w = (w1, Awaiting (export_request self (export_copy <$> batch)) k)
    ∧ (∀ out w2,
        (k out w2).2 = Finished (Ok tt)
        ∧ w_pending (k out w2).1 =
            match out with
            | Response st _ =>
              if ok_status st then filter (λ x, t_span_id x ∉ t_span_id <$> batch) (w_pending w2) else w_pending w2
            | Rejected => w_pending w2
            end)
    ∧ (NoDup (pending_ids w) → ∀ st body w2, ok_status st = true → w_pending w2 = w_pending w1 →
        w_pending (k (Response st body) w2).1 = filter (λ x, ¬ is_ended x) (w_pending w1)).
Proof.
  intros Hf w1 batch. destruct (endSpan_starts id o w s Hf) as (k & Hk & Hout). fold w1 in Hk, Hout. fold batch in Hk, Hout.
  split.
  { destruct (ended_in_batch id o w s Hf) as (s' & Hs' & <-). by apply list_elem_of_fmap_2. }
  exists k. split; [done|]. split.
  - intros out w2. destruct (Hout w2) as [Hresp Hrej]. destruct out as [st body|]; [|by rewrite Hrej].
    rewrite Hresp. split; [done|]. by destruct (ok_status st).
  - intros Hnd st body w2 Hst Hw2. destruct (Hout w2) as [Hresp _]. rewrite Hresp, Hst. simpl. rewrite Hw2.
    assert (NoDup (t_span_id <$> w_pending w1)) as Hnd1.
    { unfold w1, mutate, pending_ids in *. simpl. by rewrite update_first_map. }
    exact (filter_not_listed t_span_id is_ended (w_pending w1) Hnd1).
Qed.

(** Overlapping calls send a span twice: while the batch of a first [endSpan]
    is in flight, the batch of a second one holds the first span again. *)
Theorem overlapping_exports_duplicate id1 id2 o1 o2 w s1 s2 :
  array_find (tracked_by id1) (w_pending w) = Some s1 →
  array_find (tracked_by id2) (w_pending w) = Some s2 → id1 ≠ id2 →
  ∃ w1 batch1 k1 w2 batch2 k2,
    endSpan self id1 o1 w = (w1, Awaiting (export_request self batch1) k1)
    ∧ endSpan self id2 o2 w1 = (w2, Awaiting (export_request self batch2) k2)
    ∧ id1 ∈ span_id <$> batch1 ∧ id1 ∈ span_id <$> batch2.
Proof.
  intros Hf1 Hf2 Hne. set (w1 := mutate id1 (end_tracked (w_now w) o1) w).
  destruct (endSpan_starts id1 o1 w s1 Hf1) as (k1 & Hk1 & _).
  assert (array_find (tracked_by id2) (w_pending w1) = Some s2) as Hf2'.
  { unfold w1, mutate. simpl. rewrite update_first_other; [done|].
    intros x Hx. unfold tracked_by in *. apply bool_decide_eq_true in Hx. subst.
    split; by apply bool_decide_eq_false. }
  destruct (endSpan_starts id2 o2 w1 s2 Hf2') as (k2 & Hk2 & _).
  do 6 eexists. split; [exact Hk1|]. split; [exact Hk2|].
  destruct (ended_in_batch id1 o1 w s1 Hf1) as (s' & Hs' & Hid). fold w1 in Hs'.
  split; (apply list_elem_of_fmap; exists (export_copy s'); split; [done|]; apply list_elem_of_fmap_2).
  - done.
  - apply list_elem_of_filter in Hs' as [He Hs']. apply list_elem_of_filter. split; [done|].
    unfold mutate. simpl. apply update_first_keeps; [done|].
    unfold tracked_by. apply bool_decide_eq_false. congruence.
Qed.

(** C30. The trace of a child: [startSpan] with a parent takes the trace of the root
    that the pending ancestors lead to, whatever their number, and draws a new
    trace id exactly when they lead to none; the loop always ends. *)
Theorem startSpan_trace name o w p :
  o ≫= so_parentSpanId = Some p → truthy p = true →
  ∃ s, w_pending (startSpan name o w).1 = w_pending w ++ [s]
    ∧ t_span_id s = (startSpan name o w).2 ∧ t_parent_id s = Some p
    ∧ ((∃ tid, rooted (w_pending w) p tid ∧ t_trace_id s = tid)
       ∨ (¬ (∃ tid, rooted (w_pending w) p tid) ∧ t_trace_id s = generateTraceId (S (w_draws w)))).
Proof.
  intros Ho Hp. unfold startSpan. rewrite Ho. simpl. rewrite Hp. unfold findTraceId. simpl.
  destruct (climb (length (w_pending w)) (w_pending w) p) as [tid|] eqn:Hc; simpl;
    eexists; split_and!; try done.
  - left. exists tid. split; [by apply climb_complete|done].
  - right. split; [|done]. intros (tid & Hr%climb_complete). congruence.
Qed.

(** A trace is split when an ancestor has been exported before its
    descendants: a child of a span that is still pending does not get that span's
    trace, but a new one. *)
Theorem exported_ancestor_splits_trace name o w p sp g :
  o ≫= so_parentSpanId = Some p → truthy p = true →
  array_find (tracked_by p) (w_pending w) = Some sp →
  t_parent_id sp = Some g → truthy g = true → g ∉ pending_ids w →
  ∃ s, w_pending (startSpan name o w).1 = w_pending w ++ [s] ∧ t_parent_id s = Some (t_span_id sp)
    ∧ t_trace_id s = generateTraceId (S (w_draws w)).
Proof.
  intros Ho Hp Hsp Hg Htg Hni. pose proof (array_find_Some _ _ _ Hsp) as [_ Hid%bool_decide_eq_true].
  assert (climb (length (w_pending w)) (w_pending w) p = None) as Hc.
  { destruct (climb _ _ _) as [tid|] eqn:Hc; [|done]. exfalso.
    apply climb_rooted, rooted_inv in Hc as (s & Hs & Hup). simplify_eq.
    apply Hup, rooted_inv in Hg as (sg & Hsg & _); [|done].
    apply array_find_Some in Hsg as [Hin Heq%bool_decide_eq_true]. subst.
    by destruct Hni; apply list_elem_of_fmap_2. }
  unfold startSpan. rewrite Ho. simpl. rewrite Hp. unfold findTraceId. simpl. rewrite Hc.
  eexists. split_and!; simpl; [done|by rewrite Hid|done].
Qed.
End properties.

(** ** Concrete runs *)

Module Runs.
#[export] Instance demo_crypto : Crypto := λ call n, replicate n (N.of_nat call mod 256)%N.

#[export] Instance demo_crypto_ok : CryptoOk.
Proof.
  intros call n. split; [apply length_replicate|].
  apply Forall_replicate, N.mod_upper_bound. done.
Qed.

Definition self : exporter := {| e_baseUrl := js "http://localhost:8000"; e_apiKey := None |}.
Definition child_of (p : jsstr) : option start_options :=
  Some {| so_parentSpanId := Some p; so_kind := Some llm; so_attributes := None |}.

(** A root and its child; the child ends and the server accepts the batch. *)
Definition root_id : jsstr := generateSpanId 0.
Definition child_id : jsstr := generateSpanId 2.
Definition opened : list (event tworld tracer_op) :=
  [EStart (StartSpan (js "root") None); EStart (StartSpan (js "call") (child_of root_id))].
Definition sent : list (event tworld tracer_op) :=
  opened ++ [EStart (EndSpan child_id None); EAnswer 0 (Response 200 None)].

Definition final (es : list (event tworld tracer_op)) : system tworld (option jsstr) :=
  run (start_tracer self) es (System (new_tracer 1000) [] []).
Definition w0 : tworld := s_world (final opened).

Lemma sent_reachable : tracer_reachable self 1000 (final sent).
Proof. apply run_reachable. repeat constructor. Qed.

Lemma tracer_exports_valid_witness :
  ∃ q o, (q, o) ∈ w_exchanges (s_world (final sent))
    ∧ ∃ spans, q = export_request self spans ∧ spans ≠ [] ∧ Forall valid_span spans.
Proof.
  assert (∃ q o, (q, o) ∈ w_exchanges (s_world (final sent))) as (q & o & Hin)
    by (do 2 eexists; left).
  exists q, o. split; [exact Hin|].
  exact (tracer_exports_valid self 1000 (final sent) q o sent_reachable Hin).
Defined.

Lemma tracer_no_loss_witness :
  ∃ w, (Ok (Some child_id), w) ∈ s_done (final sent)
    ∧ accounted self (s_world (final sent)) child_id.
Proof.
  assert (∃ w, (Ok (Some child_id), w) ∈ s_done (final sent)) as (w & Hin) by (eexists; right; left).
  exists w. split; [exact Hin|].
  destruct (tracer_no_loss self 1000 (final sent) _ w sent_reachable Hin) as (v & E & Hacc).
  apply Hacc. congruence.
Defined.

Lemma opened_ids : pending_ids w0 = [root_id; child_id].
Proof. vm_compute. reflexivity. Qed.

(** A third span is started while the batch is on its way: it and the root stay. *)
Lemma endSpan_flushes_witness :
  ∃ s (k : outcome → tworld → tworld * task tworld unit),
    array_find (tracked_by child_id) (w_pending w0) = Some s
    ∧ let w1 := mutate child_id (end_tracked (w_now w0) None) w0 in
      let w2 := (startSpan (js "next") None w1).1 in
      pending_ids w2 = [root_id; child_id; (startSpan (js "next") None w1).2]
      ∧ pending_ids (k (Response 200 None) w2).1 = [root_id; (startSpan (js "next") None w1).2].
Proof.
  assert (∃ s, array_find (tracked_by child_id) (w_pending w0) = Some s) as [s Hs]
    by (eexists; vm_compute; reflexivity).
  destruct (endSpan_flushes self child_id None w0 s Hs) as (_ & k & _ & Hk & _).
  exists s, k. split; [exact Hs|]. cbv zeta. split; [vm_compute; reflexivity|].
  unfold pending_ids. rewrite (proj2 (Hk _ _)). vm_compute. reflexivity.
Defined.

Lemma overlapping_exports_duplicate_witness :
  ∃ w1 batch1 k1 w2 batch2 k2,
    endSpan self root_id None w0 = (w1, Awaiting (export_request self batch1) k1)
    ∧ endSpan self child_id None w1 = (w2, Awaiting (export_request self batch2) k2)
    ∧ root_id ∈ span_id <$> batch1 ∧ root_id ∈ span_id <$> batch2.
Proof.
  eapply (overlapping_exports_duplicate self root_id child_id None None w0);
    [vm_compute; reflexivity|vm_compute; reflexivity|].
  apply (bool_decide_unpack _). vm_compute. exact I.
Defined.

Lemma startSpan_trace_witness :
  ∃ s, w_pending (startSpan (js "call") (child_of child_id) w0).1 = w_pending w0 ++ [s]
    ∧ t_parent_id s = Some child_id.
Proof.
  destruct (startSpan_trace (js "call") (child_of child_id) w0 child_id) as (s & H1 & _ & H3 & _);
    [reflexivity..|]. by exists s.
Defined.

(** The grandparent has been exported, its child is still pending. *)
Definition w_split : tworld := s_world (final (opened ++
  [EStart (EndSpan root_id None); EAnswer 0 (Response 200 None)])).

Lemma exported_ancestor_splits_trace_witness :
  ∃ s, w_pending (startSpan (js "tool") (child_of child_id) w_split).1 = w_pending w_split ++ [s]
    ∧ t_trace_id s = generateTraceId (S (w_draws w_split)).
Proof.
  assert (∃ sp, array_find (tracked_by child_id) (w_pending w_split) = Some sp ∧ t_parent_id sp = Some root_id)
    as (sp & Hsp & Hg) by (eexists; split; [vm_compute; reflexivity|reflexivity]).
  destruct (exported_ancestor_splits_trace (js "tool") (child_of child_id) w_split child_id sp root_id)
    as (s & H1 & _ & H3); [reflexivity|reflexivity|exact Hsp|exact Hg|reflexivity| |by exists s].
  apply (bool_decide_unpack _). vm_compute. exact I.
Defined.
End Runs.
