(* ===== verification/SdkFacade.v ===== *)
(** The SDK object: [OmnevalSDK] of sdk/ts/src/omneval.ts, and the Node.js entry
    point, sdk/ts/src/node/index.ts and sdk/ts/src/node/exporter.ts.

    The SDK object holds a tracer and a client once [init] has run and forwards its
    methods to them.  [Omneval] gives, for each method, what it does: the call of the
    tracer ([SdkTracer]) or of the client ([SdkClient]) it makes, or its own answer. *)
From S2P Require Export SdkTypes.
From S2P Require SdkClient SdkTracer.

Module Omneval.
Import SdkClient SdkTracer.

(** The fields [config], [tracer], [client] and [exporter]. *)
Record sdk : Type := Sdk {
  config : option OmnevalConfig;
  tracer : option tworld;
  sdk_client : option client;
  sdk_exporter : option exporter;
}.

Definition createOmneval : sdk := Sdk None None None None.

(** [init]: a second call replaces the tracer, and with it its pending spans. *)
Definition init (now : Z) (cfg : OmnevalConfig) (s : sdk) : sdk :=
  Sdk (Some cfg) (Some (new_tracer now)) (Some (new_client cfg))
    (Some {| e_baseUrl := cfg_baseUrl cfg; e_apiKey := cfg_apiKey cfg |}).

(** What a method does. *)
Inductive action : Type :=
| Trace (op : tracer_op)
| Ask (op : client_op)
| WarnAndReturn (warning : jsstr) (value : jsstr)
| Resolve
| Throw (message : jsstr).

Definition not_initialised : jsstr := js "@omneval/sdk: Omneval.init() not called".

Definition with_tracer (s : sdk) (op : tracer_op) : action :=
  match tracer s with Some _ => Trace op | None => Resolve end.
Definition with_client (s : sdk) (a : action) : action :=
  match sdk_client s with Some _ => a | None => Throw not_initialised end.

Definition startSpan (s : sdk) (name : jsstr) (attributes : option SpanAttributes)
    (kind : option SpanKind) (parentSpanId : option jsstr) : action :=
  match tracer s with
  | None => WarnAndReturn (js "@omneval/sdk: Omneval.init() not called — startSpan() is a no-op") []
  | Some _ =>
    Trace (StartSpan name (Some {| so_parentSpanId := parentSpanId; so_kind := kind;
                                   so_attributes := attributes |}))
  end.

(** [string | { output?, attributes? } | undefined]. *)
Inductive end_argument : Type :=
| EndOutput (output : jsstr)
| EndObject (output : option jsstr) (attributes : option SpanAttributes)
| EndNothing.

Definition endSpan (s : sdk) (spanId : jsstr) (output : end_argument) : action :=
  let '(outputStr, extraAttrs) :=
    match output with
    | EndOutput o => (Some o, None)
    | EndObject o a => (o, a)
    | EndNothing => (None, None)
    end in
  with_tracer s (EndSpan spanId (Some {| eo_output := outputStr; eo_attributes := extraAttrs |})).

Definition setModel (s : sdk) (spanId m : jsstr) : action := with_tracer s (SetModel spanId m).
Definition setInput (s : sdk) (spanId i : jsstr) : action := with_tracer s (SetInput spanId i).
Definition setTokens (s : sdk) (spanId : jsstr) (i o : num) : action :=
  with_tracer s (SetTokens spanId i o).
Definition setPrompt (s : sdk) (spanId n : jsstr) (v : option num) : action :=
  with_tracer s (SetPrompt spanId n v).
Definition setConversationId (s : sdk) (spanId c : jsstr) : action :=
  with_tracer s (SetConversationId spanId c).
Definition setActiveConversationId (s : sdk) (c : jsstr) : action :=
  with_tracer s (SetActiveConversationId c).
Definition flush (s : sdk) : action := with_tracer s Flush.

(** [string | { label?, version? } | undefined]. *)
Inductive prompt_argument : Type :=
| ByLabel (label : jsstr)
| ByOptions (options : option GetPromptOptions).

Definition getPrompt (s : sdk) (name : jsstr) (arg : prompt_argument) : action :=
  with_client s
    (match arg with
     | ByLabel l => Ask (GetPrompt name (Some {| gp_label := Some l; gp_version := None |}))
     | ByOptions o => Ask (GetPrompt name o)
     end).

Definition getPromptByVersion (s : sdk) (name : jsstr) (version : Z) : action :=
  with_client s (Ask (GetPromptByVersion name version)).

(** [string | { name, value, reasoning? }]. *)
Inductive score_argument : Type :=
| ScoreName (evalName : jsstr)
| ScoreOptions (options : WriteScoreOptions).

Definition writeScore (s : sdk) (spanId : jsstr) (arg : score_argument)
    (value : option num) (reasoning : option jsstr) : action :=
  with_client s
    (match arg with
     | ScoreName evalName =>
       match value with
       | None => Throw (js "value is required")
       | Some v =>
         Ask (WriteScore spanId {| ws_name := evalName; ws_value := v; ws_reasoning := reasoning |})
       end
     | ScoreOptions options => Ask (WriteScore spanId options)
     end).

(** The calls of the SDK's public interface. *)
Inductive call : Type :=
| CStartSpan (name : jsstr) (attributes : option SpanAttributes) (kind : option SpanKind) (parent : option jsstr)
| CEndSpan (spanId : jsstr) (output : end_argument)
| CSetModel (spanId m : jsstr)
| CSetInput (spanId i : jsstr)
| CSetTokens (spanId : jsstr) (i o : num)
| CSetPrompt (spanId n : jsstr) (v : option num)
| CSetConversationId (spanId c : jsstr)
| CSetActiveConversationId (c : jsstr)
| CFlush
| CGetPrompt (name : jsstr) (arg : prompt_argument)
| CGetPromptByVersion (name : jsstr) (version : Z)
| CWriteScore (spanId : jsstr) (arg : score_argument) (value : option num) (reasoning : option jsstr).

Definition dispatch (s : sdk) (c : call) : action :=
  match c with
  | CStartSpan n a k p => startSpan s n a k p
  | CEndSpan i o => endSpan s i o
  | CSetModel i m => setModel s i m
  | CSetInput i x => setInput s i x
  | CSetTokens i x y => setTokens s i x y
  | CSetPrompt i n v => setPrompt s i n v
  | CSetConversationId i c => setConversationId s i c
  | CSetActiveConversationId c => setActiveConversationId s c
  | CFlush => flush s
  | CGetPrompt n a => getPrompt s n a
  | CGetPromptByVersion n v => getPromptByVersion s n v
  | CWriteScore i a v r => writeScore s i a v r
  end.

Definition tracing (c : call) : bool :=
  match c with CGetPrompt _ _ | CGetPromptByVersion _ _ | CWriteScore _ _ _ _ => false | _ => true end.

(** Before [init], tracing calls do nothing and never throw, and the client
    calls throw the not-initialised error; after [init], whatever the order of
    [init] calls, tracing calls reach the tracer, and client calls the client, the
    only exception being a score by name without a value. *)
Theorem dispatch_by_init s now cfg c :
  (if tracing c
   then dispatch createOmneval c = Resolve ∨ ∃ warning, dispatch createOmneval c = WarnAndReturn warning []
   else dispatch createOmneval c = Throw not_initialised)
  ∧ (if tracing c
     then ∃ op, dispatch (init now cfg s) c = Trace op
     else (∃ op, dispatch (init now cfg s) c = Ask op)
          ∨ (∃ i n r, c = CWriteScore i (ScoreName n) None r)
            ∧ dispatch (init now cfg s) c = Throw (js "value is required")).
Proof.
  destruct c as [n a k p|i [o|o a|]|i m|i x|i x y|i n v|i c|c| |n [l|o]|n v|i [n|o] [v|] r]; simpl;
    (split; [first [done|left; done|right; by eexists]|]);
    first [by eexists|left; by eexists|right; split; [by repeat eexists|done]].
Qed.
End Omneval.

(** ** The Node.js entry point *)

Module Node.
(** [config.baseUrl.replace(/\/+$/, "")]. *)
Fixpoint drop_slashes (r : jsstr) : jsstr :=
  match r with
  | c :: r' => if (c =? c_slash)%N then drop_slashes r' else r
  | [] => []
  end.
Definition strip_slashes (s : jsstr) : jsstr := rev (drop_slashes (rev s)).

Record exporter_config : Type := {
  ec_url : jsstr;
  ec_headers : option (list (jsstr * jsstr));
}.

Definition buildOmnevalExporterConfig (baseUrl : jsstr) (apiKey : option jsstr) : exporter_config :=
  {| ec_url := strip_slashes baseUrl ++ js "/v1/traces";
     ec_headers := if truthy_opt apiKey then Some [(js "X-API-Key", nullish apiKey [])] else None |}.

Record InstrumentOptions : Type := {
  io_baseUrl : jsstr;
  io_apiKey : option jsstr;
  io_serviceName : option jsstr;
}.

(** The OpenTelemetry packages: [OTLPTraceExporter] and [NodeSDK] build objects from
    a configuration; the SDK object is started and shut down.  A factory is its two
    constructors. *)
Record OTelFactory (exporter_obj sdk_obj : Type) : Type := {
  OTLPTraceExporter : exporter_config → exporter_obj;
  NodeSDK : exporter_obj → option jsstr → sdk_obj;
}.
Arguments OTLPTraceExporter {_ _} _ _.
Arguments NodeSDK {_ _} _ _ _.

Section node.
Context {exporter_obj sdk_obj : Type}.
Abbreviation factory := (OTelFactory exporter_obj sdk_obj).

(** [import(...)] of the two packages, with the message of the exception a failed
    import throws ([None] for a thrown value that is not an [Error]). *)
Definition loadOTelFactory (imported : result (option jsstr) factory) : result (option jsstr) factory :=
  match imported with
  | Ok f => Ok f
  | Err (Some message) =>
    if includes (js "Cannot find module") message
    then Err (Some (js "@omneval/sdk/node: @opentelemetry/sdk-node is not installed. "
                    ++ js "Install it with: npm install @opentelemetry/sdk-node @opentelemetry/exporter-trace-otlp-http"))
    else Err (Some message)
  | Err None => Err None
  end.

(** The module variable [_factory], [null] when the module is loaded. *)
Definition initial_factory : option factory := None.
Definition setFactory (f : factory) (_ : option factory) : option factory := Some f.
Definition resetFactory (_ : option factory) : option factory := None.

(** The SDK object is started before it is returned; the shutdown function of the
    result shuts that object down. *)
Inductive started : Type := Started (sdk : sdk_obj).

Definition instrumentWithFactory (module_factory : option factory) (options : InstrumentOptions)
    (factoryOverride : option factory) : result jsstr started :=
  if negb (truthy (io_baseUrl options)) then Err (js "instrument: baseUrl is required") else
  match (match factoryOverride with Some f => Some f | None => module_factory end) with
  | None =>
    Err (js "@omneval/sdk/node: OTel factory not available. "
         ++ js "This should not happen in production. "
         ++ js "If you see this error, please report it at https://github.com/omneval/omneval/issues")
  | Some f =>
    let exporterConfig := buildOmnevalExporterConfig (io_baseUrl options) (io_apiKey options) in
    let serviceName := s ← io_serviceName options; if truthy s then Some s else None in
    Ok (Started (NodeSDK f (OTLPTraceExporter f exporterConfig) serviceName))
  end.

Definition instrument (module_factory : option factory) (options : InstrumentOptions) : result jsstr started :=
  instrumentWithFactory module_factory options None.

(** As shipped, [instrument] always throws: no code of the module stores a
    loaded factory in [_factory] ([loadOTelFactory] is never called), so the
    packages are never used, whatever the options.  Only after the test hook
    [_setFactory] does a call with a base URL start the SDK. *)
Theorem instrument_needs_test_hook options f m :
  (∃ message, instrument initial_factory options = Err message)
  ∧ (∃ sdk, instrument (setFactory f m) options
       = if truthy (io_baseUrl options) then Ok (Started sdk) else Err (js "instrument: baseUrl is required"))
  ∧ ∃ message, instrument (resetFactory (setFactory f m)) options = Err message.
Proof.
  unfold instrument, instrumentWithFactory.
  destruct (truthy (io_baseUrl options)); simpl; split_and!; eauto.
  exists (NodeSDK f (OTLPTraceExporter f (buildOmnevalExporterConfig [] None)) None). done.
Qed.
End node.

Lemma drop_slashes_spec r :
  ∃ k, r = replicate k c_slash ++ drop_slashes r ∧ ∀ t, drop_slashes r ≠ c_slash :: t.
Proof.
  induction r as [|c r (k & IH & Hne)]; [by exists 0%nat|]. simpl.
  destruct (N.eqb_spec c c_slash) as [->|Hc].
  - exists (S k). split; [|done]. simpl. by rewrite <- IH.
  - exists 0%nat. split; [done|]. intros t [= ->]. done.
Qed.

(** The OTLP endpoint: the configured URL is the base URL without its trailing
    slashes, however many, followed by [/v1/traces], so a slash is never doubled at
    the joint; the key travels in [X-API-Key] exactly when it is a non-empty string. *)
Theorem exporter_config_endpoint baseUrl apiKey :
  ∃ base k, baseUrl = base ++ replicate k c_slash
    ∧ ends_with [c_slash] base = false
    ∧ ec_url (buildOmnevalExporterConfig baseUrl apiKey) = base ++ js "/v1/traces"
    ∧ (ec_headers (buildOmnevalExporterConfig baseUrl apiKey) = None ↔ apiKey = None ∨ apiKey = Some []).
Proof.
  destruct (drop_slashes_spec (rev baseUrl)) as (k & Hk & Hne).
  exists (strip_slashes baseUrl), k. split_and!; [| |done|].
  - unfold strip_slashes. apply (f_equal (@rev N)) in Hk. rewrite rev_involutive, rev_app_distr in Hk.
    rewrite Hk at 1. f_equal. apply rev_replicate.
  - unfold ends_with, strip_slashes. rewrite rev_involutive.
    destruct (drop_slashes (rev baseUrl)) as [|c r]; [done|].
    destruct (decide (c = c_slash)) as [->|Hc]; [by edestruct Hne|].
    change ((c_slash =? c)%N && true = false). apply andb_false_iff. left. apply N.eqb_neq. congruence.
  - unfold buildOmnevalExporterConfig. simpl. destruct apiKey as [[|c r]|]; simpl; (split; [intros E|intros [E|E]]);
    solve [done | by left | by right].
Qed.
End Node.
