(* ===== verification/Formatters.v ===== *)
(** The display formatters of the UI: ui/src/utils/formatters.ts. *)
From Stdlib Require Import QArith_base Qround Qreduction Qabs Lqa.
From S2P Require Export JsJson.

Open Scope Z_scope.

(** ** Dates

    [Date.parse] of a string that is not in the ISO format of the language, the local
    time zone and the locale are the host's. *)
Class DateHost : Type := {
  date_parse : jsstr → option Z;
  full_year : Z → Z;
  to_locale_string : bool → Z → jsstr;
}.

(** [new Date(iso).getTime()]. *)
Definition get_time `{DateHost} (iso : jsstr) : num :=
  match date_parse iso with Some t => of_Z t | None => NaN end.

Definition formatTimeWithYear `{DateHost} (now : Z) (iso : jsstr) : jsstr :=
  if negb (truthy iso) then js "N/A" else
  match date_parse iso with
  | None => js "Invalid Date"
  | Some d =>
    let sameYear := full_year d =? full_year now in
    to_locale_string (negb sameYear) d
  end.

Definition formatTime `{DateHost} (now : Z) (iso : jsstr) : jsstr := formatTimeWithYear now iso.

(** ** Durations *)

Definition formatDurationMs (ms : num) : jsstr :=
  let long :=
    if num_lt ms (of_Z 3600000) then
      let minutes := num_floor (num_div ms 60000) in
      let seconds := num_round (num_div (num_rem ms 60000) 1000) in
      let '(minutes, seconds) :=
        if num_eqb seconds (of_Z 60) then (num_add minutes (of_Z 1), of_Z 0) else (minutes, seconds) in
      if num_eqb minutes (of_Z 60) then js "1h"
      else if num_eqb seconds (of_Z 0) then show_num minutes ++ js "m"
      else show_num minutes ++ js "m " ++ show_num seconds ++ js "s"
    else
      let hours := num_floor (num_div ms 3600000) in
      let minutes := num_floor (num_div (num_rem ms 3600000) 60000) in
      if num_eqb minutes (of_Z 0) then show_num hours ++ js "h"
      else show_num hours ++ js "h " ++ show_num minutes ++ js "m" in
  if num_le ms (of_Z 0) then js "0ms" else
  if num_lt ms (of_Z 1) then js "< 1ms" else
  if num_lt ms (of_Z 1000) then show_num (num_round ms) ++ js "ms" else
  if num_lt ms (of_Z 60000) then
    let rendered := to_fixed 1 (num_div ms 1000) in
    if decide (rendered = js "60.0") then long else rendered ++ js "s"
  else long.

Definition formatDuration `{DateHost} (start end_ : jsstr) : jsstr :=
  if negb (truthy start) || negb (truthy end_) then js "N/A"
  else formatDurationMs (num_sub (get_time end_) (get_time start)).

Definition formatMs (ms : num) : jsstr := formatDurationMs ms.

Definition timeRangeLabel `{DateHost} (now : Z) (from : jsstr) : jsstr :=
  let diffHours := num_div (num_sub (of_Z now) (get_time from)) (1000 * 60 * 60) in
  if num_le diffHours (of_Z 1) then js "Past hour" else
  if num_le diffHours (of_Z 24) then js "Past 24 hours" else
  if num_le diffHours (of_Z 168) then js "Past 7 days" else js "Custom range".

(** ** Costs and numbers *)

(** The literal [0.001], a double. *)
Definition tenth_of_a_cent : num := rnd (1 # 1000).

Definition formatCost (cost : option num) : jsstr :=
  match cost with
  | None => js "$0.00"
  | Some cost =>
    if is_nan cost || num_le cost (of_Z 0) then js "$0.00" else
    if num_le (of_Z 1) cost then js "$" ++ to_fixed 2 cost else
    if num_lt cost tenth_of_a_cent then js "< $0.001" else
    let rendered := to_fixed 3 cost in
    js "$" ++ (if ends_with (js "0") rendered then slice_to (-1) rendered else rendered)
  end.

(** [parseFloat(s)]: the longest numeric prefix. *)
Definition parse_float (s : jsstr) : num :=
  let s := trim_start s in
  let '(sg, s) := match s with 45%N :: r => (true, r) | 43%N :: r => (false, r) | _ => (false, s) end in
  let x :=
    if starts_with (js "Infinity") s then PInf else
    let '(i, s) := take_digits s in
    let '(f, s) := match s with 46%N :: r => take_digits r | _ => ([], s) end in
    match i ++ f with
    | [] => NaN
    | d =>
      let e := match exp_part s with Some (e, _) => e | None => 0 end in
      rnd (inject_Z (digits_val d) * pow10 (e - Z.of_nat (length f)))%Q
    end in
  if sg : bool then num_neg x else x.

Fixpoint hex_digits (s : jsstr) : jsstr :=
  match s with c :: r => if hex_val c then c :: hex_digits r else [] | [] => [] end.

(** [parseInt(s)]: an integer prefix, in hexadecimal after [0x]. *)
Definition parse_int (s : jsstr) : num :=
  let s := trim_start s in
  let '(sg, s) := match s with 45%N :: r => (true, r) | 43%N :: r => (false, r) | _ => (false, s) end in
  let x :=
    match s with
    | 48%N :: (120%N | 88%N) :: r =>
      match hex_digits r with
      | [] => NaN
      | h => of_Z (foldl (λ n c, n * 16 + Z.of_N (default 0%N (hex_val c))) 0 h)
      end
    | _ => match (take_digits s).1 with [] => NaN | d => of_Z (digits_val d) end
    end in
  if sg : bool then num_neg x else x.

(** What the charts and tables pass: nothing, a number, a string or a boolean. *)
Inductive cell : Type :=
| CellNone
| CellNum (n : num)
| CellStr (s : jsstr)
| CellBool (b : bool).

Definition formatNumber (v : cell) : jsstr :=
  match v with
  | CellNone => js "0"
  | _ =>
    let num :=
      match v with
      | CellStr s => parse_float s
      | CellNum n => n
      | CellBool b => if b then of_Z 1 else of_Z 0
      | CellNone => NaN
      end in
    if is_nan num then js "0" else
    if num_le (of_Z 1000000) num then to_fixed 1 (num_div num 1000000) ++ js "M" else
    if num_le (of_Z 1000) num then to_fixed 1 (num_div num 1000) ++ js "K" else to_fixed 2 num
  end.

Record HasTokenCounts : Type := { input_tokens : num; output_tokens : num }.

Definition totalTokens (span : HasTokenCounts) : num :=
  num_add (num_max (of_Z 0) (input_tokens span)) (num_max (of_Z 0) (output_tokens span)).

Definition formatStatus (code : option jsstr) : jsstr :=
  match code with
  | None => js "—"
  | Some code =>
    if negb (truthy code) then js "—" else
    if decide (to_upper code = js "UNSET") then js "No status" else code
  end.

(** ** Text *)

(** Lengths are non-negative at every call. *)
Definition truncate (str : option jsstr) (len : nat) : jsstr :=
  match str with
  | None => js "—"
  | Some s =>
    if negb (truthy s) then js "—"
    else if (len <? length s)%nat then take len s ++ js "…" else s
  end.

(** [parsed[0]] of a parsed value; [null[0]] throws, which the callers catch with
    the result they give when there is no content. *)
Definition first_element (v : json) : option json :=
  match v with
  | JArr (x :: _) => Some x
  | JObj fs => prop_get (js "0") fs
  | _ => None
  end.

Definition safeExtractInputOutput (text : jsstr) : jsstr :=
  match parse text with
  | None => text
  | Some parsed => default text (first ← first_element parsed; string_field (js "content") first)
  end.

(** ** Chat messages *)

Record ChatTurn : Type := { role : jsstr; content : jsstr }.

(** The messages of a JSON array whose first element is a chat message. *)
Definition chat_array (raw : jsstr) : option (list json) :=
  match parse raw with
  | Some (JArr ((first :: _) as l)) =>
    match string_field (js "content") first, string_field (js "role") first with
    | Some _, Some _ => Some l
    | _, _ => None
    end
  | _ => None
  end.

Definition turn_of_json (m : json) : option ChatTurn :=
  c ← string_field (js "content") m;
  r ← string_field (js "role") m;
  Some {| role := r; content := c |}.

(** The code units [.] does not match. *)
Definition line_terminator (c : N) : bool := bool_decide (c ∈ [10; 13; 8232; 8233]%N).

Fixpoint take_while (p : N → bool) (s : jsstr) : jsstr * jsstr :=
  match s with
  | c :: r => if p c then let '(a, b) := take_while p r in (c :: a, b) else ([], s)
  | [] => ([], [])
  end.

(** [\s+role:(\w+)\]] at the start of the text.  A space is not a word character and
    [r], [:] and [\]] are not what precedes them, so the greedy parts never give back. *)
Definition match_role (s : jsstr) : option (jsstr * jsstr) :=
  let '(sp, s) := take_while is_space s in
  match sp with
  | [] => None
  | _ =>
    s ← strip (js "role:") s;
    let '(w, s) := take_while is_word s in
    match w, s with
    | _ :: _, 93%N :: s => Some (w, s)
    | _, _ => None
    end
  end.

(** [(.*?)] followed by [tail]: the shortest text before a match of the tail. *)
Fixpoint lazy_until {A} (ok : N → bool) (tail : jsstr → option (A * jsstr)) (s : jsstr)
    : option (jsstr * A * jsstr) :=
  match tail s with
  | Some (a, r) => Some ([], a, r)
  | None =>
    match s with
    | c :: r =>
      if ok c then '(t, a, u) ← lazy_until ok tail r; Some (c :: t, a, u) else None
    | [] => None
    end
  end.

(** The matches of a pattern from left to right, each search starting where the last
    match ended; a match is not empty, so the length of the text bounds them. *)
Fixpoint match_all {A} (fuel : nat) (at_start : jsstr → option (A * jsstr)) (s : jsstr) : list A :=
  match fuel with
  | O => []
  | S fuel =>
    match at_start s with
    | Some (a, r) => a :: match_all fuel at_start r
    | None => match s with [] => [] | _ :: r => match_all fuel at_start r end
    end
  end.

(** [/map\[content:(.*?)\s+role:(\w+)\]/]. *)
Definition go_turn (s : jsstr) : option (ChatTurn * jsstr) :=
  s ← strip (js "map[content:") s;
  '(c, r, s) ← lazy_until (λ c, negb (line_terminator c)) match_role s;
  Some ({| role := trim r; content := trim c |}, s).

Definition parseChatTurns (raw : jsstr) : option (list ChatTurn) :=
  if negb (truthy raw) then None else
  match chat_array raw with
  | Some l => Some (omap turn_of_json l)
  | None =>
    if includes (js "map[") raw && includes (js "content:") raw && includes (js "role:") raw then
      match match_all (S (length raw)) go_turn raw with
      | [] => None
      | pairs => Some pairs
      end
    else None
  end.

(** [String(v)] of a parsed value, [None] being [undefined]: an array joins its
    elements with commas, [null] and [undefined] elements being empty. *)
Fixpoint string_of_json (v : json) : jsstr :=
  match v with
  | JNull => js "null"
  | JBool b => if b then js "true" else js "false"
  | JNum n => show_num n
  | JStr s => s
  | JArr l =>
    str_join (js ",") ((λ x, match x with JNull => [] | _ => string_of_json x end) <$> l)
  | JObj _ => js "[object Object]"
  end.

Definition template_part (v : option json) : jsstr :=
  match v with None => js "undefined" | Some v => string_of_json v end.

Definition preview_line (m : json) : option jsstr :=
  c ← string_field (js "content") m;
  Some (template_part (field (js "role") m) ++ js ": " ++ c).

(** [(?:\s+\w+:|])] at the start of the text; spaces and word characters exclude what
    follows them, so the greedy parts never give back. *)
Definition match_key_or_bracket (s : jsstr) : option (unit * jsstr) :=
  let by_key :=
    let '(sp, r) := take_while is_space s in
    let '(w, r) := take_while is_word r in
    match sp, w, r with
    | _ :: _, _ :: _, 58%N :: r => Some (tt, r)
    | _, _, _ => None
    end in
  match by_key with
  | Some x => Some x
  | None => match s with 93%N :: r => Some (tt, r) | _ => None end
  end.

(** [/content:([^\]]*?)(?:\s+\w+:|])/]. *)
Definition go_content (s : jsstr) : option (jsstr * jsstr) :=
  s ← strip (js "content:") s;
  '(c, _, s) ← lazy_until (λ c, negb (c =? 93)%N) match_key_or_bracket s;
  Some (c, s).

(** [s.replace(/p/g, "")] for a literal, non-empty [p]. *)
Fixpoint remove_all (fuel : nat) (p s : jsstr) : jsstr :=
  match fuel with
  | O => s
  | S fuel =>
    if starts_with p s then remove_all fuel p (drop (length p) s)
    else match s with [] => [] | c :: r => c :: remove_all fuel p r end
  end.
Definition replace_all (p s : jsstr) : jsstr := remove_all (S (length s)) p s.

Definition extractChatPreview (raw : jsstr) : option jsstr :=
  match chat_array raw with
  | Some l => Some (str_join (js " | ") (omap preview_line l))
  | None =>
    if includes (js "map[") raw && includes (js "content:") raw then
      match match_all (S (length raw)) go_content raw with
      | [] =>
        let cleaned :=
          trim (replace_all (js "]") (replace_all (js "]]")
            (replace_all (js "map[") (replace_all (js "[map[") raw)))) in
        if truthy cleaned then Some cleaned else None
      | matches => Some (str_join (js " | ") (filter (λ s, s ≠ []) (trim <$> matches)))
      end
    else None
  end.

(** The text itself, or its first [maxLen] code units and an ellipsis. *)
Definition clip (maxLen : nat) (s : jsstr) : jsstr :=
  if (length s <=? maxLen)%nat then s else take maxLen s ++ js "…".

Definition formatJsonPreview (text : jsstr) (maxLen : nat) : jsstr :=
  if negb (truthy text) then js "—" else
  match extractChatPreview text with
  | Some chat => clip maxLen chat
  | None =>
    match parse text with
    | Some obj => clip maxLen (stringify obj)
    | None => clip maxLen (trim text)
    end
  end.

(** ** Tool summaries *)

Record ToolSummary : Type := { title : jsstr; detail : jsstr }.

Definition tryParseObject (raw : option jsstr) : option (list (jsstr * json)) :=
  match raw with
  | None => None
  | Some r =>
    if negb (truthy r) then None else
    match parse r with Some (JObj fs) => Some fs | _ => None end
  end.

(** The keys are names that no prototype defines. *)
Fixpoint firstStringField (obj : option (list (jsstr * json))) (keys : list jsstr) : option jsstr :=
  match obj with
  | None => None
  | Some fs =>
    match keys with
    | [] => None
    | key :: keys =>
      match prop_get key fs with
      | Some (JStr ((_ :: _) as val)) => Some val
      | _ => firstStringField obj keys
      end
    end
  end.

Definition TOOL_DETAIL_MAX_LEN : nat := 500.

Definition is_present (o : option jsstr) : bool := match o with Some _ => true | None => false end.

Definition terminal_summary (inputObj outputObj : option (list (jsstr * json))) : option ToolSummary :=
  command ← firstStringField inputObj [js "command"; js "cmd"];
  let stdout := firstStringField outputObj [js "output"; js "stdout"; js "result"] in
  let stderr := firstStringField outputObj [js "stderr"] in
  let combined := str_join [c_nl] (omap id [stdout; stderr]) in
  Some {| title := js "$ " ++ command;
          detail := if truthy combined then truncate (Some combined) TOOL_DETAIL_MAX_LEN
                    else js "(no output)" |}.

Definition file_summary (inputObj : option (list (jsstr * json))) : option ToolSummary :=
  path ← firstStringField inputObj [js "path"; js "file_path"; js "filepath"; js "file"];
  let d := firstStringField inputObj [js "diff"; js "content"; js "new_content"; js "patch"] in
  Some {| title := path;
          detail := match d with
                    | Some d => truncate (Some d) TOOL_DETAIL_MAX_LEN
                    | None => js "(no diff/content)"
                    end |}.

Definition skill_summary (inputObj : option (list (jsstr * json))) : option ToolSummary :=
  skill ← firstStringField inputObj [js "skill"; js "skill_name"];
  let args :=
    match (o ← inputObj; prop_get (js "args") o) with
    | Some JNull | None => o ← inputObj; prop_get (js "arguments") o
    | Some a => Some a
    end in
  Some {| title := js "skill: " ++ skill;
          detail := match args with
                    | Some a => truncate (Some (stringify a)) TOOL_DETAIL_MAX_LEN
                    | None => js "(no args)"
                    end |}.

Definition generic_summary (input output : option jsstr) : ToolSummary :=
  {| title := match input with
              | Some i => if truthy i then formatJsonPreview i 120 else js "(no input)"
              | None => js "(no input)"
              end;
     detail := match output with
               | Some o => if truthy o
                           then truncate (Some (formatJsonPreview o TOOL_DETAIL_MAX_LEN)) TOOL_DETAIL_MAX_LEN
                           else js "(no output)"
               | None => js "(no output)"
               end |}.

Definition getToolSummary (actionName input output : option jsstr) : option ToolSummary :=
  let hasInput := truthy_opt input in
  let hasOutput := truthy_opt output in
  if negb hasInput && negb hasOutput then None else
  let inputObj := tryParseObject input in
  let outputObj := tryParseObject output in
  let name := if truthy_opt actionName then nullish actionName [] else [] in
  let named p := test_i p name in
  let terminal :=
    if named (js "terminal") || named (js "shell") || named (js "bash") || named (js "exec")
       || is_present (firstStringField inputObj [js "command"; js "cmd"])
    then terminal_summary inputObj outputObj else None in
  let file :=
    if named (js "file") || named (js "edit")
       || is_present (firstStringField inputObj [js "path"; js "file_path"; js "filepath"; js "file"])
    then file_summary inputObj else None in
  let skill :=
    if named (js "invokeskill") || named (js "skill")
       || is_present (firstStringField inputObj [js "skill"; js "skill_name"])
    then skill_summary inputObj else None in
  let thought :=
    if (named (js "think") || named (js "reason")) && hasOutput && bool_decide (outputObj = None)
    then Some {| title := js "thought"; detail := truncate output TOOL_DETAIL_MAX_LEN |} else None in
  match terminal, file, skill, thought with
  | Some s, _, _, _ => Some s
  | None, Some s, _, _ => Some s
  | None, None, Some s, _ => Some s
  | None, None, None, Some s => Some s
  | None, None, None, None => Some (generic_summary input output)
  end.

(** ** The duration format *)

(** What the text of a whole number of milliseconds says, form by form, with the
    distance between what is displayed and the duration. *)
Inductive duration_text (n : Z) : jsstr → Prop :=
| dt_none : n <= 0 → duration_text n (js "0ms")
| dt_ms : 0 < n < 1000 → duration_text n (show_num (of_Z n) ++ js "ms")
| dt_s t : 1000 <= n < 60000 → 10 <= t < 600 → 2 * Z.abs (100 * t - n) <= 100 →
    duration_text n (digits (t / 10) ++ js "." ++ digits (t mod 10) ++ js "s")
| dt_m m : 59950 <= n < 3600000 → 1 <= m < 60 → 2 * Z.abs (60000 * m - n) <= 1000 →
    duration_text n (show_num (of_Z m) ++ js "m")
| dt_ms_s m s : 59950 <= n < 3600000 → 1 <= m < 60 → 1 <= s < 60 →
    2 * Z.abs (60000 * m + 1000 * s - n) <= 1000 →
    duration_text n (show_num (of_Z m) ++ js "m " ++ show_num (of_Z s) ++ js "s")
| dt_1h : 3599500 <= n < 3600000 → duration_text n (js "1h")
| dt_h h : 3600000 <= n → 3600000 * h <= n < 3600000 * h + 60000 →
    duration_text n (show_num (of_Z h) ++ js "h")
| dt_h_m h m : 3600000 <= n → 1 <= m < 60 → 3600000 * h + 60000 * m <= n < 3600000 * h + 60000 * (m + 1) →
    duration_text n (show_num (of_Z h) ++ js "h " ++ show_num (of_Z m) ++ js "m").

(** The branch from one minute on, with its integers. *)
Definition long_text (n : Z) : jsstr :=
  let long (ms : num) :=
    if num_lt ms (of_Z 3600000) then
      let minutes := num_floor (num_div ms 60000) in
      let seconds := num_round (num_div (num_rem ms 60000) 1000) in
      let '(minutes, seconds) :=
        if num_eqb seconds (of_Z 60) then (num_add minutes (of_Z 1), of_Z 0) else (minutes, seconds) in
      if num_eqb minutes (of_Z 60) then js "1h"
      else if num_eqb seconds (of_Z 0) then show_num minutes ++ js "m"
      else show_num minutes ++ js "m " ++ show_num seconds ++ js "s"
    else
      let hours := num_floor (num_div ms 3600000) in
      let minutes := num_floor (num_div (num_rem ms 3600000) 60000) in
      if num_eqb minutes (of_Z 0) then show_num hours ++ js "h"
      else show_num hours ++ js "h " ++ show_num minutes ++ js "m" in
  long (of_Z n).

Lemma safe_small k : -1000000000000 <= k <= 1000000000000 → safe k.
Proof. unfold safe. change (2 ^ 53) with 9007199254740992. lia. Qed.

Ltac safe_tac := first [apply safe_small; lia | done].

Lemma eqb_of_Z a b : safe b → num_eqb (Fin (inject_Z a)) (of_Z b) = (a =? b).
Proof. intros Hb. rewrite (of_Z_safe b) by done. apply eqb_integers. Qed.

Lemma long_minutes n : 59950 <= n < 3600000 → duration_text n (long_text n).
Proof.
  intros Hn. unfold long_text. cbv zeta.
  rewrite lt_of_Z by safe_tac. rewrite (proj2 (Z.ltb_lt _ _)) by lia.
  rewrite (of_Z_safe n) by safe_tac. rewrite rem_integer by lia.
  rewrite (floor_quotient n 60000 6) by lia.
  pose proof (Z.div_mod n 60000 ltac:(lia)) as E. pose proof (Z.mod_pos_bound n 60000 ltac:(lia)) as Hr.
  set (m := n / 60000) in *. set (r := n mod 60000) in *.
  destruct (round_quotient r 1000 6) as (k & -> & Hk0 & Hk); [lia|lia|done|done|by exists 500|].
  assert (0 <= m <= 59) as Hm by lia. assert (k <= 60) by lia.
  rewrite (eqb_of_Z k 60) by done. destruct (Z.eqb_spec k 60) as [->|Hne].
  - assert (num_add (Fin (inject_Z m)) (of_Z 1) = Fin (inject_Z (m + 1))) as ->.
    { rewrite <- (of_Z_safe m), add_of_Z, of_Z_safe by safe_tac. done. }
    rewrite eqb_of_Z by done. destruct (Z.eqb_spec (m + 1) 60); [apply dt_1h; lia|].
    rewrite (of_Z_safe 0) by done. rewrite eqb_integers, Z.eqb_refl.
    rewrite <- (of_Z_safe (m + 1)) by safe_tac. apply dt_m; lia.
  - rewrite eqb_of_Z by done. destruct (Z.eqb_spec m 60); [lia|].
    rewrite eqb_of_Z by done. destruct (Z.eqb_spec k 0) as [->|].
    + rewrite <- (of_Z_safe m) by safe_tac. apply dt_m; lia.
    + rewrite <- (of_Z_safe m), <- (of_Z_safe k) by safe_tac. apply dt_ms_s; lia.
Qed.

Lemma long_hours n : 3600000 <= n < 2 ^ 53 → duration_text n (long_text n).
Proof.
  intros Hn. assert (safe n) as Hs by (unfold safe; lia).
  unfold long_text. cbv zeta. rewrite lt_of_Z by safe_tac. rewrite (proj2 (Z.ltb_ge _ _)) by lia.
  rewrite (of_Z_safe n) by done. rewrite rem_integer by lia.
  change (2 ^ 53) with 9007199254740992 in Hn.
  rewrite (floor_quotient n 3600000 32) by lia.
  pose proof (Z.div_mod n 3600000 ltac:(lia)) as E. pose proof (Z.mod_pos_bound n 3600000 ltac:(lia)) as Hr.
  set (h := n / 3600000) in *. set (r := n mod 3600000) in *.
  rewrite (floor_quotient r 60000 6) by lia.
  pose proof (Z.div_mod r 60000 ltac:(lia)) as E2. pose proof (Z.mod_pos_bound r 60000 ltac:(lia)) as Hr2.
  set (m := r / 60000) in *. assert (0 <= h <= 1000000000000) by lia. assert (0 <= m < 60) by lia.
  rewrite eqb_of_Z by done. rewrite <- (of_Z_safe h), <- (of_Z_safe m) by safe_tac.
  destruct (Z.eqb_spec m 0) as [Hm|]; [apply dt_h; lia|apply dt_h_m; lia].
Qed.

(** The seconds form, for the tenths it can show. *)
Definition tenths_ok (t : Z) : bool :=
  bool_decide (tenths_text t = digits (t / 10) ++ js "." ++ digits (t mod 10))
  && bool_decide (tenths_text t = js "60.0" ↔ t = 600).

Lemma tenths_all_ok : forallb (λ i, tenths_ok (Z.of_nat i)) (seq 10 591) = true.
Proof. vm_compute. reflexivity. Qed.

Lemma tenths_text_spec t : 10 <= t <= 600 →
  tenths_text t = digits (t / 10) ++ js "." ++ digits (t mod 10) ∧ (tenths_text t = js "60.0" ↔ t = 600).
Proof.
  intros Ht. pose proof (proj1 (forallb_forall _ _) tenths_all_ok (Z.to_nat t)) as H.
  cbv beta in H. rewrite Z2Nat.id in H by lia. specialize (H ltac:(apply in_seq; lia)).
  apply andb_true_iff in H as [H1 H2]. by split; eapply bool_decide_eq_true.
Qed.

(** C18. The duration format, for every whole number of milliseconds a double holds
    exactly: milliseconds below one second, seconds with one decimal below one
    minute, minutes and seconds below one hour, hours and minutes from there, with
    minutes and seconds always below 60.  The text is within half of its last unit of
    the duration (hours and minutes round down), and never shows seconds from one
    minute on nor milliseconds from one second on. *)
Theorem formatDurationMs_accurate n : safe n → duration_text n (formatDurationMs (of_Z n)).
Proof.
  intros Hs. unfold formatDurationMs. fold (long_text n). cbv zeta.
  rewrite le_of_Z, !lt_of_Z by safe_tac.
  destruct (Z.leb_spec n 0); [by apply dt_none|].
  destruct (Z.ltb_spec n 1); [lia|].
  destruct (Z.ltb_spec n 1000).
  { assert (num_round (of_Z n) = of_Z n) as ->; [|apply dt_ms; lia].
    rewrite of_Z_safe by done. unfold num_round. do 2 f_equal. apply Qfloor_unique.
    - rewrite <- (Qplus_0_r (inject_Z n)) at 1. by apply Qplus_le_r.
    - rewrite inject_Z_plus. by apply Qplus_lt_r. }
  destruct (Z.ltb_spec n 60000) as [Hlt|Hge].
  - destruct (fixed_quotient n 1000 6) as (v & Hv & Hv0 & Hv1 & Ht); [lia|lia|done|by exists 50|].
    rewrite <- (of_Z_safe n) in Hv by done. rewrite Hv, to_fixed_tenths; [|done|].
    2: { eapply Qlt_trans; [exact Hv1|]. by apply inject_Z_lt. }
    set (t := tenths v) in *. assert (10 <= t <= 600) as Htb by lia.
    destruct (tenths_text_spec t Htb) as [Htxt H60].
    destruct (decide (tenths_text t = js "60.0")) as [Hd|Hd].
    + apply H60 in Hd. change (duration_text n (long_text n)). apply long_minutes. lia.
    + rewrite Htxt, <- !app_assoc. apply dt_s; [lia| |lia].
      assert (t ≠ 600) by (intros Ht6; by apply Hd, H60). lia.
  - change (duration_text n (long_text n)).
    destruct (decide (n < 3600000)); [apply long_minutes; lia|].
    apply long_hours. unfold safe in Hs. lia.
Qed.

Lemma formatDurationMs_accurate_witness :
  safe 81000 ∧ duration_text 81000 (js "1m 21s").
Proof. split; [split; reflexivity|]. apply (formatDurationMs_accurate 81000). split; reflexivity. Defined.

(** Just below one second the code shows [1000ms]: a fractional duration from
    999.5 on is rounded to a thousand milliseconds, which the format excludes. *)
Theorem formatDurationMs_1000ms q :
  (1999 # 2 <= q)%Q → (q < 1000 # 1)%Q → formatDurationMs (Fin q) = js "1000ms".
Proof.
  intros H1 H2. unfold formatDurationMs.
  rewrite !of_Z_safe by safe_tac. unfold num_lt, num_le.
  assert (Qle_bool q (inject_Z 0) = false) as ->.
  { destruct (Qle_bool q _) eqn:E; [|done]. apply Qle_bool_iff in E. change (inject_Z 0) with 0%Q in E. lra. }
  rewrite (proj2 (Qle_bool_iff (inject_Z 1) q)) by (change (inject_Z 1) with 1%Q; lra).
  assert (Qle_bool (inject_Z 1000) q = false) as ->.
  { destruct (Qle_bool _ q) eqn:E; [|done]. apply Qle_bool_iff in E. change (inject_Z 1000) with (1000 # 1)%Q in E. lra. }
  cbn [negb andb]. unfold num_round. assert (Qfloor (q + (1 # 2)) = 1000) as ->; [|vm_compute; reflexivity].
  apply Qfloor_unique; [change (inject_Z 1000) with (1000 # 1)%Q; lra|].
  change (inject_Z (1000 + 1)) with (1001 # 1)%Q. lra.
Qed.

Lemma formatDurationMs_1000ms_witness : formatDurationMs (Fin (1999 # 2)) = js "1000ms".
Proof. apply formatDurationMs_1000ms; reflexivity || (intros E; discriminate E). Defined.
