(* ===== verification/Diff.v ===== *)
(** The line diff of two prompt templates and the comparison of two model
    configurations (ui/src/utils/diff.ts).

    The table of longest common subsequences is the two-dimensional array the code
    fills row by row; the walk back through it is a loop whose measure [i + j] bounds
    its number of rounds.  The walk is compared with [common], the recursion that
    defines the length of a longest common subsequence of two prefixes. *)
From S2P Require Import Prelude.
From S2P Require Import JsString.
From S2P Require Import JsNumber.
Local Open Scope nat_scope.

Inductive DiffLine : Type :=
| Added (text : jsstr)
| Removed (text : jsstr)
| Unchanged (text : jsstr)
| Header (text : jsstr).

Record PromptVersion : Type := {
  model : option jsstr;
  temperature : option num;
  max_tokens : option num
}.

Inductive config_value : Type :=
| CStr (s : jsstr)
| CNum (n : num).

Record ModelConfigDiff : Type := ConfigDiff {
  d_field : jsstr;
  oldValue : config_value;
  newValue : config_value
}.

(** ** The line diff *)

Section table.
Context (oldLines newLines : list jsstr).
Local Abbreviation m := (length oldLines).
Local Abbreviation n := (length newLines).

(** [oldLines[i - 1] === newLines[j - 1]], for positive in-range indices. *)
Definition same_line (i j : nat) : bool :=
  bool_decide (oldLines !! pred i = newLines !! pred j).

Definition get_cell (dp : list (list nat)) (i j : nat) : nat :=
  default 0 (row ← dp !! i; row !! j).

Definition set_cell (i j v : nat) (dp : list (list nat)) : list (list nat) :=
  alter (λ row, <[j := v]> row) i dp.

Definition fill_cell (i : nat) (dp : list (list nat)) (j : nat) : list (list nat) :=
  if same_line i j
  then set_cell i j (get_cell dp (i - 1) (j - 1) + 1) dp
  else set_cell i j (max (get_cell dp (i - 1) j) (get_cell dp i (j - 1))) dp.

Definition fill_row (dp : list (list nat)) (i : nat) : list (list nat) :=
  foldl (fill_cell i) dp (seq 1 n).

Definition lcs_table : list (list nat) :=
  foldl fill_row (replicate (m + 1) (replicate (n + 1) 0)) (seq 1 m).

(** The loop [while (i > 0 || j > 0)], with the lines pushed so far. *)
Fixpoint backtrack (fuel : nat) (dp : list (list nat)) (i j : nat) (stack : list DiffLine) : list DiffLine :=
  match fuel with
  | O => stack
  | S fuel =>
    if (0 <? i) || (0 <? j) then
      if (0 <? i) && (0 <? j) && same_line i j then
        backtrack fuel dp (i - 1) (j - 1) (stack ++ [Unchanged (default [] (oldLines !! pred i))])
      else if (0 <? j) && ((i =? 0) || (get_cell dp (i - 1) j <=? get_cell dp i (j - 1)))
      then backtrack fuel dp i (j - 1) (stack ++ [Added (default [] (newLines !! pred j))])
      else backtrack fuel dp (i - 1) j (stack ++ [Removed (default [] (oldLines !! pred i))])
    else stack
  end.
End table.

Definition diffText (oldText newText : jsstr) : list DiffLine :=
  let oldLines := str_split c_nl oldText in
  let newLines := str_split c_nl newText in
  let m := length oldLines in
  let n := length newLines in
  let dp := lcs_table oldLines newLines in
  let stack := rev (backtrack oldLines newLines (m + n) dp m n []) in
  let headerText := js "v" ++ (if truthy oldText then js "old" else js "(empty)")
                    ++ js " vs v" ++ (if truthy newText then js "new" else js "(empty)") in
  Header headerText :: stack.

(** ** The model configurations *)

(** [a !== b] of two strings or numbers. *)
Definition value_differs (a b : config_value) : bool :=
  match a, b with
  | CStr s, CStr t => negb (bool_decide (s = t))
  | CNum x, CNum y => negb (num_eqb x y)
  | _, _ => true
  end.

Definition config_fields (c : option PromptVersion) : list (jsstr * config_value) :=
  let or_dash {A} (f : A → config_value) (o : option A) := match o with Some a => f a | None => CStr (js "—") end in
  [(js "model", or_dash CStr (v ← c; model v));
   (js "temperature", or_dash CNum (v ← c; temperature v));
   (js "max_tokens", or_dash CNum (v ← c; max_tokens v))].

Definition diffModelConfig (oldConfig newConfig : option PromptVersion) : list ModelConfigDiff :=
  zip (config_fields oldConfig) (config_fields newConfig) ≫=
    λ '((k, o), (_, n)), if value_differs o n then [ConfigDiff k o n] else [].

(** ** Edit scripts *)

(** The lines a script takes from the old text and those it leaves in the new one. *)
Definition old_of (d : list DiffLine) : list jsstr :=
  d ≫= λ l, match l with Removed t | Unchanged t => [t] | _ => [] end.
Definition new_of (d : list DiffLine) : list jsstr :=
  d ≫= λ l, match l with Added t | Unchanged t => [t] | _ => [] end.
Definition kept (d : list DiffLine) : nat :=
  length (d ≫= λ l, match l with Unchanged t => [t] | _ => [] end).
Definition no_header (l : DiffLine) : bool := match l with Header _ => false | _ => true end.

(** ** The table holds the lengths of the longest common subsequences *)

Section lcs.
Context (oldLines newLines : list jsstr).
Local Abbreviation m := (length oldLines).
Local Abbreviation n := (length newLines).
Local Abbreviation same := (same_line oldLines newLines).

(** The length of a longest common subsequence of the first [i] old and the first
    [j] new lines. *)
Fixpoint common (i : nat) : nat → nat :=
  match i with
  | O => λ _, 0
  | S i' =>
    fix go (j : nat) : nat :=
      match j with
      | O => 0
      | S j' => if same (S i') (S j') then S (common i' j') else max (common i' (S j')) (go j')
      end
  end.

Lemma common_0_r i : common i 0 = 0.
Proof. by destruct i. Qed.

Lemma common_S i j :
  common (S i) (S j)
  = if same (S i) (S j) then S (common i j) else max (common i (S j)) (common (S i) j).
Proof. done. Qed.

(** One more line on a side adds nothing or one. *)
Lemma common_step k : ∀ i j, i + j <= k →
  common i j <= common (S i) j <= S (common i j) ∧ common i j <= common i (S j) <= S (common i j).
Proof.
  induction k as [|k IH]; intros i j Hk.
  - assert (i = 0) as -> by lia. assert (j = 0) as -> by lia. simpl. lia.
  - split.
    + destruct j as [|j]; [rewrite !common_0_r; lia|].
      rewrite common_S. destruct (IH i j ltac:(lia)) as [H1 H2]. case_match; lia.
    + destruct i as [|i]; [simpl; lia|].
      rewrite common_S. destruct (IH i j ltac:(lia)) as [H1 H2]. case_match; lia.
Qed.

Lemma common_mono_l i j : common i j <= common (S i) j <= S (common i j).
Proof. apply (common_step (i + j)). done. Qed.
Lemma common_mono_r i j : common i j <= common i (S j) <= S (common i j).
Proof. apply (common_step (i + j)). done. Qed.

Definition shape (dp : list (list nat)) : Prop :=
  ∀ i, i <= m → ∃ row, dp !! i = Some row ∧ length row = n + 1.

Lemma set_cell_shape dp i j v : shape dp → shape (set_cell i j v dp).
Proof.
  intros Hs i' Hi'. destruct (Hs i' Hi') as (row & Hr & Hl). unfold set_cell.
  destruct (decide (i' = i)) as [->|].
  - exists (<[j := v]> row). by rewrite list_lookup_alter_eq, Hr, length_insert.
  - exists row. by rewrite list_lookup_alter_ne.
Qed.

Lemma get_set_cell dp i j v i' j' : shape dp → i <= m → j <= n →
  get_cell (set_cell i j v dp) i' j' = if decide (i' = i ∧ j' = j) then v else get_cell dp i' j'.
Proof.
  intros Hs Hi Hj. destruct (Hs i Hi) as (row & Hr & Hl). unfold get_cell, set_cell.
  destruct (decide (i' = i)) as [->|Hi'].
  - rewrite list_lookup_alter_eq, Hr. simpl. destruct (decide (j' = j)) as [->|Hj'].
    + rewrite decide_True by done. rewrite list_lookup_insert_eq by lia. done.
    + rewrite decide_False by tauto. by rewrite list_lookup_insert_ne.
  - rewrite decide_False by tauto. by rewrite list_lookup_alter_ne.
Qed.

Lemma fill_cells k : ∀ dp i, k <= n → S i <= m → shape dp →
  (∀ j, j <= n → get_cell dp i j = common i j) → get_cell dp (S i) 0 = 0 →
  let dp' := foldl (fill_cell oldLines newLines (S i)) dp (seq 1 k) in
  shape dp' ∧ (∀ i' j, i' ≠ S i → get_cell dp' i' j = get_cell dp i' j)
  ∧ (∀ j, j <= k → get_cell dp' (S i) j = common (S i) j).
Proof.
  induction k as [|k IH]; intros dp i Hk Hi Hs Hrow H0; cbv zeta.
  - split_and!; [done|done|]. intros j Hj. assert (j = 0) as -> by lia. cbn [seq foldl]. by rewrite H0.
  - rewrite seq_S, foldl_app. cbn [foldl].
    destruct (IH dp i ltac:(lia) Hi Hs Hrow H0) as (Hs' & Hother & Hdone).
    set (dp1 := foldl _ dp (seq 1 k)) in *. change (1 + k) with (S k).
    assert (∀ v, let dp2 := set_cell (S i) (S k) v dp1 in v = common (S i) (S k) →
      shape dp2 ∧ (∀ i' j, i' ≠ S i → get_cell dp2 i' j = get_cell dp i' j)
      ∧ (∀ j, j <= S k → get_cell dp2 (S i) j = common (S i) j)) as Hset.
    { intros v dp2 Hv. split_and!; [by apply set_cell_shape| |].
      - intros i' j Hne. unfold dp2. rewrite get_set_cell by (done || lia).
        rewrite decide_False by tauto. by apply Hother.
      - intros j Hj. unfold dp2. rewrite get_set_cell by (done || lia).
        destruct (decide _) as [[_ ->]|Hne]; [done|]. apply Hdone.
        assert (j ≠ S k) by tauto. lia. }
    unfold fill_cell. rewrite !Nat.sub_1_r. cbn [pred].
    rewrite !Hother, !Hrow by lia. rewrite (Hdone k) by lia. rewrite common_S in Hset.
    destruct (same (S i) (S k)); apply Hset; lia.
Qed.

Lemma fill_rows k : k <= m →
  let dp := foldl (fill_row oldLines newLines) (replicate (m + 1) (replicate (n + 1) 0)) (seq 1 k) in
  shape dp ∧ (∀ i, get_cell dp i 0 = 0) ∧ (∀ i j, i <= k → j <= n → get_cell dp i j = common i j).
Proof.
  induction k as [|k IH]; intros Hk; cbv zeta.
  - simpl. assert (∀ i j, get_cell (replicate (m + 1) (replicate (n + 1) 0)) i j = 0) as Hz.
    { intros i j. unfold get_cell. destruct (replicate (m + 1) _ !! i) eqn:E; [|done].
      apply lookup_replicate in E as [-> _]. simpl.
      destruct (replicate (n + 1) 0 !! j) eqn:E; [|done]. by apply lookup_replicate in E as [-> _]. }
    split_and!; [|done|].
    + intros i Hi. exists (replicate (n + 1) 0). rewrite lookup_replicate, length_replicate. split; [split; [done|lia]|done].
    + intros i j Hi _. assert (i = 0) as -> by lia. rewrite Hz. done.
  - rewrite seq_S, foldl_app. cbn [foldl]. change (1 + k) with (S k).
    destruct (IH ltac:(lia)) as (Hs & H0 & Hd). set (dp := foldl _ _ (seq 1 k)) in *.
    destruct (fill_cells n dp k ltac:(lia) Hk Hs (λ j, Hd k j (le_n k)) (H0 _)) as (Hs' & Ho & Hd').
    unfold fill_row. split_and!; [done| |].
    + intros i. destruct (decide (i = S k)) as [->|]; [by rewrite Hd' by lia|by rewrite Ho].
    + intros i j Hi Hj. destruct (decide (i = S k)) as [->|]; [by rewrite Hd' by lia|].
      rewrite Ho by done. apply Hd; lia.
Qed.

Lemma lcs_table_common i j : i <= m → j <= n → get_cell (lcs_table oldLines newLines) i j = common i j.
Proof. intros Hi Hj. by apply (fill_rows m). Qed.

(** ** The walk back *)

Lemma take_S_last (l : list jsstr) i : i < length l → take (S i) l = take i l ++ [default [] (l !! i)].
Proof.
  intros Hi. destruct (lookup_lt_is_Some_2 l i Hi) as [x Hx].
  by rewrite (take_S_r l i x Hx), Hx.
Qed.

Lemma kept_app d e : kept (d ++ e) = kept d + kept e.
Proof. unfold kept. by rewrite bind_app, length_app. Qed.

(** Started in [(i, j)], the loop prepends, read from its end, a script between the
    first [i] old and the first [j] new lines that keeps [common i j] lines. *)
Lemma backtrack_script fuel : ∀ i j stack, i <= m → j <= n → i + j <= fuel →
  ∃ d, rev (backtrack oldLines newLines fuel (lcs_table oldLines newLines) i j stack) = d ++ rev stack
  ∧ old_of d = take i oldLines ∧ new_of d = take j newLines ∧ kept d = common i j
  ∧ forallb no_header d = true.
Proof.
  induction fuel as [|fuel IH]; intros i j stack Hi Hj Hf; simpl.
  { assert (i = 0) as -> by lia. assert (j = 0) as -> by lia. by exists []. }
  assert (∀ i' j' c line (o w : list jsstr), kept [line] = c → i' <= m → j' <= n → i' + j' <= fuel →
    old_of [line] = o → new_of [line] = w → no_header line = true →
    take i' oldLines ++ o = take i oldLines → take j' newLines ++ w = take j newLines →
    common i' j' + c = common i j →
    ∃ d, rev (backtrack oldLines newLines fuel (lcs_table oldLines newLines) i' j' (stack ++ [line]))
           = d ++ rev stack
    ∧ old_of d = take i oldLines ∧ new_of d = take j newLines ∧ kept d = common i j
    ∧ forallb no_header d = true) as Hstep.
  { intros i' j' c line o w Hc Hi' Hj' Hf' Ho Hw Hh Eo Ew Ek.
    destruct (IH i' j' (stack ++ [line]) Hi' Hj' Hf') as (d & -> & H1 & H2 & H3 & H4).
    exists (d ++ [line]). rewrite rev_app_distr, <- app_assoc. split; [done|].
    unfold old_of, new_of in *. rewrite !bind_app, forallb_app, kept_app, H1, H2, H3, H4, Ho, Hw, Hc.
    simpl. by rewrite Hh. }
  destruct i as [|i], j as [|j]; simpl.
  - by exists [].
  - rewrite Nat.sub_0_r. eapply (Hstep 0 j 0); try done; try lia.
    by rewrite take_S_last by lia.
  - rewrite Nat.sub_0_r. eapply (Hstep i 0 0); try done; try lia.
    + by rewrite take_S_last by lia.
    + rewrite !common_0_r. done.
  - rewrite !Nat.sub_0_r. rewrite !lcs_table_common by lia. rewrite common_S in Hstep.
    destruct (same (S i) (S j)) eqn:Es.
    + apply bool_decide_eq_true in Es. simpl in Es.
      eapply (Hstep i j 1); try done; try lia.
      * by rewrite take_S_last by lia.
      * by rewrite take_S_last, Es by lia.
    + destruct (Nat.leb_spec (common i (S j)) (common (S i) j)).
      * eapply (Hstep (S i) j 0); try done; try lia.
        -- by rewrite app_nil_r.
        -- by rewrite (take_S_last newLines j) by lia.
      * eapply (Hstep i (S j) 0); try done; try lia.
        -- by rewrite (take_S_last oldLines i) by lia.
        -- by rewrite app_nil_r.
Qed.

(** No script keeps more lines. *)
Lemma common_optimal d : ∀ i j, i <= m → j <= n → forallb no_header d = true →
  old_of d = take i oldLines → new_of d = take j newLines → kept d <= common i j.
Proof.
  induction d as [|line d IH] using rev_ind; intros i j Hi Hj Hh Ho Hn.
  { unfold kept. simpl. lia. }
  rewrite forallb_app in Hh. apply andb_true_iff in Hh as [Hh Hl].
  unfold old_of, new_of in *. rewrite bind_app in Ho, Hn. rewrite kept_app.
  assert (kept [line] = match line with Unchanged _ => 1 | _ => 0 end) as -> by by destruct line.
  destruct line as [t|t|t|t]; simpl in *; try done; rewrite ?app_nil_r in *.
  - destruct j as [|j]; [by apply app_nil in Hn as [_ ?]|].
    rewrite take_S_last in Hn by lia. apply app_inj_2 in Hn as [Hn _]; [|done].
    pose proof (IH i j Hi ltac:(lia) Hh Ho Hn). pose proof (common_mono_r i j). lia.
  - destruct i as [|i]; [by apply app_nil in Ho as [_ ?]|].
    rewrite take_S_last in Ho by lia. apply app_inj_2 in Ho as [Ho _]; [|done].
    pose proof (IH i j ltac:(lia) Hj Hh Ho Hn). pose proof (common_mono_l i j). lia.
  - destruct i as [|i]; [by apply app_nil in Ho as [_ ?]|].
    destruct j as [|j]; [by apply app_nil in Hn as [_ ?]|].
    rewrite take_S_last in Ho, Hn by lia.
    apply app_inj_2 in Ho as [Ho Et]; [|done]. apply app_inj_2 in Hn as [Hn Et']; [|done].
    pose proof (IH i j ltac:(lia) ltac:(lia) Hh Ho Hn). rewrite common_S.
    assert (same (S i) (S j) = true) as ->; [|lia].
    apply bool_decide_eq_true. simpl.
    destruct (lookup_lt_is_Some_2 oldLines i Hi) as [x Hx].
    destruct (lookup_lt_is_Some_2 newLines j Hj) as [y Hy].
    rewrite Hx, Hy in *. simpl in *. congruence.
Qed.
End lcs.

(** ** Properties *)

(** The lines of the diff: one header, and both texts consumed. *)
Lemma diff_lines oldText newText :
  ∃ h d, diffText oldText newText = Header h :: d ∧ forallb no_header d = true
  ∧ old_of d = str_split c_nl oldText ∧ new_of d = str_split c_nl newText.
Proof.
  destruct (backtrack_script (str_split c_nl oldText) (str_split c_nl newText) _ _ _ [] (le_n _) (le_n _) (le_n _))
    as (d & E & Ho & Hn & _ & Hh).
  unfold diffText. rewrite E. simpl. rewrite app_nil_r. do 2 eexists. split; [done|]. split; [done|].
  by rewrite Ho, Hn, !firstn_all.
Qed.

(** C9. Replaying the diff: after the one header line, the lines marked removed or
    unchanged, joined by newlines, are the old text, and those marked added or
    unchanged are the new text; so the loop that walks back always ends with the
    whole of both texts consumed. *)
Theorem diffText_replays oldText newText :
  ∃ h d, diffText oldText newText = Header h :: d ∧ forallb no_header d = true
  ∧ str_join [c_nl] (old_of d) = oldText ∧ str_join [c_nl] (new_of d) = newText.
Proof.
  destruct (diff_lines oldText newText) as (h & d & E & Hh & Ho & Hn). exists h, d.
  by rewrite Ho, Hn, !str_join_split.
Qed.

(** C11. The diff is minimal: no edit script between the two texts keeps more lines
    unchanged, so none has fewer additions and removals. *)
Theorem diffText_minimal oldText newText d :
  forallb no_header d = true →
  old_of d = str_split c_nl oldText → new_of d = str_split c_nl newText →
  kept d <= kept (diffText oldText newText).
Proof.
  intros Hh Ho Hn. set (o := str_split c_nl oldText) in *. set (w := str_split c_nl newText) in *.
  destruct (backtrack_script o w _ _ _ [] (le_n _) (le_n _) (le_n _)) as (e & E & _ & _ & Hk & _).
  unfold diffText. fold o w. rewrite E. simpl. rewrite app_nil_r.
  change (kept (Header _ :: e)) with (kept e). rewrite Hk.
  apply common_optimal; [done|done|done|by rewrite firstn_all|by rewrite firstn_all].
Qed.

Lemma diffText_minimal_witness :
  let old := js "a" ++ [c_nl] ++ js "b" in
  let new_ := js "b" ++ [c_nl] ++ js "c" in
  forallb no_header [Removed (js "a"); Removed (js "b"); Added (js "b"); Added (js "c")] = true
  ∧ kept [Removed (js "a"); Removed (js "b"); Added (js "b"); Added (js "c")] <= kept (diffText old new_).
Proof.
  split; [reflexivity|].
  apply (diffText_minimal (js "a" ++ [c_nl] ++ js "b") (js "b" ++ [c_nl] ++ js "c")); reflexivity.
Defined.
