(* ===== verification/SpanRollup.v ===== *)
(** The cumulative token and cost totals of a span tree
    (ui/src/utils/spanRollup.ts). *)
From S2P Require Import Prelude.
From S2P Require Import JsString.
From S2P Require Import JsNumber.
From S2P Require Import JsJson.
Local Open Scope Z_scope.

Record SpanFields : Type := {
  span_id : jsstr;
  trace_id : jsstr;
  parent_id : jsstr;
  project_id : jsstr;
  name : jsstr;
  kind : jsstr;
  model : option jsstr;
  start_time : jsstr;
  end_time : jsstr;
  cost_usd : num;
  input_tokens : num;
  output_tokens : num;
  input : option jsstr;
  output : option jsstr;
  status_code : option jsstr;
  scores : option (list (jsstr * num));
  attributes : option (list (jsstr * json))
}.

(** A span: its fields, and its [children] when it has that property. *)
Inductive Span : Type :=
| SpanNode (fields : SpanFields) (children : option (list Span)).

Record rollup : Type := Rollup {
  rollup_input_tokens : num;
  rollup_output_tokens : num;
  rollup_cost_usd : num
}.

Inductive AnnotatedSpan : Type :=
| AnnotatedNode (fields : SpanFields) (totals : rollup) (children : option (list AnnotatedSpan)).

Definition totals_of (s : AnnotatedSpan) : rollup := match s with AnnotatedNode _ r _ => r end.

Definition add_totals (acc r : rollup) : rollup :=
  Rollup (num_add (rollup_input_tokens acc) (rollup_input_tokens r))
         (num_add (rollup_output_tokens acc) (rollup_output_tokens r))
         (num_add (rollup_cost_usd acc) (rollup_cost_usd r)).

Definition zero_totals : rollup := Rollup (of_Z 0) (of_Z 0) (of_Z 0).

Definition own_totals (f : SpanFields) : rollup :=
  Rollup (input_tokens f) (output_tokens f) (cost_usd f).

(** The loop over the children adds each child's totals as it goes; an empty list of
    children keeps the [children] of the spread, which is empty too. *)
Fixpoint annotateSpanTree (span : Span) : AnnotatedSpan :=
  match span with
  | SpanNode f cs =>
    let '(children, acc) :=
      match cs with
      | Some cs =>
        (fix go (cs : list Span) (children : list AnnotatedSpan) (acc : rollup) :=
           match cs with
           | [] => (children, acc)
           | c :: cs => let a := annotateSpanTree c in go cs (children ++ [a]) (add_totals acc (totals_of a))
           end) cs [] zero_totals
      | None => ([], zero_totals)
      end in
    AnnotatedNode f (add_totals acc (own_totals f))
      (match children with
       | [] => match cs with Some _ => Some [] | None => None end
       | _ => Some children
       end)
  end.

(** ** What the totals are *)

Section span_ind.
Context (P : Span → Prop).
Context (Hnode : ∀ f cs, (∀ l, cs = Some l → Forall P l) → P (SpanNode f cs)).

Fixpoint Span_tree_ind (s : Span) : P s :=
  match s with
  | SpanNode f cs =>
    Hnode f cs
      match cs as cs' return ∀ l, cs' = Some l → Forall P l with
      | None => λ l E, ltac:(discriminate E)
      | Some l' => λ l E, eq_rect l' (Forall P)
          ((fix all (l : list Span) : Forall P l :=
              match l with
              | [] => Forall_nil_2 P
              | c :: r => Forall_cons_2 P c r (Span_tree_ind c) (all r)
              end) l') l ltac:(congruence)
      end
  end.
End span_ind.

(** The spans of a tree, root first. *)
Fixpoint spans (s : Span) : list SpanFields :=
  match s with
  | SpanNode f None => [f]
  | SpanNode f (Some cs) => f :: cs ≫= spans
  end.

(** The tree that is left when the totals are forgotten. *)
Fixpoint forget (s : AnnotatedSpan) : Span :=
  match s with
  | AnnotatedNode f _ None => SpanNode f None
  | AnnotatedNode f _ (Some cs) => SpanNode f (Some (forget <$> cs))
  end.

(** Every node of an annotated tree, root first. *)
Fixpoint nodes (s : AnnotatedSpan) : list AnnotatedSpan :=
  match s with
  | AnnotatedNode f r None => [s]
  | AnnotatedNode f r (Some cs) => s :: cs ≫= nodes
  end.

Definition annotate_children (cs : list Span) : list AnnotatedSpan * rollup :=
  (annotateSpanTree <$> cs, foldl add_totals zero_totals (totals_of ∘ annotateSpanTree <$> cs)).

Lemma annotate_node f cs :
  annotateSpanTree (SpanNode f cs)
  = AnnotatedNode f
      (add_totals (foldl add_totals zero_totals (totals_of ∘ annotateSpanTree <$> (default [] cs : list Span))) (own_totals f))
      (match cs with Some cs => Some (annotateSpanTree <$> cs) | None => None end).
Proof.
  destruct cs as [cs|]; [|done]. simpl.
  set (go := fix go (cs : list Span) (children : list AnnotatedSpan) (acc : rollup) := _).
  assert (∀ l pre acc, go l pre acc
    = (pre ++ (annotateSpanTree <$> l), foldl add_totals acc (totals_of ∘ annotateSpanTree <$> l))) as Hgo.
  { induction l as [|c l IH]; intros pre acc; simpl; [by rewrite app_nil_r|].
    rewrite IH. by rewrite <- app_assoc. }
  rewrite Hgo. simpl. by destruct cs.
Qed.

(** The annotated tree is the given tree with totals: forgetting them gives the
    tree back, node by node, so a copy is returned and no span is lost. *)
Theorem annotateSpanTree_shape s : forget (annotateSpanTree s) = s.
Proof.
  induction s as [f cs IH] using Span_tree_ind. rewrite annotate_node. simpl.
  destruct cs as [cs|]; simpl; [|done]. do 2 f_equal.
  specialize (IH cs eq_refl). rewrite <- list_fmap_compose.
  induction IH as [|c cs Hc _ IH']; csimpl; [done|]. by rewrite Hc, IH'.
Qed.

(** Exact totals of integers that stay in the range a double holds. *)
Section exact.
Context (tokens : SpanFields → num) (total : rollup → num).
Context (Htotal : (total = rollup_input_tokens ∧ tokens = input_tokens)
  ∨ (total = rollup_output_tokens ∧ tokens = output_tokens)).

Lemma total_add a b : total (add_totals a b) = num_add (total a) (total b).
Proof using Htotal. by destruct Htotal as [[-> _]|[-> _]]. Qed.
Lemma total_own f : total (own_totals f) = tokens f.
Proof using Htotal. by destruct Htotal as [[-> ->]|[-> ->]]. Qed.
Lemma total_zero : total zero_totals = of_Z 0.
Proof using Htotal. by destruct Htotal as [[-> _]|[-> _]]. Qed.

Definition sum_Z (l : list Z) : Z := foldr Z.add 0 l.

(** [n] counts the tokens of each span exactly. *)
Context (n : SpanFields → Z).

Definition weight (s : Span) : Z := sum_Z (Z.abs ∘ n <$> spans s).

Lemma sum_Z_app l k : sum_Z (l ++ k) = sum_Z l + sum_Z k.
Proof. induction l as [|x l IH]; simpl; lia. Qed.

Lemma sum_Z_abs (l : list SpanFields) : Z.abs (sum_Z (n <$> l)) <= sum_Z (Z.abs ∘ n <$> l).
Proof. induction l as [|x l IH]; csimpl; lia. Qed.

Lemma weight_children f cs :
  weight (SpanNode f (Some cs)) = Z.abs (n f) + sum_Z (weight <$> cs).
Proof.
  unfold weight. csimpl. f_equal.
  induction cs as [|c cs IH]; csimpl; [done|]. by rewrite fmap_app, sum_Z_app, IH.
Qed.

Lemma sum_children (cs : list Span) :
  sum_Z (n <$> (cs ≫= spans)) = sum_Z ((λ c, sum_Z (n <$> spans c)) <$> cs).
Proof. induction cs as [|c cs IH]; csimpl; [done|]. by rewrite fmap_app, sum_Z_app, IH. Qed.

Lemma weight_bounds s : Z.abs (sum_Z (n <$> spans s)) <= weight s.
Proof. apply sum_Z_abs. Qed.

Lemma weight_nonneg s : 0 <= weight s.
Proof. pose proof (weight_bounds s). lia. Qed.

Lemma fold_totals (cs : list Span) : ∀ acc z,
  total acc = of_Z z → Z.abs z + sum_Z (weight <$> cs) < 2 ^ 53 →
  Forall (λ c, total (totals_of (annotateSpanTree c)) = of_Z (sum_Z (n <$> spans c))) cs →
  total (foldl add_totals acc (totals_of ∘ annotateSpanTree <$> cs))
  = of_Z (z + sum_Z ((λ c, sum_Z (n <$> spans c)) <$> cs)).
Proof using Htotal.
  induction cs as [|c cs IH]; intros acc z Ha Hb Hcs; csimpl in *; [by rewrite Z.add_0_r|].
  apply Forall_cons in Hcs as [Hc Hcs].
  pose proof (weight_bounds c). assert (0 <= sum_Z (weight <$> cs)).
  { clear. induction cs as [|c cs IH]; csimpl; [done|]. pose proof (weight_nonneg c). lia. }
  rewrite (IH _ (z + sum_Z (n <$> spans c))); [by rewrite Z.add_assoc| |lia|done].
  rewrite total_add, Ha, Hc. apply add_of_Z; unfold safe; lia.
Qed.

Lemma exact_totals s :
  (∀ f, f ∈ spans s → tokens f = of_Z (n f)) → weight s < 2 ^ 53 →
  total (totals_of (annotateSpanTree s)) = of_Z (sum_Z (n <$> spans s)).
Proof using Htotal.
  induction s as [f cs IH] using Span_tree_ind. intros Hn Hw. rewrite annotate_node. simpl.
  rewrite total_add, total_own. destruct cs as [cs|]; simpl.
  - specialize (IH cs eq_refl). rewrite weight_children in Hw.
    assert (0 <= sum_Z (weight <$> cs) ∧ Forall (λ c, weight c <= sum_Z (weight <$> cs)) cs) as [Hpos Hall].
    { clear. induction cs as [|c cs [IH1 IH2]]; csimpl; [done|]. pose proof (weight_nonneg c).
      split; [lia|]. constructor; [lia|]. eapply Forall_impl; [exact IH2|]. simpl. intros; lia. }
    rewrite (fold_totals cs _ 0); [|apply total_zero|lia|].
    + rewrite (Hn f) by left. rewrite <- sum_children.
      pose proof (sum_Z_abs (cs ≫= spans)) as Hs.
      assert (sum_Z (Z.abs ∘ n <$> (cs ≫= spans)) = sum_Z (weight <$> cs)) as Hsw.
      { clear. induction cs as [|c cs IH]; csimpl; [done|]. by rewrite fmap_app, sum_Z_app, IH. }
      rewrite add_of_Z by (unfold safe; lia). f_equal. unfold fmap in *. lia.
    + apply Forall_forall. intros c Hc. pose proof (proj1 (Forall_forall _ _) IH c Hc) as IHc.
      apply IHc; [|pose proof (proj1 (Forall_forall _ _) Hall c Hc); simpl in *; lia].
      intros g Hg. apply Hn. right. apply list_elem_of_bind. eauto.
  - rewrite total_zero, (Hn f) by left. unfold weight in Hw. unfold sum_Z in *.
    cbn [spans fmap list_fmap foldr] in *. unfold compose in *.
    rewrite add_of_Z by (unfold safe; lia). f_equal. lia.
Qed.
End exact.

Definition token_count (f : SpanFields → num) (s : Span) (n : SpanFields → Z) : Prop :=
  (∀ g, g ∈ spans s → f g = of_Z (n g)) ∧ weight n s < 2 ^ 53.

Lemma nodes_exact tokens total n s : 
  (total = rollup_input_tokens ∧ tokens = input_tokens) ∨ (total = rollup_output_tokens ∧ tokens = output_tokens) →
  token_count tokens s n →
  Forall (λ a, total (totals_of a) = of_Z (sum_Z (n <$> spans (forget a)))) (nodes (annotateSpanTree s)).
Proof.
  intros Ht. induction s as [f cs IH] using Span_tree_ind. intros [Hn Hw].
  pose proof (exact_totals tokens total Ht n _ Hn Hw) as Hroot.
  rewrite <- (annotateSpanTree_shape (SpanNode f cs)) in Hroot at 2.
  rewrite annotate_node in *. destruct cs as [cs|]; simpl; constructor; try done.
  specialize (IH cs eq_refl). apply Forall_bind, Forall_fmap.
  rewrite weight_children in Hw.
  assert (∀ g, g ∈ cs ≫= spans → tokens g = of_Z (n g)) as Hn' by (intros g Hg; apply Hn; by right).
  clear Hroot Hn. induction IH as [|c cs Hc _ IH']; csimpl in *; constructor.
  - apply Hc. split; [intros g Hg; apply Hn'; apply elem_of_app; by left|].
    assert (0 <= sum_Z (weight n <$> cs)); [|lia].
    clear. induction cs as [|c cs IH]; csimpl; [done|]. pose proof (weight_nonneg n c). lia.
  - apply IH'; [pose proof (weight_nonneg n c); lia|]. intros g Hg. apply Hn'. apply elem_of_app. by right.
Qed.

(** C23. The rollup totals: when the token counts are integers and the sum of their
    magnitudes over the tree is below 2^53, every node of the annotated tree carries
    exactly the sum of the counts of its own subtree, itself included, for input and
    for output tokens.  (Counts of -1, the marker of an unknown count, are summed
    like any other.) *)
Theorem annotateSpanTree_totals s i o :
  token_count input_tokens s i → token_count output_tokens s o →
  Forall (λ a, rollup_input_tokens (totals_of a) = of_Z (sum_Z (i <$> spans (forget a)))
             ∧ rollup_output_tokens (totals_of a) = of_Z (sum_Z (o <$> spans (forget a))))
    (nodes (annotateSpanTree s)).
Proof. intros Hi Ho. apply Forall_and. split; eapply nodes_exact; eauto. Qed.

Definition demo_fields (i o : Z) : SpanFields :=
  {| span_id := []; trace_id := []; parent_id := []; project_id := []; name := []; kind := [];
     model := None; start_time := []; end_time := []; cost_usd := of_Z 0;
     input_tokens := of_Z i; output_tokens := of_Z o; input := None; output := None;
     status_code := None; scores := None; attributes := None |}.

Definition demo_tree : Span :=
  SpanNode (demo_fields 3 4) (Some [SpanNode (demo_fields 3 4) None; SpanNode (demo_fields 3 4) (Some [])]).

Lemma annotateSpanTree_totals_witness :
  rollup_input_tokens (totals_of (annotateSpanTree demo_tree)) = of_Z 9.
Proof.
  pose proof (annotateSpanTree_totals demo_tree (λ _, 3) (λ _, 4)) as H.
  destruct (proj1 (Forall_cons _ _ _)
    (H ltac:(split; [by intros g Hg; repeat (apply elem_of_cons in Hg as [->|Hg]; [reflexivity|]); inversion Hg|reflexivity])
       ltac:(split; [by intros g Hg; repeat (apply elem_of_cons in Hg as [->|Hg]; [reflexivity|]); inversion Hg|reflexivity]))) as [[E _] _].
  exact E.
Defined.
