(* ===== verification/SpanMessages.v ===== *)
(** The chat messages and tool calls read out of a span's attributes
    (ui/src/utils/spanMessages.ts).

    The attributes and what [JSON.parse] makes of them are untyped, so a value the
    code reads is [option json], with [None] for [undefined]; reading a property of
    [null] and iterating over a value that is not iterable throw a TypeError.  The
    random part of a made-up id is a parameter, drawn in the order of the calls. *)
From S2P Require Import Prelude.
From S2P Require Import JsString.
From S2P Require Import JsNumber.
From S2P Require Import JsJson.
From S2P Require Import Async.
From S2P Require Import Formatters.
Local Open Scope nat_scope.
Local Open Scope js_scope.

(** [Math.random().toString(36).slice(2, 9)] of the n-th draw. *)
Class Random : Type := random36 : nat → jsstr.

Abbreviation value := (option json).

Record ChatMessage : Type := Message { role : value; content : value }.

Record ToolCall : Type := Call {
  id : json;
  type : json;
  function : json;
  input : option jsstr;
  output : value
}.

Record SpanMessages : Type := {
  messages : option (list ChatMessage);
  toolCalls : option (list ToolCall);
  raw : list (jsstr * json)
}.

(** ** Values *)

(** [v != null]. *)
Definition present (v : value) : bool := match v with None | Some JNull => false | _ => true end.
Definition truthy_value (v : value) : bool := match v with Some j => truthy_json j | None => false end.
Definition is_text (s : jsstr) (v : value) : bool :=
  match v with Some (JStr t) => bool_decide (t = s) | _ => false end.

(** [v ?? d]. *)
Definition value_or (v : value) (d : json) : json :=
  match v with None | Some JNull => d | Some j => j end.

(** [a === b] of two parsed values: objects and arrays of different parses differ. *)
Definition strict_eq (a b : json) : bool :=
  match a, b with
  | JNull, JNull => true
  | JBool x, JBool y => bool_decide (x = y)
  | JNum x, JNum y => num_eqb x y
  | JStr s, JStr t => bool_decide (s = t)
  | _, _ => false
  end.

Fixpoint code_points (s : jsstr) : list jsstr :=
  match s with
  | a :: ((b :: r) as t) => if is_high a && is_low b then [a; b] :: code_points r else [a] :: code_points t
  | [a] => [[a]]
  | [] => []
  end.

(** The values a [for ... of] loop visits. *)
Definition iterate (v : json) : res (list json) :=
  match v with
  | JArr l => Ok l
  | JStr s => Ok (JStr <$> code_points s)
  | _ => Err TypeError
  end.

Fixpoint for_each {S} (f : json → S → res S) (l : list json) (s : S) : res S :=
  match l with
  | [] => Ok s
  | x :: l => let! s := f x s in for_each f l s
  end.

Definition tryParseJson (raw : jsstr) : option json := parse raw.

(** ** Numbered attributes *)

Definition matchNumberedKey (key prefix : jsstr) : option num :=
  let needle := prefix ++ js "." in
  if negb (starts_with needle key) then None else
  let rest := slice_from (length needle) key in
  dot ← index_of (js ".") rest;
  let numStr := take dot rest in
  if bool_decide (numStr ≠ []) && forallb is_digit numStr then Some (of_Z (digits_val numStr)) else None.

(** A [Set] of numbers in insertion order. *)
Definition add_index (s : list num) (n : num) : list num :=
  if existsb (num_eqb n) s then s else s ++ [n].

Definition message_at (attrs : list (jsstr * json)) (prefix : jsstr) (i : num) : list ChatMessage :=
  let role := prop_get (prefix ++ js "." ++ show_num i ++ js ".role") attrs in
  let content := prop_get (prefix ++ js "." ++ show_num i ++ js ".content") attrs in
  match role, content with
  | Some (JStr _), Some (JStr _) => [Message role content]
  | _, _ => []
  end.

Definition extractNumberedMessages (attrs : list (jsstr * json)) (prefix : jsstr) : list ChatMessage :=
  let indices := foldl add_index [] (omap (λ key, matchNumberedKey key prefix) attrs.*1) in
  if bool_decide (length indices = 0) then [] else
  sort_by num_le indices ≫= message_at attrs prefix.

Definition mergeMessageArrays (prompt completion : list ChatMessage) : list ChatMessage :=
  prompt ++ completion.

(** ** The Laminar shape *)

Section random.
Context `{Random}.

Record lmnr_state : Type := Lmnr {
  l_messages : list ChatMessage;
  l_toolCalls : list ToolCall;
  l_draws : nat
}.

Definition push_message (m : ChatMessage) (s : lmnr_state) : lmnr_state :=
  Lmnr (l_messages s ++ [m]) (l_toolCalls s) (l_draws s).

(** [tc.id ?? `p_${random}`], drawing only when there is no id. *)
Definition id_or_random (p : jsstr) (v : value) (draws : nat) : json * nat :=
  if present v then (value_or v JNull, draws)
  else (JStr (p ++ random36 draws), S draws).

(** [typeof v === "string" ? v : JSON.stringify(v)]. *)
Definition text_of (v : value) : option jsstr :=
  match v with Some (JStr s) => Some s | Some j => Some (stringify j) | None => None end.

(** The body of the three loops over tool calls: [made_up] says whether a missing id
    is drawn at random or left empty, [with_output] whether an output is read. *)
Definition push_tool_call (made_up with_output : bool) (tc : json) (s : lmnr_state) : res lmnr_state :=
  let! fn := member (js "function") tc in
  if truthy_value fn then
    let! inp := member (js "input") tc in
    if present inp || negb (is_text [] inp) then
      let! out := member (js "output") tc in
      let! i := member (js "id") tc in
      let! ty := member (js "type") tc in
      let '(i, draws) := if made_up then id_or_random (js "lc_") i (l_draws s)
                         else (value_or i (JStr []), l_draws s) in
      Ok (Lmnr (l_messages s)
            (l_toolCalls s ++
              [Call i (value_or ty (JStr (js "function"))) (value_or fn JNull) (text_of inp)
                 (if with_output && present out then JStr <$> text_of out else None)])
            draws)
    else Ok s
  else Ok s.

Definition prompt_message (msg : json) (s : lmnr_state) : res lmnr_state :=
  let! c := member (js "content") msg in
  let! r := member (js "role") msg in
  let s := if present c && negb (is_text [] c) then push_message (Message r c) s else s in
  let! calls := member (js "tool_calls") msg in
  match calls with
  | Some v => if truthy_json v then let! l := iterate v in for_each (push_tool_call false false) l s else Ok s
  | None => Ok s
  end.

(** The result of a tool is attached to the first call with its id. *)
Definition attach_output (c : json) (s : lmnr_state) : lmnr_state :=
  match (p ← tryParseJson (string_of_json c); field (js "tool_call_id") p) with
  | Some call_id =>
    if truthy_json call_id then
      Lmnr (l_messages s)
        (update_first (λ t, strict_eq (id t) call_id)
           (λ t, Call (id t) (type t) (function t) (input t) (Some c)) (l_toolCalls s))
        (l_draws s)
    else s
  | None => s
  end.

Definition completion_message (msg : json) (s : lmnr_state) : res lmnr_state :=
  let! r := member (js "role") msg in
  let! c := member (js "content") msg in
  let has_content := present c && negb (is_text [] c) in
  let s := if is_text (js "assistant") r && has_content then push_message (Message r c) s else s in
  let! calls := member (js "tool_calls") msg in
  let! s :=
    match calls with
    | Some v =>
      if is_text (js "assistant") r && truthy_json v
      then let! l := iterate v in for_each (push_tool_call true false) l s else Ok s
    | None => Ok s
    end in
  if is_text (js "tool") r && has_content then
    Ok (attach_output (value_or c JNull) (push_message (Message (Some (JStr (js "tool"))) c) s))
  else Ok s.

(** [tryParseLmnrMessageArray] and [tryParseLmnrToolCallArray]. *)
Definition tryParseLmnrArray (raw : value) : option json :=
  match raw with Some (JStr s) => tryParseJson s | _ => None end.

(** One of the three attributes: nothing when it is absent, not a string, not JSON or
    parses to a falsy value. *)
Definition each_entry (f : json → lmnr_state → res lmnr_state) (raw : value) (s : lmnr_state) : res lmnr_state :=
  if present raw then
    match tryParseLmnrArray raw with
    | Some v => if truthy_json v then let! l := iterate v in for_each f l s else Ok s
    | None => Ok s
    end
  else Ok s.

Definition extractLmnrShape (attrs : list (jsstr * json)) : res lmnr_state :=
  let! s := each_entry prompt_message (prop_get (js "lmnr.prompt") attrs) (Lmnr [] [] 0) in
  let! s := each_entry completion_message (prop_get (js "lmnr.completion") attrs) s in
  each_entry (push_tool_call true true) (prop_get (js "lmnr.tool_calls") attrs) s.

(** ** The extractor *)

(** One element of the two fallback arrays of tool calls. *)
Definition fallback_call (p : jsstr) (tc : json) (draws : nat) : res (ToolCall * nat) :=
  let! i := member (js "id") tc in
  let '(i, draws) := id_or_random p i draws in
  let! ty := member (js "type") tc in
  let! fn := member (js "function") tc in
  let! inp := member (js "input") tc in
  Ok (Call i (value_or ty (JStr (js "function"))) (value_or fn (JStr []))
        (if present inp then text_of inp else Some []) None, draws).

Fixpoint fallback_calls (p : jsstr) (l : list json) (draws : nat) : res (list ToolCall * nat) :=
  match l with
  | [] => Ok ([], draws)
  | tc :: l =>
    let! (c, draws) := fallback_call p tc draws in
    let! (cs, draws) := fallback_calls p l draws in
    Ok (c :: cs, draws)
  end.

Definition fallback_attr (p : jsstr) (attr : value) (calls : option (list ToolCall) * nat)
    : res (option (list ToolCall) * nat) :=
  match calls.1, attr with
  | None, Some (JStr s) =>
    match tryParseJson s with
    | Some (JArr (x :: l)) =>
      let! (cs, draws) := fallback_calls p (x :: l) calls.2 in Ok (Some cs, draws)
    | _ => Ok calls
    end
  | _, _ => Ok calls
  end.

Definition numbered (attrs : list (jsstr * json)) : option (list ChatMessage) :=
  let collect prefixes := prefixes ≫= extractNumberedMessages attrs in
  let allPrompt := collect [js "gen_ai.prompt"; js "llm.prompt"] in
  let allCompletion := collect [js "gen_ai.completion"; js "llm.completion"] in
  if (0 <? length allPrompt) || (0 <? length allCompletion)
  then Some (mergeMessageArrays allPrompt allCompletion) else None.

Definition extractSpanMessages (attrs : list (jsstr * json)) : res SpanMessages :=
  let! s := extractLmnrShape attrs in
  let lmnr := if bool_decide (length (l_messages s) = 0) && bool_decide (length (l_toolCalls s) = 0)
              then None else Some (l_messages s, l_toolCalls s) in
  let msgs := match lmnr with Some (m, _) => Some m | None => numbered attrs end in
  let calls := match lmnr with Some (_, t) => Some t | None => None end in
  let! calls := fallback_attr (js "lc_") (prop_get (js "gen_ai.usage.tool_calls") attrs) (calls, l_draws s) in
  let! calls := fallback_attr (js "tc_") (prop_get (js "tool_call") attrs) calls in
  Ok {| messages := msgs; toolCalls := calls.1; raw := attrs |}.
End random.

(** ** Numbered attributes: the order of the messages *)

Abbreviation of_nat i := (of_Z (Z.of_nat i)).

Definition numbered_entry (prefix : jsstr) (i : nat) (m : jsstr * jsstr) : list (jsstr * json) :=
  [(prefix ++ js "." ++ show_num (of_nat i) ++ js ".role", JStr m.1);
   (prefix ++ js "." ++ show_num (of_nat i) ++ js ".content", JStr m.2)].

(** The attributes that instrumentation writes for a list of roles and contents. *)
Definition numbered_attrs (prefix : jsstr) (l : list (jsstr * jsstr)) : list (jsstr * json) :=
  concat (imap (numbered_entry prefix) l).

Definition MAX_INDEX : nat := 1000.

Definition index_text_ok (i : nat) : bool :=
  let t := show_num (of_nat i) in
  bool_decide (t ≠ []) && forallb is_digit t && (digits_val t =? Z.of_nat i)%Z.

Lemma index_texts_ok : forallb index_text_ok (seq 0 MAX_INDEX) = true.
Proof. vm_compute. reflexivity. Qed.

Lemma index_text i : i < MAX_INDEX →
  show_num (of_nat i) ≠ [] ∧ forallb is_digit (show_num (of_nat i)) = true
  ∧ digits_val (show_num (of_nat i)) = Z.of_nat i.
Proof.
  intros Hi. pose proof (proj1 (forallb_forall _ _) index_texts_ok i) as H.
  specialize (H ltac:(apply in_seq; lia)). unfold index_text_ok in H.
  apply andb_true_iff in H as [H H3]. apply andb_true_iff in H as [H1 H2].
  split_and!; [by apply bool_decide_eq_true in H1|done|by apply Z.eqb_eq].
Qed.

Lemma index_of_dot t r : forallb is_digit t = true → index_of (js ".") (t ++ js "." ++ r) = Some (length t).
Proof.
  change (js ".") with [46%N]. induction t as [|c t IH]; [done|].
  cbn [forallb]. intros [Hc Ht]%andb_true_iff. cbn [app index_of starts_with length].
  destruct (N.eqb_spec 46 c) as [<-|]; [done|]. cbn [andb].
  change (46%N :: r) with ([46%N] ++ r). by rewrite IH.
Qed.

Lemma match_numbered prefix i suffix : i < MAX_INDEX →
  matchNumberedKey (prefix ++ js "." ++ show_num (of_nat i) ++ js "." ++ suffix) prefix = Some (of_nat i).
Proof.
  intros Hi. destruct (index_text i Hi) as (Hne & Hd & Hv). unfold matchNumberedKey.
  rewrite (app_assoc prefix), starts_with_app, slice_from_app. cbn [negb].
  rewrite index_of_dot by done. simpl. rewrite take_app_length, Hd, Hv.
  by rewrite bool_decide_true.
Qed.

Lemma small_index i : i < MAX_INDEX → safe (Z.of_nat i).
Proof. unfold safe, MAX_INDEX. change (2 ^ 53)%Z with 9007199254740992%Z. lia. Qed.

Lemma index_eqb i j : i < MAX_INDEX → j < MAX_INDEX → num_eqb (of_nat i) (of_nat j) = (i =? j).
Proof.
  intros Hi Hj. rewrite !of_Z_safe, eqb_integers by by apply small_index.
  destruct (Nat.eqb_spec i j); lia.
Qed.

Lemma index_le i j : i < MAX_INDEX → j < MAX_INDEX → num_le (of_nat i) (of_nat j) = (i <=? j).
Proof.
  intros Hi Hj. rewrite le_of_Z by by apply small_index. destruct (Nat.leb_spec i j); lia.
Qed.

Definition is_index (n : num) : Prop := ∃ i : nat, i < MAX_INDEX ∧ n = of_nat i.

Lemma is_index_eqb a b : is_index a → is_index b → num_eqb a b = true ↔ a = b.
Proof.
  intros (i & Hi & ->) (j & Hj & ->). rewrite index_eqb by done. rewrite Nat.eqb_eq. split; [by intros ->|].
  intros E. pose proof (index_eqb i j Hi Hj) as Hij. rewrite E in Hij.
  rewrite index_eqb in Hij by done. rewrite Nat.eqb_refl in Hij. by apply Nat.eqb_eq.
Qed.

(** The set of indices: no duplicates, and exactly the indices that occur. *)
Lemma indices_set src : ∀ acc, Forall is_index acc → Forall is_index src → NoDup acc →
  let s := foldl add_index acc src in
  NoDup s ∧ Forall is_index s ∧ ∀ x, x ∈ s ↔ x ∈ acc ∨ x ∈ src.
Proof.
  induction src as [|n src IH]; intros acc Ha Hs Hnd; simpl.
  { split_and!; [done|done|]. intros x. split; [by left|]. by intros [?|?%not_elem_of_nil]. }
  apply Forall_cons in Hs as [Hn Hs].
  assert (existsb (num_eqb n) acc = true ↔ n ∈ acc) as Hex.
  { rewrite existsb_exists. split.
    - intros (x & Hx & E). apply list_elem_of_In in Hx.
      apply is_index_eqb in E; [by subst|done|by apply (proj1 (Forall_forall _ _) Ha)].
    - intros Hin. exists n. split; [by apply list_elem_of_In|]. by apply is_index_eqb. }
  assert (add_index acc n = if existsb (num_eqb n) acc then acc else acc ++ [n]) as -> by done.
  destruct (existsb _ _).
  - destruct (IH acc Ha Hs Hnd) as (H1 & H2 & H3). split_and!; [done|done|].
    intros x. rewrite H3, elem_of_cons. split; [tauto|].
    intros [?|[->|?]]; [by left|left; by apply Hex|by right].
  - destruct (IH (acc ++ [n])) as (H1 & H2 & H3); [by apply Forall_app; auto|done| |].
    { apply NoDup_app. split_and!; [done| |apply NoDup_singleton].
      intros x Hx ->%list_elem_of_singleton. apply Hex in Hx. done. }
    split_and!; [done|done|]. intros x. rewrite H3, elem_of_app, !elem_of_cons, elem_of_nil. tauto.
Qed.

Definition index_list (lo k : nat) : list num := (λ i : nat, of_nat i) <$> seq lo k.

Lemma elem_of_index_list x lo k : x ∈ index_list lo k ↔ ∃ i : nat, x = of_nat i ∧ lo <= i < lo + k.
Proof.
  unfold index_list. rewrite list_elem_of_fmap.
  split; intros (i & -> & Hi); exists i; (split; [done|]); [by apply elem_of_seq in Hi|by apply elem_of_seq].
Qed.

Lemma index_list_sorted k : ∀ lo, lo + k <= MAX_INDEX →
  StronglySorted (λ a b, num_le a b = true) (index_list lo k) ∧ NoDup (index_list lo k).
Proof.
  induction k as [|k IH]; intros lo Hk; [split; constructor|].
  destruct (IH (S lo) ltac:(lia)) as [H1 H2].
  change (index_list lo (S k)) with (of_nat lo :: index_list (S lo) k). split; constructor; try done.
  - apply Forall_forall. intros x (i & -> & Hi)%elem_of_index_list.
    rewrite index_le by lia. apply Nat.leb_le. lia.
  - intros (i & E & Hi)%elem_of_index_list.
    pose proof (index_eqb lo i ltac:(lia) ltac:(lia)) as Hl. rewrite <- E in Hl.
    rewrite index_eqb, Nat.eqb_refl in Hl by lia. symmetry in Hl. apply Nat.eqb_eq in Hl. lia.
Qed.

Lemma sorted_indices s k : k <= MAX_INDEX → NoDup s → (∀ x, x ∈ s ↔ x ∈ index_list 0 k) →
  sort_by num_le s = index_list 0 k.
Proof.
  intros Hk Hnd Hs. destruct (index_list_sorted k 0 Hk) as [Hss Hnd'].
  assert (∀ x, x ∈ s → is_index x) as Hidx.
  { intros x (i & -> & Hi)%Hs%elem_of_index_list. exists i. split; [lia|done]. }
  apply (StronglySorted_unique_strong (λ a b, num_le a b = true)).
  - intros a b Ha Hb Hab Hba. rewrite sort_by_perm in Ha. apply Hs in Hb.
    apply is_index_eqb; [by apply Hidx|by apply Hidx|]. unfold num_eqb. by rewrite Hab, Hba.
  - apply sort_by_sorted. split.
    + intros a b (i & Hi & ->)%Hidx (j & Hj & ->)%Hidx.
      rewrite !index_le by done. rewrite !Nat.leb_le. lia.
    + intros a b c (i & Hi & ->)%Hidx (j & Hj & ->)%Hidx (l & Hl & ->)%Hidx.
      rewrite !index_le by done. rewrite !Nat.leb_le. lia.
  - done.
  - rewrite sort_by_perm. by apply NoDup_Permutation.
Qed.

Lemma numbered_attrs_elem prefix l k v :
  (k, v) ∈ numbered_attrs prefix l ↔ ∃ i m, l !! i = Some m ∧ (k, v) ∈ numbered_entry prefix i m.
Proof.
  unfold numbered_attrs. rewrite list_elem_of_In, in_concat. split.
  - intros (e & He & Hin). apply list_elem_of_In in He, Hin.
    apply elem_of_lookup_imap in He as (i & m & -> & Hm). eauto.
  - intros (i & m & Hm & Hin). exists (numbered_entry prefix i m). rewrite <- !list_elem_of_In. split; [|done].
    apply elem_of_lookup_imap. eauto.
Qed.

(** What the attributes must hold for [extractNumberedMessages] to read [l]: a role and a
    content, both texts, for each of the indices from 0 on, and no other index (other
    attributes of these indices may be there). *)
Record numbers (prefix : jsstr) (l : list (jsstr * jsstr)) (attrs : list (jsstr * json)) : Prop := {
  num_length : length l <= MAX_INDEX;
  num_keys : NoDup attrs.*1;
  num_have : ∀ kv, kv ∈ numbered_attrs prefix l → kv ∈ attrs;
  num_only : ∀ k n, k ∈ attrs.*1 → matchNumberedKey k prefix = Some n →
    ∃ i : nat, n = of_nat i ∧ i < length l
}.

Lemma numbers_extract prefix l attrs : numbers prefix l attrs →
  extractNumberedMessages attrs prefix
  = (λ m : jsstr * jsstr, Message (Some (JStr m.1)) (Some (JStr m.2))) <$> l.
Proof.
  intros [Hl Hk Hhave Honly]. unfold extractNumberedMessages.
  set (src := omap (λ key, matchNumberedKey key prefix) attrs.*1).
  assert (∀ x, x ∈ src ↔ x ∈ index_list 0 (length l)) as Hsrc.
  { intros x. unfold src. rewrite elem_of_index_list, list_elem_of_omap. split.
    - intros (k & Hk' & Hm). destruct (Honly _ _ Hk' Hm) as (i & -> & Hi). exists i. split; [done|lia].
    - intros (i & -> & _ & Hi). simpl in Hi. destruct (lookup_lt_is_Some_2 l i Hi) as [m Hm].
      exists (prefix ++ js "." ++ show_num (of_nat i) ++ js ".role"). split.
      + apply list_elem_of_fmap. exists (prefix ++ js "." ++ show_num (of_nat i) ++ js ".role", JStr m.1). split; [done|].
        apply Hhave, numbered_attrs_elem. exists i, m. split; [done|]. left.
      + apply (match_numbered prefix i (js "role")). lia. }
  destruct (indices_set src []) as (Hnd & _ & Hin); [done| |constructor|].
  { apply Forall_forall. intros x (i & -> & ?)%Hsrc%elem_of_index_list. exists i. split; [lia|done]. }
  rewrite (sorted_indices _ (length l)); [|done|done|].
  2: { intros x. rewrite Hin, <- Hsrc. split; [by intros [?%not_elem_of_nil|?]|by right]. }
  assert (∀ k lo, lo + k = length l → index_list lo k ≫= message_at attrs prefix
    = (λ m : jsstr * jsstr, Message (Some (JStr m.1)) (Some (JStr m.2))) <$> drop lo l) as Hall.
  { clear Hin Hnd Hsrc. induction k as [|k IH]; intros lo Hlo.
    - rewrite drop_ge by lia. done.
    - destruct (lookup_lt_is_Some_2 l lo ltac:(lia)) as [m Hm].
      change (index_list lo (S k)) with (of_nat lo :: index_list (S lo) k).
      rewrite (drop_S l m lo Hm). cbn [mbind list_bind]. rewrite fmap_cons.
      assert (∀ kv, kv ∈ numbered_entry prefix lo m → prop_get kv.1 attrs = Some kv.2) as Hget.
      { intros [k' v] Hkv. apply prop_get_elem; [done|]. apply Hhave, numbered_attrs_elem. eauto. }
      unfold message_at at 1.
      assert (prop_get (prefix ++ js "." ++ show_num (of_nat lo) ++ js ".role") attrs = Some (JStr m.1)) as ->
        by (apply (Hget (_, JStr m.1)); left).
      assert (prop_get (prefix ++ js "." ++ show_num (of_nat lo) ++ js ".content") attrs = Some (JStr m.2)) as ->
        by (apply (Hget (_, JStr m.2)); right; left).
      cbn [app]. f_equal. apply IH. lia. }
  case_bool_decide as H0.
  - destruct l as [|m l]; [done|]. exfalso. apply nil_length_inv in H0.
    assert (of_nat 0 ∈ ([] : list num)) as ?%not_elem_of_nil; [|done].
    rewrite <- H0. apply Hin. right. apply Hsrc, elem_of_index_list. exists 0. simpl. split; [done|lia].
  - rewrite (Hall (length l) 0) by done. by rewrite drop_0.
Qed.

(** ** Properties *)

Section properties.
Context `{Random}.

Definition chat (m : jsstr * jsstr) : ChatMessage := Message (Some (JStr m.1)) (Some (JStr m.2)).

(** None of the attributes of the Laminar shape, nor the two fallback attributes. *)
Definition no_other_shape (attrs : list (jsstr * json)) : Prop :=
  Forall (λ k, prop_get k attrs = None)
    [js "lmnr.prompt"; js "lmnr.completion"; js "lmnr.tool_calls"; js "gen_ai.usage.tool_calls"; js "tool_call"].

(** The guard [tc.input != null || tc.input !== ''] of the three loops always holds. *)
Lemma input_guard v : present v || negb (is_text [] v) = true.
Proof. by destruct v as [[]|]. Qed.

(** C7. Reading back instrumented messages, under all four prefixes: for attributes, in
    whatever order, that hold the numbered entries of four lists of roles and contents,
    one per prefix, each of at most a thousand and with the indices 0, 1, 2 and so on, and
    none of the Laminar or tool-call attributes, the extracted messages are the prompts of
    [gen_ai.prompt] and [llm.prompt] followed by the completions of [gen_ai.completion] and
    [llm.completion], each list in index order (so entry 10 comes after entry 9), or null
    when all four lists are empty. *)
Theorem numbered_messages_roundtrip attrs prompts llm_prompts completions llm_completions :
  numbers (js "gen_ai.prompt") prompts attrs → numbers (js "llm.prompt") llm_prompts attrs →
  numbers (js "gen_ai.completion") completions attrs → numbers (js "llm.completion") llm_completions attrs →
  no_other_shape attrs →
  let all := prompts ++ llm_prompts ++ completions ++ llm_completions in
  extractSpanMessages attrs
  = Ok {| messages := if bool_decide (all = []) then None else Some (chat <$> all); toolCalls := None; raw := attrs |}.
Proof.
  intros Hp Hlp Hc Hlc Hno all.
  unfold no_other_shape in Hno. rewrite !Forall_cons in Hno. destruct Hno as (H1 & H2 & H3 & H4 & H5 & _).
  unfold extractSpanMessages, extractLmnrShape, each_entry. rewrite H1, H2, H3, H4, H5. simpl.
  unfold numbered. cbn [mbind list_bind].
  rewrite !(numbers_extract _ _ _ Hp), !(numbers_extract _ _ _ Hlp), !(numbers_extract _ _ _ Hc),
    !(numbers_extract _ _ _ Hlc). fold chat. change (λ m : jsstr * jsstr, _) with chat.
  rewrite !app_nil_r, <- !fmap_app. unfold mergeMessageArrays. rewrite <- fmap_app, <- app_assoc. fold all.
  rewrite !length_fmap. case_bool_decide as E.
  - subst all. apply app_nil in E as [-> [-> [-> ->]%app_nil]%app_nil]. done.
  - destruct (prompts ++ llm_prompts) as [|m l] eqn:E1; [|done]. simpl.
    destruct (completions ++ llm_completions) as [|m l] eqn:E2; [|done].
    destruct E. subst all. by apply app_nil in E1 as [-> ->], E2 as [-> ->].
Qed.

(** An attribute of the Laminar shape that parses to a JSON object, a non-zero
    number or [true] makes the whole extraction throw a TypeError: what
    [JSON.parse] returned is iterated over without a check that it is an array. *)
Theorem lmnr_not_iterable attrs s v :
  prop_get (js "lmnr.prompt") attrs = Some (JStr s) → parse s = Some v → truthy_json v = true →
  match v with JArr _ | JStr _ => False | _ => True end →
  extractSpanMessages attrs = Err TypeError.
Proof.
  intros Ha Hs Ht Hv. unfold extractSpanMessages, extractLmnrShape, each_entry. rewrite Ha. simpl.
  unfold tryParseJson. rewrite Hs, Ht. by destruct v.
Qed.

(** Tool calls alone hide the chat: when the Laminar attributes hold tool calls
    and no message, the extracted messages are an empty list, not null, and the
    numbered prompts and completions are not read, whatever they hold. *)
Theorem lmnr_calls_hide_messages attrs s c l r :
  prop_get (js "lmnr.prompt") attrs = None → prop_get (js "lmnr.completion") attrs = None →
  prop_get (js "lmnr.tool_calls") attrs = Some (JStr s) → parse s = Some (JArr (c :: l)) →
  (v ← field (js "function") c; Some (truthy_json v)) = Some true →
  extractSpanMessages attrs = Ok r → messages r = Some [] ∧ toolCalls r ≠ Some [] ∧ toolCalls r ≠ None.
Proof.
  intros H1 H2 H3 Hs Hf. unfold extractSpanMessages, extractLmnrShape, each_entry. rewrite H1, H2, H3. simpl.
  unfold tryParseJson. rewrite Hs. simpl.
  assert (∀ xs s0 s1, for_each (push_tool_call true true) xs s0 = Ok s1 →
    l_messages s1 = l_messages s0 ∧ length (l_toolCalls s0) <= length (l_toolCalls s1)) as Hall.
  { induction xs as [|x xs IH]; simpl; intros s0 s1 E; [by simplify_eq|].
    destruct (push_tool_call true true x s0) as [s2|e] eqn:Ex; [|done]. simpl in E.
    destruct (IH _ _ E) as [-> Hlen].
    enough (l_messages s2 = l_messages s0 ∧ length (l_toolCalls s0) <= length (l_toolCalls s2)) as [-> ?].
    { split; [done|]. lia. }
    unfold push_tool_call, member in Ex. destruct x; simplify_eq/=; try done.
    repeat case_match; simplify_eq/=; rewrite ?length_app; (split; [done|lia]). }
  destruct (push_tool_call true true c (Lmnr [] [] 0)) as [s1|e] eqn:Ec; [|done]. simpl.
  destruct (for_each _ l s1) as [s2|e] eqn:El; [|done]. simpl.
  destruct (Hall _ _ _ El) as [Hm Hlen].
  assert (l_messages s1 = [] ∧ length (l_toolCalls s1) = 1) as [Hm1 Hl1].
  { unfold push_tool_call, member in Ec. destruct c as [| | | | |fs]; simpl in Hf; try done.
    simpl in Ec. destruct (prop_get (js "function") fs) as [fv|]; simplify_eq/=. rewrite Hf, input_guard in Ec. unfold id_or_random in Ec. simpl in Ec.
    repeat case_match; simplify_eq/=; try done. }
  rewrite Hm, Hm1. rewrite Hl1 in Hlen. destruct (l_toolCalls s2) as [|t ts]; simpl in *; [lia|].
  intros [= <-]. done.
Qed.
End properties.

(** ** Concrete inputs *)

Module Runs.
#[export] Instance demo_random : Random := λ n, js "r" ++ digits (Z.of_nat n).

Definition prompts : list (jsstr * jsstr) := [(js "system", js "be brief"); (js "user", js "hi")].
Definition llm_prompts : list (jsstr * jsstr) := [(js "user", js "and now?")].
Definition completions : list (jsstr * jsstr) := [(js "assistant", js "hello")].
Definition llm_completions : list (jsstr * jsstr) := [(js "assistant", js "well"); (js "assistant", js "bye")].
(** Not in index order. *)
Definition attrs : list (jsstr * json) :=
  rev (numbered_attrs (js "gen_ai.completion") completions ++ (js "gen_ai.prompt.0.id", JStr (js "m"))
       :: numbered_attrs (js "llm.completion") llm_completions
       ++ numbered_attrs (js "gen_ai.prompt") prompts ++ numbered_attrs (js "llm.prompt") llm_prompts).

Definition member_of (kv : jsstr * json) (l : list (jsstr * json)) : bool :=
  existsb (λ x, match x, kv with (k, JStr v), (k', JStr v') => bool_decide (k = k' ∧ v = v') | _, _ => false end) l.

Lemma member_of_sound kv l : member_of kv l = true → kv ∈ l.
Proof.
  intros ([k v] & Hin & E)%existsb_exists. destruct kv as [k' v'], v, v'; try done.
  apply bool_decide_eq_true in E as [-> ->]. by apply list_elem_of_In.
Qed.

#[local] Instance Q_eq_dec : EqDecision QArith_base.Q.
Proof. solve_decision. Defined.
#[local] Instance num_eq_dec : EqDecision num.
Proof. solve_decision. Defined.

(** [numbers] of closed attributes, decided. *)
Definition numbers_ok (prefix : jsstr) (l : list (jsstr * jsstr)) (attrs : list (jsstr * json)) : bool :=
  (length l <=? MAX_INDEX) && bool_decide (NoDup attrs.*1)
  && forallb (λ kv, member_of kv attrs) (numbered_attrs prefix l)
  && forallb (λ k, match matchNumberedKey k prefix with
                   | Some n => existsb (λ i : nat, bool_decide (n = of_nat i)) (seq 0 (length l))
                   | None => true
                   end) attrs.*1.

Lemma numbers_ok_sound prefix l a : numbers_ok prefix l a = true → numbers prefix l a.
Proof.
  unfold numbers_ok. rewrite !andb_true_iff, !forallb_forall. intros [[[H1 H2] H3] H4]. split.
  - by apply Nat.leb_le.
  - by apply bool_decide_eq_true in H2.
  - intros kv Hkv. apply member_of_sound, H3. by apply list_elem_of_In.
  - intros k n Hk E. apply list_elem_of_In in Hk. specialize (H4 k Hk). rewrite E in H4.
    apply existsb_exists in H4 as (i & Hi%in_seq & ->%bool_decide_eq_true). exists i. split; [done|lia].
Qed.

Lemma numbered_messages_roundtrip_witness :
  extractSpanMessages attrs
  = Ok {| messages := Some (chat <$> prompts ++ llm_prompts ++ completions ++ llm_completions);
          toolCalls := None; raw := attrs |}.
Proof.
  apply (numbered_messages_roundtrip attrs prompts llm_prompts completions llm_completions).
  - apply numbers_ok_sound. vm_compute. reflexivity.
  - apply numbers_ok_sound. vm_compute. reflexivity.
  - apply numbers_ok_sound. vm_compute. reflexivity.
  - apply numbers_ok_sound. vm_compute. reflexivity.
  - repeat constructor.
Defined.

Lemma lmnr_not_iterable_witness : extractSpanMessages [(js "lmnr.prompt", JStr (js "{}"))] = Err TypeError.
Proof.
  apply (lmnr_not_iterable [(js "lmnr.prompt", JStr (js "{}"))] (js "{}") (JObj []));
    first [vm_compute; reflexivity | exact I].
Defined.

Definition call_text : jsstr := stringify (JArr [JObj [(js "function", JStr (js "f"))]]).
Definition hidden_attrs : list (jsstr * json) := (js "lmnr.tool_calls", JStr call_text) :: attrs.

Lemma lmnr_calls_hide_messages_witness :
  ∃ r, extractSpanMessages hidden_attrs = Ok r ∧ messages r = Some [].
Proof.
  eexists. split; [vm_compute; reflexivity|].
  eapply (lmnr_calls_hide_messages hidden_attrs call_text (JObj [(js "function", JStr (js "f"))]) []);
    vm_compute; reflexivity.
Defined.
End Runs.
