(* ===== verification/TimeRange.v ===== *)
(** Time ranges (ui/src/utils/timeRange.ts): a preset of the header becomes a window
    of two ISO 8601 texts.  [Date.prototype.toISOString] is the language's: the
    proleptic Gregorian date of an instant in milliseconds since 1970, in UTC. *)
From S2P Require Import Prelude.
From S2P Require Import JsString.
From S2P Require Import JsNumber.
From S2P Require Import JsJson.
Local Open Scope Z_scope.

(** ** Instants as texts *)

Definition MS_PER_DAY : Z := 86400000.

(** Year, month and day of a number of days since 1970-01-01.  Years are counted from
    March, so that the leap day is the last one; 400 of them have 146097 days. *)
Definition civil_of_days (days : Z) : Z * Z * Z :=
  let z := days + 719468 in
  let era := z / 146097 in
  let doe := z mod 146097 in
  let c := Z.min (doe / 36524) 3 in
  let doc := doe - c * 36524 in
  let q := doc / 1461 in
  let doq := doc - q * 1461 in
  let y := Z.min (doq / 365) 3 in
  let doy := doq - y * 365 in
  let mp := (5 * doy + 2) / 153 in
  let day := doy - (153 * mp + 2) / 5 + 1 in
  let month := if mp <? 10 then mp + 3 else mp - 9 in
  (era * 400 + c * 100 + q * 4 + y + (if month <=? 2 then 1 else 0), month, day).

Definition iso_year (y : Z) : jsstr :=
  if (0 <=? y) && (y <=? 9999) then pad_left 4 (digits y)
  else (if y <? 0 then js "-" else js "+") ++ pad_left 6 (digits (Z.abs y)).

(** [new Date(t).toISOString()]: a RangeError for instants no date can hold. *)
Definition toISOString (t : Z) : option jsstr :=
  if Z.abs t <=? 8640000000000000 then
    let '(y, m, d) := civil_of_days (t / MS_PER_DAY) in
    let ms := t mod MS_PER_DAY in
    let two n := pad_left 2 (digits n) in
    Some (iso_year y ++ js "-" ++ two m ++ js "-" ++ two d
          ++ js "T" ++ two (ms / 3600000) ++ js ":" ++ two (ms / 60000 mod 60) ++ js ":" ++ two (ms / 1000 mod 60)
          ++ js "." ++ pad_left 3 (digits (ms mod 1000)) ++ js "Z")
  else None.

(** ** Presets *)

Definition TIME_RANGE_MS : list (jsstr * Z) :=
  [(js "1h", 60 * 60 * 1000); (js "6h", 6 * 60 * 60 * 1000); (js "1d", 24 * 60 * 60 * 1000);
   (js "7d", 7 * 24 * 60 * 60 * 1000); (js "30d", 30 * 24 * 60 * 60 * 1000)].

Definition TIME_RANGE_LABELS : list (jsstr * jsstr) :=
  [(js "1h", js "Past 1 hour"); (js "6h", js "Past 6 hours"); (js "1d", js "Past 24 hours");
   (js "7d", js "Past 7 days"); (js "30d", js "Past 30 days"); (js "custom", js "Custom range")].

Definition DEFAULT_RANGE_DAYS : Z := 7.

(** The duration of a preset; a name of [Object.prototype] is no number. *)
Definition duration_of (preset : option jsstr) : option Z :=
  let fallback := Some (DEFAULT_RANGE_DAYS * 24 * 60 * 60 * 1000) in
  match preset with
  | Some p =>
    if truthy p then
      match object_get p TIME_RANGE_MS with Own d => Some d | Inherited => None | Absent => fallback end
    else fallback
  | None => fallback
  end.

(** The window of a preset at the time [now]. *)
Definition presetToFromTo (preset : option jsstr) (now : Z) : option (jsstr * jsstr) :=
  durationMs ← duration_of preset;
  from ← toISOString (now - durationMs);
  to ← toISOString now;
  Some (from, to).

(** ** Reading an instant back *)

(** Days since 1970-01-01 of a Gregorian date. *)
Definition days_of_civil (y m d : Z) : Z :=
  let y := if m <=? 2 then y - 1 else y in
  let mp := if 2 <? m then m - 3 else m + 9 in
  y * 365 + y / 4 - y / 100 + y / 400 + (153 * mp + 2) / 5 + d - 1 - 719468.

Definition leap_year (y : Z) : bool := (y mod 4 =? 0) && (negb (y mod 100 =? 0) || (y mod 400 =? 0)).
Definition days_in_month (y m : Z) : Z :=
  if m =? 2 then (if leap_year y then 29 else 28)
  else if (m =? 4) || (m =? 6) || (m =? 9) || (m =? 11) then 30 else 31.

(** The instant a text [YYYY-MM-DDTHH:MM:SS.mmmZ] denotes. *)
Definition instant_of (s : jsstr) : Z :=
  let field from len := digits_val (take len (drop from s)) in
  days_of_civil (field 0 4)%nat (field 5 2)%nat (field 8 2)%nat * MS_PER_DAY
  + (((field 11 2)%nat * 60 + (field 14 2)%nat) * 60 + (field 17 2)%nat) * 1000 + (field 20 3)%nat.

(** [lia] with quotients and remainders. *)
#[local] Ltac Zify.zify_post_hook ::= Z.to_euclidean_division_equations.

(** The day of a year that starts in March, as a month and a day. *)
Lemma month_of_doy doy : 0 <= doy <= 365 →
  let mp := (5 * doy + 2) / 153 in
  let d := doy - (153 * mp + 2) / 5 + 1 in
  0 <= mp <= 11 ∧ 1 <= d
  ∧ d <= (if mp =? 11 then (if doy =? 365 then 29 else 28)
          else if (mp =? 1) || (mp =? 3) || (mp =? 6) || (mp =? 8) then 30 else 31).
Proof.
  intros Hd mp. assert (153 * mp <= 5 * doy + 2 < 153 * mp + 153) as Hmp by (unfold mp; lia).
  clearbody mp. assert (0 <= mp <= 11) as Hr by lia. split; [lia|].
  assert (mp ∈ seqZ 0 12) as Hin by (apply elem_of_seqZ; lia).
  change (seqZ 0 12) with [0; 1; 2; 3; 4; 5; 6; 7; 8; 9; 10; 11] in Hin.
  repeat (apply elem_of_cons in Hin as [->|Hin]; [cbn; repeat case_match; lia|]).
  by apply not_elem_of_nil in Hin.
Qed.

(** A day of a cycle of 400 years, as centuries, periods of four years, years and a
    day of the year. *)
Lemma day_of_era doe : 0 <= doe < 146097 →
  let c := Z.min (doe / 36524) 3 in
  let doc := doe - c * 36524 in
  let q := doc / 1461 in
  let doq := doc - q * 1461 in
  let y := Z.min (doq / 365) 3 in
  let doy := doq - y * 365 in
  0 <= c <= 3 ∧ 0 <= q <= 24 ∧ 0 <= y <= 3 ∧ 0 <= doy <= 365
  ∧ (doy = 365 → y = 3 ∧ (q = 24 → c = 3)).
Proof. intros Hd. cbv zeta. lia. Qed.

Lemma leap_february c q era : 0 <= c <= 3 → 0 <= q <= 24 → (q = 24 → c = 3) →
  leap_year (era * 400 + c * 100 + q * 4 + 3 + 1) = true.
Proof.
  intros Hc Hq Hqc. unfold leap_year. apply andb_true_iff. split; [apply Z.eqb_eq; lia|].
  apply orb_true_iff. destruct (decide (q = 24)) as [E|E].
  - right. apply Z.eqb_eq. rewrite (Hqc E). lia.
  - left. apply negb_true_iff, Z.eqb_neq.
    replace (era * 400 + c * 100 + q * 4 + 3 + 1) with (q * 4 + 4 + (4 * era + c) * 100) by lia.
    rewrite Z_mod_plus_full, Z.mod_small; lia.
Qed.

(** The date of a day is a date of the calendar, and it is the date of that day. *)
Lemma civil_days days :
  let '(y, m, d) := civil_of_days days in
  days_of_civil y m d = days ∧ 1 <= m <= 12 ∧ 1 <= d <= days_in_month y m.
Proof.
  unfold civil_of_days. set (z := days + 719468). set (era := z / 146097). set (doe := z mod 146097).
  assert (0 <= doe < 146097) as Hdoe by (apply Z.mod_pos_bound; lia).
  assert (z = era * 146097 + doe) as Hz by (unfold era, doe; pose proof (Z.div_mod z 146097 ltac:(done)); lia).
  pose proof (day_of_era doe Hdoe) as Hera. cbv zeta in Hera. clearbody era doe.
  set (c := Z.min (doe / 36524) 3) in *. set (doc := doe - c * 36524) in *. set (q := doc / 1461) in *.
  set (doq := doc - q * 1461) in *. set (y := Z.min (doq / 365) 3) in *.
  assert (doq - y * 365 = doe - c * 36524 - q * 1461 - y * 365) as Edoy by (unfold doq, doc; lia).
  set (doy := doq - y * 365) in *. clearbody doy y. clearbody q. clearbody c.
  destruct Hera as (Hc & Hq & Hy & Hdoy & Hlast).
  destruct (month_of_doy doy Hdoy) as (Hmp & Hd1 & Hd2).
  set (mp := (5 * doy + 2) / 153) in *. clearbody mp.
  set (d := doy - (153 * mp + 2) / 5 + 1) in *.
  assert ((153 * mp + 2) / 5 + d - 1 = doy) as Ed by (unfold d; lia). clearbody d.
  cbv zeta. destruct (Z.ltb_spec mp 10) as [Hm|Hm].
  - rewrite (proj2 (Z.leb_gt (mp + 3) 2)) by lia. unfold days_of_civil.
    rewrite (proj2 (Z.leb_gt (mp + 3) 2)), (proj2 (Z.ltb_lt 2 (mp + 3))) by lia.
    split_and!; [|lia..|].
    + replace (mp + 3 - 3) with mp by lia. unfold z in *. lia.
    + unfold days_in_month. rewrite (proj2 (Z.eqb_neq (mp + 3) 2)) by lia.
      rewrite (proj2 (Z.eqb_neq mp 11)) in Hd2 by lia.
      repeat match goal with |- context [?x =? ?y] => destruct (Z.eqb_spec x y) end;
      repeat match goal with H : context [?x =? ?y] |- _ => destruct (Z.eqb_spec x y) end; cbn in *; lia.
  - rewrite (proj2 (Z.leb_le (mp - 9) 2)) by lia. unfold days_of_civil.
    rewrite (proj2 (Z.leb_le (mp - 9) 2)), (proj2 (Z.ltb_ge 2 (mp - 9))) by lia.
    split_and!; [|lia..|].
    + replace (mp - 9 + 9) with mp by lia. unfold z in *. lia.
    + unfold days_in_month. destruct (Z.eqb_spec (mp - 9) 2) as [E2|E2].
      * assert (mp = 11) as -> by lia. cbn in Hd2. destruct (Z.eqb_spec doy 365) as [E|E].
        { destruct (Hlast E) as [-> Hqc]. by rewrite leap_february. }
        case_match; lia.
      * assert (mp = 10) as -> by lia. exact Hd2.
Qed.

(** ** The window of a preset *)

Lemma length_pad_left n s : (length s <= n)%nat → length (pad_left n s) = n.
Proof. unfold pad_left. rewrite length_app, length_replicate. lia. Qed.

Lemma digits_val_zeros n s : digits_val (replicate n 48%N ++ s) = digits_val s.
Proof. induction n as [|n IH]; [done|]. unfold digits_val in *. simpl. exact IH. Qed.

(** A number below [10^n] has at most [n] digits. *)
Lemma length_digits n z : (0 < n)%nat → 0 <= z < 10 ^ Z.of_nat n → (length (digits z) <= n)%nat.
Proof.
  unfold digits. generalize (S (Z.to_nat (Z.log2 z))) as fuel. intros fuel. revert n z.
  induction fuel as [|fuel IH]; intros n z Hn Hz; simpl; [lia|].
  destruct (Z.eqb_spec (z / 10) 0) as [E|E]; [simpl; lia|].
  rewrite digits_go_app, length_app. simpl. destruct n as [|[|n]]; [lia|change (10 ^ Z.of_nat 1) with 10 in Hz; lia|].
  rewrite Nat2Z.inj_succ, Z.pow_succ_r in Hz by lia.
  assert (length (digits_go fuel (z / 10) []) <= S n)%nat; [|lia]. apply IH; [lia|].
  split; [lia|]. apply Z.div_lt_upper_bound; lia.
Qed.

Definition padded (n : nat) (z : Z) (s : jsstr) : Prop := length s = n ∧ digits_val s = z.

Lemma pad_left_padded n z : (0 < n)%nat → 0 <= z < 10 ^ Z.of_nat n → padded n z (pad_left n (digits z)).
Proof.
  intros Hn Hz. split; [by apply length_pad_left, length_digits|].
  unfold pad_left. by rewrite digits_val_zeros, digits_val_digits by lia.
Qed.

(** The instants between the years 0 and 9999. *)
Definition four_digit_year (t : Z) : Prop := -62167219200000 <= t < 253402300800000.

Lemma year_of_instant t : four_digit_year t → 0 <= (civil_of_days (t / MS_PER_DAY)).1.1 <= 9999.
Proof.
  unfold four_digit_year, MS_PER_DAY. intros Ht.
  pose proof (civil_days (t / 86400000)) as H. destruct (civil_of_days _) as [[y m] d]. cbn [fst].
  destruct H as (Hd & Hm & Hday). assert (-719528 <= t / 86400000 < 2932897) as Hr by lia.
  assert (1 <= d <= 31) as Hd31 by (unfold days_in_month in Hday; repeat case_match; lia).
  rewrite <- Hd in Hr. clear Hd Hday Ht. unfold days_of_civil in Hr.
  destruct (Z.leb_spec m 2), (Z.ltb_spec 2 m); lia.
Qed.

(** A text in the format gives its fields back. *)
Lemma fields_of_iso s1 s2 s3 s4 s5 s6 s7 y mo d h mi sec ms :
  padded 4 y s1 → padded 2 mo s2 → padded 2 d s3 → padded 2 h s4 → padded 2 mi s5 → padded 2 sec s6 → padded 3 ms s7 →
  let s := s1 ++ js "-" ++ s2 ++ js "-" ++ s3 ++ js "T" ++ s4 ++ js ":" ++ s5 ++ js ":" ++ s6 ++ js "." ++ s7 ++ js "Z" in
  length s = 24%nat ∧ instant_of s = days_of_civil y mo d * MS_PER_DAY + ((h * 60 + mi) * 60 + sec) * 1000 + ms.
Proof.
  intros [L1 <-] [L2 <-] [L3 <-] [L4 <-] [L5 <-] [L6 <-] [L7 <-]. cbv zeta. split.
  { rewrite !length_app, L1, L2, L3, L4, L5, L6, L7. reflexivity. }
  change (js "-") with [45%N]. change (js "T") with [84%N]. change (js ":") with [58%N]. change (js ".") with [46%N].
  repeat match goal with
  | L : length ?s = S _ |- _ => destruct s; [discriminate L|injection L as L]
  | L : length ?s = 0%nat |- _ => apply nil_length_inv in L; subst s
  end.
  reflexivity.
Qed.

(** Reading the text of an instant gives the instant. *)
Lemma instant_of_iso t : four_digit_year t → ∃ s, toISOString t = Some s ∧ instant_of s = t ∧ length s = 24%nat.
Proof.
  intros Ht. unfold toISOString. rewrite (proj2 (Z.leb_le _ _)) by (unfold four_digit_year in Ht; lia).
  pose proof (civil_days (t / MS_PER_DAY)) as Hcd. pose proof (year_of_instant t Ht) as Hy.
  destruct (civil_of_days _) as [[y m] d]. cbn [fst] in Hy. destruct Hcd as (Hdays & Hm & Hd).
  assert (1 <= d <= 31) as Hd31 by (unfold days_in_month in Hd; repeat case_match; lia).
  eexists. split; [reflexivity|].
  unfold iso_year. rewrite (proj2 (Z.leb_le 0 y)), (proj2 (Z.leb_le y 9999)) by lia. cbn [andb].
  set (ms := t mod MS_PER_DAY). assert (0 <= ms < 86400000) as Hms by (apply Z.mod_pos_bound; done).
  assert (t = t / MS_PER_DAY * MS_PER_DAY + ms) as Et by (unfold ms; pose proof (Z.div_mod t MS_PER_DAY); lia).
  destruct (fields_of_iso _ _ _ _ _ _ _ y m d (ms / 3600000) (ms / 60000 mod 60) (ms / 1000 mod 60) (ms mod 1000)
    (pad_left_padded 4 y ltac:(lia) ltac:(lia)) (pad_left_padded 2 m ltac:(lia) ltac:(lia))
    (pad_left_padded 2 d ltac:(lia) ltac:(lia)) (pad_left_padded 2 (ms / 3600000) ltac:(lia) ltac:(lia))
    (pad_left_padded 2 (ms / 60000 mod 60) ltac:(lia) ltac:(lia))
    (pad_left_padded 2 (ms / 1000 mod 60) ltac:(lia) ltac:(lia))
    (pad_left_padded 3 (ms mod 1000) ltac:(lia) ltac:(lia))) as [Hlen Hval].
  split; [|exact Hlen]. etransitivity; [exact Hval|]. rewrite Hdays. transitivity (t / MS_PER_DAY * MS_PER_DAY + ms); [|done].
  clearbody ms. clear -Hms. lia.
Qed.


