(* ===== verification/Ui.v ===== *)
(** What the user-interface files share: views, and components as state machines.

    A view is the tree a component renders, without styles, class names and drawings:
    its elements with the attributes and handlers that matter, and its texts.  A
    handler is the action it performs, a value of the component's own type; a callback
    given to another component is the set of actions it can lead to.  The submit
    handler of a form is written on its submit button, since a form whose submit
    button is disabled is not submitted.

    A component is its state and its handlers.  A handler changes the state and may go
    on after a request: a program waits for the answer to a request,
    for which the code declares the type of the body.  Answers come in any order, at
    any time, with any status, or never; between them any other handler may run.  A
    body of another shape than the declared one is outside the model; one that is not
    JSON at all is [None]. *)
From S2P Require Import Prelude.
From S2P Require Import JsString.
From S2P Require Import JsJson.

(** ** Views *)

#[warnings="-register-all"]
Inductive attribute (A : Type) : Type :=
| Attr (key : string) (value : jsstr)
| Flag (key : string) (b : bool)
| On (key : string) (a : A)
| OnValue (key : string) (f : jsstr → A)
| Callback (key : string) (can : A → Prop).
Arguments Attr {A} key value.
Arguments Flag {A} key b.
Arguments On {A} key a.
Arguments OnValue {A} key f.
Arguments Callback {A} key can.

#[warnings="-register-all"]
Inductive view (A : Type) : Type :=
| Text (s : jsstr)
| El (tag : string) (ps : list (attribute A)) (cs : list (view A)).
Arguments Text {A} s.
Arguments El {A} tag ps cs.

Section views.
Context {A : Type}.

Definition txt (s : string) : view A := Text (js s).

(** [cond && <.../>]. *)
Definition when (b : bool) (v : view A) : list (view A) := if b then [v] else [].
Definition when_some {B} (o : option B) (f : B → view A) : list (view A) :=
  match o with Some b => [f b] | None => [] end.

Definition attribute_disables (p : attribute A) : bool :=
  match p with Flag k b => b && bool_decide (k = "disabled"%string) | _ => false end.

(** The actions a user can trigger: a disabled element triggers none. *)
Fixpoint actions (v : view A) : list A :=
  match v with
  | Text _ => []
  | El _ ps cs =>
    (if existsb attribute_disables ps then []
     else ps ≫= λ p, match p with On _ a => [a] | _ => [] end)
    ++ (cs ≫= actions)
  end.

(** The fields a user can fill in, as the action a text gives. *)
Fixpoint entries (v : view A) : list (jsstr → A) :=
  match v with
  | Text _ => []
  | El _ ps cs =>
    (if existsb attribute_disables ps then []
     else ps ≫= λ p, match p with OnValue _ f => [f] | _ => [] end)
    ++ (cs ≫= entries)
  end.

Fixpoint texts (v : view A) : list jsstr :=
  match v with
  | Text s => [s]
  | El _ _ cs => cs ≫= texts
  end.

Fixpoint callbacks (v : view A) : list (A → Prop) :=
  match v with
  | Text _ => []
  | El _ ps cs => (ps ≫= λ p, match p with Callback _ can => [can] | _ => [] end) ++ (cs ≫= callbacks)
  end.

Definition offers (v : view A) (a : A) : Prop :=
  a ∈ actions v ∨ (∃ f t, f ∈ entries v ∧ a = f t) ∨ (∃ can, can ∈ callbacks v ∧ can a).
End views.

(** A component's view inside its parent's, whose actions embed the component's. *)
Fixpoint map_view {A B} (f : A → B) (v : view A) : view B :=
  match v with
  | Text s => Text s
  | El tag ps cs =>
    El tag
      ((λ p, match p with
             | Attr k x => Attr k x | Flag k b => Flag k b
             | On k a => On k (f a) | OnValue k g => OnValue k (λ t, f (g t))
             | Callback k can => Callback k (λ b, ∃ a, b = f a ∧ can a)
             end) <$> ps)
      (map_view f <$> cs)
  end.

Section view_lemmas.
Context {A B : Type}.

Lemma view_tree_ind (P : view A → Prop) :
  (∀ s, P (Text s)) → (∀ tag ps cs, Forall P cs → P (El tag ps cs)) → ∀ v, P v.
Proof.
  intros Ht He. fix IH 1. intros [s|tag ps cs]; [apply Ht|apply He].
  induction cs as [|c cs IHcs]; constructor; [apply IH|exact IHcs].
Qed.

(** An action of the parent that comes from an embedded view is one of that view. *)
Lemma offers_map_view (f : A → B) v b : offers (map_view f v) b ↔ ∃ a, b = f a ∧ offers v a.
Proof.
  assert (∀ v, actions (map_view f v) = f <$> actions v) as Ha.
  { intros w. induction w as [s|tag ps cs IH] using view_tree_ind; simpl; [done|].
    rewrite fmap_app. f_equal.
    - assert (existsb attribute_disables ((λ p : attribute A,
        match p with
        | Attr k x => Attr k x | Flag k b0 => Flag k b0 | On k a => On k (f a)
        | OnValue k g => OnValue k (λ t, f (g t))
        | Callback k can => Callback k (λ b0, ∃ a, b0 = f a ∧ can a) end) <$> ps)
        = existsb attribute_disables ps) as ->.
      { induction ps as [|p ps IHp]; csimpl; [done|]. rewrite IHp. by destruct p. }
      destruct (existsb _ ps); [done|]. induction ps as [|p ps IHp]; csimpl; [done|].
      rewrite fmap_app, IHp. by destruct p.
    - induction IH as [|c cs Hc _ IHcs]; csimpl; [done|]. by rewrite fmap_app, Hc, IHcs. }
  assert (∀ v b, (∃ g t, g ∈ entries (map_view f v) ∧ b = g t) ↔ ∃ g t, g ∈ entries v ∧ b = f (g t)) as He.
  { intros w b'. enough (∀ g, g ∈ entries (map_view f w) ↔ g ∈ (λ h t, f (h t)) <$> entries w) as Hg.
    { setoid_rewrite Hg. setoid_rewrite list_elem_of_fmap. naive_solver. }
    enough (entries (map_view f w) = (λ h t, f (h t)) <$> entries w) as -> by done.
    induction w as [s|tag ps cs IH] using view_tree_ind; simpl; [done|].
    rewrite fmap_app. f_equal.
    - match goal with |- (if ?c then _ else _) = _ => assert (c = existsb attribute_disables ps) as -> end.
      { induction ps as [|p ps IHp]; csimpl; [done|]. rewrite IHp. by destruct p. }
      destruct (existsb _ ps); [done|]. induction ps as [|p ps IHp]; csimpl; [done|].
      rewrite fmap_app, IHp. by destruct p.
    - induction IH as [|c cs Hc _ IHcs]; csimpl; [done|]. by rewrite fmap_app, Hc, IHcs. }
  assert (∀ v, callbacks (map_view f v) = (λ can b, ∃ a, b = f a ∧ can a) <$> callbacks v) as Hc.
  { intros w. induction w as [s|tag ps cs IH] using view_tree_ind; simpl; [done|].
    rewrite fmap_app. f_equal.
    - induction ps as [|p ps IHp]; csimpl; [done|]. rewrite fmap_app, IHp. by destruct p.
    - induction IH as [|c cs Hc _ IHcs]; csimpl; [done|]. by rewrite fmap_app, Hc, IHcs. }
  unfold offers. rewrite He, Ha, Hc, list_elem_of_fmap. setoid_rewrite list_elem_of_fmap. naive_solver.
Qed.

(** What an element offers: by its own attributes, or in one of its children. *)
Lemma offers_el tag (ps : list (attribute A)) cs a :
  offers (El tag ps cs) a ↔ offers (El tag ps []) a ∨ ∃ c, c ∈ cs ∧ offers c a.
Proof.
  unfold offers. cbn [actions entries callbacks]. rewrite !app_nil_r.
  setoid_rewrite elem_of_app. setoid_rewrite list_elem_of_bind. naive_solver.
Qed.

Lemma offers_nil tag (cs : list (view A)) a : offers (El tag [] cs) a ↔ ∃ c, c ∈ cs ∧ offers c a.
Proof.
  rewrite offers_el. split; [|by right]. intros [[H|[(f & t & H & _)|(can & H & _)]]|H]; [..|done];
    by apply not_elem_of_nil in H.
Qed.

Lemma offers_child tag (ps : list (attribute A)) cs c a : c ∈ cs → offers c a → offers (El tag ps cs) a.
Proof. intros Hc Ha. apply offers_el. right. by exists c. Qed.

Lemma texts_child tag (ps : list (attribute A)) cs c t : c ∈ cs → t ∈ texts c → t ∈ texts (El tag ps cs).
Proof. intros Hc Ht. simpl. apply list_elem_of_bind. by exists c. Qed.

(** An element that is not disabled offers what its handlers do. *)
Lemma offers_on tag (ps : list (attribute A)) cs k a :
  existsb attribute_disables ps = false → On k a ∈ ps → offers (El tag ps cs) a.
Proof.
  intros Hd Hp. left. simpl. rewrite Hd. apply elem_of_app. left. apply list_elem_of_bind. exists (On k a).
  split; [left|done].
Qed.

Lemma offers_value tag (ps : list (attribute A)) cs k f x :
  existsb attribute_disables ps = false → OnValue k f ∈ ps → offers (El tag ps cs) (f x).
Proof.
  intros Hd Hp. right. left. exists f, x. split; [|done]. simpl. rewrite Hd. apply elem_of_app. left.
  apply list_elem_of_bind. exists (OnValue k f). split; [left|done].
Qed.

Lemma offers_text s a : ¬ @offers A (Text s) a.
Proof. intros [H|[(f & t & H & _)|(can & H & _)]]; by apply not_elem_of_nil in H. Qed.
End view_lemmas.

(** ** What a view can emit: every action it offers satisfies a predicate *)

Section emits.
Context {A : Type} (P : A → Prop).

Definition emits (v : view A) : Prop := ∀ a, offers v a → P a.

Definition attribute_emits (p : attribute A) : Prop :=
  match p with
  | On _ a => P a
  | OnValue _ f => ∀ t, P (f t)
  | Callback _ can => ∀ a, can a → P a
  | Attr _ _ | Flag _ _ => True
  end.

Lemma emits_text s : emits (Text s).
Proof. by intros a ?%offers_text. Qed.

Lemma emits_el tag ps cs : Forall attribute_emits ps → Forall emits cs → emits (El tag ps cs).
Proof.
  intros Hps Hcs a. rewrite Forall_forall in Hps. rewrite Forall_forall in Hcs. intros [H|(c & Hc & H)]%offers_el; [|by apply (Hcs c)].
  unfold offers in H. simpl in H. rewrite !app_nil_r in H.
  destruct H as [H|[(f & t & H & ->)|(can & H & Ha)]].
  - destruct (existsb _ _); [by apply not_elem_of_nil in H|].
    apply list_elem_of_bind in H as (p & H & Hp%Hps).
    destruct p; try (by apply not_elem_of_nil in H). by apply list_elem_of_singleton in H as ->.
  - destruct (existsb _ _); [by apply not_elem_of_nil in H|].
    apply list_elem_of_bind in H as (p & H & Hp%Hps).
    destruct p; try (by apply not_elem_of_nil in H). by apply list_elem_of_singleton in H as ->.
  - apply list_elem_of_bind in H as (p & H & Hp%Hps).
    destruct p; try (by apply not_elem_of_nil in H). apply list_elem_of_singleton in H as ->. by apply Hp.
Qed.

(** A disabled element emits only what its children do. *)
Lemma emits_disabled tag ps cs :
  existsb attribute_disables ps = true →
  Forall (λ p, match p with Callback _ _ => False | _ => True end) ps → Forall emits cs → emits (El tag ps cs).
Proof.
  intros Hd Hps Hcs a. rewrite Forall_forall in Hps. rewrite Forall_forall in Hcs. intros [H|(c & Hc & H)]%offers_el; [|by apply (Hcs c)].
  unfold offers in H. simpl in H. rewrite Hd, !app_nil_r in H.
  destruct H as [H|[(f & t & H & ->)|(can & H & Ha)]]; [by apply not_elem_of_nil in H..|].
  apply list_elem_of_bind in H as (p & H & Hp%Hps). by destruct p; try (by apply not_elem_of_nil in H).
Qed.

Lemma emits_map {B} (f : B → view A) l : (∀ b, b ∈ l → emits (f b)) → Forall emits (f <$> l).
Proof. intros H. apply Forall_fmap, Forall_forall. auto. Qed.

Lemma emits_when b v : (b = true → emits v) → Forall emits (when b v).
Proof. destruct b; simpl; [|by constructor]. intros H. constructor; [auto|constructor]. Qed.

Lemma emits_when_some {B} (o : option B) f : (∀ b, o = Some b → emits (f b)) → Forall emits (when_some o f).
Proof. destruct o; simpl; [|by constructor]. intros H. constructor; [auto|constructor]. Qed.
End emits.

Lemma emits_map_view {A B} (P : B → Prop) (f : A → B) v : emits (λ a, P (f a)) v → emits P (map_view f v).
Proof. intros H b (a & -> & Ha)%offers_map_view. by apply H. Qed.

(** Goes through the structure of a view; what remains are the actions. *)
Ltac emit_step :=
  lazymatch goal with
  | |- emits _ (Text _) => apply emits_text
  | |- emits _ (txt _) => apply emits_text
  | |- emits _ (El _ _ _) => apply emits_el
  | |- emits _ (if ?b then _ else _) => destruct b eqn:?
  | |- emits _ (match ?b with _ => _ end) => destruct b eqn:?
  | |- Forall _ [] => constructor
  | |- Forall _ (_ :: _) => constructor
  | |- Forall _ (_ ++ _) => apply Forall_app_2
  | |- Forall (emits _) (_ <$> _) => apply emits_map; intros
  | |- Forall (emits _) (when _ _) => apply emits_when; intros
  | |- Forall (emits _) (when_some _ _) => apply emits_when_some; intros
  | |- Forall _ (if ?b then _ else _) => destruct b eqn:?
  | |- Forall _ (match ?b with _ => _ end) => destruct b eqn:?
  | |- attribute_emits _ _ => simpl; try exact I; intros; try done
  end.
Ltac emit := repeat emit_step.

(** Case analysis on what a concrete element without children offers. *)
Ltac offer_cases H :=
  let can := fresh "can" in let t := fresh "t" in let f := fresh "f" in let Hc := fresh "Hcan" in
  unfold offers in H; simpl in H;
  destruct H as [H|[(f & t & H & Hc)|(can & H & Hc)]];
  repeat (apply elem_of_cons in H as [H|H]); try (by apply not_elem_of_nil in H);
  subst; simplify_eq/=.

(** ** Programs that wait for answers *)

Record request : Type := Request {
  r_method : jsstr;
  r_url : jsstr;
  r_body : option jsstr
}.

Definition get_request (url : jsstr) : request := Request (js "GET") url None.

(** A request with a JSON body. *)
Definition send_json (method : string) (url : jsstr) (body : json) : request :=
  Request (js method) url (Some (stringify body)).

(** [fetch] resolved to a response, or was rejected.  Of the body there is what
    [text()] gives and what [json()] gives; an exception has a message. *)
Inductive answer (T : Type) : Type :=
| Answer (status : Z) (text : result jsstr jsstr) (body : result jsstr T)
| NoAnswer (message : jsstr).
Arguments Answer {T} status text body.
Arguments NoAnswer {T} message.

(** [response.ok]. *)
Definition ok_status (status : Z) : bool := ((200 <=? status) && (status <=? 299))%Z.

(** [if (!res.ok) throw new Error(not_ok); const data = await res.json()] under a
    [catch] that uses the message. *)
Definition body_or_error {T} (not_ok : jsstr) (a : answer T) : result jsstr T :=
  match a with
  | NoAnswer m => Err m
  | Answer status _ body => if ok_status status then body else Err not_ok
  end.

(** The body of a successful response that is JSON. *)
Definition ok_body {T} (a : answer T) : option T :=
  match body_or_error [] a with Ok b => Some b | Err _ => None end.

(** Why a request did not succeed, for code that shows the text of an error response
    or, if that is empty, a message of its own; nothing if it did. *)
Definition refusal {T} (or_else : jsstr) (a : answer T) : option jsstr :=
  match a with
  | NoAnswer m => Some m
  | Answer status text _ =>
    if ok_status status then None
    else Some (match text with Ok t => if truthy t then t else or_else | Err m => m end)
  end.

(** Why it did not, for code that shows the [error] of the JSON body of a response. *)
Definition refusal_text {T} (error_of : T → option jsstr) (or_else : string) (a : answer T) : jsstr :=
  match a with
  | Answer _ _ (Ok b) => match error_of b with Some e => if truthy e then e else js or_else | None => js or_else end
  | _ => js or_else
  end.

#[warnings="-register-all"]
Inductive program (S : Type) : Type :=
| Fetch (T : Type) (q : request) (resume : answer T → S → S * list (program S)).
Arguments Fetch {S} T q resume.

(** What a handler does: the new state and the requests it starts. *)
Abbreviation outcome S := (S * list (program S))%type.

Section machine.
Context {S Op : Type} (legal : Op → S → Prop) (handle : Op → S → outcome S).

(** One step: an event that can happen is handled, or the answer to one of the waiting
    requests arrives. *)
Inductive step : outcome S → outcome S → Prop :=
| step_event op s ps : legal op s → step (s, ps) ((handle op s).1, ps ++ (handle op s).2)
| step_answer s ps qs T q resume a :
    step (s, ps ++ Fetch T q resume :: qs)
         ((resume a s).1, ps ++ (resume a s).2 ++ qs).

(** The outcome [c] is that of an answer to the program [p] in the state [s]. *)
Definition answered (p : program S) (s : S) (c : outcome S) : Prop :=
  match p with Fetch T q resume => ∃ a, c = resume a s end.

Lemma step_inv c c' : step c c' →
  (∃ op, legal op c.1 ∧ c' = ((handle op c.1).1, c.2 ++ (handle op c.1).2))
  ∨ ∃ ps p qs d, c.2 = ps ++ p :: qs ∧ answered p c.1 d ∧ c' = (d.1, ps ++ d.2 ++ qs).
Proof.
  intros [op s ps Hl|s ps qs T q resume a]; [by left; exists op|right].
  exists ps, (Fetch T q resume), qs, (resume a s). split; [done|]. split; [by exists a|done].
Qed.

Definition reachable (s0 : S) (c : outcome S) : Prop := rtc step (s0, []) c.

(** What a program must keep, whatever answers it gets in whatever states. *)
Inductive keeps (I : S → Prop) : program S → Prop :=
| keeps_fetch T q resume :
    (∀ a s, I s → I (resume a s).1) → (∀ a s p, I s → p ∈ (resume a s).2 → keeps I p) →
    keeps I (Fetch T q resume).

Abbreviation all_keep I ps := (Forall (keeps I) ps).

Lemma keeps_inv I p : keeps I p →
  match p with
  | Fetch T q resume => ∀ a s, I s → I (resume a s).1 ∧ all_keep I (resume a s).2
  end.
Proof. intros [T q resume H1 H2] a s Hs. split; [auto|]. apply Forall_forall. eauto. Qed.

Lemma keeps_answers I T q resume :
  (∀ a s, I s → I (resume a s).1 ∧ all_keep I (resume a s).2) → all_keep I [Fetch T q resume].
Proof.
  intros H. apply Forall_singleton. constructor; [intros a s Hs; by destruct (H a s Hs)|].
  intros a s p Hs. apply Forall_forall. by destruct (H a s Hs).
Qed.

Definition handlers_keep (I : S → Prop) : Prop :=
  ∀ op s, legal op s → I s → I (handle op s).1 ∧ all_keep I (handle op s).2.

(** Rule induction on the reachable outcomes. *)
Lemma reachable_ind (P : outcome S → Prop) s0 c :
  P (s0, []) → (∀ c c', P c → step c c' → P c') → reachable s0 c → P c.
Proof. intros H0 Hs Hr. unfold reachable in Hr. revert H0. induction Hr; eauto. Qed.

Lemma invariant (I : S → Prop) s0 c :
  handlers_keep I → I s0 → reachable s0 c → I c.1.
Proof.
  intros Hh H0 Hr. enough (I c.1 ∧ all_keep I c.2) by tauto.
  unfold reachable in Hr. remember (s0, []) as c0 eqn:Hc0.
  assert (I c0.1 ∧ all_keep I c0.2) as Hc by (subst; split; [done|constructor]).
  clear Hc0 H0. induction Hr as [c|c c' c'' Hs _ IH]; [done|]. apply IH. clear IH.
  destruct Hs as [op s ps Hl|s ps qs T q resume a]; simpl in *; destruct Hc as [Hi Hps].
  - destruct (Hh op s Hl Hi) as [H1 H2]. split; [done|]. apply Forall_app. auto.
  - apply Forall_app in Hps as [Hps Hqs]. apply Forall_cons in Hqs as [Hq Hqs].
    apply keeps_inv in Hq. destruct (Hq a s Hi) as [H1 H2].
    split; [done|]. by rewrite !Forall_app.
Qed.
End machine.
Abbreviation all_keep I ps := (Forall (keeps I) ps).

(** A handler that makes no request. *)
Definition now {S} (s : S) : outcome S := (s, []).

(** ** Requests one after the other

    A handler that awaits its requests in turn has at most one of them open: the
    outcome finishes after at most [n] answers, whatever they are and whatever happened
    to the state in between, in a state with [Q]. *)
Inductive finishes {S} (Q : S → Prop) : nat → outcome S → Prop :=
| finishes_now n s : Q s → finishes Q n (s, [])
| finishes_fetch n s T q resume :
    (∀ a s', finishes Q n (resume a s')) → finishes Q (Datatypes.S n) (s, [Fetch T q resume]).

(** The requests it makes when each of them succeeds. *)
Inductive sends {S} : outcome S → list request → Prop :=
| sends_nothing s : sends (s, []) []
| sends_fetch s T q resume qs :
    (∀ status text body s', ok_status status = true → sends (resume (Answer status text (Ok body)) s') qs) →
    sends (s, [Fetch T q resume]) (q :: qs).
