(* ===== verification/Widgets.v ===== *)
(** Small components several pages use: EmptyState.tsx, ErrorBanner.tsx, Skeleton.tsx,
    CopyButton.tsx, Breadcrumb.tsx and OnboardingEmptyState.tsx under ui/src/components. *)
From S2P Require Import Prelude.
From S2P Require Import JsString.
From S2P Require Import Ui.

Section widgets.
Context {A : Type}.

Inductive EmptyStateVariant : Type := onboarding | search | error_ | default_ | loading_.

Definition defaultConfig (v : EmptyStateVariant) : jsstr * jsstr :=
  match v with
  | onboarding => (js "No traces yet", js "Get started by sending your first trace to omneval")
  | search => (js "No results found", js "Try adjusting your filters or search query")
  | error_ => (js "Something went wrong", js "Please try refreshing the page")
  | default_ => (js "Nothing here", js "Create something to get started")
  | loading_ => ([], [])
  end.

(** The button is there when both its label and its action are given. *)
Definition EmptyState (v : EmptyStateVariant) (title description actionLabel : option jsstr)
    (onAction : option A) : view A :=
  let resolvedTitle := default (defaultConfig v).1 title in
  let resolvedDescription := default (defaultConfig v).2 description in
  El "div" [Attr "role" (js "status")]
    ([El "div" [] [El "svg" [] []]; El "p" [] [Text resolvedTitle]]
     ++ when (truthy resolvedDescription) (El "p" [] [Text resolvedDescription])
     ++ match onAction, actionLabel with
        | Some a, Some l => when (truthy l) (El "button" [On "click" a] [Text l])
        | _, _ => []
        end).

Definition Skeleton : view A := El "div" [] [].

Definition LoadingState (rows : nat) (showTitle : bool) : view A :=
  El "div" [] (when showTitle Skeleton ++ replicate rows Skeleton).

Definition ErrorBanner (message : jsstr) (onDismiss onRetry : option A) (retryLabel : jsstr) : view A :=
  El "div" [Attr "role" (js "alert")]
    ([El "svg" [] []; El "span" [] [Text message]]
     ++ when_some onDismiss (λ a, El "button" [On "click" a; Attr "aria-label" (js "Dismiss")] [El "svg" [] []])
     ++ when_some onRetry (λ a, El "button" [On "click" a] [El "svg" [] []; Text retryLabel])).

Definition WarningBanner (message : jsstr) : view A :=
  El "div" [Attr "role" (js "alert")] [El "svg" [] []; El "span" [] [Text message]].
Definition InfoBanner (message : jsstr) : view A := El "div" [] [El "svg" [] []; El "span" [] [Text message]].

(** A button that copies a text, given the action of doing so. *)
Definition CopyButton (copied : bool) (copy : A) (copyLabel ariaLabel : jsstr) : view A :=
  El "button" [On "click" copy; Attr "aria-label" ariaLabel]
    (if copied then [El "span" [] [txt "Copied!"]] else [El "svg" [] []; El "span" [] [Text copyLabel]]).

(** The last crumb is where the user is: it is disabled and does nothing. *)
Definition BreadcrumbButton (label : jsstr) (onClick : option A) (isLast : bool) : view A :=
  El "button" (match onClick with Some a => [On "click" a] | None => [] end ++ [Flag "disabled" isLast]) [Text label].

Definition Breadcrumb (items : list (jsstr * option A)) : list (view A) :=
  when (bool_decide (items ≠ []))
    (El "nav" [Attr "aria-label" (js "Breadcrumb")]
       (imap (λ i '(label, onClick),
          let isLast := bool_decide (S i = length items) in
          let b := BreadcrumbButton label (if isLast then None else onClick) isLast in
          if bool_decide (i = 0%nat) then b else El "div" [] [El "svg" [] []; b]) items)).
End widgets.

(** The error boundary: what it shows once its children threw while rendering. *)
Module Boundary.
Record state : Type := State { hasError : bool; error : option jsstr; reloads : nat }.
Definition initial : state := State false None 0.

Inductive op (A : Type) : Type := Reload | Child (a : A).
Arguments Reload {A}.
Arguments Child {A} a.

Definition getDerivedStateFromError (message : jsstr) (s : state) : state := State true (Some message) (reloads s).
Definition handleReload (s : state) : state := State false None (S (reloads s)).

(** Rendering its children gives a view or throws an error with a message. *)
Definition rendered {A} (children : Prelude.result jsstr (view A)) (s : state) : state :=
  match children with Err m => if hasError s then s else getDerivedStateFromError m s | Ok _ => s end.

Definition render {A} (children : view A) (s : state) : view (op A) :=
  if hasError s then
    El "div" []
      [El "svg" [] []; El "p" [] [txt "Something went wrong"];
       El "p" [] [Text (if truthy_opt (error s) then default [] (error s) else js "An unexpected error occurred")];
       El "button" [On "click" Reload] [txt "Reload Page"]]
  else map_view Child children.
End Boundary.

(** The copy button by itself: what is copied, and for how long it says so. *)
Module Copy.
Record state : Type := State { clipboard : option jsstr; copied : bool; resets : list Z; clock : Z }.
#[export] Instance state_eta : Eta state := λ s, State (clipboard s) (copied s) (resets s) (clock s).

Definition FEEDBACK_MS : Z := 2000.

(** [handleCopy]: the write to the clipboard succeeds or not. *)
Definition handleCopy (text : jsstr) (succeeds : bool) (s : state) : state :=
  if succeeds
  then s <| clipboard := Some text |> <| copied := true |> <| resets ::= λ l, l ++ [(clock s + FEEDBACK_MS)%Z] |>
  else s.

(** Time passes; a timer that has become due takes the feedback back. *)
Definition tick (dt : Z) (s : state) : state :=
  let now := (clock s + dt)%Z in
  let due := filter (λ t, (t <= now)%Z) (resets s) in
  s <| clock := now |> <| resets ::= filter (λ t, ¬ (t <= now)%Z) |>
    <| copied := copied s && bool_decide (due = []) |>.
End Copy.

(** The copy commands of the first steps. *)
Definition installCommand : jsstr := js "pip install omneval-sdk".
Definition apiKeyCommand : jsstr :=
  js "curl -X POST http://localhost:8080/api/v1/projects/<project-id>/api-keys -H " ++ [c_quote]
  ++ js "Content-Type: application/json" ++ [c_quote] ++ js " -d '{" ++ [c_quote] ++ js "kind" ++ [c_quote]
  ++ js ":" ++ [c_quote] ++ js "project" ++ [c_quote] ++ js "}'".

Definition onboarding_step {A} (n title : string) (last : view A) : view A :=
  El "div" [] [El "span" [] [txt n]; El "span" [] [txt title]; last].

Definition OnboardingEmptyState {A} (copied : jsstr → bool) (copy : jsstr → A) : view A :=
  let button text label := CopyButton (copied text) (copy text) (js "Copy") (js label) in
  El "div" []
    [El "svg" [] []; El "p" [] [txt "No traces yet"]; El "p" [] [txt "Get started in 3 simple steps:"];
     El "div" []
       [onboarding_step "1" "Install the SDK" (button installCommand "Copy install command");
        onboarding_step "2" "Create an API key" (button apiKeyCommand "Copy API key curl command");
        onboarding_step "3" "Send your first trace" (El "a" [Attr "href" (js "/docs/ingest")] [txt "View ingest docs →"])]].
