(* ===== verification/Visuals.v ===== *)
(** Colours and the looks of span kinds: ui/src/theme.ts and
    ui/src/modules/spanKindVisuals.tsx. *)
From Stdlib Require Import QArith_base.
From S2P Require Import Prelude.
From S2P Require Import JsString.
From S2P Require Import JsNumber.
From S2P Require Import JsJson.
From S2P Require Import Formatters.
From S2P Require Import Ui.
Local Open Scope Z_scope.

(** ** The palette *)

Definition table (l : list (string * string)) : list (jsstr * jsstr) := (λ '(k, v), (js k, js v)) <$> l.

Definition backgrounds : list (jsstr * jsstr) :=
  table [("abyssBlack", "#0A0A0F"); ("charcoalDepth", "#111118"); ("slightIllumination", "#1C1C28");
         ("caveWall", "#2A2A3A"); ("voidBlack", "#0A0A0F"); ("depth", "#111118"); ("surface", "#1C1C28");
         ("border", "#2A2A3A")]%string.

Definition accents : list (jsstr * jsstr) :=
  table [("emberFlare", "#7C3AED"); ("softGlow", "#8B5CF6"); ("flicker", "#A78BFA"); ("deepHeat", "#6D28D9");
         ("emberGlow", "#7C3AED"); ("greenSuccess", "#10B981"); ("amberWarning", "#F59E0B");
         ("dangerRed", "#EF4444"); ("dangerLight", "#FCA5A5"); ("violet", "#7C3AED"); ("violetLight", "#8B5CF6");
         ("violetPale", "#A78BFA"); ("violetDark", "#6D28D9"); ("cyan", "#06B6D4"); ("cyanLight", "#22D3EE");
         ("cyanDark", "#0891B2")]%string.

Definition typography : list (jsstr * jsstr) :=
  table [("pureLight", "#FFFFFF"); ("midTone", "#C4C4D4"); ("ashGrey", "#8B8BA7")]%string.

Definition cssVariables : list (jsstr * jsstr) :=
  table [("--omneval-void", "#0A0A0F"); ("--omneval-depth", "#111118"); ("--omneval-surface", "#1C1C28");
         ("--omneval-border", "#2A2A3A"); ("--omneval-violet", "#7C3AED"); ("--omneval-violet-light", "#8B5CF6");
         ("--omneval-violet-pale", "#A78BFA"); ("--omneval-violet-dark", "#6D28D9"); ("--omneval-cyan", "#06B6D4");
         ("--omneval-cyan-light", "#22D3EE"); ("--omneval-success", "#10B981"); ("--omneval-warning", "#F59E0B");
         ("--omneval-danger", "#EF4444"); ("--omneval-danger-light", "#FCA5A5"); ("--omneval-text-pure", "#FFFFFF");
         ("--omneval-text-mid", "#C4C4D4"); ("--omneval-text-muted", "#8B8BA7");
         ("--omneval-card-shadow", "0 1px 4px rgba(0, 0, 0, 0.6), 0 1px 2px rgba(0, 0, 0, 0.4)");
         ("--omneval-card-hover-shadow", "0 4px 16px rgba(0, 0, 0, 0.7), 0 2px 8px rgba(0, 0, 0, 0.5)");
         ("--omneval-bg-abyss", "#0A0A0F"); ("--omneval-bg-charcoal", "#111118");
         ("--omneval-bg-illumination", "#1C1C28"); ("--omneval-bg-cave", "#2A2A3A");
         ("--omneval-accent-ember", "#7C3AED"); ("--omneval-accent-glow", "#8B5CF6");
         ("--omneval-accent-flicker", "#A78BFA"); ("--omneval-accent-heat", "#6D28D9");
         ("--omneval-accent-ember-glow", "#7C3AED"); ("--omneval-accent-success", "#10B981");
         ("--omneval-accent-warning", "#F59E0B"); ("--omneval-accent-danger", "#EF4444");
         ("--omneval-accent-danger-light", "#FCA5A5"); ("--omneval-text-ash", "#8B8BA7")]%string.

(** A colour the code names directly. *)
Definition color (k : string) (palette : list (jsstr * jsstr)) : jsstr := default [] (prop_get (js k) palette).

Definition series : list jsstr :=
  [js "#7C3AED"; js "#8B5CF6"; js "#06B6D4"; js "#A78BFA"; js "#22D3EE"; js "#6D28D9"].

Definition barOpacity (index total : nat) : num :=
  num_add (rnd (11 # 20))
    (num_div (num_mul (rnd (9 # 20)) (of_Z (Z.of_nat index))) (Z.to_pos (Z.of_nat (max total 1)))).

Definition focusRing : list (jsstr * jsstr) :=
  table [("normal", "rgba(124, 58, 237, 0.3)"); ("danger", "rgba(239, 68, 68, 0.3)")]%string.

(** [hex.replace("#", "")] takes the first one out. *)
Definition remove_first (p s : jsstr) : jsstr :=
  match index_of p s with Some i => take i s ++ drop (i + length p) s | None => s end.

(** [parseInt(s, 16)]. *)
Definition parse_hex (s : jsstr) : num :=
  let s := trim_start s in
  let '(negative, s) := match s with 45%N :: r => (true, r) | 43%N :: r => (false, r) | _ => (false, s) end in
  let s := match s with 48%N :: (120%N | 88%N) :: r => r | _ => s end in
  let x :=
    match hex_digits s with
    | [] => NaN
    | h => of_Z (foldl (λ n c, n * 16 + Z.of_N (default 0%N (hex_val c))) 0 h)
    end in
  if negative : bool then num_neg x else x.

Definition toRgba (hex : jsstr) (alpha : num) : jsstr :=
  let cleaned := remove_first (js "#") hex in
  let channel from := show_num (parse_hex (take 2 (drop from cleaned))) in
  js "rgba(" ++ channel 0%nat ++ js ", " ++ channel 2%nat ++ js ", " ++ channel 4%nat ++ js ", " ++ show_num alpha ++ js ")".

Definition flickerRgba (alpha : num) : jsstr := toRgba (js "#A78BFA") alpha.

(** ** Span kinds *)

Inductive Icon : Type := SparkleIcon | WrenchIcon | PersonIcon | ChainIcon | DotIcon.

Record SpanKindVisual : Type := { visual_color : jsstr; visual_label : jsstr; visual_icon : Icon }.

Definition ICONS : list (jsstr * Icon) :=
  [(js "llm", SparkleIcon); (js "tool", WrenchIcon); (js "agent", PersonIcon); (js "chain", ChainIcon);
   (js "internal", DotIcon)].

Definition spanKindVisuals : list (jsstr * SpanKindVisual) :=
  let visual c l i := {| visual_color := js c; visual_label := js l; visual_icon := i |} in
  [(js "llm", visual "#7C3AED" "LLM" SparkleIcon); (js "tool", visual "#06B6D4" "Tool" WrenchIcon);
   (js "agent", visual "#F59E0B" "Agent" PersonIcon); (js "chain", visual "#22D3EE" "Chain" ChainIcon);
   (js "internal", visual "#8B8BA7" "Internal" DotIcon)]%string.

(** The accessors are given texts that the server calls kinds.  Reading a property of
    a kind that is not in the table throws; of a member every object has, it gives
    [undefined]. *)
Inductive access (A : Type) : Type := Found (a : A) | Undefined | Throws.
Arguments Found {A} a.
Arguments Undefined {A}.
Arguments Throws {A}.

Definition visual_property {A} (f : SpanKindVisual → A) (kind : jsstr) : access A :=
  match object_get kind spanKindVisuals with
  | Own v => Found (f v)
  | Inherited => Undefined
  | Absent => Throws
  end.

Definition getSpanKindColor (kind : jsstr) : access jsstr := visual_property visual_color kind.
Definition getSpanKindLabel (kind : jsstr) : access jsstr := visual_property visual_label kind.

(** Looking an icon up never throws. *)
Definition getSpanKindIcon (kind : jsstr) : prop_lookup Icon := object_get kind ICONS.

Definition icon_view {A} (i : Icon) : view A := El "svg" [Attr "role" (js "img")] [].

(** The members every object has are found in the table too, and React calls a function
    as a component, without a receiver, and draws the text it returns.  Without a receiver
    [toString] returns a text and the others throw; [constructor] returns its argument,
    the properties, which cannot be drawn, and [__proto__] is no function. *)
Definition member_text (kind : jsstr) : option jsstr :=
  if bool_decide (kind = js "toString") then Some (js "[object Undefined]") else None.

(** [None]: rendering throws, as it does for what is not a component. *)
Definition SpanKindIcon {A} (kind : jsstr) : option (view A) :=
  match getSpanKindIcon kind with
  | Own i => Some (icon_view i)
  | Inherited => Text <$> member_text kind
  | Absent => None
  end.

Lemma emits_icon {A} (P : A → Prop) kind v : SpanKindIcon kind = Some v → emits P (id v).
Proof.
  unfold SpanKindIcon, member_text. intros E. case_match; [|case_bool_decide|]; simplify_eq/=.
  - apply emits_el; repeat constructor.
  - apply emits_text.
Qed.

(** The five kinds, the texts whose icon can be drawn, and those whose colour can be read. *)
Definition known_kind (kind : jsstr) : bool :=
  match getSpanKindIcon kind with Own _ => true | Inherited | Absent => false end.
Definition kind_drawn (kind : jsstr) : bool := match @SpanKindIcon unit kind with Some _ => true | None => false end.
Definition kind_coloured (kind : jsstr) : bool :=
  match getSpanKindColor kind with Throws => false | Found _ | Undefined => true end.

(** What the tables have for a kind. *)
Definition well_drawn (kind : jsstr) : bool :=
  match object_get kind spanKindVisuals, getSpanKindIcon kind with
  | Own v, Own i =>
    match i, visual_icon v with
    | SparkleIcon, SparkleIcon | WrenchIcon, WrenchIcon | PersonIcon, PersonIcon | ChainIcon, ChainIcon
    | DotIcon, DotIcon => true
    | _, _ => false
    end && bool_decide (visual_color v ∈ (accents ++ typography).*2)
    && bool_decide (to_upper (visual_label v) = to_upper kind)
  | _, _ => false
  end.

Lemma all_well_drawn : forallb well_drawn ICONS.*1 = true.
Proof. by vm_compute. Qed.

Lemma known_kind_listed kind : known_kind kind = true ↔ kind ∈ ICONS.*1.
Proof.
  unfold known_kind, getSpanKindIcon, object_get. split.
  - destruct (prop_get kind ICONS) as [i|] eqn:E; [|by case_bool_decide].
    intros _. apply prop_get_in in E. apply list_elem_of_fmap. by exists (kind, i).
  - intros H. destruct (prop_get kind ICONS) eqn:E; [done|]. by apply prop_get_None in E.
Qed.

Lemma same_kinds : spanKindVisuals.*1 = ICONS.*1.
Proof. reflexivity. Qed.

(** Both tables have the same keys. *)
Lemma unknown_kind kind : known_kind kind = false → prop_get kind spanKindVisuals = None ∧ prop_get kind ICONS = None.
Proof.
  intros Hk. assert (kind ∉ ICONS.*1) as Hn by (intros H%known_kind_listed; congruence).
  split; [rewrite <- same_kinds in Hn|]; apply eq_None_not_Some; intros [v E%prop_get_in]; apply Hn;
    apply list_elem_of_fmap; by exists (kind, v).
Qed.

(** C40. Which texts are kinds that can be drawn.  The known kinds are exactly the five of
    the type; for each of them the tables agree: its colour is one of the palette, its
    icon is the same in both tables and drawn, and its label is the kind, but for the case
    of the letters.  For any other text that is no member of every object, reading
    its colour or label throws, its icon is undefined, and drawing it throws.  For a
    member of every object colour and label are undefined, and drawing it throws, but for
    [toString], which is called as a component and draws a text. *)
Theorem span_kinds_drawn kind :
  (known_kind kind = true ↔ kind ∈ [js "llm"; js "tool"; js "agent"; js "chain"; js "internal"])
  ∧ (known_kind kind = true →
     ∃ v, getSpanKindColor kind = Found (visual_color v) ∧ getSpanKindLabel kind = Found (visual_label v)
          ∧ getSpanKindIcon kind = Own (visual_icon v) ∧ @SpanKindIcon unit kind = Some (icon_view (visual_icon v))
          ∧ visual_color v ∈ (accents ++ typography).*2 ∧ to_upper (visual_label v) = to_upper kind)
  ∧ (known_kind kind = false → kind ∉ object_prototype →
     getSpanKindColor kind = Throws ∧ getSpanKindLabel kind = Throws
     ∧ getSpanKindIcon kind = Absent ∧ @SpanKindIcon unit kind = None)
  ∧ (known_kind kind = false → kind ∈ object_prototype →
     getSpanKindColor kind = Undefined ∧ getSpanKindLabel kind = Undefined ∧ getSpanKindIcon kind = Inherited
     ∧ ∀ view, @SpanKindIcon unit kind = Some view ↔ kind = js "toString" ∧ view = Text (js "[object Undefined]")).
Proof.
  split; [exact (known_kind_listed kind)|]. split.
  { intros Hk%known_kind_listed. pose proof (proj1 (forallb_forall _ _) all_well_drawn kind) as Hw.
    specialize (Hw (proj1 (list_elem_of_In _ _) Hk)). unfold well_drawn in Hw.
    unfold getSpanKindColor, getSpanKindLabel, visual_property, SpanKindIcon.
    destruct (object_get kind spanKindVisuals) as [v| |]; [|done..].
    destruct (getSpanKindIcon kind) as [i| |]; [|done..].
    apply andb_true_iff in Hw as [[Hi Hc%bool_decide_eq_true]%andb_true_iff Hl%bool_decide_eq_true].
    assert (i = visual_icon v) as -> by by destruct i, (visual_icon v). by exists v. }
  unfold getSpanKindColor, getSpanKindLabel, visual_property, SpanKindIcon, getSpanKindIcon, object_get.
  split; intros [E1 E2]%unknown_kind Hp; rewrite E1, E2.
  - by rewrite bool_decide_false.
  - rewrite bool_decide_true by done. split_and!; [done..|]. intros view. unfold member_text.
    case_bool_decide as Ht; naive_solver.
Qed.

Lemma span_kinds_drawn_witness :
  known_kind (js "tool") = true ∧ (∃ v, getSpanKindColor (js "tool") = Found (visual_color v))
  ∧ getSpanKindColor (js "retriever") = Throws
  ∧ @SpanKindIcon unit (js "toString") = Some (Text (js "[object Undefined]"))
  ∧ @SpanKindIcon unit (js "valueOf") ≠ Some (Text (js "[object Undefined]")).
Proof.
  assert (known_kind (js "tool") = true) as Hk by by vm_compute. split; [exact Hk|]. split; [|split; [|split]].
  - destruct (proj1 (proj2 (span_kinds_drawn (js "tool"))) Hk) as (v & E & _). exists v. exact E.
  - apply (proj1 (proj2 (proj2 (span_kinds_drawn (js "retriever"))))); [by vm_compute|by eapply bool_decide_unpack; vm_compute].
  - apply (proj2 (proj2 (proj2 (span_kinds_drawn (js "toString"))))); [by vm_compute|by eapply bool_decide_unpack; vm_compute|done].
  - intros E. apply (proj2 (proj2 (proj2 (span_kinds_drawn (js "valueOf"))))) in E as [E _]; [done|by vm_compute|].
    by eapply bool_decide_unpack; vm_compute.
Defined.
