(* ===== verification/JsonCodeBlock.v ===== *)
(** The block that shows JSON with colours (ui/src/components/JsonCodeBlock.tsx).  Its
    text is set as HTML, so what matters is that data cannot become markup. *)
From S2P Require Import Prelude.
From S2P Require Import JsString.
From S2P Require Import JsNumber.
From S2P Require Import JsJson.
From S2P Require Import Formatters.
From S2P Require Import Ui.
Local Open Scope N_scope.

(** ** [JSON.stringify(v, null, 2)] *)

Definition newline (depth : nat) : jsstr := c_nl :: replicate (2 * depth) 32.

(** Elements one per line between brackets, or just the brackets. *)
Definition bracketed (open close : jsstr) (depth : nat) (l : list jsstr) : jsstr :=
  match l with
  | [] => open ++ close
  | _ => open ++ newline (S depth) ++ str_join (js "," ++ newline (S depth)) l ++ newline depth ++ close
  end.

Fixpoint pretty (depth : nat) (v : json) : jsstr :=
  match v with
  | JArr l => bracketed (js "[") (js "]") depth (pretty (S depth) <$> l)
  | JObj fs => bracketed (js "{") (js "}") depth ((λ '(k, v), quote k ++ js ": " ++ pretty (S depth) v) <$> fs)
  | v => stringify v
  end.

(** ** Replacing *)

(** [s.replace(/c/g, t)] for one character. *)
Definition replace_char (c : N) (t s : jsstr) : jsstr := s ≫= λ d, if d =? c then t else [d].

Definition escapeHtml (value : jsstr) : jsstr :=
  replace_char 62 (js "&gt;") (replace_char 60 (js "&lt;") (replace_char 38 (js "&amp;") value)).

(** [s.replace(r, f)] for a global pattern: [m] gives, for a match at the start of a
    text, what takes its place and the text after it. *)
Fixpoint replace_go (fuel : nat) (m : jsstr → option (jsstr * jsstr)) (s : jsstr) : jsstr :=
  match fuel with
  | O => s
  | S fuel =>
    match m s with
    | Some (t, r) => t ++ replace_go fuel m r
    | None => match s with [] => [] | c :: r => c :: replace_go fuel m r end
    end
  end.
Definition replace (m : jsstr → option (jsstr * jsstr)) (s : jsstr) : jsstr := replace_go (length s) m s.

Definition style_tag (style : string) : jsstr :=
  js "<span style=" ++ [c_quote] ++ js style ++ [c_quote] ++ js ">".
Definition close_tag : jsstr := js "</span>".

(** [(".*?"(?!\w):)]: the shortest text in quotes before a colon, on one line; a colon is
    no word character.  The replacement puts another quote before the match, which
    has its quotes, and another colon after it. *)
Definition key_match (s : jsstr) : option (jsstr * jsstr) :=
  match s with
  | 34 :: r =>
    '(k, _, r) ← lazy_until (λ c, negb (line_terminator c)) (λ s, r ← strip [34; 58] s; Some (tt, r)) r;
    Some (style_tag "color: var(--omneval-violet-light)" ++ [c_quote] ++ ([34] ++ k ++ [34; 58]) ++ close_tag ++ js ":", r)
  | _ => None
  end.

(** The rest of a string literal, its closing quote included: [(?:[^"\\]|\\.)*"]. *)
Fixpoint string_rest (s : jsstr) : option (jsstr * jsstr) :=
  match s with
  | 34 :: r => Some ([34], r)
  | 92 :: s' =>
    match s' with
    | c :: r => if line_terminator c then None else '(b, r) ← string_rest r; Some (92 :: c :: b, r)
    | [] => None
    end
  | c :: r => '(b, r) ← string_rest r; Some (c :: b, r)
  | [] => None
  end.

(** [:\s*(...)] with what the group takes, coloured. *)
Definition after_colon (style : string) (group : jsstr → option (jsstr * jsstr)) (s : jsstr) : option (jsstr * jsstr) :=
  match s with
  | 58 :: r =>
    '(g, r) ← group (take_while is_space r).2;
    Some (js ": " ++ style_tag style ++ g ++ close_tag, r)
  | _ => None
  end.

Definition string_group (s : jsstr) : option (jsstr * jsstr) :=
  match s with 34 :: r => '(b, r) ← string_rest r; Some (34 :: b, r) | _ => None end.

(** [\d+\.?\d*]. *)
Definition number_group (s : jsstr) : option (jsstr * jsstr) :=
  let '(d, r) := take_while is_digit s in
  match d with
  | [] => None
  | _ =>
    let '(p, r) := match r with 46 :: r => ([46], r) | _ => ([], r) end in
    let '(e, r) := take_while is_digit r in
    Some (d ++ p ++ e, r)
  end.

(** [true|false|null]. *)
Definition word_group (s : jsstr) : option (jsstr * jsstr) :=
  let word w := r ← strip w s; Some (w, r) in
  match word (js "true") with
  | Some x => Some x
  | None => match word (js "false") with Some x => Some x | None => word (js "null") end
  end.

Definition highlightJson (json : jsstr) : jsstr :=
  let escaped := escapeHtml json in
  let escaped := replace key_match escaped in
  let escaped := replace (after_colon "color: var(--omneval-violet-pale)" string_group) escaped in
  let escaped := replace (after_colon "color: #82AAFF" number_group) escaped in
  replace (after_colon "color: #C792EA" word_group) escaped.

(** The HTML of the block. *)
Definition rawOutput (value : jsstr) : jsstr :=
  match parse value with
  | Some obj => highlightJson (pretty 0 obj)
  | None => escapeHtml value
  end.

(** The view; the text of [pre] is HTML. *)
Definition JsonCodeBlock {A} (value label : jsstr) : view A :=
  if truthy value then
    El "div" [] (when (truthy label) (El "div" [] [Text label]) ++ [El "pre" [Attr "dangerouslySetInnerHTML" (rawOutput value)] []])
  else El "div" [] [txt "— empty —"].

(** ** What replacing keeps *)

(** A match takes at least one character. *)
Definition consumes (m : jsstr → option (jsstr * jsstr)) : Prop :=
  ∀ s t r, m s = Some (t, r) → (length r < length s)%nat.

Section replace.
Context (m : jsstr → option (jsstr * jsstr)) (Hm : consumes m).

Lemma replace_go_fuel n k s : (length s ≤ n)%nat → (length s ≤ k)%nat → replace_go n m s = replace_go k m s.
Proof using Hm.
  revert k s. induction n as [|n IH]; intros k s Hn Hk.
  - destruct s; [|simpl in Hn; lia]. destruct k; [done|]. simpl. destruct (m []) as [[t r]|] eqn:E; [|done].
    apply Hm in E. simpl in E. lia.
  - destruct k as [|k].
    { destruct s; [|simpl in Hk; lia]. simpl. destruct (m []) as [[t r]|] eqn:E; [|done]. apply Hm in E. simpl in E. lia. }
    simpl. destruct (m s) as [[t r]|] eqn:E.
    + f_equal. apply Hm in E. apply IH; lia.
    + destruct s as [|c r]; [done|]. simpl in *. f_equal. apply IH; lia.
Qed.

Lemma replace_match s t r : m s = Some (t, r) → replace m s = t ++ replace m r.
Proof using Hm.
  intros E. pose proof (Hm _ _ _ E). unfold replace. destruct (length s) as [|n] eqn:En; [lia|]. simpl. rewrite E.
  f_equal. apply replace_go_fuel; lia.
Qed.

Lemma replace_skip c s : m (c :: s) = None → replace m (c :: s) = c :: replace m s.
Proof using Hm. intros E. unfold replace. simpl. by rewrite E. Qed.

Lemma replace_nil : replace m [] = [].
Proof. done. Qed.

(** By cases on what is at the front of the text. *)
Lemma replace_ind (P : jsstr → jsstr → Prop) :
  P [] [] →
  (∀ s t r, m s = Some (t, r) → P r (replace m r) → P s (t ++ replace m r)) →
  (∀ c s, m (c :: s) = None → P s (replace m s) → P (c :: s) (c :: replace m s)) →
  ∀ s, P s (replace m s).
Proof using Hm.
  intros H0 Hmatch Hskip s. remember (length s) as n eqn:En. revert s En.
  induction n as [n IH] using lt_wf_ind. intros s ->. destruct (m s) as [[t r]|] eqn:E.
  - rewrite (replace_match s t r) by done. apply Hmatch; [done|]. apply (IH (length r)); [by eapply Hm|done].
  - destruct s as [|c s]; [done|]. rewrite replace_skip by done. apply Hskip; [done|].
    apply (IH (length s)); [simpl; lia|done].
Qed.

(** Text in which no match begins stays as it is. *)
Fixpoint unmatched (t w : jsstr) : Prop :=
  match t with [] => True | c :: t' => m (t ++ w) = None ∧ unmatched t' w end.

Lemma replace_unmatched t w : unmatched t w → replace m (t ++ w) = t ++ replace m w.
Proof using Hm.
  induction t as [|c t IH]; [done|]. intros [E Ht]. simpl in *. rewrite replace_skip by done. by rewrite IH.
Qed.
End replace.

(** ** Tags

    Every [<] of a text begins one of the given tags. *)

Definition tags (T : list jsstr) (s : jsstr) : Prop :=
  ∀ u v, s = u ++ 60 :: v → ∃ t, t ∈ T ∧ t `prefix_of` 60 :: v.

Lemma tags_nil T : tags T [].
Proof. intros [|? u] v; discriminate. Qed.

Lemma tags_cons T c s : c ≠ 60 → tags T s → tags T (c :: s).
Proof. intros Hc Hs [|d u] v E; simplify_eq/=; by eapply Hs. Qed.

Lemma tags_tail T c s : tags T (c :: s) → tags T s.
Proof. intros H u v E. apply (H (c :: u) v). by rewrite E. Qed.

Lemma tags_suffix T a s : tags T (a ++ s) → tags T s.
Proof. induction a as [|c a IH]; [done|]. intros H. apply IH. by eapply tags_tail. Qed.

Lemma tags_lt T s t : tags T s → t ∈ T → t `prefix_of` 60 :: s → tags T (60 :: s).
Proof. intros Hs Ht Hp [|d u] v E; simplify_eq/=; [by exists t|by eapply Hs]. Qed.

Lemma tags_plain T a s : 60 ∉ a → tags T s → tags T (a ++ s).
Proof.
  induction a as [|c a IH]; [done|]. intros Hn Hs. apply not_elem_of_cons in Hn as [Hc Ha].
  apply tags_cons; [congruence|by apply IH].
Qed.

Lemma plain a : existsb (N.eqb 60) a = false → 60 ∉ a.
Proof. intros H Hin%list_elem_of_In. enough (existsb (N.eqb 60) a = true) by congruence. apply existsb_exists. by exists 60. Qed.

(** A tag with nothing but plain characters after its [<]. *)
Lemma tags_tag T b s : 60 :: b ∈ T → 60 ∉ b → tags T s → tags T ((60 :: b) ++ s).
Proof.
  intros Ht Hb Hs. simpl. eapply tags_lt; [by apply tags_plain|exact Ht|]. by exists s.
Qed.

Lemma tags_none s : 60 ∉ s → tags [] s.
Proof. intros Hs u v ->. destruct Hs. apply elem_of_app. right. left. Qed.

Lemma tags_none_inv s : tags [] s → 60 ∉ s.
Proof.
  intros H (u & v & ->)%list_elem_of_split. destruct (H u v eq_refl) as (t & Ht & _). by apply not_elem_of_nil in Ht.
Qed.

(** Replacing keeps the tags of a text if no match begins inside one, and adds tags if
    what takes the place of a match does. *)
Lemma replace_tags m T T' s :
  consumes m → (∀ t, t ∈ T → t ∈ T') →
  (∀ t w, t ∈ T → unmatched m t w) →
  (∀ s t r, tags T s → m s = Some (t, r) → tags T r ∧ (tags T' (replace m r) → tags T' (t ++ replace m r))) →
  tags T s → tags T' (replace m s).
Proof.
  intros Hm HT Hu Hmatch. revert s. apply (replace_ind m Hm (λ s s', tags T s → tags T' s')).
  - intros _. apply tags_nil.
  - intros s t r E IH Hs. destruct (Hmatch s t r Hs E) as [Hr Ht]. auto.
  - intros c s E IH Hs. specialize (IH (tags_tail _ _ _ Hs)).
    destruct (decide (c = 60)) as [->|Hc]; [|by apply tags_cons].
    destruct (Hs [] s eq_refl) as (t & Ht & [w Ew]). eapply tags_lt; [done|by apply HT|].
    exists (replace m w). rewrite <- replace_unmatched by auto. rewrite <- Ew. by rewrite replace_skip.
Qed.

(** ** The tags of the block *)

Definition light_tag : jsstr := style_tag "color: var(--omneval-violet-light)".
Definition pale_tag : jsstr := style_tag "color: var(--omneval-violet-pale)".
Definition number_tag : jsstr := style_tag "color: #82AAFF".
Definition word_tag : jsstr := style_tag "color: #C792EA".
(** What a string literal that ends with the quote of a tag's attribute makes of it. *)
Definition broken_tag : jsstr := js "<span style=" ++ [c_quote] ++ close_tag ++ drop 13 light_tag.

Definition block_tags : list jsstr := [close_tag; light_tag; pale_tag; broken_tag; number_tag; word_tag].

Lemma not_lt_in_escaped s : 60 ∉ escapeHtml s.
Proof.
  unfold escapeHtml, replace_char. intros (c & H & Hc)%list_elem_of_bind.
  destruct (N.eqb_spec c 62); [by apply list_elem_of_In in H; simpl in H; intuition discriminate|].
  apply list_elem_of_singleton in H as <-. apply list_elem_of_bind in Hc as (d & H & _).
  destruct (N.eqb_spec d 60); [by apply list_elem_of_In in H; simpl in H; intuition discriminate|].
  by apply list_elem_of_singleton in H as <-.
Qed.

Lemma strip_Some p s r : strip p s = Some r → s = p ++ r.
Proof.
  unfold strip. destruct (starts_with p s) eqn:E; [|done]. intros [= <-]. apply starts_with_spec in E as [q ->].
  by rewrite drop_app_length.
Qed.

Lemma lazy_until_Some {A} ok (tail : jsstr → option (A * jsstr)) s t a r :
  lazy_until ok tail s = Some (t, a, r) → ∃ s', s = t ++ s' ∧ tail s' = Some (a, r).
Proof.
  revert t. induction s as [|c s IH]; intros t; simpl.
  - destruct (tail []) as [[a' r']|] eqn:E; [|done]. intros [= <- <- <-]. by exists [].
  - destruct (tail (c :: s)) as [[a' r']|] eqn:E; [intros [= <- <- <-]; by exists (c :: s)|].
    destruct (ok c); [|done]. destruct (lazy_until ok tail s) as [[[t' a'] r']|] eqn:E'; simpl; [|done].
    intros [= <- <- <-]. destruct (IH t' eq_refl) as (s' & -> & Hs'). by exists s'.
Qed.

Lemma key_match_Some s t r : key_match s = Some (t, r) →
  ∃ k, s = (34 :: k ++ [34; 58]) ++ r ∧ t = light_tag ++ [c_quote] ++ (34 :: k ++ [34; 58]) ++ close_tag ++ js ":".
Proof.
  destruct s as [|[|p] s]; [done..|]. unfold key_match.
  destruct (decide (p = 34%positive)) as [->|Hp]; [|by repeat case_match; simplify_eq].
  destruct (lazy_until _ _ s) as [[[k u] r']|] eqn:E; simpl; [|done]. intros [= <- <-].
  apply lazy_until_Some in E as (s' & -> & E). destruct (strip [34; 58] s') as [r''|] eqn:Es; simplify_eq/=.
  apply strip_Some in Es as ->. exists k. split; [by rewrite <- app_assoc|done].
Qed.

Lemma key_match_consumes : consumes key_match.
Proof. intros s t r (k & -> & _)%key_match_Some. rewrite length_app. simpl. lia. Qed.

Lemma take_while_split p s : s = (take_while p s).1 ++ (take_while p s).2 ∧ Forall (λ c, p c = true) (take_while p s).1.
Proof.
  induction s as [|c s [IH1 IH2]]; simpl; [done|]. destruct (p c) eqn:E; [|done].
  destruct (take_while p s) as [a b]. simpl in *. split; [by rewrite IH1 at 1|by constructor].
Qed.

Lemma take_while_plain p s : p 60 = false → 60 ∉ (take_while p s).1.
Proof.
  intros Hp H. destruct (take_while_split p s) as [_ HF]. rewrite Forall_forall in HF. apply HF in H. congruence.
Qed.

(** What a group may be: it takes a part of the text. *)
Definition splits (group : jsstr → option (jsstr * jsstr)) : Prop := ∀ s g r, group s = Some (g, r) → s = g ++ r.

Lemma after_colon_Some style group s t r : splits group → after_colon style group s = Some (t, r) →
  ∃ sp g, s = 58 :: sp ++ g ++ r ∧ 60 ∉ sp ∧ group (g ++ r) = Some (g, r) ∧ t = js ": " ++ style_tag style ++ g ++ close_tag.
Proof.
  intros Hg. destruct s as [|[|p] s]; [done..|]. unfold after_colon.
  destruct (decide (p = 58%positive)) as [->|Hp]; [|by repeat case_match; simplify_eq].
  destruct (take_while_split is_space s) as [Es _]. pose proof (take_while_plain is_space s eq_refl) as Hn.
  destruct (group (take_while is_space s).2) as [[g r']|] eqn:E; simpl; [|done]. intros [= <- <-].
  pose proof (Hg _ _ _ E) as E'. exists (take_while is_space s).1, g. rewrite <- E', <- Es. done.
Qed.

Lemma after_colon_consumes style group : splits group → consumes (after_colon style group).
Proof.
  intros Hg s t r E. apply after_colon_Some in E as (sp & g & -> & _); [|done]. simpl. rewrite !length_app. lia.
Qed.

(** The text [string_rest] takes. *)
Inductive literal : jsstr → Prop :=
| literal_end : literal [34]
| literal_escape c b : literal b → literal (92 :: c :: b)
| literal_char c b : c ≠ 34 → c ≠ 92 → literal b → literal (c :: b).

Lemma string_rest_Some s b r : string_rest s = Some (b, r) → s = b ++ r ∧ literal b.
Proof.
  remember (length s) as n eqn:En. revert s b En. induction n as [n IH] using lt_wf_ind. intros s b ->.
  destruct s as [|c s]; [done|]. destruct (decide (c = 34)) as [->|H34].
  { simpl. intros [= <- <-]. split; [done|constructor]. }
  destruct (decide (c = 92)) as [->|H92].
  - simpl. destruct s as [|d s]; [done|]. destruct (line_terminator d); [done|].
    destruct (string_rest s) as [[b' r']|] eqn:E; simpl; [|done]. intros [= <- <-].
    destruct (IH (length s) ltac:(simpl; lia) s b' eq_refl E) as [-> H]. split; [done|by constructor].
  - assert (string_rest (c :: s) = ('(b, r) ← string_rest s; Some (c :: b, r))) as ->.
    { clear -H34 H92. destruct c as [|p]; [done|]. simpl. repeat (destruct p as [p|p|]; try done). }
    destruct (string_rest s) as [[b' r']|] eqn:E; simpl; [|done]. intros [= <- <-].
    destruct (IH (length s) ltac:(simpl; lia) s b' eq_refl E) as [-> H]. split; [done|by constructor].
Qed.

Lemma string_group_splits : splits string_group.
Proof.
  intros s g r. destruct s as [|c s]; [done|]. unfold string_group.
  destruct (decide (c = 34)) as [->|Hc]; [|by repeat case_match; simplify_eq].
  destruct (string_rest s) as [[b r']|] eqn:E; simpl; [|done]. intros [= <- <-].
  by apply string_rest_Some in E as [-> _].
Qed.

Lemma number_group_Some s g r : number_group s = Some (g, r) → s = g ++ r ∧ 60 ∉ g.
Proof.
  unfold number_group. destruct (take_while_split is_digit s) as [Es _].
  pose proof (take_while_plain is_digit s eq_refl) as Hn. destruct (take_while is_digit s) as [d s'].
  cbn [fst snd] in *. subst s. destruct d as [|x d]; [done|].
  set (pr := match s' with 46 :: r => ([46], r) | _ => ([], s') end).
  assert (s' = pr.1 ++ pr.2 ∧ 60 ∉ pr.1) as [Ep Hp].
  { subst pr. destruct s' as [|c s']; [by split; [|apply not_elem_of_nil]|].
    destruct (decide (c = 46)) as [->|Hc]; [split; [done|by intros ?%list_elem_of_singleton]|].
    repeat case_match; simplify_eq; (split; [done|apply not_elem_of_nil]). }
  destruct pr as [p s2]. cbn [fst snd] in *. subst s'.
  destruct (take_while_split is_digit s2) as [Ee _]. pose proof (take_while_plain is_digit s2 eq_refl) as He.
  destruct (take_while is_digit s2) as [e s3]. cbn [fst snd] in *. subst s2. intros [= <- <-].
  split; [simpl; by rewrite <- !app_assoc|]. rewrite app_comm_cons, !elem_of_app. tauto.
Qed.

Lemma word_group_Some s g r : word_group s = Some (g, r) → s = g ++ r ∧ 60 ∉ g.
Proof.
  unfold word_group. intros H.
  assert (∃ w, w ∈ [js "true"; js "false"; js "null"] ∧ (r ← strip w s; Some (w, r)) = Some (g, r)) as (w & Hw & E).
  { destruct (strip (js "true") s) eqn:E1; simpl in H; [exists (js "true"); by rewrite E1; split; [left|]|].
    destruct (strip (js "false") s) eqn:E2; simpl in H; [exists (js "false"); by rewrite E2; split; [right; left|]|].
    exists (js "null"). split; [do 2 right; left|done]. }
  destruct (strip w s) as [r'|] eqn:E'; simplify_eq/=. split; [by apply strip_Some|].
  clear E' H. rewrite !elem_of_cons in Hw.
  destruct Hw as [->|[->|[->|Hw]]]; [apply plain; by vm_compute..|].
  by apply not_elem_of_nil in Hw.
Qed.

(** ** Each replacement *)

Lemma key_tags s : 60 ∉ s → tags [close_tag; light_tag] (replace key_match s).
Proof.
  intros Hs. apply (replace_tags key_match []); [exact key_match_consumes|..|by apply tags_none].
  - by intros t ?%not_elem_of_nil.
  - by intros t w ?%not_elem_of_nil.
  - clear s Hs. intros s t r Hs%tags_none_inv (k & -> & ->)%key_match_Some.
    rewrite !not_elem_of_app, !not_elem_of_cons, !not_elem_of_app in Hs.
    split; [apply tags_none; tauto|]. intros Hr. rewrite <- !app_assoc.
    apply (tags_tag _ (drop 1 light_tag)); [right; left|apply plain; by vm_compute|].
    apply tags_plain; [by intros ?%list_elem_of_singleton|]. apply tags_plain.
    { rewrite not_elem_of_cons, not_elem_of_app, !not_elem_of_cons. split; [done|]. split; [tauto|].
      split_and!; [done..|apply not_elem_of_nil]. }
    apply (tags_tag _ (drop 1 close_tag)); [left|apply plain; by vm_compute|].
    by apply tags_cons.
Qed.

Lemma literal_plain p b w r : Forall (λ c, c ≠ 34 ∧ c ≠ 92) p → literal b → p ++ w = b ++ r →
  ∃ b', b = p ++ b' ∧ literal b' ∧ w = b' ++ r.
Proof.
  intros Hp. revert b. induction Hp as [|c p [H34 H92] _ IH]; intros b Hb E; [by exists b|].
  destruct Hb as [|d b' Hb'|d b' Hd1 Hd2 Hb']; simpl in E; injection E as E1 E; [by destruct H34|by destruct H92|].
  destruct (IH b' Hb' E) as (b'' & -> & Hb'' & ->). subst d. by exists b''.
Qed.

Lemma unquoted p : forallb (λ c, negb (c =? 34) && negb (c =? 92)) p = true → Forall (λ c, c ≠ 34 ∧ c ≠ 92) p.
Proof.
  intros H. apply Forall_forall. intros c Hc%list_elem_of_In. apply (proj1 (forallb_forall _ _) H) in Hc.
  apply andb_true_iff in Hc as [H1%negb_true_iff%N.eqb_neq H2%negb_true_iff%N.eqb_neq]. done.
Qed.

Lemma literal_quote b w r : literal b → 34 :: w = b ++ r → b = [34] ∧ w = r.
Proof. intros Hb E. destruct Hb; simplify_eq/=; done. Qed.

Lemma open_split : light_tag = 60 :: take 11 (drop 1 light_tag) ++ 34 :: drop 13 light_tag.
Proof. by vm_compute. Qed.

Lemma close_split : close_tag = 60 :: drop 1 close_tag.
Proof. by vm_compute. Qed.

(** A [<] within a string literal begins a closing tag, or is that of an opening tag
    whose attribute begins with the quote that ends the literal. *)
Lemma literal_lt b r : literal b → tags [close_tag; light_tag] (60 :: b ++ r) →
  close_tag `prefix_of` 60 :: b ∨ (60 :: b = take 13 light_tag ∧ drop 13 light_tag `prefix_of` r).
Proof.
  intros Hb Ht. destruct (Ht [] (b ++ r) eq_refl) as (t & Hin & [w E]).
  rewrite !elem_of_cons in Hin. destruct Hin as [->|[->|Hin]]; [left|right|by apply not_elem_of_nil in Hin].
  - rewrite close_split in E. rewrite <- app_comm_cons in E. injection E as E. symmetry in E.
    destruct (literal_plain (drop 1 close_tag) b w r) as (b' & -> & _); [apply unquoted; by vm_compute|exact Hb|exact E|].
    rewrite close_split at 1. by exists b'.
  - rewrite open_split, <- app_comm_cons, <- app_assoc in E. injection E as E. symmetry in E.
    destruct (literal_plain (take 11 (drop 1 light_tag)) b ((34 :: drop 13 light_tag) ++ w) r) as (b' & -> & Hb' & E');
      [apply unquoted; by vm_compute|exact Hb|exact E|].
    rewrite <- app_comm_cons in E'. apply (literal_quote _ _ _ Hb') in E' as [-> <-]. split; [by vm_compute|].
    exists w. reflexivity.
Qed.

Lemma style_lt style s : tags block_tags s → style_tag style ∈ block_tags → 60 ∉ drop 1 (style_tag style) →
  tags block_tags (style_tag style ++ s).
Proof. intros Hs Ht Hn. apply (tags_tag _ (drop 1 (style_tag style))); assumption. Qed.

Lemma close_lt s : tags block_tags s → tags block_tags (close_tag ++ s).
Proof.
  intros Hs. rewrite close_split. apply tags_tag; [rewrite <- close_split; left|apply plain; by vm_compute|done].
Qed.

(** What comes after a match keeps the end of a tag that the match cuts in two. *)
Lemma string_unmatched style t w : t ∈ [close_tag; light_tag] → unmatched (after_colon style string_group) t w.
Proof.
  rewrite !elem_of_cons. intros [->|[->|H]]; [..|by apply not_elem_of_nil in H].
  all: vm_compute; by repeat split.
Qed.

Lemma rest_unmatched style w : unmatched (after_colon style string_group) (drop 13 light_tag) w.
Proof. vm_compute; by repeat split. Qed.

Lemma broken_split : broken_tag = take 13 light_tag ++ close_tag ++ drop 13 light_tag.
Proof. by vm_compute. Qed.

Section literal_tags.
Context (r y : jsstr).
Hypothesis (Hy : drop 13 light_tag `prefix_of` r → drop 13 light_tag `prefix_of` y).
Hypothesis (Hys : tags block_tags y).

Lemma literal_tags_lt b : literal b → tags [close_tag; light_tag] (60 :: b ++ r) →
  tags block_tags (b ++ close_tag ++ y) → tags block_tags (60 :: b ++ close_tag ++ y).
Proof using Hy Hys.
  intros Hb Ht Hbs. destruct (literal_lt b r Hb Ht) as [Hc|[Eb Hr]].
  - eapply tags_lt; [done|left|]. rewrite app_comm_cons. by apply prefix_app_r.
  - destruct (Hy Hr) as [z Ez]. eapply tags_lt; [done|do 3 right; left|].
    exists z. rewrite app_comm_cons, Eb, broken_split, Ez, <- !app_assoc. reflexivity.
Qed.

Lemma literal_tags b : literal b → tags [close_tag; light_tag] (b ++ r) → tags block_tags (b ++ close_tag ++ y).
Proof using Hy Hys.
  intros Hb Ht. induction Hb as [|c b Hb IH|c b H34 H92 Hb IH]; simpl app in *.
  - apply tags_cons; [done|by apply close_lt].
  - apply tags_tail in Ht. specialize (IH (tags_tail _ _ _ Ht)). apply tags_cons; [done|].
    destruct (decide (c = 60)) as [->|Hc]; [by apply literal_tags_lt|by apply tags_cons].
  - specialize (IH (tags_tail _ _ _ Ht)).
    destruct (decide (c = 60)) as [->|Hc]; [by apply literal_tags_lt|by apply tags_cons].
Qed.
End literal_tags.

Lemma string_group_literal g r : string_group (g ++ r) = Some (g, r) → ∃ b, g = 34 :: b ∧ literal b.
Proof.
  unfold string_group. destruct g as [|c g]; simpl app.
  - destruct r as [|c r]; [done|]. intros H. exfalso. destruct (decide (c = 34)) as [->|Hc]; [|by repeat case_match; simplify_eq].
    destruct (string_rest r) as [[b r']|]; simplify_eq/=.
  - destruct (decide (c = 34)) as [->|Hc]; [|intros H; exfalso; by repeat case_match; simplify_eq].
    destruct (string_rest (g ++ r)) as [[b r']|] eqn:E; simpl; [|done]. intros [= -> ->].
    apply string_rest_Some in E as [_ Hb]. by exists g.
Qed.

Lemma string_tags s : tags [close_tag; light_tag] s →
  tags block_tags (replace (after_colon "color: var(--omneval-violet-pale)" string_group) s).
Proof.
  pose proof (after_colon_consumes "color: var(--omneval-violet-pale)" _ string_group_splits) as Hm.
  apply replace_tags; [done|..].
  - intros t. rewrite !elem_of_cons. intros [->|[->|H]]; [left|right; left|by apply not_elem_of_nil in H].
  - intros t w. apply string_unmatched.
  - clear s. intros s t r Hs E. apply after_colon_Some in E as (sp & g & -> & Hsp & Eg & ->); [|apply string_group_splits].
    rewrite app_comm_cons in Hs. apply tags_suffix in Hs. split; [by apply tags_suffix in Hs|]. intros Hr.
    apply string_group_literal in Eg as (b & -> & Hb).
    rewrite <- !app_assoc. apply tags_plain; [apply plain; by vm_compute|].
    apply style_lt; [|do 2 right; left|apply plain; by vm_compute].
    apply tags_tail in Hs. rewrite <- app_comm_cons. apply tags_cons; [done|]. apply (literal_tags r); [|done..].
    intros [w ->]. exists (replace (after_colon "color: var(--omneval-violet-pale)" string_group) w).
    apply replace_unmatched; [done|apply rest_unmatched].
Qed.

(** The other two replacements take digits and words. *)
Lemma group_tags style group s :
  (∀ s g r, group s = Some (g, r) → s = g ++ r ∧ 60 ∉ g) →
  (∀ t w, t ∈ block_tags → unmatched (after_colon style group) t w) →
  style_tag style ∈ block_tags → 60 ∉ drop 1 (style_tag style) →
  tags block_tags s → tags block_tags (replace (after_colon style group) s).
Proof.
  intros Hg Hu Ht Hn. assert (splits group) as Hsp by (intros ? ? ? E; by apply Hg in E as [-> _]).
  apply replace_tags; [by apply after_colon_consumes|done|done|].
  clear s. intros s t r Hs E. apply after_colon_Some in E as (sp & g & -> & Hnsp & Eg & ->); [|done].
  rewrite app_comm_cons in Hs. do 2 apply tags_suffix in Hs. split; [done|]. intros Hr.
  apply Hg in Eg as [_ Hg']. rewrite <- !app_assoc. apply tags_plain; [apply plain; by vm_compute|].
  apply style_lt; [|done..]. apply tags_plain; [done|]. by apply close_lt.
Qed.

Ltac no_match_in_tags :=
  let H := fresh in intros t w; unfold block_tags; rewrite !elem_of_cons;
  intros [->|[->|[->|[->|[->|[->|H]]]]]]; [..|by apply not_elem_of_nil in H]; vm_compute; by repeat split.

(** C19. No data becomes markup: whatever text the block is given, every [<] of its HTML
    begins one of six fixed tags, the closing tag of a [span] or an opening one whose
    only attribute is a fixed style. *)
Theorem json_block_tags value : tags block_tags (rawOutput value).
Proof.
  unfold rawOutput. destruct (parse value) as [obj|].
  - unfold highlightJson. apply group_tags.
    + apply word_group_Some.
    + no_match_in_tags.
    + do 5 right; left.
    + apply plain; by vm_compute.
    + apply group_tags; [apply number_group_Some|no_match_in_tags|do 4 right; left|apply plain; by vm_compute|].
      apply string_tags, key_tags, not_lt_in_escaped.
  - intros u v E. destruct (not_lt_in_escaped value). rewrite E. apply elem_of_app. right. left.
Qed.
