(* ===== verification/AnalyticsBatch.v ===== *)
(** The dashboard's fan-out of analytics requests (fetchAnalyticsBatch in
    ui/src/pages/Dashboard.tsx): workers that share a counter and an array.

    The counter, the array and what Promise.all knows of its workers are a [batch], kept
    somewhere in the state of the component; [settle] is what the caller of
    fetchAnalyticsBatch does with its promise.  The code waits with [fetch]: the
    dashboard with [Ui.Fetch], a batch by itself with [Call]. *)
From S2P Require Import Prelude.
From S2P Require Import JsString.
From S2P Require Import JsJson.
From S2P Require Import Ui.
Local Open Scope nat_scope.
#[local] Arguments Nat.min : simpl never.

Section batches.
Context {R : Type}.

(** Status and body of a response. *)
Definition response : Type := Z * result jsstr R.

Record batch : Type := Batch {
  requests : list json;
  next : nat;
  running : nat;
  responses : list (option response);
  rejected : bool
}.
#[export] Instance batch_eta : Eta batch := λ b, Batch (requests b) (next b) (running b) (responses b) (rejected b).

Definition ANALYTICS_FETCH_CONCURRENCY : nat := 3.

Definition post (q : json) : request := send_json "POST" (js "/api/v1/analytics/spans") q.

Section pool.
Context {S P : Type} (fetch : request → (answer R → S → S * list P) → P).
Context (get : S → batch) (update : (batch → batch) → S → S).
Context (settle : result jsstr (list (option response)) → S → S * list P).

(** A worker returned: the promise of all of them is fulfilled with the last one. *)
Definition worker_returns (s : S) : S * list P :=
  let s := update (λ b, b <| running ::= pred |>) s in
  if bool_decide (running (get s) = 0) then settle (Ok (responses (get s))) s else (s, []).

(** A worker's [fetch] was rejected: so is the promise, with the first one. *)
Definition worker_rejects (m : jsstr) (s : S) : S * list P :=
  if rejected (get s) then (s, []) else settle (Err m) (update (λ b, b <| rejected := true |>) s).

(** The loop of a worker from [const i = next++] on. *)
Fixpoint worker (fuel : nat) (s : S) : S * list P :=
  match fuel with
  | O => (s, [])
  | Datatypes.S fuel =>
    let i := next (get s) in
    let s := update (λ b, b <| next ::= Datatypes.S |>) s in
    match requests (get s) !! i with
    | None => worker_returns s
    | Some q =>
      (s, [fetch (post q) (λ a s,
             match a with
             | Answer status _ body => worker fuel (update (λ b, b <| responses ::= <[i := Some (status, body)]> |>) s)
             | NoAnswer m => worker_rejects m s
             end)])
    end
  end.

Definition start_workers (count fuel : nat) (s : S) : S * list P :=
  Nat.iter count (λ '(s, ps), let '(s, qs) := worker fuel s in (s, ps ++ qs)) (s, []).

(** A worker takes at most every request and then looks for one more. *)
Definition fetchAnalyticsBatch (qs : list json) (concurrency : nat) (s : S) : S * list P :=
  let n := length qs in
  let workerCount := Nat.max 1 (Nat.min concurrency n) in
  start_workers workerCount (Datatypes.S n) (update (λ _, Batch qs 0 workerCount (replicate n None) false) s).
End pool.
End batches.
Arguments response : clear implicits.
Arguments batch : clear implicits.

(** ** A batch by itself

    The state is the batch with what became of its promise; a server answers every
    request the way it does. *)

Section served.
Context {R : Type} (server : request → answer R).

Definition state : Type := batch R * list (result jsstr (list (option (response R)))).

#[warnings="-register-all"]
Inductive call : Type :=
| Call (q : request) (resume : answer R → state → state * list call).
Abbreviation config := (state * list call)%type.

Definition on_batch (f : batch R → batch R) (s : state) : state := (f s.1, s.2).
Definition settled_with (r : result jsstr (list (option (response R)))) (s : state) : config := ((s.1, s.2 ++ [r]), []).

Definition fetchBatch (qs : list json) (concurrency : nat) : config :=
  fetchAnalyticsBatch Call fst on_batch settled_with qs concurrency (Batch [] 0 0 [] false, []).

(** What the array holds of an answer. *)
Definition received (a : answer R) : option (response R) :=
  match a with Answer status _ body => Some (status, body) | NoAnswer _ => None end.

Context (qs : list json) (concurrency : nat).
#[local] Set Default Proof Using "All".
Abbreviation n := (length qs).
Abbreviation workers := (Nat.max 1 (Nat.min concurrency n)).

Abbreviation loop := (worker Call fst on_batch settled_with).
Abbreviation start := (fetchBatch qs concurrency).

(** The runs of the batch, with the requests that were answered so far: at each step
    any one of the waiting calls is answered. *)
Inductive run : list request → config → Prop :=
| run_start : run [] start
| run_answer log s ps q resume rs :
    run log (s, ps ++ Call q resume :: rs) →
    run (log ++ [q]) ((resume (server q) s).1, ps ++ (resume (server q) s).2 ++ rs).

Definition request_of (c : call) : request := match c with Call q _ => q end.

(** The messages of the rejected requests, in the order of the answers. *)
Definition failures (log : list request) : list jsstr :=
  omap (λ q, match server q with NoAnswer m => Some m | Answer _ _ _ => None end) log.

Lemma failures_snoc log q :
  failures (log ++ [q]) = failures log ++ match server q with NoAnswer m => [m] | Answer _ _ _ => [] end.
Proof. unfold failures. rewrite omap_app. simpl. by destruct (server q). Qed.

(** The answer to request [i], for which a worker waits. *)
Definition resume_at (i fuel : nat) (a : answer R) (s : state) : config :=
  match a with
  | Answer status _ body => loop fuel (on_batch (λ b, b <| responses ::= <[i := Some (status, body)]> |>) s)
  | NoAnswer m => worker_rejects fst on_batch settled_with m s
  end.

Definition pending (o : nat * nat) : call := Call (post (default JNull (qs !! o.1))) (resume_at o.1 o.2).

Definition asked (o : nat * nat) : request := post (default JNull (qs !! o.1)).

(** After the answers to [log]: the requests that are open, with the fuel their workers
    have left.  The worker of a rejected request is gone. *)
Record pool (log : list request) (s : state) (open : list (nat * nat)) : Prop := {
  pool_requests : requests s.1 = qs;
  pool_next : next s.1 + length (failures log) = workers + length log;
  pool_issued : Nat.min (next s.1) n = length log + length open;
  pool_log : log ++ (asked <$> open) ≡ₚ take (next s.1) (post <$> qs);
  pool_running : running s.1 = length open + length (failures log);
  pool_rejected : rejected s.1 = bool_decide (0 < length (failures log));
  pool_nodup : NoDup open.*1;
  pool_open : Forall (λ o, o.1 < Nat.min (next s.1) n ∧ n <= o.1 + o.2) open;
  pool_responses : responses s.1
    = imap (λ i q, if bool_decide (i < next s.1 ∧ i ∉ open.*1) then received (server (post q)) else None) qs;
  pool_settled :
    s.2 = match failures log with
          | [] => if bool_decide (open = []) then [Ok (responses s.1)] else []
          | m :: _ => [Err m]
          end
}.

(** The array as it is when the first [next] requests were sent and [open] are open. *)
Definition array (next : nat) (open : list nat) : list (option (response R)) :=
  imap (λ i q, if bool_decide (i < next ∧ i ∉ open) then received (server (post q)) else None) qs.

Lemma array_lookup next open i :
  array next open !! i
  = (λ q, if bool_decide (i < next ∧ i ∉ open) then received (server (post q)) else None) <$> qs !! i.
Proof. unfold array. by rewrite list_lookup_imap. Qed.

(** Only membership matters. *)
Lemma array_perm next open next' open' :
  (∀ i, i < n → i < next ∧ i ∉ open ↔ i < next' ∧ i ∉ open') → array next open = array next' open'.
Proof.
  intros H. apply list_eq. intros i. rewrite !array_lookup. destruct (qs !! i) eqn:E; [|done]. simpl.
  apply lookup_lt_Some in E. by rewrite (bool_decide_ext _ _ (H i E)).
Qed.

(** An answer fills the slot of its request. *)
Lemma array_insert next o1 i o2 q :
  qs !! i = Some q → i < next → NoDup (o1 ++ i :: o2) →
  <[i := received (server (post q))]> (array next (o1 ++ i :: o2)) = array next (o1 ++ o2).
Proof.
  intros Hq Hi Hn. assert (i ∉ o1 ++ o2) as Hni by (apply NoDup_app in Hn; rewrite NoDup_cons in Hn; set_solver).
  apply list_eq. intros j. destruct (decide (j = i)) as [->|Hj].
  - rewrite list_lookup_insert_eq by (unfold array; rewrite length_imap; by eapply lookup_lt_Some).
    rewrite array_lookup, Hq. simpl. by rewrite bool_decide_true.
  - rewrite list_lookup_insert_ne by done. rewrite !array_lookup. destruct (qs !! j); [|done]. simpl.
    f_equal. erewrite bool_decide_ext; [done|]. set_solver.
Qed.

(** One more request was taken. *)
Lemma take_next k q : qs !! k = Some q → take (Datatypes.S k) (post <$> qs) = take k (post <$> qs) ++ [post q].
Proof. intros Hq. apply take_S_r. by rewrite list_lookup_fmap, Hq. Qed.

(** A worker at the head of its loop, with others before and after it. *)
Lemma worker_run log (s : state) o1 o2 f :
  requests s.1 = qs → next s.1 + length (failures log) + 1 = workers + length log →
  Nat.min (next s.1) n = length log + length (o1 ++ o2) →
  log ++ (asked <$> o1 ++ o2) ≡ₚ take (next s.1) (post <$> qs) →
  running s.1 = length (o1 ++ o2) + length (failures log) + 1 → rejected s.1 = bool_decide (0 < length (failures log)) →
  NoDup (o1 ++ o2).*1 → Forall (λ o, o.1 < Nat.min (next s.1) n ∧ n <= o.1 + o.2) (o1 ++ o2) →
  responses s.1 = array (next s.1) (o1 ++ o2).*1 →
  s.2 = match failures log with [] => [] | m :: _ => [Err m] end →
  1 <= f → n < next s.1 + f →
  ∃ new, (loop f s).2 = pending <$> new ∧ pool log (loop f s).1 (o1 ++ new ++ o2).
Proof.
  destruct s as [b out]. cbn [fst snd].
  intros Hq Hn Hi Hlog Hr Hj Hd Ho Hs Hl Hf Hfn. destruct f as [|f]; [lia|]. cbn [worker].
  cbn. rewrite Hq.
  destruct (qs !! next b) as [q|] eqn:E.
  - pose proof (lookup_lt_Some _ _ _ E) as Hlt. exists [(next b, f)]. split.
    { simpl. unfold pending. simpl. by rewrite E. }
    assert (next b ∉ (o1 ++ o2).*1) as Hfresh.
    { intros (o & E1 & Hin)%list_elem_of_fmap. rewrite Forall_forall in Ho. specialize (Ho o Hin). lia. }
    assert (o1 ++ (next b, f) :: o2 ≡ₚ (next b, f) :: o1 ++ o2) as Hp by (symmetry; apply Permutation_middle).
    split; simpl; rewrite ?Hp; simpl; [done|lia|lia| |lia|done|by constructor| | | ].
    + rewrite (take_next (next b) q E), <- Hlog. unfold asked at 1. simpl. rewrite E. simpl.
      rewrite <- app_assoc. f_equiv. by rewrite Permutation_cons_append.
    + constructor; [simpl; lia|]. eapply Forall_impl; [exact Ho|]. simpl. intros o. lia.
    + rewrite Hs. change (array (next b) (o1 ++ o2).*1 = array (Datatypes.S (next b)) (o1 ++ (next b, f) :: o2).*1).
      apply array_perm. intros i Hin. rewrite Hp. simpl. rewrite elem_of_cons.
      split; [intros [??]; split; [lia|]; intros [->|?]; [lia|done]|]. intros [? H]. split; [|tauto].
      destruct (decide (i = next b)); [tauto|lia].
    + rewrite Hl. by rewrite bool_decide_false by (by destruct o1).
  - apply lookup_ge_None in E. exists []. cbn [app fmap list_fmap].
    assert (array (next b) (o1 ++ o2).*1 = array (Datatypes.S (next b)) (o1 ++ o2).*1) as Ea.
    { apply array_perm. intros i Hin. split; intros [??]; (split; [lia|done]). }
    assert (pred (running b) = length (o1 ++ o2) + length (failures log)) as Er by lia.
    unfold worker_returns, on_batch, settled_with. cbn. rewrite Er.
    assert (∀ out', out' = match failures log with
        | [] => if bool_decide (o1 ++ o2 = []) then [Ok (responses b)] else [] | m :: _ => [Err m] end →
      pool log (Batch qs (Datatypes.S (next b)) (length (o1 ++ o2) + length (failures log)) (responses b) (rejected b), out') (o1 ++ o2))
      as Hpool.
    { intros out' Hl'. split; simpl; [done|lia|lia| |lia|done|done| |by rewrite Hs|done].
      - rewrite Hlog, !take_ge by (rewrite length_fmap; lia). done.
      - eapply Forall_impl; [exact Ho|]. simpl. intros o. lia. }
    destruct (decide (length (o1 ++ o2) + length (failures log) = 0)) as [E0|E0];
      [rewrite bool_decide_true by done|rewrite bool_decide_false by done]; cbn; rewrite ?Hq, ?Er;
      (split; [done|]); apply Hpool; rewrite Hl; destruct (failures log) as [|m l]; simpl in E0; try done; try lia.
    + simpl. by rewrite bool_decide_true by (apply length_zero_iff_nil; lia).
    + rewrite bool_decide_false; [done|]. intros E1. rewrite E1 in E0. simpl in E0. lia.
Qed.

(** The first rejection settles the promise, later ones change nothing. *)
Lemma reject_step log (s : state) m (open : list (nat * nat)) :
  rejected s.1 = bool_decide (0 < length (failures log)) →
  s.2 = match failures log with [] => [] | m' :: _ => [Err m'] end →
  let c := worker_rejects fst on_batch settled_with m s in
  c.2 = []
  ∧ (requests c.1.1 = requests s.1 ∧ next c.1.1 = next s.1 ∧ running c.1.1 = running s.1
     ∧ rejected c.1.1 = true ∧ responses c.1.1 = responses s.1)
  ∧ c.1.2 = match failures log ++ [m] with
            | [] => if bool_decide (open = []) then [Ok (responses c.1.1)] else []
            | m' :: _ => [Err m']
            end.
Proof.
  intros Hr Hs. unfold worker_rejects. rewrite Hr. destruct (failures log) as [|m' l].
  - rewrite bool_decide_false by (simpl; lia). cbn. by rewrite Hs.
  - rewrite bool_decide_true by (simpl; lia). cbn.
    split; [done|]. split; [|done]. split_and!; try done.
Qed.

(** One more answer: a response makes the worker go round its loop, a rejection ends it. *)
Lemma pool_step log s ps q resume rs open :
  pool log s open → ps ++ Call q resume :: rs = pending <$> open →
  ∃ open', ps ++ (resume (server q) s).2 ++ rs = pending <$> open'
    ∧ pool (log ++ [q]) (resume (server q) s).1 open'.
Proof.
  intros Hp Eps. symmetry in Eps. apply fmap_app_inv in Eps as (o1 & o2' & -> & Eo & ->).
  destruct o2' as [|[i f] o2]; [done|]. injection Eo as Eq -> ->.
  destruct Hp as [H1 H2 H3 Hlog H4 H5 H6 H7 H8 H9].
  assert (o1 ++ (i, f) :: o2 ≡ₚ (i, f) :: o1 ++ o2) as Hperm by (symmetry; apply Permutation_middle).
  rewrite Hperm in H7, Hlog. apply Forall_cons in H7 as [[Hi Hf] H7]. cbn [fst snd] in Hi, Hf.
  rewrite Hperm in H3, H4. cbn [length] in H3, H4.
  assert (NoDup (o1 ++ o2).*1) as H6' by (rewrite Hperm in H6; by apply NoDup_cons in H6 as [_ ?]).
  assert ((log ++ [q]) ++ (asked <$> o1 ++ o2) ≡ₚ take (next s.1) (post <$> qs)) as Hlog'.
  { subst q. rewrite <- app_assoc. exact Hlog. }
  destruct (qs !! i) as [q'|] eqn:Eq'; [|apply lookup_ge_None in Eq'; lia]. cbn in Eq. subst q.
  pose proof (failures_snoc log (post q')) as Hfail.
  assert (length (log ++ [post q']) = Datatypes.S (length log)) as Hlen by (rewrite length_app; simpl; lia).
  assert (<[i:=received (server (post q'))]> (responses s.1) = array (next s.1) (o1 ++ o2).*1) as Harr.
  { change (responses s.1 = array (next s.1) (o1 ++ (i, f) :: o2).*1) in H8. rewrite H8.
    rewrite !fmap_app. rewrite fmap_app in H6. cbn [fmap list_fmap fst] in *. apply array_insert; [done|lia|done]. }
  cbn [fst snd]. unfold resume_at. cbn [fst snd]. destruct (server (post q')) as [st t bd|m] eqn:Ea.
  - rewrite app_nil_r in Hfail.
    destruct (worker_run (log ++ [post q']) (on_batch (λ b, b <| responses ::= <[i := Some (st, bd)]> |>) s) o1 o2 f)
      as (new & Enew & Hnew).
    1-12: cbn; rewrite ?Hfail, ?Hlen; try done; try lia.
    { rewrite H9. destruct (failures log); [|done]. by rewrite bool_decide_false by (by destruct o1). }
    exists (o1 ++ new ++ o2). split; [|exact Hnew]. rewrite Enew. by rewrite !fmap_app.
  - exists (o1 ++ o2). rewrite length_app in H3, H4.
    assert (responses s.1 = array (next s.1) (o1 ++ o2).*1) as Hsame.
    { rewrite <- Harr. symmetry. apply list_insert_id. change (responses s.1 = array (next s.1) (o1 ++ (i, f) :: o2).*1) in H8.
      rewrite H8, array_lookup, Eq'. simpl. rewrite bool_decide_false; [done|]. intros [_ Hin]. apply Hin.
      rewrite fmap_app. cbn. set_solver. }
    destruct (reject_step log s m (o1 ++ o2)) as (Enil & Hb & Hset); [done| |].
    { rewrite H9. destruct (failures log); [|done]. by rewrite bool_decide_false by (by destruct o1). }
    unfold state in *. cbn match. rewrite Enil. split; [by rewrite fmap_app|]. destruct Hb as (E1 & E2 & E3 & E4 & E5).
    split; rewrite ?E1, ?E2, ?E3, ?E4, ?E5, ?Hfail, ?Hlen, ?length_app; simpl;
      [done|lia|lia|done|lia| |done|done|done|by rewrite E5 in Hset].
    symmetry. apply bool_decide_true. lia.
Qed.

Lemma start_open j : j <= workers → j <= n →
  start_workers Call fst on_batch settled_with j (Datatypes.S n) (Batch qs 0 workers (replicate n None) false, [])
  = ((Batch qs j workers (replicate n None) false, []), pending <$> ((λ i, (i, n)) <$> seq 0 j)).
Proof.
  induction j as [|j IH]; intros Hw Hn; [done|].
  unfold start_workers in *. rewrite Nat.iter_succ, IH by lia. rewrite seq_S, !fmap_app. cbn.
  destruct (lookup_lt_is_Some_2 qs j Hn) as [q Hq]. rewrite Hq. do 2 f_equal. unfold pending. cbn. by rewrite Hq.
Qed.

Lemma asked_seq m k : k <= n → asked <$> ((λ i, (i, m)) <$> seq 0 k) = take k (post <$> qs).
Proof.
  intros Hk. apply list_eq. intros i. rewrite !list_lookup_fmap. destruct (decide (i < k)) as [Hi|Hi].
  - rewrite lookup_seq_lt, lookup_take_lt, list_lookup_fmap by lia. unfold asked. simpl.
    by destruct (lookup_lt_is_Some_2 qs i ltac:(lia)) as [q ->].
  - rewrite lookup_seq_ge, lookup_take_ge by lia. done.
Qed.

Lemma pool_start : ∃ open, start.2 = pending <$> open ∧ pool [] start.1 open.
Proof.
  unfold fetchBatch, fetchAnalyticsBatch. cbv zeta. destruct (decide (qs = [])) as [E|E].
  - exists []. rewrite E. cbn. rewrite Nat.min_0_r. cbn. split; [done|]. rewrite <- E.
    assert (length qs = 0) as El by by rewrite E.
    split; cbn; rewrite ?El, ?Nat.min_0_r; try done; try lia.
    { by rewrite E. }
    { apply NoDup_nil_2. }
    by rewrite E.
  - assert (1 <= n) as Hn by (destruct qs; [done|simpl; lia]).
    change (on_batch ?f _) with ((Batch qs 0 workers (replicate n None) false, []) : state).
    rewrite start_open by lia. eexists. split; [done|]. cbn.
    assert ((λ i, (i, n)) <$> seq 0 workers = [] → False) as Hne.
    { intros H%(f_equal length). rewrite length_fmap, length_seq in H. simpl in H. lia. }
    assert (((λ i, (i, n)) <$> seq 0 workers).*1 = seq 0 workers) as Hf.
    { rewrite <- list_fmap_compose. apply list_fmap_id. }
    split; cbn; rewrite ?length_fmap, ?length_seq, ?Hf; try done; try lia.
    + rewrite asked_seq by lia. done.
    + apply NoDup_seq.
    + apply Forall_fmap, Forall_seq. intros i Hi. simpl. lia.
    + apply list_eq. intros i. rewrite list_lookup_imap. destruct (qs !! i) eqn:Hi.
      * rewrite lookup_replicate_2 by by eapply lookup_lt_Some. simpl. rewrite bool_decide_false; [done|].
        intros [H1 H2]. apply H2, elem_of_seq. lia.
      * simpl. apply lookup_replicate_None. by apply lookup_ge_None.
    + by rewrite bool_decide_false.
Qed.

Lemma pool_run log c : run log c → ∃ open, c.2 = pending <$> open ∧ pool log c.1 open.
Proof.
  induction 1 as [|log s ps q resume rs _ (open & Eo & Hp)]; [apply pool_start|]. by apply (pool_step log s _ _ _ _ open).
Qed.

(** When no worker waits and none was rejected, the array is complete. *)
Lemma pool_complete log s :
  pool log s [] → failures log = [] → length log = n ∧ responses s.1 = (λ q, received (server (post q))) <$> qs.
Proof.
  intros [H1 H2 H3 _ H4 H5 H6 H7 H8 H9] Hf. rewrite Hf in *. cbn [length] in *.
  assert (length log = n) as Hn by lia. split; [done|].
  rewrite H8. apply list_eq. intros i. rewrite list_lookup_imap, list_lookup_fmap.
  destruct (qs !! i) eqn:E; [|done]. simpl. apply lookup_lt_Some in E. rewrite bool_decide_true; [done|].
  split; [lia|]. apply not_elem_of_nil.
Qed.

Lemma pool_outcome log s open :
  pool log s open →
  s.2 = match failures log with
        | m :: _ => [Err m]
        | [] => if bool_decide (length log = n) then [Ok ((λ q, received (server (post q))) <$> qs)] else []
        end.
Proof.
  intros Hp. pose proof Hp as [H1 H2 H3 _ H4 H5 H6 H7 H8 H9]. rewrite H9.
  destruct (failures log) as [|m l] eqn:Hf; [|done]. destruct open as [|o open].
  - destruct (pool_complete log s Hp Hf) as [Hn ->]. by rewrite !bool_decide_true.
  - simpl in H3. rewrite !bool_decide_false; [done|lia|done].
Qed.

(** C6. However the answers are interleaved: the requests made so far, the answered ones of
    [log] and the open ones, are the first of [qs], each made once; as many are open as
    there are workers whose request was not rejected, or all that are left, so the batch
    ends, after every request was answered or every worker was rejected (the requests left
    are then never made).  Its promise is rejected, once, with the message of the first
    rejected request as soon as there is one, and otherwise fulfilled, once and with the
    last answer, by the responses in the order of [qs]. *)
Theorem batch_settles log c :
  run log c →
  (let made := length log + length c.2 in
   made <= n ∧ log ++ (request_of <$> c.2) ≡ₚ take made (post <$> qs))
  ∧ length c.2 = Nat.min (workers - length (failures log)) (n - length log)
  ∧ (c.2 = [] → log ≡ₚ post <$> qs ∨ length (failures log) = workers)
  ∧ c.1.2 = match failures log with
            | m :: _ => [Err m]
            | [] => if bool_decide (length log = n) then [Ok ((λ q, received (server (post q))) <$> qs)] else []
            end.
Proof.
  intros (open & Eo & Hp)%pool_run. pose proof (pool_outcome _ _ _ Hp) as Hout.
  destruct Hp as [_ H2 H3 Hlog _ _ _ _ _ _].
  assert (request_of <$> c.2 = asked <$> open) as -> by by rewrite Eo, <- list_fmap_compose.
  assert (take (next c.1.1) (post <$> qs) = take (length log + length open) (post <$> qs)) as Et.
  { rewrite <- H3, <- take_take. by rewrite (take_ge _ n) by by rewrite length_fmap. }
  rewrite Et in Hlog. rewrite Eo, length_fmap. cbv zeta. split_and!; [lia|done|lia| |done].
  intros ->%fmap_nil_inv. cbn [length] in *. rewrite Nat.add_0_r, app_nil_r in Hlog.
  destruct (decide (length log = n)) as [E|E]; [left|right; lia].
  by rewrite Hlog, E, take_ge by by rewrite length_fmap.
Qed.
End served.

Module Runs.
(** The request whose body is ["bb"] is rejected when the network is [down]. *)
Definition server (down : bool) (q : request) : answer Z :=
  let size := length (default [] (r_body q)) in
  if down && bool_decide (size = 4) then NoAnswer (js "network down")
  else Answer 200 (Ok []) (Ok (Z.of_nat size)).
Definition three : list json := [JStr (js "a"); JStr (js "bb"); JStr (js "ccc")].
Abbreviation asks := (λ t, post (JStr (js t))).

(** The answers come in the order 2, 3, 1. *)
Lemma served_run : run (server false) three 2 [asks "bb"; asks "ccc"; asks "a"]
  ((Batch three 5 0 [Some (200%Z, Ok 3%Z); Some (200%Z, Ok 4%Z); Some (200%Z, Ok 5%Z)] false,
    [Ok [Some (200%Z, Ok 3%Z); Some (200%Z, Ok 4%Z); Some (200%Z, Ok 5%Z)]]), []).
Proof.
  pose proof (run_start (server false) three 2) as H.
  apply (run_answer (server false) three 2 [] _ [_] _ _ []) in H.
  apply (run_answer (server false) three 2 [_] _ [_] _ _ []) in H.
  apply (run_answer (server false) three 2 [_; _] _ [] _ _ []) in H. exact H.
Qed.

(** One worker, which ends with the rejection of the second request. *)
Lemma rejected_run : ∃ c, run (server true) three 1 [asks "a"; asks "bb"] c ∧ c.2 = [].
Proof.
  pose proof (run_start (server true) three 1) as H.
  apply (run_answer (server true) three 1 [] _ [] _ _ []) in H.
  apply (run_answer (server true) three 1 [_] _ [] _ _ []) in H. eexists. split; [exact H|reflexivity].
Qed.

Lemma batch_settles_witness :
  (∃ c, run (server false) three 2 [asks "bb"; asks "ccc"; asks "a"] c
     ∧ c.1.2 = [Ok ((λ q, received (server false (post q))) <$> three)])
  ∧ ∃ c, run (server true) three 1 [asks "a"; asks "bb"] c ∧ c.1.2 = [Err (js "network down")].
Proof.
  split; [|destruct rejected_run as (c & Hc & _)]; eexists; (split; [first [exact served_run|exact Hc]|]).
  - destruct (batch_settles (server false) three 2 _ _ served_run) as (_ & _ & _ & H). exact H.
  - destruct (batch_settles (server true) three 1 _ _ Hc) as (_ & _ & _ & H). exact H.
Defined.
End Runs.
