(* ===== verification/DashboardData.v ===== *)
(** What the dashboard asks for and what it makes of the answers
    (ui/src/pages/Dashboard.tsx): the queries, the rows of the answers as data for the
    charts, the ticks of the time axis, and the texts of its inputs.  The page itself is
    in Dashboard. *)
From Stdlib Require Import QArith_base Qround.
From S2P Require Import Prelude.
From S2P Require Import JsString.
From S2P Require Import JsNumber.
From S2P Require Import JsJson.
From S2P Require Import Formatters.
From S2P Require Import TimeRange.
Local Open Scope Z_scope.

(** ** Numbers out of JSON values *)

(** The digits of a number in another base. *)
Definition radix (base : N) (s : jsstr) : num :=
  match mapM (λ c, n ← hex_val c; if (n <? base)%N then Some n else None) s with
  | Some (n :: ns) => of_Z (foldl (λ acc d, acc * Z.of_N base + Z.of_N d) 0 (n :: ns))
  | _ => NaN
  end.

Definition decimal (s : jsstr) : num :=
  let '(i, s) := take_digits s in
  let '(f, s) := match s with 46%N :: r => take_digits r | _ => ([], s) end in
  match i ++ f, exp_part s with
  | (_ :: _) as d, Some (e, []) => rnd (inject_Z (digits_val d) * pow10 (e - Z.of_nat (length f)))%Q
  | _, _ => NaN
  end.

(** [Number(s)] of a text. *)
Definition number_of_text (s : jsstr) : num :=
  match trim s with
  | [] => of_Z 0
  | 48%N :: (120%N | 88%N) :: r => radix 16 r
  | 48%N :: (111%N | 79%N) :: r => radix 8 r
  | 48%N :: (98%N | 66%N) :: r => radix 2 r
  | s =>
    let '(sg, s) := match s with 45%N :: r => (true, r) | 43%N :: r => (false, r) | _ => (false, s) end in
    let x := if bool_decide (s = js "Infinity") then PInf else decimal s in
    if sg : bool then num_neg x else x
  end.

(** [Number(v)] of a parsed value. *)
Definition Number (v : json) : num :=
  match v with
  | JNull => of_Z 0
  | JBool b => of_Z (if b then 1 else 0)
  | JNum n => n
  | JStr s => number_of_text s
  | JArr _ | JObj _ => number_of_text (string_of_json v)
  end.

(** [x || 0]. *)
Definition or_zero (x : num) : num := if is_nan x then of_Z 0 else x.

(** [x / y] for a [y] above zero. *)
Definition quotient (x y : num) : num :=
  match x, y with
  | Fin a, Fin b => rnd (a / b)
  | NaN, _ | _, NaN => NaN
  | Fin _, _ => Fin 0
  | _, Fin _ => x
  | _, _ => NaN
  end.

(** ** Rows *)

Definition row : Type := list (jsstr * json).

(** [Number(row.k) || 0]; an absent property is no number. *)
Definition count_of (k : string) (r : row) : num :=
  match prop_get (js k) r with Some v => or_zero (Number v) | None => of_Z 0 end.

(** [(row.k as string) || fallback]: the code takes it for a text, and what is not one
    is shown as its text. *)
Definition label_of (k fallback : string) (r : row) : jsstr :=
  match prop_get (js k) r with
  | Some v => if truthy_json v then string_of_json v else js fallback
  | None => js fallback
  end.

(** The instants a date can hold. *)
Definition time_clip (q : Q) : option Z :=
  let t := if Qle_bool 0 q then Qfloor q else Qceiling q in
  if Z.abs t <=? 8640000000000000 then Some t else None.

Section dates.
Context `{DateHost}.

(** [new Date(v).getTime()], with [None] for NaN. *)
Definition date_of (v : json) : option Z :=
  match v with
  | JStr s => date_parse s
  | JNum (Fin q) => time_clip q
  | JNum _ => None
  | JBool b => Some (if b then 1 else 0)
  | JNull => Some 0
  | JArr _ | JObj _ => date_parse (string_of_json v)
  end.

Definition time_keys : list jsstr :=
  [js "date_trunc('hour', start_time)"; js "date_trunc('hour',start_time)"; js "start_time"].

Definition named_time (r : row) (k : jsstr) : option Z :=
  match prop_get k r with Some JNull | None => None | Some v => date_of v end.

Definition dashed_time (kv : jsstr * json) : option Z :=
  match kv.2 with JStr s => if includes (js "-") s then date_parse s else None | _ => None end.

(** The first time under one of the names, else the first text with a dash that is a
    time, else zero. *)
Definition extractRawTime (r : row) : Z :=
  match head (omap (named_time r) time_keys) with
  | Some t => t
  | None => default 0 (head (omap dashed_time r))
  end.

(** ** The data of the widgets *)

Record TracesByNameData : Type := { tn_name : jsstr; tn_count : num }.
Record TimeSeriesData : Type := { ts_time : Z; ts_count : num }.
Record CostData : Type := { model : jsstr; inputTokens : num; outputTokens : num; totalCost : num }.
Record UserConsumptionData : Type := { user : jsstr; uc_count : num }.
Record KPIValue : Type := { kpi_totalCost : num; kpi_totalTraces : num; kpi_errorRate : num; kpi_avgLatencyMs : num }.
Record LatencyPercentileData : Type := { lp_time : Z; p50_ms : num; p95_ms : num; p99_ms : num }.
Record ErrorRateData : Type := { er_time : Z; total_count : num; error_count : num }.

Record widgets : Type := Widgets {
  tracesByName : list TracesByNameData;
  tracesByTime : list TimeSeriesData;
  tokenUsageData : list CostData;
  kindUsageData : list CostData;
  userConsumption : list UserConsumptionData;
  kpiData : option KPIValue;
  latencyData : list LatencyPercentileData;
  errorRateData : list ErrorRateData
}.
#[export] Instance widgets_eta : Eta widgets := λ w,
  Widgets (tracesByName w) (tracesByTime w) (tokenUsageData w) (kindUsageData w) (userConsumption w) (kpiData w)
    (latencyData w) (errorRateData w).
Definition no_data : widgets := Widgets [] [] [] [] [] None [] [].

Definition cost_row (k : string) (r : row) : CostData :=
  {| model := label_of k "unknown" r; inputTokens := count_of "input_tokens" r; outputTokens := count_of "output_tokens" r;
     totalCost := count_of "total_cost" r |}.
Definition mapCostRows : list row → list CostData := fmap (cost_row "model").
Definition mapKindRows : list row → list CostData := fmap (cost_row "kind").

Definition kpi_of (kpiRows errorCountRows : list row) : KPIValue :=
  match kpiRows with
  | r :: _ =>
    let totalTraces := count_of "total_traces" r in
    let errorCount := match errorCountRows with e :: _ => count_of "error_count" e | [] => of_Z 0 end in
    {| kpi_totalCost := count_of "total_cost" r; kpi_totalTraces := totalTraces;
       kpi_errorRate := if num_lt (of_Z 0) totalTraces then quotient errorCount totalTraces else of_Z 0;
       kpi_avgLatencyMs := count_of "avg_latency_ms" r |}
  | [] => {| kpi_totalCost := of_Z 0; kpi_totalTraces := of_Z 0; kpi_errorRate := of_Z 0; kpi_avgLatencyMs := of_Z 0 |}
  end.

(** The [Map] from times to numbers of errors. *)
Definition errorMap (rows : list row) : gmap Z num :=
  foldl (λ m r, let t := extractRawTime r in if 0 <? t then <[t := count_of "error_count" r]> m else m) ∅ rows.

Definition merge_errors (totals errors : list row) : list ErrorRateData :=
  let m := errorMap errors in
  (λ r, let t := extractRawTime r in
        {| er_time := t; total_count := count_of "total_count" r; error_count := default (of_Z 0) (m !! t) |})
    <$> filter (λ r, 0 < extractRawTime r) totals.

(** The rows of the ten answers, in the order of the requests. *)
Definition digest (rows : list (list row)) : widgets :=
  let answer i := default [] (rows !! i) in
  {| tracesByName := (λ r, {| tn_name := label_of "model" "unknown" r; tn_count := count_of "count" r |}) <$> answer 0%nat;
     tracesByTime := filter (λ d, 0 < ts_time d)
       ((λ r, {| ts_time := extractRawTime r; ts_count := count_of "count" r |}) <$> answer 1%nat);
     tokenUsageData := mapCostRows (answer 2%nat);
     kindUsageData := mapKindRows (answer 3%nat);
     userConsumption := (λ r, {| user := label_of "service_name" "anonymous" r; uc_count := count_of "count" r |}) <$> answer 4%nat;
     kpiData := Some (kpi_of (answer 5%nat) (answer 6%nat));
     latencyData := filter (λ d, 0 < lp_time d)
       ((λ r, {| lp_time := extractRawTime r; p50_ms := count_of "p50_ms" r; p95_ms := count_of "p95_ms" r;
                 p99_ms := count_of "p99_ms" r |}) <$> answer 7%nat);
     errorRateData := merge_errors (answer 8%nat) (answer 9%nat) |}.

(** ** Queries *)

Definition condition (field op : string) (value : json) : json :=
  JObj [(js "field", JStr (js field)); (js "op", JStr (js op)); (js "value", value)].
Definition ERROR_STATUS_FILTER : json := condition "status_code" "in" (JArr [JStr (js "ERROR"); JStr (js "error")]).
Definition llm_only : json := condition "kind" "eq" (JStr (js "llm")).

Definition by_field (f : string) : json := JObj [(js "field", JStr (js f))].
Definition by_bucket (interval : string) : json :=
  JObj [(js "field", JStr (js "time_bucket")); (js "interval", JStr (js interval))].
Definition ordered (f : string) (desc : bool) : json := JObj [(js "field", JStr (js f)); (js "desc", JBool desc)].
Definition aggregate (function field alias : string) : json :=
  JObj [(js "function", JStr (js function)); (js "field", JStr (js field)); (js "alias", JStr (js alias))].

(** [{ ...body, filters, group_by, order_by, aggregations }]. *)
Definition query (project from to : jsstr) (filters group_by order_by aggregations : list json) : json :=
  JObj [(js "project_id", JStr project); (js "from", JStr from); (js "to", JStr to); (js "filters", JArr filters);
        (js "group_by", JArr group_by); (js "order_by", JArr order_by); (js "aggregations", JArr aggregations)].

(** The buckets of the traces over time; without two valid dates they are days. *)
Definition bucket (from to : jsstr) : string :=
  let diffMs := num_sub (get_time to) (get_time from) in
  if num_le diffMs (of_Z (90 * 60 * 1000)) then "5m" else
  if num_le diffMs (of_Z (25 * 60 * 60 * 1000)) then "1h" else "1d".

Definition costs : list json :=
  [aggregate "sum" "input_tokens" "input_tokens"; aggregate "sum" "output_tokens" "output_tokens";
   aggregate "sum" "cost_usd" "total_cost"].

Definition queries (project from to : jsstr) : list json :=
  let q := query project from to in
  let count alias := aggregate "count" "*" alias in
  let hourly := [by_bucket "1h"] in
  let by_time := [ordered "start_time" false] in
  [q [llm_only] [by_field "model"] [ordered "count" true] [count "count"];
   q [] [by_bucket (bucket from to)] by_time [count "count"];
   q [llm_only] [by_field "model"] [ordered "total_cost" true] costs;
   q [] [by_field "kind"] [ordered "total_cost" true] costs;
   q [] [by_field "service_name"] [ordered "count" true] [count "count"];
   q [] [] [] [count "total_traces"; aggregate "sum" "cost_usd" "total_cost"; aggregate "avg" "duration_ms" "avg_latency_ms"];
   q [ERROR_STATUS_FILTER] [] [] [count "error_count"];
   q [] hourly by_time [aggregate "p50" "duration_ms" "p50_ms"; aggregate "p95" "duration_ms" "p95_ms";
                        aggregate "p99" "duration_ms" "p99_ms"];
   q [] hourly by_time [count "total_count"];
   q [ERROR_STATUS_FILTER] hourly by_time [count "error_count"]].

(** ** The axis of the traces over time *)

Definition presets : list (jsstr * Z) := TIME_RANGE_MS.

(** The first preset whose length is nearest; none is nearer than infinity to no number. *)
Definition closest (diffMs : option Z) : jsstr :=
  match diffMs with
  | None => js "7d"
  | Some d =>
    (foldl (λ '(minDiff, closestKey) '(key, ms),
       let x := Z.abs (d - ms) in
       if match minDiff with Some m => x <? m | None => true end then (Some x, key) else (minDiff, closestKey))
      (None, js "7d") presets).2
  end.

Definition preset_key (timeRange : option jsstr) (diffMs : option Z) : jsstr :=
  match timeRange with
  | Some r =>
    if truthy r && bool_decide (r ≠ js "custom") && bool_decide (r ∈ presets.*1) then r else closest diffMs
  | None => closest diffMs
  end.

Definition interval_of (presetKey : jsstr) : Z :=
  if bool_decide (presetKey = js "1h") then 15 * 60 * 1000 else
  if bool_decide (presetKey = js "6h") then 60 * 60 * 1000 else
  if bool_decide (presetKey = js "1d") then 4 * 60 * 60 * 1000 else
  if bool_decide (presetKey = js "7d") then 24 * 60 * 60 * 1000 else
  if bool_decide (presetKey = js "30d") then 5 * 24 * 60 * 60 * 1000 else 24 * 60 * 60 * 1000.

(** [while (current < toMs - intervalMs / 2)], over the even intervals of the code; all
    numbers are integers of which doubles hold every one. *)
Fixpoint tick_loop (fuel : nat) (current toMs intervalMs : Z) : list Z :=
  match fuel with
  | O => []
  | S fuel =>
    if current <? toMs - intervalMs / 2 then current :: tick_loop fuel (current + intervalMs) toMs intervalMs else []
  end.

Definition tick_fuel (fromMs toMs intervalMs : Z) : nat := S (Z.to_nat ((toMs - fromMs) / intervalMs + 1)).

(** [None] is no number: then the loop does not run. *)
Definition ticks (fromMs toMs : option Z) (intervalMs : Z) : list (option Z) :=
  match fromMs, toMs with
  | Some f, Some t => Some <$> tick_loop (tick_fuel f t intervalMs) f t intervalMs
  | _, _ => []
  end ++ [toMs].

(** The ticks of the chart. *)
Definition chart_ticks (from to : jsstr) (timeRange : option jsstr) : list (option Z) :=
  let fromMs := date_parse from in
  let toMs := date_parse to in
  let diffMs := f ← fromMs; t ← toMs; Some (t - f) in
  ticks fromMs toMs (interval_of (preset_key timeRange diffMs)).

(** ** The inputs for the two dates

    [local] is the date of an instant in the host's time zone: year, month, day, hours
    and minutes. *)
Context (local : Z → Z * Z * Z * Z * Z).

Definition pad (n : Z) : jsstr := pad_left 2 (show_Z n).

Definition toLocalInputValue (iso : jsstr) : jsstr :=
  match date_parse iso with
  | None => []
  | Some t =>
    let '(year, month, day, hours, minutes) := local t in
    show_Z year ++ js "-" ++ pad month ++ js "-" ++ pad day ++ js "T" ++ pad hours ++ js ":" ++ pad minutes
  end.

Definition fromLocalInputValue (value : jsstr) : option jsstr := t ← date_parse value; toISOString t.
End dates.

(** ** Theorems on the axis *)

#[local] Ltac Zify.zify_post_hook ::= Z.to_euclidean_division_equations.

Section ticks.
Context (toMs intervalMs : Z) (Hi : 0 < intervalMs).
#[local] Set Default Proof Using "All".

(** The number of ticks before the last one. *)
Definition tick_count (fromMs : Z) : Z := Z.max 0 ((toMs - intervalMs / 2 - fromMs + intervalMs - 1) / intervalMs).

Lemma tick_count_step current :
  tick_count current = if current <? toMs - intervalMs / 2 then 1 + tick_count (current + intervalMs) else 0.
Proof.
  unfold tick_count. destruct (Z.ltb_spec current (toMs - intervalMs / 2)) as [H|H].
  - replace (toMs - intervalMs / 2 - current + intervalMs - 1)
      with (toMs - intervalMs / 2 - (current + intervalMs) + intervalMs - 1 + 1 * intervalMs) by lia.
    rewrite Z_div_plus_full by lia.
    assert (0 <= (toMs - intervalMs / 2 - (current + intervalMs) + intervalMs - 1) / intervalMs); [|lia].
    apply Z.div_pos; lia.
  - apply Z.max_l. assert ((toMs - intervalMs / 2 - current + intervalMs - 1) / intervalMs < 1); [|lia].
    apply Z.div_lt_upper_bound; lia.
Qed.

(** With enough fuel the loop ends by itself, after the ticks at equal distances. *)
Lemma tick_loop_seq fuel current :
  tick_count current < Z.of_nat fuel →
  tick_loop fuel current toMs intervalMs = (λ k, current + k * intervalMs) <$> seqZ 0 (tick_count current).
Proof.
  revert current. induction fuel as [|fuel IH]; intros current Hf; [unfold tick_count in Hf; lia|].
  simpl. rewrite tick_count_step in *. destruct (current <? toMs - intervalMs / 2); [|done].
  assert (0 <= tick_count (current + intervalMs)) as Hc by (unfold tick_count; lia).
  rewrite IH by lia. rewrite (seqZ_cons 0 (1 + tick_count (current + intervalMs))) by lia. rewrite fmap_cons. f_equal; [simpl; lia|]. change (Z.succ 0) with (1 + 0).
  replace (Z.pred (1 + tick_count (current + intervalMs))) with (tick_count (current + intervalMs)) by lia.
  rewrite <- (fmap_add_seqZ 1 0), <- list_fmap_compose. apply list_fmap_ext. intros k x _. simpl. lia.
Qed.

Lemma tick_fuel_enough fromMs : tick_count fromMs < Z.of_nat (tick_fuel fromMs toMs intervalMs).
Proof.
  unfold tick_count, tick_fuel. rewrite Nat2Z.inj_succ.
  assert ((toMs - intervalMs / 2 - fromMs + intervalMs - 1) / intervalMs <= (toMs - fromMs) / intervalMs + 1).
  { assert (intervalMs ≠ 0) as Hne by lia.
    apply Z.lt_succ_r, Z.div_lt_upper_bound; [done|].
    pose proof (Z.div_mod (toMs - fromMs) intervalMs Hne) as Hdm. pose proof (Z.mod_pos_bound (toMs - fromMs) intervalMs Hi) as Hmod.
    assert (0 <= intervalMs / 2) as Hh by (apply Z.div_pos; lia).
    set (q := (toMs - fromMs) / intervalMs) in *. set (m := (toMs - fromMs) mod intervalMs) in *.
    set (h := intervalMs / 2) in *. clearbody q m h.
    replace (intervalMs * Z.succ (q + 1)) with (intervalMs * q + 2 * intervalMs) by lia. lia. }
  lia.
Qed.
End ticks.

Lemma interval_bounds k : 900000 <= interval_of k <= 432000000.
Proof. unfold interval_of. repeat case_bool_decide; lia. Qed.

(** C36. The loop of the axis ends, with ticks at equal distances from the start of the
    window, all of them more than half a distance before its end, where the last one is;
    it cannot end earlier.  The distance is between a quarter of an hour and five
    days; it is that of the range chosen in the header whatever the window is. *)
Theorem axis_ticks `{DateHost} from to r f t :
  date_parse from = Some f → date_parse to = Some t →
  let k := preset_key r (Some (t - f)) in
  let i := interval_of k in
  let n := tick_count t i f in
  chart_ticks from to r = Some <$> ((λ j, f + j * i) <$> seqZ 0 n) ++ [t]
  ∧ 900000 <= i <= 432000000
  ∧ (∀ j, 0 <= j < n → f <= f + j * i < t - i / 2)
  ∧ t - i / 2 <= f + n * i
  ∧ (∀ p, r = Some p → p ∈ presets.*1 → k = p).
Proof.
  intros Hf Ht k i n. pose proof (interval_bounds k) as Hi. fold i in Hi.
  assert (∀ j, 0 <= j < n → f + j * i < t - i / 2) as Hlt.
  { intros j Hj. unfold n, tick_count in Hj. set (a := t - i / 2 - f) in *.
    replace (t - i / 2 - f + i - 1) with (a + i - 1) in Hj by (unfold a; lia).
    assert (j + 1 <= (a + i - 1) / i) as Hle by lia. apply Z.mul_le_mono_nonneg_l with (p := i) in Hle; [|lia].
    pose proof (Z.mul_div_le (a + i - 1) i ltac:(lia)). assert (a = t - i / 2 - f) as Ea by done.
    set (h := i / 2) in *. clearbody h a. set (d := (a + i - 1) / i) in *. clearbody d. nia. }
  split_and!; try lia.
  - unfold chart_ticks. rewrite Hf, Ht. cbn [mbind option_bind]. fold k i. unfold ticks.
    rewrite fmap_app. cbn [fmap list_fmap]. f_equal. f_equal. apply tick_loop_seq; [lia|]. apply tick_fuel_enough. lia.
  - intros j Hj. split; [|by apply Hlt]. nia.
  - unfold n, tick_count. set (a := t - i / 2 - f). replace (t - i / 2 - f + i - 1) with (a + i - 1) by (unfold a; lia).
    pose proof (Z.mul_succ_div_gt (a + i - 1) i ltac:(lia)). set (d := (a + i - 1) / i) in *.
    assert (t - i / 2 = a + f) as -> by (unfold a; lia). clearbody d a. nia.
  - intros p -> Hp. unfold k, preset_key.
    assert (p ∈ [js "1h"; js "6h"; js "1d"; js "7d"; js "30d"]) as Hin by exact Hp.
    rewrite (bool_decide_true (p ∈ presets.*1)) by done.
    repeat (apply elem_of_cons in Hin as [->|Hin]; [by vm_compute|]). by apply not_elem_of_nil in Hin.
Qed.

(** ** Theorems on the data *)

Section merging.
Context `{DateHost}.

Lemma errorMap_last rows t :
  errorMap rows !! t
  = if 0 <? t then count_of "error_count" <$> last (filter (λ r, extractRawTime r = t) rows) else None.
Proof.
  unfold errorMap. induction rows as [|r rows IH] using rev_ind; [by destruct (0 <? t)|].
  rewrite foldl_app. cbn [foldl]. rewrite filter_app. cbv zeta.
  destruct (decide (extractRawTime r = t)) as [E|E].
  - rewrite filter_cons_True by done. cbn. rewrite last_snoc. rewrite E. destruct (0 <? t); [by rewrite lookup_insert_eq|exact IH].
  - rewrite filter_cons_False by done. cbn. rewrite app_nil_r, <- IH. destruct (0 <? extractRawTime r); [|done].
    by rewrite lookup_insert_ne.
Qed.

(** The points of the error rate: one for each row of totals with a time, in order, with
    the errors of the last row for that time, or none. *)
Theorem merge_errors_last totals errors :
  merge_errors totals errors
  = (λ r, {| er_time := extractRawTime r; total_count := count_of "total_count" r;
             error_count := default (of_Z 0)
               (count_of "error_count" <$> last (filter (λ e, extractRawTime e = extractRawTime r) errors)) |})
      <$> filter (λ r, 0 < extractRawTime r) totals.
Proof.
  unfold merge_errors. apply list_fmap_ext. intros i r Hr. apply list_elem_of_lookup_2, list_elem_of_filter in Hr as [Ht _].
  rewrite errorMap_last. by rewrite (proj2 (Z.ltb_lt _ _) Ht).
Qed.
End merging.

Module Runs.
(** A host whose dates are written as numbers of milliseconds. *)
#[local] Instance host : DateHost := {| date_parse t := Some (digits_val t); full_year _ := 2024; to_locale_string _ _ := [] |}.

Lemma axis_ticks_witness :
  chart_ticks (js "0") (js "3600000") (Some (js "1h")) = Some <$> [0; 900000; 1800000; 2700000; 3600000]
  ∧ chart_ticks (js "0") (js "3600000") (Some (js "1h"))
    = Some <$> ((λ j, 0 + j * 900000) <$> seqZ 0 (tick_count 3600000 900000 0)) ++ [3600000].
Proof.
  split; [vm_compute; reflexivity|].
  exact (proj1 (axis_ticks (js "0") (js "3600000") (Some (js "1h")) 0 3600000 eq_refl eq_refl)).
Defined.
End Runs.
