(* ===== verification/Dashboard.v ===== *)
(** The dashboard (ui/src/pages/Dashboard.tsx): a window of time, ten queries made by a
    batch of workers for every change of the project or the window, and the widgets that
    show their answers.  The queries and the data are in DashboardData, the workers in
    AnalyticsBatch.

    Every batch is kept with its counter and array, since its workers go on after a newer
    one has begun.  What a render leaves behind is [after_render]: a tab of the usage
    widget sorts its data in place, and the table of costs asks which models are priced;
    the table has a number, for the answers to its requests.  The charts are another
    library's: a chart is the points it is given. *)
From S2P Require Import Prelude.
From S2P Require Import JsString.
From S2P Require Import JsNumber.
From S2P Require Import JsJson.
From S2P Require Import JsUrl.
From S2P Require Import Formatters.
From S2P Require Import TimeRange.
From S2P Require Import Ui.
From S2P Require Import Widgets.
From S2P Require Import AnalyticsBatch.
From S2P Require Import DashboardData.
Local Open Scope Z_scope.

(** The body of an analytics response: its rows, which may be absent or [null]. *)
Abbreviation body := (option (list row)).

(** ** State *)

(** The table of costs: what is known of prices, the key it asked for last and the number
    of requests it made. *)
Record table : Type := Table { number : nat; priced : option (list (jsstr * bool)); key : jsstr; seq : nat }.
#[export] Instance table_eta : Eta table := λ t, Table (number t) (priced t) (key t) (seq t).

Record state : Type := State {
  activeProject : jsstr;
  timeRange : option jsstr;
  from : jsstr;
  to : jsstr;
  loading : bool;
  error : option jsstr;
  data : widgets;
  requestSeq : nat;
  batches : list (batch body);
  activeTab : nat;
  costs : option table;
  tables : nat
}.
#[export] Instance state_eta : Eta state := λ s,
  State (activeProject s) (timeRange s) (from s) (to s) (loading s) (error s) (data s) (requestSeq s) (batches s)
    (activeTab s) (costs s) (tables s).

(** The first render at the time [now]. *)
Definition initial (p : jsstr) (range : option jsstr) (now : Z) : option state :=
  '(from, to) ← presetToFromTo range now;
  Some (State p range from to true None no_data 0 [] 0 None 0).

(** ** The table of costs *)

Definition by_cost (a b : CostData) : bool :=
  let d := num_sub (totalCost b) (totalCost a) in is_nan d || num_le d (of_Z 0).
Definition by_tokens (a b : CostData) : bool :=
  let d := num_sub (num_add (inputTokens b) (outputTokens b)) (num_add (inputTokens a) (outputTokens a)) in
  is_nan d || num_le d (of_Z 0).

Definition isTypeTab (tab : nat) : bool := bool_decide (tab = 1%nat) || bool_decide (tab = 3%nat).
Definition showTokensOnly (tab : nat) : bool := bool_decide (tab = 2%nat) || bool_decide (tab = 3%nat).
Definition activeData (s : state) : list CostData :=
  if isTypeTab (activeTab s) then kindUsageData (data s) else tokenUsageData (data s).

Definition sorted_costs (s : state) : list CostData := sort_by by_cost (activeData s).

(** The key of [usePricedModels], if the table of costs is shown. *)
Definition table_key (s : state) : option jsstr :=
  if loading s || showTokensOnly (activeTab s) || bool_decide (activeData s = []) then None
  else Some (if isTypeTab (activeTab s) then [] else str_join (js ",") (model <$> sorted_costs s)).

Definition priced_answer (n k : nat) (a : answer (list (jsstr * bool))) (s : state) : outcome state :=
  now (s <| costs ::= fmap (λ t, if bool_decide (number t = n) && bool_decide (seq t = k) then t <| priced := ok_body a |> else t) |>).

(** The effect of [usePricedModels] for a new key. *)
Definition ask_priced (t : table) (k : jsstr) (s : state) : outcome state :=
  if truthy k then
    let t := t <| key := k |> <| seq ::= S |> in
    (s <| costs := Some t |>,
     [Fetch (list (jsstr * bool)) (get_request (js "/api/v1/models/priced?models=" ++ encodeURIComponent k))
        (priced_answer (number t) (seq t))])
  else now (s <| costs := Some (t <| key := k |> <| priced := None |>) |>).

Definition table_effect (s : state) : outcome state :=
  match table_key s, costs s with
  | None, _ => now (s <| costs := None |>)
  | Some k, None => ask_priced (Table (tables s) None [] 0) k (s <| tables ::= S |>)
  | Some k, Some t => if bool_decide (k = key t) then now s else ask_priced t k s
  end.

(** The tabs of the usage sort the array they are given. *)
Definition sort_usage (s : state) : state :=
  if loading s || negb (showTokensOnly (activeTab s)) then s
  else if isTypeTab (activeTab s) then s <| data ::= λ w, w <| kindUsageData ::= sort_by by_tokens |> |>
  else s <| data ::= λ w, w <| tokenUsageData ::= sort_by by_tokens |> |>.

Definition after_render (c : outcome state) : outcome state :=
  let '(s, ps) := c in
  let '(s, qs) := table_effect (sort_usage s) in
  (s, ps ++ qs).

(** ** Fetching *)

Definition no_batch : batch body := Batch [] 0 0 [] false.
Definition get_batch (b : nat) (s : state) : batch body := default no_batch (batches s !! b).
Definition update_batch (b : nat) (f : batch body → batch body) (s : state) : state := s <| batches ::= alter f b |>.

(** The rows of a response: none if it is not ok. *)
Definition rows_of (r : response body) : result jsstr (list row) :=
  let '(status, b) := r in
  if ok_status status then match b with Ok rows => Ok (default [] rows) | Err e => Err e end else Ok [].

Section page.
Context `{DateHost}.

(** Of several bodies that cannot be read, the error of the one that fails first. *)
Context (first_of : list jsstr → jsstr).

Definition read_bodies (rs : list (response body)) : result jsstr (list (list row)) :=
  match omap (λ r, match rows_of r with Err e => Some e | Ok _ => None end) rs with
  | [] => Ok (omap (λ r, match rows_of r with Ok l => Some l | Err _ => None end) rs)
  | errors => Err (first_of errors)
  end.

(** From [await fetchAnalyticsBatch(...)] on, with the bodies. *)
Definition finish (k : nat) (r : result jsstr (list (option (response body)))) (s : state) : outcome state :=
  let read :=
    match r with
    | Err m => Err m
    | Ok l => match mapM Datatypes.id l with
              | Some rs => read_bodies rs
              | None => Err (js "Cannot read properties of undefined (reading 'ok')")
              end
    end in
  if negb (bool_decide (k = requestSeq s)) then now s else
  after_render (match read with Ok rows => s <| data := digest rows |> | Err m => s <| error := Some m |> end
                  <| loading := false |>, []).

Definition fetchData (s : state) : outcome state :=
  let k := S (requestSeq s) in
  let b := length (batches s) in
  fetchAnalyticsBatch (Fetch body) (get_batch b) (update_batch b) (finish k)
    (queries (activeProject s) (from s) (to s)) ANALYTICS_FETCH_CONCURRENCY
    (s <| requestSeq := k |> <| loading := true |> <| error := None |> <| batches ::= λ l, l ++ [no_batch] |>).

(** The render after the window was set: its effect fetches if the window is another one. *)
Definition set_window (f t : jsstr) (s : state) : outcome state :=
  if bool_decide ((f, t) = (from s, to s)) then now s else fetchData (s <| from := f |> <| to := t |>).

(** The window of the effect for the range of the header. *)
Definition range_window (range : option jsstr) (now : Z) : option (jsstr * jsstr) :=
  match range with
  | Some r => if truthy r && bool_decide (r ≠ js "custom") then presetToFromTo range now else None
  | None => None
  end.

(** A time whose dates have no text, for which the effect throws, changes nothing here. *)
Definition apply_range (now_ : Z) (s : state) : outcome state :=
  match range_window (timeRange s) now_ with Some (f, t) => set_window f t s | None => now s end.

(** ** Events *)

Inductive op : Type :=
| Mounted (now : Z)
| SwitchProject (p : jsstr)
| SwitchRange (range : option jsstr) (now : Z)
| EditFrom (value : jsstr)
| EditTo (value : jsstr)
| Refresh
| DismissError
| ChooseTab (i : nat).

(** Both effects run when the page is mounted: the first sets the window for the range
    anew, the second fetches for the window of the first render; the window that was set
    is rendered after that. *)
Definition handle_op (o : op) (s : state) : outcome state :=
  match o with
  | Mounted t =>
    let '(s, ps) := fetchData s in
    let '(s, qs) := apply_range t s in
    (s, ps ++ qs)
  | SwitchProject p => if bool_decide (p = activeProject s) then now s else fetchData (s <| activeProject := p |>)
  | SwitchRange r t => if bool_decide (r = timeRange s) then now s else apply_range t (s <| timeRange := r |>)
  | EditFrom v =>
    match fromLocalInputValue v with Some iso => if truthy iso then set_window iso (to s) s else now s | None => now s end
  | EditTo v =>
    match fromLocalInputValue v with Some iso => if truthy iso then set_window (from s) iso s else now s | None => now s end
  | Refresh => fetchData s
  | DismissError => now (s <| error := None |>)
  | ChooseTab i => now (s <| activeTab := i |>)
  end.

Definition handle (o : op) (s : state) : outcome state := after_render (handle_op o s).

(** ** Views *)

Section views.
Context (local : Z → Z * Z * Z * Z * Z) (toLocaleTimeString toLocaleDateString toLocaleString : Z → jsstr).

(** [new Date(val)] of the three texts of a date below; [None] is an invalid one. *)
Definition date_text (f : Z → jsstr) (t : option Z) : jsstr := from_option f (js "Invalid Date") t.

Definition formatTraceTimeTick (val : option Z) (presetKey : jsstr) : jsstr :=
  if bool_decide (presetKey ∈ [js "1h"; js "6h"; js "1d"]) then date_text toLocaleTimeString val
  else date_text toLocaleDateString val.

Definition Card {A} (title subtitle : jsstr) (child : view A) : view A :=
  El "div" [] [El "div" [] (El "span" [] [Text title] :: when (truthy subtitle) (El "span" [] [Text subtitle]));
               El "div" [] [child]].

Definition KPITile {A} (label value subtitle : jsstr) : view A :=
  El "div" [] [El "div" [] [El "span" [] [El "svg" [] []]; El "span" [] [Text label]];
               El "div" [] [Text value]; El "div" [] [Text subtitle]].

Definition KPITiles {A} (d : option KPIValue) (loading : bool) : view A :=
  match d with
  | Some d =>
    if loading then El "div" [] (replicate 4 (El "div" [] [Skeleton; Skeleton; Skeleton])) else
    El "div" []
      [KPITile (js "Total Cost") (formatCost (Some (kpi_totalCost d))) (js "sum of cost_usd");
       KPITile (js "Total Traces") (formatNumber (CellNum (kpi_totalTraces d))) (js "count of spans");
       KPITile (js "Error Rate") (to_fixed 2 (num_mul (kpi_errorRate d) (of_Z 100)) ++ js "%") (js "errors / total");
       KPITile (js "Average Latency") (formatMs (kpi_avgLatencyMs d)) (js "avg duration_ms")]
  | None => El "div" [] (replicate 4 (El "div" [] [Skeleton; Skeleton; Skeleton]))
  end.

Definition nothing {A} (title description : string) (actionLabel : option jsstr) : view A :=
  EmptyState default_ (Some (js title)) (Some (js description)) actionLabel None.

(** A chart, unless its data is loaded for the first time or there is none. *)
Definition chart {A X} (loading : bool) (d : list X) (rows : nat) (empty : view A) (drawn : view A) : view A :=
  match d with
  | [] => if loading then LoadingState rows false else empty
  | _ => drawn
  end.

(** A point of a chart, or a tick of an axis. *)
Definition point {A} (x y : jsstr) : view A := El "point" [Attr "x" x; Attr "y" y] [].

(** The label of a category, cut to fit the gutter, with the whole one as its title. *)
Definition Y_AXIS_LABEL_MAX : nat := 22.
Definition TruncatedYTick {A} (full : jsstr) : view A :=
  El "g" [] [El "title" [] [Text full];
             El "text" [] [Text (if bool_decide (Y_AXIS_LABEL_MAX < length full)%nat then take (Y_AXIS_LABEL_MAX - 1) full ++ js "…" else full)]].

Definition bars {A} (d : list (jsstr * num)) : view A :=
  El "BarChart" [] (((λ e, TruncatedYTick e.1) <$> d) ++ ((λ e, point e.1 (formatNumber (CellNum e.2))) <$> d)).

Definition TracesByNameChart {A} (d : list TracesByNameData) (loading : bool) : view A :=
  chart loading d 5 (nothing "No traces yet" "Send your first trace to see model breakdown here" (Some (js "View Traces")))
    (bars ((λ e, (tn_name e, tn_count e)) <$> d)).

Definition UserConsumptionChart {A} (d : list UserConsumptionData) (loading : bool) : view A :=
  chart loading d 5 (nothing "No consumption data" "Trace counts per service will appear here" None)
    (bars ((λ e, (user e, uc_count e)) <$> d)).

Definition TracesByTimeChart {A} (d : list TimeSeriesData) (loading : bool) (from to : jsstr) (range : option jsstr) : view A :=
  let diffMs := f ← date_parse from; t ← date_parse to; Some (t - f) in
  let presetKey := preset_key range diffMs in
  chart loading d 1 (nothing "No time-series data" "Trace activity will appear here once data is available" None)
    (El "LineChart" []
       [El "XAxis" [] ((λ t, El "tick" [] [Text (formatTraceTimeTick t presetKey)]) <$> chart_ticks from to range);
        El "Line" [] ((λ e, point (toLocaleString (ts_time e)) (formatNumber (CellNum (ts_count e)))) <$> d)]).

Definition LatencyPercentileChart {A} (d : list LatencyPercentileData) (loading : bool) : view A :=
  let line (name : string) (f : LatencyPercentileData → num) :=
    El "Line" [Attr "name" (js name)] ((λ e, point (toLocaleString (lp_time e)) (show_num (num_round (f e)) ++ js "ms")) <$> d) in
  chart loading d 1 (nothing "No latency data" "Latency percentiles will appear once traces are ingested" None)
    (El "div" []
       [El "div" [] [El "span" [] [txt "p50"]; El "span" [] [txt "p95"]; El "span" [] [txt "p99"]];
        El "LineChart" []
          (El "XAxis" [] ((λ e, El "tick" [] [Text (formatTraceTimeTick (Some (lp_time e)) (js "1d"))]) <$> d)
           :: [line "p50" p50_ms; line "p95" p95_ms; line "p99" p99_ms])]).

(** The percentages of errors, from the raw counts. *)
Definition error_points (d : list ErrorRateData) : list (Z * num) :=
  filter (λ e, 0 < e.1)
    ((λ e, (er_time e,
            if num_lt (of_Z 0) (total_count e) then num_mul (quotient (error_count e) (total_count e)) (of_Z 100) else of_Z 0)) <$> d).

Definition ErrorRateChart {A} (d : list ErrorRateData) (loading : bool) : view A :=
  chart loading d 1 (nothing "No error data" "Error rate will appear once traces are ingested" None)
    (El "LineChart" []
       [El "XAxis" [] ((λ e, El "tick" [] [Text (formatTraceTimeTick (Some e.1) (js "1d"))]) <$> error_points d);
        El "Line" [Attr "name" (js "Error Rate")] ((λ e, point (toLocaleString e.1) (to_fixed 2 e.2 ++ js "%")) <$> error_points d)]).

(** [priced?.[row.model] === false]. *)
Definition unpriced (t : option table) (m : jsstr) : bool :=
  match p ← t; priced p with Some l => bool_decide (prop_get m l = Some false) | None => false end.

Definition head_row {A} (cells : list jsstr) : view A := El "thead" [] [El "tr" [] ((λ c, El "th" [] [Text c]) <$> cells)].

Definition cost_row_view {A} (t : option table) (r : CostData) : view A :=
  El "tr" []
    [El "td" [] [Text (model r)]; El "td" [] [Text (formatNumber (CellNum (inputTokens r)))];
     El "td" [] [Text (formatNumber (CellNum (outputTokens r)))];
     El "td" []
       [if unpriced t (model r)
        then El "span" [Attr "title" (js "No pricing is known for this model; costs are not computed.")] [txt "Unpriced"]
        else Text (formatCost (Some (totalCost r)))]].

Definition ModelCostsTable {A} (t : option table) (d : list CostData) (labelHeader : jsstr) : view A :=
  match d with
  | [] => nothing "No cost data yet" "Cost breakdown will appear once traces are ingested" None
  | _ =>
    El "table" [] [head_row [labelHeader; js "Input Tokens"; js "Output Tokens"; js "Total Cost"];
                   El "tbody" [] (cost_row_view t <$> sort_by by_cost d)]
  end.

Definition ScoresWidget {A} (loading : bool) : view A :=
  if loading then El "div" [] [Skeleton; Skeleton]
  else nothing "No scores yet" "Configure evaluation rules to start scoring traces" (Some (js "Go to Settings")).

Definition USAGE_TABS : list jsstr := [js "Cost by Model"; js "Cost by Type"; js "Usage by Model"; js "Usage by Type"].

Definition tokens_row {A} (r : CostData) : view A :=
  El "tr" [] [El "td" [] [Text (model r)]; El "td" [] [Text (formatNumber (CellNum (inputTokens r)))];
              El "td" [] [Text (formatNumber (CellNum (outputTokens r)))]].

Definition ModelUsageWidget (s : state) : view op :=
  if loading s then LoadingState 3 false else
  El "div" []
    [El "div" [] (imap (λ i tab, El "button" [On "click" (ChooseTab i)] [Text tab]) USAGE_TABS);
     if bool_decide (activeData s = []) then nothing "No usage data yet" "Token counts will appear once traces are ingested" None
     else if showTokensOnly (activeTab s) then
       El "table" [] [head_row [if bool_decide (activeTab s = 2%nat) then js "Model" else js "Type"; js "Input Tokens"; js "Output Tokens"];
                      El "tbody" [] (tokens_row <$> sort_by by_tokens (activeData s))]
     else ModelCostsTable (costs s) (activeData s) (if bool_decide (activeTab s = 1%nat) then js "Type" else js "Model")].

(** The label of the window; a member of every object is no text. *)
Definition window_label (now : Z) (s : state) : jsstr :=
  match timeRange s with
  | Some r =>
    if truthy r then match object_get r TIME_RANGE_LABELS with Own l => l | Inherited => [] | Absent => timeRangeLabel now (from s) end
    else timeRangeLabel now (from s)
  | None => timeRangeLabel now (from s)
  end.

Definition date_input (label : string) (iso : jsstr) (edit : jsstr → op) : view op :=
  El "div" [] [El "label" [] [txt label];
               El "input" [Attr "type" (js "datetime-local"); Attr "value" (toLocalInputValue local iso); OnValue "change" edit] []].

Definition render (now : Z) (s : state) : view op :=
  El "div" []
    ([El "div" []
        [El "div" [] [El "h1" [] [txt "Dashboard"]; El "p" [] [Text (window_label now s)]];
         El "div" []
           [date_input "From:" (from s) EditFrom; date_input "To:" (to s) EditTo;
            El "button" [On "click" Refresh; Flag "disabled" (loading s)] [if loading s then txt "Loading..." else txt "Refresh"]]]]
     ++ match error s with
        | Some m => when (truthy m) (ErrorBanner m (Some DismissError) (Some Refresh) (js "Retry"))
        | None => []
        end
     ++ [El "div" [] [KPITiles (kpiData (data s)) (loading s)];
         El "div" []
           [Card (js "Latency Percentiles") (js "ms") (LatencyPercentileChart (latencyData (data s)) (loading s));
            Card (js "Error Rate") (js "% errors") (ErrorRateChart (errorRateData (data s)) (loading s))];
         El "div" []
           [Card (js "Traces by Model") (js "count") (TracesByNameChart (tracesByName (data s)) (loading s));
            Card (js "Eval Scores") (js "score (0–1)") (ScoresWidget (loading s));
            Card (js "Traces over Time") (js "count/hour")
              (TracesByTimeChart (tracesByTime (data s)) (loading s) (from s) (to s) (timeRange s));
            Card (js "Token Usage") (js "input + output tokens") (ModelUsageWidget s);
            Card (js "User Consumption") (js "traces per service") (UserConsumptionChart (userConsumption (data s)) (loading s))]]).

Definition legal (o : op) (s : state) : Prop :=
  match o with
  | Mounted _ | SwitchProject _ | SwitchRange _ _ => True
  | _ => ∃ now, offers (render now s) o
  end.
End views.
End page.
