(* ===== verification/DashboardProps.v ===== *)
(** Theorems on the dashboard: what it shows when nothing is loading is what the answers to
    the queries for its project and window give, and loading ends with the last answer. *)
From S2P Require Import Prelude.
From S2P Require Import JsString.
From S2P Require Import JsNumber.
From S2P Require Import JsJson.
From S2P Require Import Formatters.
From S2P Require Import TimeRange.
From S2P Require Import Ui.
From S2P Require Import Widgets.
From S2P Require Import AnalyticsBatch.
From S2P Require Import DashboardData.
From S2P Require Import Dashboard.
Local Open Scope nat_scope.

(** ** What a render leaves behind *)

(** The usage tabs sort their data in place; nothing else changes it. *)
Record same_data (w w' : widgets) : Prop := {
  same_names : tracesByName w = tracesByName w';
  same_times : tracesByTime w = tracesByTime w';
  same_tokens : tokenUsageData w ≡ₚ tokenUsageData w';
  same_kinds : kindUsageData w ≡ₚ kindUsageData w';
  same_users : userConsumption w = userConsumption w';
  same_kpi : kpiData w = kpiData w';
  same_latency : latencyData w = latencyData w';
  same_errors : errorRateData w = errorRateData w'
}.

#[export] Instance same_data_equivalence : Equivalence same_data.
Proof.
  split; [by intros w|intros w w' []; by split|].
  intros w w' w'' [H1 H2 H3 H4 H5 H6 H7 H8] [G1 G2 G3 G4 G5 G6 G7 G8]. split; by etrans.
Qed.

(** Lists of options without a hole. *)
Lemma mapM_some {A} (l : list A) : mapM Datatypes.id (Some <$> l) = Some l.
Proof. induction l as [|x l IH]; [done|]. cbn. by rewrite IH. Qed.

Lemma all_some {A} (l : list (option A)) :
  (∀ i, i < length l → ∃ x, l !! i = Some (Some x)) → ∃ l', l = Some <$> l'.
Proof.
  induction l as [|x l IH]; intros Hl; [by exists []|].
  destruct (Hl 0 ltac:(simpl; lia)) as [y Hy]. destruct IH as [l' ->]; [intros i Hi; apply (Hl (S i)); simpl; lia|].
  exists (y :: l'). cbn in *. congruence.
Qed.

(** The parts of the state that [after_render] leaves alone, up to the sorting. *)
Record rendered (s s' : state) : Prop := {
  rendered_project : activeProject s' = activeProject s;
  rendered_from : from s' = from s;
  rendered_to : to s' = to s;
  rendered_loading : loading s' = loading s;
  rendered_seq : requestSeq s' = requestSeq s;
  rendered_batches : batches s' = batches s;
  rendered_data : same_data (data s') (data s)
}.

(** The programs that wait for what is known of prices. *)
Definition asks_priced (p : program state) : Prop := ∃ q n k, p = Fetch (list (jsstr * bool)) q (priced_answer n k).

Lemma sort_usage_rendered s : rendered s (sort_usage s).
Proof.
  unfold sort_usage. destruct (loading s || negb (showTokensOnly (activeTab s))) eqn:E; [by split|].
  destruct (isTypeTab (activeTab s)); split; try done; split; try done; simpl; apply sort_by_perm.
Qed.

Lemma table_effect_rendered s : rendered s (table_effect s).1 ∧ Forall asks_priced (table_effect s).2.
Proof.
  assert (∀ t k s, rendered s (ask_priced t k s).1 ∧ Forall asks_priced (ask_priced t k s).2) as Ha.
  { intros t k s0. unfold ask_priced. destruct (truthy k); split; try by split.
    - apply Forall_singleton. by do 3 eexists.
    - constructor. }
  unfold table_effect. destruct (table_key s) as [k|], (costs s) as [t|].
  - case_bool_decide; [by repeat constructor|apply Ha].
  - destruct (Ha (Table (tables s) None [] 0) k (s <| tables ::= S |>)) as [[] H2]. split; [by split|done].
  - split; [by split|constructor].
  - split; [by split|constructor].
Qed.

Lemma rendered_trans s s' s'' : rendered s s' → rendered s' s'' → rendered s s''.
Proof.
  intros [H1 H2 H3 H4 H5 H6 H7] [G1 G2 G3 G4 G5 G6 G7].
  split; [by rewrite G1|by rewrite G2|by rewrite G3|by rewrite G4|by rewrite G5|by rewrite G6|by etrans].
Qed.

(** A render adds requests for prices only. *)
Lemma after_render_spec s ps :
  ∃ s' qs, after_render (s, ps) = (s', ps ++ qs) ∧ rendered s s' ∧ Forall asks_priced qs.
Proof.
  unfold after_render. destruct (table_effect (sort_usage s)) as [s' qs] eqn:E. exists s', qs. split; [done|].
  destruct (table_effect_rendered (sort_usage s)) as [H1 H2]. rewrite E in H1, H2.
  split; [|done]. eapply rendered_trans; [apply sort_usage_rendered|done].
Qed.

(** ** The batches of a state *)

Lemma get_update b f s : b < length (batches s) → get_batch b (update_batch b f s) = f (get_batch b s).
Proof.
  intros Hb. unfold get_batch, update_batch. simpl. rewrite list_lookup_alter, decide_True by done.
  destruct (lookup_lt_is_Some_2 (batches s) b Hb) as [x ->]. done.
Qed.

Lemma get_update_ne b b' f s : b ≠ b' → get_batch b (update_batch b' f s) = get_batch b s.
Proof. intros Hb. unfold get_batch, update_batch. simpl. by rewrite list_lookup_alter_ne. Qed.

Lemma length_update b f s : length (batches (update_batch b f s)) = length (batches s).
Proof. unfold update_batch. simpl. apply length_alter. Qed.

Section page.
Context `{DateHost} (first_of : list jsstr → jsstr).
#[local] Set Default Proof Using "Type".

Abbreviation work b := (worker (Fetch body) (get_batch b) (update_batch b) (finish first_of (S b))).
Abbreviation reject b := (worker_rejects (get_batch b) (update_batch b) (finish first_of (S b))).
Abbreviation return_ b := (worker_returns (get_batch b) (update_batch b) (finish first_of (S b))).
Abbreviation fetch_ := (fetchData first_of).

(** The answer to request [i] of batch [b]. *)
Definition resume (b i f : nat) (a : answer body) (s : state) : outcome state :=
  match a with
  | Answer status _ bd => work b f (update_batch b (λ x, x <| responses ::= <[i := Some (status, bd)]> |>) s)
  | NoAnswer m => reject b m s
  end.

(** What a program waits for: the answer to a request of a batch, or prices. *)
Definition tag : Type := option (nat * (nat * nat)).
Definition tagged (p : program state) (t : tag) : Prop :=
  match t with Some (b, (i, f)) => ∃ q, p = Fetch body q (resume b i f) | None => asks_priced p end.

Definition open_of (b : nat) (ts : list tag) : list (nat * nat) :=
  omap (λ t, match t with Some (b', o) => if bool_decide (b' = b) then Some o else None | None => None end) ts.

Lemma open_of_app b ts ts' : open_of b (ts ++ ts') = open_of b ts ++ open_of b ts'.
Proof. apply omap_app. Qed.

Lemma open_of_none b n : open_of b (replicate n None) = [].
Proof. by induction n. Qed.

Lemma priced_tags ps : Forall asks_priced ps → Forall2 tagged ps (replicate (length ps) None).
Proof. induction 1; simpl; by constructor. Qed.

Lemma work_take b f s q :
  b < length (batches s) → requests (get_batch b s) !! next (get_batch b s) = Some q →
  work b (S f) s = (update_batch b (λ x, x <| next ::= S |>) s, [Fetch body (post q) (resume b (next (get_batch b s)) f)]).
Proof. intros Hb Hq. cbn [worker]. rewrite get_update by done. cbn. by rewrite Hq. Qed.

Lemma work_return b f s :
  b < length (batches s) → requests (get_batch b s) !! next (get_batch b s) = None →
  work b (S f) s = return_ b (update_batch b (λ x, x <| next ::= S |>) s).
Proof. intros Hb Hq. cbn [worker]. rewrite get_update by done. cbn. by rewrite Hq. Qed.

(** *** A batch begins *)

Lemma length_queries p f t : length (queries p f t) = 10.
Proof. done. Qed.

Definition begun (s : state) : batch body :=
  Batch (queries (activeProject s) (from s) (to s)) 3 3 (replicate 10 None) false.

Lemma fetch_spec s :
  length (batches s) = requestSeq s →
  ∃ s', fetch_ s = (s', (λ i, Fetch body (post (default JNull (queries (activeProject s) (from s) (to s) !! i))) (resume (requestSeq s) i 10)) <$> [0; 1; 2])
    ∧ get_batch (requestSeq s) s' = begun s ∧ length (batches s') = S (requestSeq s) ∧ requestSeq s' = S (requestSeq s)
    ∧ loading s' = true ∧ error s' = None ∧ activeProject s' = activeProject s ∧ from s' = from s ∧ to s' = to s
    ∧ data s' = data s ∧ timeRange s' = timeRange s.
Proof.
  intros Hlen. set (b := requestSeq s). set (qs := queries (activeProject s) (from s) (to s)).
  set (s0 := update_batch b (λ _, Batch qs 0 3 (replicate 10 None) false)
    (s <| requestSeq := S b |> <| loading := true |> <| error := None |> <| batches ::= λ l, l ++ [no_batch] |>)).
  assert (length (batches s0) = S b) as Hl0.
  { unfold s0. rewrite length_update. simpl. rewrite length_app. simpl. lia. }
  assert (get_batch b s0 = Batch qs 0 3 (replicate 10 None) false) as Hg0.
  { unfold s0. rewrite get_update; [done|]. simpl. rewrite length_app. simpl. lia. }
  assert (fetch_ s = start_workers (Fetch body) (get_batch b) (update_batch b) (finish first_of (S b)) 3 11 s0) as ->.
  { unfold fetchData. cbv zeta. rewrite Hlen. fold b. unfold fetchAnalyticsBatch. cbv zeta. rewrite length_queries. done. }
  set (up := update_batch b (λ x : batch body, x <| next ::= S |>)).
  assert (∀ j, j < 10 → ∀ s1, length (batches s1) = S b → get_batch b s1 = Batch qs j 3 (replicate 10 None) false →
    work b 11 s1 = (up s1, [Fetch body (post (default JNull (qs !! j))) (resume b j 10)])
    ∧ length (batches (up s1)) = S b ∧ get_batch b (up s1) = Batch qs (S j) 3 (replicate 10 None) false) as Hstep.
  { intros j Hj s1 Hl Hg. split_and!.
    - destruct (lookup_lt_is_Some_2 qs j ltac:(done)) as [q Hq]. rewrite (work_take b 10 s1 q); rewrite ?Hg; [by rewrite Hq|lia|done].
    - unfold up. by rewrite length_update.
    - unfold up. rewrite get_update, Hg by lia. done. }
  destruct (Hstep 0 ltac:(lia) s0 Hl0 Hg0) as (E1 & L1 & G1).
  destruct (Hstep 1 ltac:(lia) _ L1 G1) as (E2 & L2 & G2).
  destruct (Hstep 2 ltac:(lia) _ L2 G2) as (E3 & L3 & G3).
  exists (up (up (up s0))). split; [|split_and!; done].
  unfold start_workers. rewrite !Nat.iter_succ. cbn [Nat.iter nat_rect]. by rewrite E1, E2, E3.
Qed.

(** *** The latest batch *)

(** The bookkeeping of batch [b]: [open] are the requests its workers wait for, [dead]
    the workers whose request was rejected, [busy] those at the head of their loop. *)
Record crew (b : nat) (s : state) (open : list (nat * nat)) (dead busy : nat) : Prop := {
  crew_requests : requests (get_batch b s) = queries (activeProject s) (from s) (to s);
  crew_length : length (responses (get_batch b s)) = 10;
  crew_running : running (get_batch b s) = length open + dead + busy;
  crew_rejected : rejected (get_batch b s) = bool_decide (0 < dead);
  crew_open : Forall (λ o, o.1 < next (get_batch b s) ∧ o.1 < 10 ∧ 10 <= o.1 + o.2) open;
  crew_answered : dead = 0 → ∀ i, i < next (get_batch b s) → i < 10 → i ∉ open.*1 →
    ∃ r, responses (get_batch b s) !! i = Some (Some r)
}.

(** All its answers are there, and what is shown was made of them. *)
Definition complete (b : nat) (s : state) : Prop :=
  ∃ rs, responses (get_batch b s) = Some <$> rs
  ∧ ∀ rows, read_bodies first_of rs = Ok rows → same_data (data s) (digest rows).

Definition phase (b : nat) (s : state) (open : list (nat * nat)) (dead : nat) : Prop :=
  if loading s then dead = 0 ∧ open ≠ [] else 0 < dead ∨ (open = [] ∧ complete b s).

Definition current (s : state) (open : list (nat * nat)) : Prop :=
  requestSeq s ≠ 0 → ∃ dead, crew (pred (requestSeq s)) s open dead 0 ∧ phase (pred (requestSeq s)) s open dead.

Lemma get_batch_eq b s s' : batches s' = batches s → get_batch b s' = get_batch b s.
Proof. intros E. unfold get_batch. by rewrite E. Qed.

Lemma crew_rendered b s s' open dead busy : rendered s s' → crew b s open dead busy → crew b s' open dead busy.
Proof.
  intros [H1 H2 H3 H4 H5 H6 H7] [G1 G2 G3 G4 G5 G6].
  split; rewrite ?(get_batch_eq b s s') by done; rewrite ?H1, ?H2, ?H3; done.
Qed.

Lemma phase_rendered b s s' open dead : rendered s s' → phase b s open dead → phase b s' open dead.
Proof.
  intros Hr. unfold phase, complete. rewrite (rendered_loading _ _ Hr), (get_batch_eq _ s s') by apply Hr.
  destruct (loading s); [done|]. intros [?|(? & rs & ? & ?)]; [by left|right]. split; [done|]. exists rs. split; [done|].
  intros rows Hrows. etrans; [apply Hr|by auto].
Qed.

Lemma current_rendered s s' open : rendered s s' → current s open → current s' open.
Proof.
  intros Hr Hc. unfold current. rewrite (rendered_seq _ _ Hr). intros (dead & H1 & H2)%Hc. exists dead.
  split; [by eapply crew_rendered|by eapply phase_rendered].
Qed.

(** *** The tags of the programs that wait *)

Record linked (s : state) (ps : list (program state)) (ts : list tag) : Prop := {
  linked_tags : Forall2 tagged ps ts;
  linked_below : Forall (λ t, match t with Some (b, _) => b < requestSeq s | None => True end) ts;
  linked_length : length (batches s) = requestSeq s
}.

Definition waiting (c : outcome state) : Prop :=
  ∃ ts, linked c.1 c.2 ts ∧ current c.1 (open_of (pred (requestSeq c.1)) ts).

Lemma waiting_rendered s s' ps qs :
  rendered s s' → Forall asks_priced qs → waiting (s, ps) → waiting (s', ps ++ qs).
Proof.
  intros Hr Hq (ts & [L1 L2 L3] & Hc). exists (ts ++ replicate (length qs) None). cbn [fst snd] in *. split.
  - split; rewrite ?(rendered_seq _ _ Hr), ?(rendered_batches _ _ Hr); [|by apply Forall_app; split; [|apply Forall_replicate]|done].
    apply Forall2_app; [done|by apply priced_tags].
  - rewrite open_of_app, open_of_none, app_nil_r, (rendered_seq _ _ Hr). by eapply current_rendered.
Qed.

Lemma waiting_render s ps qs :
  waiting (s, ps ++ qs) → waiting ((after_render (s, qs)).1, ps ++ (after_render (s, qs)).2).
Proof.
  intros Hw. destruct (after_render_spec s qs) as (s' & qs' & -> & Hr & Hq). cbn [fst snd].
  rewrite app_assoc. by eapply waiting_rendered.
Qed.

Lemma fetch_waiting s ps ts : linked s ps ts → waiting ((fetch_ s).1, ps ++ (fetch_ s).2).
Proof.
  intros [L1 L2 L3]. destruct (fetch_spec s L3) as (s' & -> & Hg & Hl & Hs & Hlo & He & Hp & Hf & Ht & _ & _).
  set (b := requestSeq s) in *. cbn [fst snd].
  exists (ts ++ [Some (b, (0, 10)); Some (b, (1, 10)); Some (b, (2, 10))]).
  assert (open_of b ts = []) as Hnone.
  { clear -L2. induction L2 as [|[[b' o]|] ts H1 H2 IH]; simpl; [done| |done].
    rewrite bool_decide_false by (unfold b; lia). done. }
  cbn [fst snd]. split.
  - split; [|rewrite Hs; apply Forall_app; split|by rewrite Hs].
    + apply Forall2_app; [done|]. cbn. repeat constructor; by eexists.
    + eapply Forall_impl; [exact L2|]. intros [[??]|]; [lia|done].
    + repeat constructor.
  - intros _. rewrite Hs. cbn [pred]. rewrite open_of_app, Hnone. cbn. rewrite !bool_decide_true by done.
    exists 0. split.
    + split; rewrite ?Hg; cbn; rewrite ?Hp, ?Hf, ?Ht; try done.
      * repeat constructor; simpl; lia.
      * intros _ i Hi _ Hni. destruct Hni. rewrite !elem_of_cons. lia.
    + unfold phase. by rewrite Hlo.
Qed.

(** *** A worker goes on *)

(** A state in which only batch [b] is another one. *)
Record elsewhere (b : nat) (s s' : state) : Prop := {
  elsewhere_state : s' = s <| batches := batches s' |>;
  elsewhere_length : length (batches s') = length (batches s);
  elsewhere_get : ∀ b', b' ≠ b → get_batch b' s' = get_batch b' s
}.

Lemma elsewhere_refl b s : elsewhere b s s.
Proof. split; [by destruct s|done|done]. Qed.

Lemma elsewhere_update b f s s' : elsewhere b s s' → elsewhere b s (update_batch b f s').
Proof.
  intros [E1 E2 E3]. split.
  - unfold update_batch. rewrite E1. done.
  - by rewrite length_update.
  - intros b' Hb. rewrite get_update_ne by done. auto.
Qed.

Lemma current_elsewhere b s s' open : b ≠ pred (requestSeq s) → elsewhere b s s' → current s open → current s' open.
Proof.
  intros Hb [E1 E2 E3] Hc. pose proof (E3 (pred (requestSeq s)) (not_eq_sym Hb)) as Hg.
  unfold current. assert (requestSeq s' = requestSeq s) as -> by by rewrite E1. intros (dead & [H1 H2 H3 H4 H5 H6] & Hp)%Hc.
  exists dead. split.
  - split; rewrite ?Hg; try done. by rewrite E1.
  - unfold phase, complete in *. rewrite Hg. by rewrite E1.
Qed.

(** What a worker of a batch leaves behind: [open] are the requests it waits for. *)
Definition goes_on (b : nat) (c : outcome state) (open : list (nat * nat)) : Prop :=
  ∃ ts, Forall2 tagged c.2 ts ∧ Forall (λ t, match t with Some (b', _) => b' = b | None => True end) ts ∧ open_of b ts = open.

Lemma goes_on_none b s : goes_on b (s, []) [].
Proof. by exists []. Qed.

Lemma finish_stale k r s : k ≠ requestSeq s → finish first_of k r s = (s, []).
Proof. intros Hk. unfold finish. by rewrite bool_decide_false. Qed.

(** The worker of an older batch. *)
Lemma work_stale b f s :
  b < length (batches s) → S b ≠ requestSeq s → ∃ open, goes_on b (work b f s) open ∧ elsewhere b s (work b f s).1.
Proof.
  intros Hb Hk. destruct f as [|f]; [exists []; split; [apply goes_on_none|apply elsewhere_refl]|].
  destruct (requests (get_batch b s) !! next (get_batch b s)) as [q|] eqn:E.
  - rewrite (work_take _ _ _ _ Hb E). eexists. split; [|apply elsewhere_update, elsewhere_refl].
    eexists [Some (b, (_, _))]. split_and!; [repeat constructor; by eexists|by repeat constructor|done].
  - rewrite (work_return _ _ _ Hb E). exists []. unfold worker_returns. cbv zeta. case_bool_decide.
    + rewrite finish_stale by done. split; [apply goes_on_none|]. by do 2 apply elsewhere_update; apply elsewhere_refl.
    + split; [apply goes_on_none|]. by do 2 apply elsewhere_update; apply elsewhere_refl.
Qed.

Lemma reject_stale b m s : S b ≠ requestSeq s → (reject b m s).2 = [] ∧ elsewhere b s (reject b m s).1.
Proof.
  intros Hk. unfold worker_rejects. destruct (rejected (get_batch b s)); [split; [done|apply elsewhere_refl]|].
  rewrite finish_stale by done. split; [done|apply elsewhere_update, elsewhere_refl].
Qed.

Lemma resume_stale b i f a s :
  b < length (batches s) → S b ≠ requestSeq s → ∃ open, goes_on b (resume b i f a s) open ∧ elsewhere b s (resume b i f a s).1.
Proof.
  intros Hb Hk. destruct a as [st t bd|m]; simpl.
  - set (s1 := update_batch b _ s). assert (elsewhere b s s1) as [G1 G2 G3] by apply elsewhere_update, elsewhere_refl.
    destruct (work_stale b f s1) as (open & H1 & [E1 E2 E3]); [by rewrite G2|done|].
    exists open. split; [done|]. split; [|by rewrite E2, G2|intros b' Hb'; by rewrite E3, G3]. by rewrite E1.
  - destruct (reject_stale b m s Hk) as [H1 H2]. exists []. split; [|done].
    destruct (reject b m s) as [s' ps]. simpl in H1. subst. apply goes_on_none.
Qed.

(** The requests that wait after a worker went on in the latest batch. *)
Definition carried (b : nat) (s : state) (o1 o2 : list (nat * nat)) (dead : nat) (c : outcome state) : Prop :=
  ∃ new, goes_on b c new ∧ crew b c.1 (o1 ++ new ++ o2) dead 0 ∧ phase b c.1 (o1 ++ new ++ o2) dead
  ∧ requestSeq c.1 = requestSeq s ∧ length (batches c.1) = length (batches s).

(** The last answer of a batch: the data are those of the answers, or there is an error. *)
Lemma finish_latest b s rs :
  S b = requestSeq s → responses (get_batch b s) = Some <$> rs →
  ∃ s1 s' qs, finish first_of (S b) (Ok (responses (get_batch b s))) s = (s', qs)
    ∧ rendered s1 s' ∧ Forall asks_priced qs ∧ loading s1 = false ∧ complete b s1
    ∧ activeProject s1 = activeProject s ∧ from s1 = from s ∧ to s1 = to s ∧ requestSeq s1 = requestSeq s ∧ batches s1 = batches s.
Proof.
  intros Hb Hrs. unfold finish. rewrite Hrs. rewrite bool_decide_true by done. cbn [negb].
  rewrite mapM_some.
  set (s1 := _ <| loading := false |>). destruct (after_render_spec s1 []) as (s' & qs & E & Hr & Hq).
  exists s1, s', qs. split; [exact E|]. split; [done|]. split; [done|]. unfold s1.
  destruct (read_bodies first_of rs) as [rows|m] eqn:Er; (split; [done|]; split; [|done]);
    exists rs; (split; [done|]); intros rows' Hrows; rewrite Er in Hrows; simplify_eq. simpl. reflexivity.
Qed.

(** The last worker returns when every request has its answer. *)
Lemma settle_latest b s :
  S b = requestSeq s → crew b s [] 0 0 → 10 <= next (get_batch b s) →
  carried b s [] [] 0 (finish first_of (S b) (Ok (responses (get_batch b s))) s).
Proof.
  intros Hk Hcrew Hn. pose proof Hcrew as [C1 C2 C3 C4 C5 C6]. destruct (all_some (responses (get_batch b s))) as [rs Hrs].
  { intros j. rewrite C2. intros Hj. apply (C6 eq_refl j); [lia|done|]. apply not_elem_of_nil. }
  destruct (finish_latest b s rs Hk Hrs) as (s2 & s' & qs & -> & Hr & Hq & L2 & K2 & A2 & F2 & T2 & Q2 & B2).
  exists []. cbn [app fst snd]. split_and!.
  - exists (replicate (length qs) None). cbn [fst snd].
    split_and!; [by apply priced_tags|by apply Forall_replicate|apply open_of_none].
  - apply (crew_rendered b s2 s' [] 0 0 Hr). by split; rewrite ?(get_batch_eq b s s2 B2), ?A2, ?F2, ?T2.
  - apply (phase_rendered b s2 s' [] 0 Hr). unfold phase. rewrite L2. by right.
  - by rewrite (rendered_seq _ _ Hr), Q2.
  - by rewrite (rendered_batches _ _ Hr), B2.
Qed.

Lemma work_latest b f s o1 o2 dead :
  b < length (batches s) → S b = requestSeq s → crew b s (o1 ++ o2) dead 1 →
  (if loading s then dead = 0 else 0 < dead) → 1 <= f → 10 < next (get_batch b s) + f →
  carried b s o1 o2 dead (work b f s).
Proof.
  intros Hb Hk [H1 H2 H3 H4 H5 H6] Hl Hf Hfn. destruct f as [|f]; [lia|].
  destruct (requests (get_batch b s) !! next (get_batch b s)) as [q|] eqn:E.
  - rewrite (work_take _ _ _ _ Hb E). rewrite H1 in E. apply lookup_lt_Some in E as Hlt. rewrite length_queries in Hlt.
    set (i := next (get_batch b s)) in *.
    assert (o1 ++ (i, f) :: o2 ≡ₚ (i, f) :: o1 ++ o2) as Hp by (symmetry; apply Permutation_middle).
    exists [(i, f)]. cbn [fst snd app]. split_and!.
    + exists [Some (b, (i, f))]. split_and!; [repeat constructor; by eexists|by repeat constructor|].
      cbn. by rewrite bool_decide_true.
    + split; rewrite ?(get_update b) by done; cbn; try done.
      * rewrite H3, Hp. simpl. lia.
      * rewrite Hp. constructor; [simpl; lia|]. eapply Forall_impl; [exact H5|]. intros o (? & ? & ?). simpl. lia.
      * intros Hd j Hj Hj10. rewrite Hp. cbn. rewrite elem_of_cons. intros Hnj. apply (H6 Hd j); [|done|tauto].
        fold i. destruct (decide (j = i)); [tauto|lia].
    + unfold phase. simpl. destruct (loading s); [split; [done|]|by left]. by destruct o1.
    + done.
    + by rewrite length_update.
  - rewrite (work_return _ _ _ Hb E). rewrite H1 in E. apply lookup_ge_None in E. rewrite length_queries in E.
    unfold worker_returns. cbv zeta. set (s1 := update_batch b _ (update_batch b _ s)).
    assert (length (batches s1) = length (batches s)) as Hlen by (unfold s1; by rewrite !length_update).
    assert (get_batch b s1 = get_batch b s <| next ::= S |> <| running ::= pred |>) as Hg.
    { unfold s1. rewrite get_update by (by rewrite length_update). by rewrite get_update. }
    assert (crew b s1 (o1 ++ o2) dead 0) as Hcrew.
    { split; rewrite ?Hg; cbn; try done.
      - rewrite H3. lia.
      - eapply Forall_impl; [exact H5|]. intros o (? & ? & ?). simpl. lia.
      - intros Hd j Hj Hj10 Hnj. apply (H6 Hd j); [lia|done|done]. }
    replace (running (get_batch b s1)) with (pred (length (o1 ++ o2) + dead + 1)) by (rewrite Hg; cbn; by rewrite H3).
    destruct (decide (pred (length (o1 ++ o2) + dead + 1) = 0)) as [E0|E0];
      [rewrite bool_decide_true by done|rewrite bool_decide_false by done].
    + assert (dead = 0 ∧ o1 ++ o2 = []) as [-> Eo] by (split; [lia|]; destruct (o1 ++ o2); [done|simpl in E0; lia]).
      destruct (loading s) eqn:El; [|lia]. unfold carried in *. rewrite Eo in Hcrew. apply app_nil in Eo as [-> ->].
      rewrite <- Hlen. apply (settle_latest b s1); [done|exact Hcrew|rewrite Hg; simpl; lia].
    + exists []. cbn [app fst snd]. split_and!; [apply goes_on_none|done| |done|done].
      unfold phase. change (loading s1) with (loading s). destruct (loading s); [|by left].
      split; [done|]. intros Eo. rewrite Eo in E0. simpl in E0. lia.
Qed.

(** The first failure of the latest batch. *)
Lemma finish_rejected b m s :
  S b = requestSeq s →
  ∃ s1 s' qs, finish first_of (S b) (Err m) s = (s', qs)
    ∧ rendered s1 s' ∧ Forall asks_priced qs ∧ loading s1 = false
    ∧ activeProject s1 = activeProject s ∧ from s1 = from s ∧ to s1 = to s ∧ requestSeq s1 = requestSeq s ∧ batches s1 = batches s.
Proof.
  intros Hb. unfold finish. rewrite bool_decide_true by done. cbn [negb].
  set (s1 := _ <| loading := false |>). destruct (after_render_spec s1 []) as (s' & qs & E & Hr & Hq).
  by exists s1, s', qs.
Qed.

Lemma reject_latest b m s o1 i f o2 dead :
  b < length (batches s) → S b = requestSeq s → crew b s (o1 ++ (i, f) :: o2) dead 0 → phase b s (o1 ++ (i, f) :: o2) dead →
  carried b s o1 o2 (S dead) (reject b m s).
Proof.
  intros Hb Hk [H1 H2 H3 H4 H5 _] Hp. rewrite length_app in H3. simpl in H3.
  assert (Forall (λ o, o.1 < next (get_batch b s) ∧ o.1 < 10 ∧ 10 <= o.1 + o.2) (o1 ++ o2)) as H5'.
  { apply Forall_app in H5 as [? H5]. apply Forall_cons in H5 as [_ ?]. by apply Forall_app. }
  unfold worker_rejects. rewrite H4. destruct (decide (0 < dead)) as [Hd|Hd];
    [rewrite bool_decide_true by done|rewrite bool_decide_false by done].
  - exists []. cbn [app fst snd]. split_and!; [apply goes_on_none| | |done|done].
    + split; try done; [rewrite H3, length_app; lia|by rewrite H4, !bool_decide_true by lia].
    + unfold phase in *. destruct (loading s); [lia|left; lia].
  - set (s1 := update_batch b _ s). assert (requestSeq s1 = requestSeq s) as Q1 by done.
    assert (get_batch b s1 = get_batch b s <| rejected := true |>) as Hg by (unfold s1; by rewrite get_update).
    destruct (finish_rejected b m s1 Hk) as (s2 & s' & qs & -> & Hr & Hq & L2 & A2 & F2 & T2 & Q2 & B2).
    exists []. unfold carried. cbn [app fst snd]. split_and!.
    + exists (replicate (length qs) None). cbn [fst snd].
      split_and!; [by apply priced_tags|by apply Forall_replicate|apply open_of_none].
    + apply (crew_rendered b s2 s' _ _ _ Hr).
      split; rewrite ?(get_batch_eq b s1 s2 B2), ?A2, ?F2, ?T2, ?Hg; cbn; try done. rewrite H3, length_app. lia.
    + apply (phase_rendered b s2 s' _ _ Hr). unfold phase. rewrite L2. left. lia.
    + by rewrite (rendered_seq _ _ Hr), Q2.
    + rewrite (rendered_batches _ _ Hr), B2. unfold s1. by rewrite length_update.
Qed.

Lemma resume_latest b i f a s o1 o2 dead :
  b < length (batches s) → S b = requestSeq s → crew b s (o1 ++ (i, f) :: o2) dead 0 → phase b s (o1 ++ (i, f) :: o2) dead →
  ∃ dead', carried b s o1 o2 dead' (resume b i f a s).
Proof.
  intros Hb Hk Hc Hp. destruct a as [st t bd|m]; [exists dead|exists (S dead); by eapply reject_latest].
  destruct Hc as [H1 H2 H3 H4 H5 H6]. rewrite length_app in H3. simpl in H3.
  apply Forall_app in H5 as [H5a H5]. apply Forall_cons in H5 as [(Hi & Hi10 & Hf) H5b]. cbn [fst snd] in Hi, Hi10, Hf.
  simpl. set (s1 := update_batch b _ s).
  assert (get_batch b s1 = get_batch b s <| responses ::= <[i := Some (st, bd)]> |>) as Hg by (unfold s1; by rewrite get_update).
  assert (length (batches s1) = length (batches s)) as Hl1 by (unfold s1; by rewrite length_update).
  destruct (work_latest b f s1 o1 o2 dead) as (new & G1 & G2 & G3 & G4 & G5); try done.
  - by rewrite Hl1.
  - split; rewrite ?Hg; cbn; try done.
    + by rewrite length_insert.
    + rewrite H3, length_app. lia.
    + by apply Forall_app.
    + intros Hd j Hj Hj10 Hnj. destruct (decide (j = i)) as [->|Hne].
      * eexists. apply list_lookup_insert_eq. by rewrite H2.
      * rewrite list_lookup_insert_ne by done. apply H6; [done..|]. rewrite fmap_app in *. cbn. set_solver.
  - change (loading s1) with (loading s). unfold phase in Hp. destruct (loading s); [tauto|].
    destruct Hp as [?|[E _]]; [done|by destruct o1].
  - lia.
  - rewrite Hg. cbn. lia.
  - exists new. by rewrite G5.
Qed.

(** *** Events and answers *)

Lemma waiting_same s s' ps : rendered s s' → waiting (s, ps) → waiting (s', ps ++ []).
Proof. intros Hr. by apply waiting_rendered. Qed.

Lemma set_window_waiting f t s ps :
  waiting (s, ps) → waiting ((set_window first_of f t s).1, ps ++ (set_window first_of f t s).2).
Proof.
  intros (ts & Hl & Hc). unfold set_window. case_bool_decide; [by rewrite app_nil_r; exists ts|].
  eapply (fetch_waiting _ ps ts). by destruct Hl.
Qed.

Lemma apply_range_waiting t s ps :
  waiting (s, ps) → waiting ((apply_range first_of t s).1, ps ++ (apply_range first_of t s).2).
Proof.
  intros Hw. unfold apply_range. destruct (range_window (timeRange s) t) as [[f t']|]; [by apply set_window_waiting|].
  by rewrite app_nil_r.
Qed.

Lemma handle_op_waiting o s ps :
  waiting (s, ps) → waiting ((handle_op first_of o s).1, ps ++ (handle_op first_of o s).2).
Proof.
  assert (∀ s', linked s' ps = linked s' ps) by done.
  intros Hw. destruct o as [t|p|r t|v|v| | |i]; cbn [handle_op].
  - destruct (fetch_ s) as [s1 ps1] eqn:E1. destruct (apply_range first_of t s1) as [s2 ps2] eqn:E2. cbn [fst snd].
    rewrite app_assoc. pose proof (apply_range_waiting t s1 (ps ++ ps1)) as Ha. rewrite E2 in Ha. apply Ha.
    destruct Hw as (ts & Hl & _). pose proof (fetch_waiting s ps ts Hl) as Hf. by rewrite E1 in Hf.
  - case_bool_decide; [by rewrite app_nil_r|]. destruct Hw as (ts & Hl & _). eapply (fetch_waiting _ ps ts). by destruct Hl.
  - case_bool_decide; [by rewrite app_nil_r|]. apply apply_range_waiting.
    rewrite <- (app_nil_r ps). by eapply waiting_same; [|exact Hw].
  - destruct (fromLocalInputValue v) as [iso|]; [|by rewrite app_nil_r].
    destruct (truthy iso); [by apply set_window_waiting|by rewrite app_nil_r].
  - destruct (fromLocalInputValue v) as [iso|]; [|by rewrite app_nil_r].
    destruct (truthy iso); [by apply set_window_waiting|by rewrite app_nil_r].
  - destruct Hw as (ts & Hl & _). by eapply fetch_waiting.
  - by eapply waiting_same; [|exact Hw].
  - by eapply waiting_same; [|exact Hw].
Qed.

Lemma open_of_other b b' ts :
  b ≠ b' → Forall (λ t, match t with Some (b0, _) => b0 = b' | None => True end) ts → open_of b ts = [].
Proof.
  intros Hb. induction 1 as [|[[b0 o]|] ts H1 H2 IH]; simpl; [done| |done]. subst. by rewrite bool_decide_false.
Qed.

Lemma answer_waiting s ps p qs d :
  waiting (s, ps ++ p :: qs) → answered p s d → waiting (d.1, ps ++ d.2 ++ qs).
Proof.
  intros (ts & [L1 L2 L3] & Hc) Ha. cbn [fst snd] in *.
  apply Forall2_app_inv_l in L1 as (ts1 & ts2' & T1 & T2 & ->). apply Forall2_cons_inv_l in T2 as (t & ts2 & Ht & T2 & ->).
  rewrite !open_of_app in Hc. apply Forall_app in L2 as [L2a L2]. apply Forall_cons in L2 as [Lt L2b].
  destruct t as [[b [i f]]|].
  - destruct Ht as [q ->]. destruct Ha as [a ->]. assert (b < length (batches s)) as Hb by by rewrite L3.
    assert (∀ c ts', Forall2 tagged c.2 ts' → Forall (λ t : tag, match t with Some (b', _) => b' = b | None => True end) ts' →
      requestSeq c.1 = requestSeq s → length (batches c.1) = length (batches s) → linked c.1 (ps ++ c.2 ++ qs) (ts1 ++ ts' ++ ts2)) as Hlink.
    { intros c ts' G1 G2 G3 G4. split; rewrite ?G3, ?G4; [by repeat apply Forall2_app| |done].
      rewrite !Forall_app. split_and!; [done| |done]. eapply Forall_impl; [exact G2|]. intros [[b' o]|]; [by intros ->|done]. }
    cbn in Hc. destruct (decide (S b = requestSeq s)) as [Hk|Hk].
    + rewrite <- Hk in Hc. cbn [pred] in Hc. rewrite bool_decide_true in Hc by done.
      destruct Hc as (dead & Hcrew & Hp); [lia|]. rewrite <- Hk in Hcrew, Hp. cbn [pred] in Hcrew, Hp.
      destruct (resume_latest b i f a s _ _ dead Hb Hk Hcrew Hp) as (dead' & new & (ts' & G1 & G2 & G3) & C1 & C2 & C3 & C4).
      exists (ts1 ++ ts' ++ ts2). split; [by apply (Hlink (resume b i f a s))|]. rewrite !open_of_app. cbn [fst snd]. rewrite C3, <- Hk. cbn [pred].
      rewrite G3. intros _. rewrite C3, <- Hk. cbn [pred]. by exists dead'.
    + destruct (resume_stale b i f a s Hb Hk) as (open & (ts' & G1 & G2 & G3) & He).
      assert (requestSeq (resume b i f a s).1 = requestSeq s) as Hq by by rewrite (elsewhere_state _ _ _ He).
      exists (ts1 ++ ts' ++ ts2). split; [apply (Hlink (resume b i f a s)); [done|done|done|apply He]|].
      rewrite !open_of_app. cbn [fst snd]. rewrite Hq. rewrite (open_of_other _ b ts') by (done || lia). cbn [app].
      apply (current_elsewhere b s); [lia|done|]. rewrite bool_decide_false in Hc by lia. exact Hc.
  - destruct Ht as (q & n & k & ->). destruct Ha as [a ->]. cbn in Hc. cbn [priced_answer Ui.now fst snd app].
    exists (ts1 ++ ts2). split.
    + split; [by apply Forall2_app|by apply Forall_app|done].
    + rewrite open_of_app. by eapply current_rendered; [|exact Hc].
Qed.

Section views.
Context (local : Z → Z * Z * Z * Z * Z) (toLocaleTimeString toLocaleDateString toLocaleString : Z → jsstr).
Abbreviation legal_ := (legal local toLocaleTimeString toLocaleDateString toLocaleString).

Lemma board_waiting p range now s0 c :
  initial p range now = Some s0 → reachable legal_ (handle first_of) s0 c → waiting c.
Proof.
  intros Hi. apply (reachable_ind _ _ waiting).
  - exists []. unfold initial in Hi. destruct (presetToFromTo range now) as [[f t]|]; [|done]. cbn in Hi. simplify_eq.
    split; [by repeat constructor|]. intros Hq. by destruct Hq.
  - intros [s ps] c' Hw [(o & _ & ->)|(ps1 & p' & qs & d & Hps & Ha & ->)]%step_inv; cbn [fst snd] in *.
    + unfold handle. pose proof (handle_op_waiting o s ps Hw) as Ho. destruct (handle_op first_of o s) as [s1 qs].
      by apply waiting_render.
    + subst ps. by eapply answer_waiting.
Qed.

(** C5. Whatever is done on the page and in whatever order the answers of however many
    batches arrive: the latest batch asks the queries for the present project and
    window.  While the page is loading, one of its requests waits; otherwise one of its
    requests failed, or each has its answer and the page shows the data of those answers
    (or else a body could not be read), up to the order of the rows of the usage. *)
Theorem latest_shown p range now s0 c :
  initial p range now = Some s0 → reachable legal_ (handle first_of) s0 c → requestSeq c.1 ≠ 0 →
  let b := pred (requestSeq c.1) in
  let bt := get_batch b c.1 in
  requests bt = queries (activeProject c.1) (from c.1) (to c.1)
  ∧ if loading c.1
    then rejected bt = false ∧ ∃ i f q, Fetch body q (resume b i f) ∈ c.2
    else rejected bt = true
         ∨ ∃ rs, length rs = length (requests bt) ∧ responses bt = Some <$> rs
           ∧ ∀ rows, read_bodies first_of rs = Ok rows → same_data (data c.1) (digest rows).
Proof.
  intros Hi Hr Hs b bt. destruct (board_waiting _ _ _ _ _ Hi Hr) as (ts & [L1 L2 L3] & Hc).
  destruct (Hc Hs) as (dead & [C1 C2 C3 C4 C5 C6] & Hp). fold b bt in C1, C2, C3, C4, Hp. split; [done|].
  unfold phase in Hp. destruct (loading c.1).
  - destruct Hp as [-> Hne]. split; [by rewrite C4|]. fold b in Hne.
    assert (∃ i f, Some (b, (i, f)) ∈ ts) as (i & f & Hin).
    { destruct (open_of b ts) as [|[i f] l] eqn:E; [done|]. assert ((i, f) ∈ open_of b ts) as Ho by (rewrite E; by left).
      apply list_elem_of_omap in Ho as ([[b' o]|] & Ht & Eo); [|done]. case_bool_decide; simplify_eq. by exists i, f. }
    apply list_elem_of_lookup in Hin as [k Hk]. destruct (Forall2_lookup_r _ _ _ _ _ L1 Hk) as (pr & Hpr & q & ->).
    exists i, f, q. by eapply list_elem_of_lookup_2.
  - destruct Hp as [Hd|[_ (rs & Hrs & Hdata)]]; [left; by rewrite C4, bool_decide_true|right]. fold bt in Hrs.
    exists rs. split; [|done]. rewrite C1, length_queries, <- C2, Hrs. by rewrite length_fmap.
Qed.
End views.

(** ** Mounting *)

Definition request_of {S} (p : program S) : request := match p with Fetch _ q _ => q end.

(** Nothing is asked about prices while the page is loading. *)
Lemma after_render_loading s ps : loading s = true → (after_render (s, ps)).2 = ps.
Proof.
  intros Hl. unfold after_render, table_effect, table_key. assert (sort_usage s = s) as -> by by (unfold sort_usage; rewrite Hl).
  rewrite Hl. cbn. by rewrite app_nil_r.
Qed.

(** The effects of the mount fetch twice when the clock has moved since the render: twice
    as many requests are open as a batch may have. *)
Theorem mount_doubles_load p range now s0 t f t' :
  initial p range now = Some s0 → range_window range t = Some (f, t') → (f, t') ≠ (from s0, to s0) →
  request_of <$> (handle first_of (Mounted t) s0).2
  = post <$> take ANALYTICS_FETCH_CONCURRENCY (queries p (from s0) (to s0))
             ++ take ANALYTICS_FETCH_CONCURRENCY (queries p f t').
Proof.
  intros Hi Hw Hne. unfold initial in Hi. destruct (presetToFromTo range now) as [[f0 t0]|]; [|done]. cbn in Hi. simplify_eq.
  cbn [from to] in *. set (s0 := State _ _ _ _ _ _ _ _ _ _ _ _).
  destruct (fetch_spec s0 eq_refl) as (s1 & E1 & _ & L1 & R1 & Lo1 & _ & A1 & F1 & T1 & _ & TR1).
  unfold handle. cbn [handle_op]. rewrite E1. unfold apply_range. rewrite TR1. change (timeRange s0) with range. rewrite Hw.
  unfold set_window. rewrite F1, T1. rewrite bool_decide_false by done.
  destruct (fetch_spec (s1 <| from := f |> <| to := t' |>)) as (s2 & E2 & _ & _ & _ & Lo2 & _); [exact (eq_trans L1 (eq_sym R1))|].
  rewrite E2, after_render_loading by done. rewrite fmap_app. cbn. by rewrite A1.
Qed.

(** ** Refused queries *)

(** Without usage there is nothing to sort and nothing to ask. *)
Lemma after_render_empty s :
  tokenUsageData (data s) = [] → kindUsageData (data s) = [] → after_render (s, []) = (s <| costs := None |>, []).
Proof.
  intros Ht Hk. unfold after_render. assert (sort_usage s = s) as ->.
  { unfold sort_usage. destruct (loading s || _); [done|]. destruct s as [? ? ? ? ? ? [? ? ? ? ? ? ? ?] ? ? ? ? ?]. cbn in *. subst.
    by destruct (isTypeTab _). }
  unfold table_effect, table_key, activeData. rewrite Ht, Hk.
  destruct (isTypeTab (activeTab s)), (loading s || showTokensOnly (activeTab s)); done.
Qed.

(** When every response says that the query was refused, the page shows the data of no
    traces, without an error and as loaded. *)
Theorem refused_answers_look_empty s rs :
  length rs = 10 → Forall (λ r, ok_status r.1 = false) rs →
  let c := finish first_of (requestSeq s) (Ok (Some <$> rs)) s in
  loading c.1 = false ∧ error c.1 = error s
  ∧ data c.1 = no_data <| kpiData := Some (kpi_of [] []) |>.
Proof.
  intros Hlen Hrefused. cbv zeta.
  assert (read_bodies first_of rs = Ok (replicate 10 [])) as Hr.
  { unfold read_bodies. rewrite <- Hlen. clear Hlen.
    assert (∀ r, ok_status r.1 = false → rows_of r = Ok []) as Ho by (intros [st bd] E; unfold rows_of; simpl in E; by rewrite E).
    match goal with |- context [match omap ?f rs with _ => _ end] => assert (omap f rs = []) as -> end.
    { induction Hrefused as [|r rs H1 H2 IH]; simpl; [done|]. rewrite (Ho r H1). exact IH. }
    f_equal. induction Hrefused as [|r rs H1 H2 IH]; simpl; [done|]. rewrite (Ho r H1). f_equal. exact IH. }
  unfold finish. rewrite mapM_some, Hr, bool_decide_true by done. cbn [negb].
  rewrite after_render_empty by done. done.
Qed.
End page.

(** ** Concrete runs *)

Module Runs.
#[local] Instance host : DateHost := {| date_parse _ := None; full_year _ := 2024%Z; to_locale_string _ _ := [] |}.
Definition first_of (l : list jsstr) : jsstr := default [] (head l).
Definition clock : Z := 1700000000000%Z.
Definition start (range : option jsstr) : state :=
  default (State [] None [] [] false None no_data 0 [] 0 None 0) (initial (js "p") range clock).
Abbreviation legal_ := (legal (λ _, (2024, 1, 1, 0, 0)%Z) (λ _, []) (λ _, []) (λ _, [])).

(** The server refuses the request that waits first. *)
Definition refuse (c : outcome state) : outcome state :=
  match c with
  | (s, Fetch T q resume :: qs) => let d := resume (Answer 500 (Ok []) (Err [])) s in (d.1, d.2 ++ qs)
  | c => c
  end.

Lemma refuse_steps n s o :
  legal_ o s → reachable legal_ (handle first_of) s (Nat.iter n refuse (handle first_of o s)).
Proof.
  intros Hl. induction n as [|n IH].
  - eapply rtc_l; [exact (step_event legal_ (handle first_of) o s [] Hl)|]. simpl. by destruct (handle first_of o s).
  - rewrite Nat.iter_succ. destruct (Nat.iter n refuse _) as [s' [|[T q resume] qs]]; [done|].
    eapply rtc_r; [exact IH|]. exact (step_answer legal_ (handle first_of) s' [] qs T q resume (Answer 500 (Ok []) (Err []))).
Qed.

Definition refused : outcome state := Nat.iter 10 refuse (handle first_of (Mounted clock) (start None)).

Lemma latest_shown_witness :
  reachable legal_ (handle first_of) (start None) refused ∧ loading refused.1 = false ∧ requestSeq refused.1 = 1
  ∧ requests (get_batch 0 refused.1) = queries (js "p") (from refused.1) (to refused.1)
  ∧ ∃ rs, responses (get_batch 0 refused.1) = Some <$> rs.
Proof.
  assert (reachable legal_ (handle first_of) (start None) refused) as Hr by by apply refuse_steps.
  assert (requestSeq refused.1 ≠ 0) as Hs by (vm_compute; congruence).
  assert (initial (js "p") None clock = Some (start None)) as Hi by (vm_compute; reflexivity).
  destruct (latest_shown first_of _ _ _ _ (js "p") None clock _ _ Hi Hr Hs) as [H1 H2].
  split; [exact Hr|]. split; [vm_compute; reflexivity|]. split; [vm_compute; reflexivity|].
  assert (loading refused.1 = false) as Hl by (vm_compute; reflexivity).
  assert (pred (requestSeq refused.1) = 0) as Hp by (vm_compute; reflexivity).
  assert (activeProject refused.1 = js "p") as Ha by (vm_compute; reflexivity).
  assert (rejected (get_batch 0 refused.1) = false) as Hj by (vm_compute; reflexivity).
  rewrite Hl, Hp, Ha in *. split; [exact H1|]. destruct H2 as [H2|(rs & _ & H2 & _)]; [congruence|by exists rs].
Defined.

Lemma mount_doubles_load_witness :
  length (handle first_of (Mounted (clock + 5)) (start (Some (js "1h")))).2 = 6
  ∧ request_of <$> (handle first_of (Mounted (clock + 5)) (start (Some (js "1h")))).2
    = post <$> take 3 (queries (js "p") (js "2023-11-14T21:13:20.000Z") (js "2023-11-14T22:13:20.000Z"))
               ++ take 3 (queries (js "p") (js "2023-11-14T21:13:20.005Z") (js "2023-11-14T22:13:20.005Z")).
Proof.
  assert (request_of <$> (handle first_of (Mounted (clock + 5)) (start (Some (js "1h")))).2
    = post <$> take 3 (queries (js "p") (js "2023-11-14T21:13:20.000Z") (js "2023-11-14T22:13:20.000Z"))
               ++ take 3 (queries (js "p") (js "2023-11-14T21:13:20.005Z") (js "2023-11-14T22:13:20.005Z"))) as E.
  { apply (mount_doubles_load first_of (js "p") (Some (js "1h")) clock); [vm_compute; reflexivity..|]. vm_compute. congruence. }
  split; [|exact E]. apply (f_equal length) in E. rewrite length_fmap in E. exact E.
Defined.

Lemma refused_answers_look_empty_witness :
  error (finish first_of 0 (Ok (Some <$> replicate 10 (500%Z, Err []))) (start None)).1 = None
  ∧ data (finish first_of 0 (Ok (Some <$> replicate 10 (500%Z, Err []))) (start None)).1 = no_data <| kpiData := Some (kpi_of [] []) |>.
Proof.
  assert (requestSeq (start None) = 0) as Hs by (vm_compute; reflexivity).
  destruct (refused_answers_look_empty first_of (start None) (replicate 10 (500%Z, Err []))) as (_ & H2 & H3).
  - reflexivity.
  - by apply Forall_replicate.
  - rewrite Hs in *. split; [by rewrite H2|exact H3].
Defined.
End Runs.
