(* ===== verification/Shell.v ===== *)
(** The frame around every page: the header with its two dropdowns, the sidebar and
    the layout that collapses it (ui/src/components/Header.tsx, Sidebar.tsx,
    Layout.tsx). *)
From S2P Require Import Prelude.
From S2P Require Import JsString.
From S2P Require Import Ui.
Local Open Scope Z_scope.

Record Project : Type := { project_id : jsstr; name : jsstr; org_id : jsstr }.

#[export] Instance Project_eq_dec : EqDecision Project.
Proof. solve_decision. Defined.

(** ** The header *)

Module Header.

Record option_ : Type := Option { label : jsstr; value : jsstr }.

Definition TIME_RANGES : list option_ :=
  [Option (js "Past 1 hour") (js "1h"); Option (js "Past 6 hours") (js "6h");
   Option (js "Past 24 hours") (js "1d"); Option (js "Past 7 days") (js "7d");
   Option (js "Past 30 days") (js "30d"); Option (js "Custom...") (js "custom")].

(** What a dropdown's elements do: open or close the menu, or pick an option. *)
Inductive dropdown_action : Type :=
| Toggle
| Close
| Pick (v : jsstr).

Definition Dropdown (is_open : bool) (label_ value_ : jsstr) (options : list option_) : view dropdown_action :=
  let selected := array_find (λ o, bool_decide (value o = value_)) options in
  El "div" []
    ([El "button" [On "click" Toggle]
        [El "span" [] [Text label_];
         El "span" [] [Text (match selected with Some o => label o | None => value_ end)];
         El "svg" [] []]]
     ++ if is_open then
          [El "div" [On "click" Close] [];
           El "div" [] ((λ o, El "button" [On "click" (Pick (value o))] [Text (label o)]) <$> options)]
        else []).

Definition dropdown_step (a : dropdown_action) (is_open : bool) : bool :=
  match a with Toggle => negb is_open | Close | Pick _ => false end.

Inductive action : Type :=
| NewProject
| ProjectMenu (a : dropdown_action)
| RangeMenu (a : dropdown_action).

Record menus : Type := Menus { project_open : bool; range_open : bool }.

Definition project_options (projects : list Project) : list option_ :=
  if bool_decide (projects = []) then [Option (js "No projects yet") []]
  else (λ p, Option (name p) (project_id p)) <$> projects.

Definition render (m : menus) (activeProject : jsstr) (projects : list Project) (timeRange : jsstr) : view action :=
  El "header" []
    [El "div" []
      [El "button" [On "click" NewProject; Attr "title" (js "New project")] [El "svg" [] []];
       map_view ProjectMenu (Dropdown (project_open m) (js "Project") activeProject (project_options projects));
       map_view RangeMenu (Dropdown (range_open m) (js "Time Range") timeRange TIME_RANGES)]].
End Header.

(** ** The sidebar *)

Module Sidebar.

Inductive NavSection : Type := home | traces | dashboards | prompts | eval | settings.

Record NavItem : Type := Nav { id : jsstr; label : jsstr; section : NavSection }.

Definition NAV_SECTIONS : list (jsstr * list NavItem) :=
  [(js "", [Nav (js "dashboard") (js "Dashboard") home; Nav (js "traces") (js "Traces") traces;
            Nav (js "conversations") (js "Conversations") traces]);
   (js "Prompts", [Nav (js "prompts") (js "Prompts") prompts]);
   (js "Evaluation", [Nav (js "datasets") (js "Datasets") eval; Nav (js "eval-rules") (js "Eval Rules") eval])].

Definition BOTTOM_ITEMS : list NavItem :=
  [Nav (js "settings") (js "Settings") settings; Nav (js "admin") (js "Admin") settings].

Definition all_items : list NavItem := (NAV_SECTIONS ≫= snd) ++ BOTTOM_ITEMS.

Inductive action : Type :=
| Navigate (id : jsstr)
| ToggleSection (label : jsstr)
| ToggleSidebar
| Logout.

(** The sections that are open: those without a label at first. *)
Definition default_open : list jsstr := (filter (λ l, truthy l = false) NAV_SECTIONS.*1).

Definition toggle_section (l : jsstr) (open : list jsstr) : list jsstr :=
  if bool_decide (l ∈ open) then filter (.≠ l) open else l :: open.

Definition NavItemButton (active : jsstr) (item : NavItem) : view action :=
  let isActive := bool_decide (active = id item) in
  El "button" [On "click" (Navigate (id item))]
    (when isActive (El "span" [] []) ++ [El "span" [] [El "svg" [] []]; El "span" [] [Text (label item)]]).

Definition SectionAccordion (collapsed : bool) (open : list jsstr) (active : jsstr)
    (s : jsstr * list NavItem) : view action :=
  let '(label_, items) := s in
  if collapsed then
    El "div" []
      ((λ item, El "button" [On "click" (Navigate (id item)); Attr "title" (label item); Attr "aria-label" (label item)]
                  [El "svg" [] []]) <$> items)
  else
    El "div" []
      ((if truthy label_ then
          [El "button" [On "click" (ToggleSection label_)] [El "svg" [] []; Text (to_upper label_)];
           El "div" [] []]
        else [])
       ++ when (bool_decide (label_ ∈ open)) (El "div" [] (NavItemButton active <$> items))).

Definition icon_button (title : jsstr) (a : option action) : view action :=
  El "button" (match a with Some a => [On "click" a] | None => [Flag "disabled" true] end
               ++ [Attr "title" title; Attr "aria-label" title]) [El "svg" [] []].

(** [onLogout] is optional: without it, the collapsed button is disabled and the other
    one does nothing. *)
Definition render (collapsed : bool) (open : list jsstr) (active : jsstr) (onLogout : bool) : view action :=
  let logout := if onLogout then Some Logout else None in
  El "aside" []
    ([El "div" []
        ([El "div" [] (El "span" [] [El "svg" [] []]
                       :: when (negb collapsed) (El "span" [] [txt "omneval"]))]
         ++ when (negb collapsed) (icon_button (js "Collapse sidebar") (Some ToggleSidebar))
         ++ when collapsed (icon_button (js "Expand sidebar") (Some ToggleSidebar)));
      El "nav" [] (SectionAccordion collapsed open active <$> NAV_SECTIONS)]
     ++ when (negb collapsed) (El "div" [] (NavItemButton active <$> BOTTOM_ITEMS))
     ++ (if collapsed then
           [El "div" [] [];
            El "div" []
              [icon_button (js "Settings") (Some (Navigate (js "settings")));
               icon_button (js "Admin") (Some (Navigate (js "admin")));
               icon_button (js "Logout") logout]]
         else [])
     ++ when (negb collapsed)
          (El "div" []
             [El "button" (match logout with Some a => [On "click" a] | None => [] end ++ [Attr "title" (js "Logout")])
                [El "svg" [] []; El "span" [] [txt "Logout"]]])).
End Sidebar.

(** ** The layout *)

Module Layout.

Definition NARROW : Z := 1024.

(** The resize listener, which reads the [collapsed] of the last render. *)
Definition on_resize (innerWidth : Z) (collapsed : bool) : bool :=
  if (innerWidth <? NARROW) && negb collapsed then true else collapsed.

(** The effect, run on mount and after every render that changed [collapsed]. *)
Definition effect (innerWidth : Z) (collapsed : bool) : bool :=
  if innerWidth <? NARROW then true else collapsed.

(** [setCollapsed(!collapsed)], with the effect that follows the change. *)
Definition toggle (innerWidth : Z) (collapsed : bool) : bool := effect innerWidth (negb collapsed).

Definition mount (innerWidth : Z) : bool := effect innerWidth false.

Definition render {A} (sidebar : view A) (children : view A) : view A :=
  El "div" [] [sidebar; El "main" [] [children]].
End Layout.

(** ** Properties *)

Lemma actions_button active item : actions (Sidebar.NavItemButton active item) = [Sidebar.Navigate (Sidebar.id item)].
Proof. unfold Sidebar.NavItemButton. by destruct (bool_decide _). Qed.

Lemma bind_buttons active items :
  (Sidebar.NavItemButton active <$> items) ≫= actions = Sidebar.Navigate ∘ Sidebar.id <$> items.
Proof. induction items as [|i l IH]; [done|]. by rewrite fmap_cons, bind_cons, actions_button, IH. Qed.

Lemma actions_section collapsed open active label_ items :
  actions (Sidebar.SectionAccordion collapsed open active (label_, items))
  = if collapsed then Sidebar.Navigate ∘ Sidebar.id <$> items
    else (if truthy label_ then [Sidebar.ToggleSection label_] else [])
         ++ (if bool_decide (label_ ∈ open) then Sidebar.Navigate ∘ Sidebar.id <$> items else []).
Proof.
  destruct collapsed; simpl.
  - induction items as [|i l IH]; [done|]. rewrite !fmap_cons, bind_cons, IH. done.
  - rewrite bind_app. f_equal; [by destruct (truthy label_)|].
    unfold when. case_bool_decide; simpl; [|done]. by rewrite bind_buttons, app_nil_r.
Qed.

(** Everything the sidebar offers. *)
Lemma actions_sidebar collapsed open active :
  actions (Sidebar.render collapsed open active true)
  = [Sidebar.ToggleSidebar]
    ++ (Sidebar.NAV_SECTIONS ≫= λ s, actions (Sidebar.SectionAccordion collapsed open active s))
    ++ (Sidebar.Navigate ∘ Sidebar.id <$> Sidebar.BOTTOM_ITEMS) ++ [Sidebar.Logout].
Proof.
  unfold Sidebar.render. destruct collapsed.
  - simpl. by rewrite ?app_nil_r.
  - cbn [actions when negb mbind list_bind app]. rewrite ?app_nil_r.
    by rewrite (bind_buttons active Sidebar.BOTTOM_ITEMS).
Qed.

Lemma offers_section collapsed open active label_ items a :
  (label_, items) ∈ Sidebar.NAV_SECTIONS →
  a ∈ actions (Sidebar.SectionAccordion collapsed open active (label_, items)) →
  offers (Sidebar.render collapsed open active true) a.
Proof.
  intros Hs Ha. left. rewrite actions_sidebar, !elem_of_app. right. left.
  apply list_elem_of_bind. eauto.
Qed.

(** Navigation from the sidebar: in every state of the accordions, each of the
    eight sections can be reached, at once when the sidebar is collapsed, when its
    accordion is open, or when it is one of the two bottom items, and otherwise
    after opening its accordion; the logout is always offered.  (The section without
    a title is open from the start and has no button that closes it.) *)
Theorem sidebar_reaches_all collapsed open active item :
  item ∈ Sidebar.all_items → [] ∈ open →
  let v := Sidebar.render collapsed open active true in
  offers v Sidebar.Logout
  ∧ (offers v (Sidebar.Navigate (Sidebar.id item))
     ∨ collapsed = false ∧ ∃ l, offers v (Sidebar.ToggleSection l)
         ∧ offers (Sidebar.render false (Sidebar.toggle_section l open) active true) (Sidebar.Navigate (Sidebar.id item))).
Proof.
  intros Hi H0. split.
  { left. rewrite actions_sidebar, !elem_of_app. do 3 right. left. }
  unfold Sidebar.all_items in Hi. apply elem_of_app in Hi as [Hi|Hi].
  2: { left. left. rewrite actions_sidebar, !elem_of_app. do 2 right. left. by apply (list_elem_of_fmap_2 (Sidebar.Navigate ∘ Sidebar.id)). }
  apply list_elem_of_bind in Hi as ([label_ items] & Hi & Hs). simpl in Hi.
  apply (list_elem_of_fmap_2 (Sidebar.Navigate ∘ Sidebar.id)) in Hi.
  destruct collapsed.
  { left. eapply offers_section; [exact Hs|]. by rewrite actions_section. }
  destruct (decide (label_ ∈ open)) as [Ho|Ho].
  { left. eapply offers_section; [exact Hs|]. rewrite actions_section, bool_decide_true by done. apply elem_of_app. by right. }
  right. split; [done|]. exists label_. assert (truthy label_ = true) as Ht.
  { apply truthy_spec. by intros ->. }
  split.
  - eapply offers_section; [exact Hs|]. rewrite actions_section, Ht. left.
  - eapply offers_section; [exact Hs|]. unfold Sidebar.toggle_section.
    rewrite bool_decide_false by done. rewrite actions_section, bool_decide_true by left. apply elem_of_app. by right.
Qed.

Lemma sidebar_reaches_all_witness :
  offers (Sidebar.render true [[]] [] true) Sidebar.Logout.
Proof.
  apply (sidebar_reaches_all true [[]] [] (Sidebar.Nav (js "admin") (js "Admin") Sidebar.settings));
    vm_compute; repeat first [by left | right].
Defined.

(** On a viewport narrower than 1024 pixels the sidebar cannot be expanded: the
    effect that runs after the toggle collapses it again, so the button does nothing. *)
Theorem narrow_sidebar_stays_collapsed innerWidth collapsed :
  innerWidth < Layout.NARROW →
  Layout.mount innerWidth = true ∧ Layout.toggle innerWidth collapsed = true
  ∧ Layout.on_resize innerWidth collapsed = true.
Proof.
  intros H. unfold Layout.mount, Layout.toggle, Layout.effect, Layout.on_resize.
  rewrite (proj2 (Z.ltb_lt _ _) H). by destruct collapsed.
Qed.

Lemma narrow_sidebar_stays_collapsed_witness : Layout.toggle 800 true = true.
Proof. apply narrow_sidebar_stays_collapsed. reflexivity. Defined.
