(* ===== verification/App.v ===== *)
(** The application: session, routing, projects and overlays (ui/src/App.tsx), with
    the login page (ui/src/pages/Login.tsx) and the frame of Shell.v.

    The state holds what [App] keeps with [useState], the state of the login page and
    of the frame, which are dropped when they leave the screen, and the browser: the
    path with its history, the viewport and the local storage.  The pages themselves
    are other components; here they are the callbacks they are given. *)
From S2P Require Import Prelude.
From S2P Require Import JsString.
From S2P Require Import JsJson.
From S2P Require Import Ui.
From S2P Require Import Shell.
Local Open Scope Z_scope.

(** The pages; [Foreign] stands for a value that is no page name, which shows none. *)
Inductive Page : Type :=
| Login | Traces | ConversationDetail | Conversations | Dashboard | Prompts
| Datasets | DatasetDetail | Settings | EvalRules | Admin
| Foreign.

#[export] Instance Page_eq_dec : EqDecision Page.
Proof. solve_decision. Defined.

Definition ACTIVE_PROJECT_KEY : jsstr := js "omneval_active_project".

Definition NAV_MAP : list (jsstr * Page) :=
  [(js "dashboard", Dashboard); (js "traces", Traces); (js "conversations", Conversations);
   (js "prompts", Prompts); (js "datasets", Datasets); (js "dataset-detail", DatasetDetail);
   (js "settings", Settings); (js "eval-rules", EvalRules); (js "admin", Admin)].

Definition PAGE_TO_PATH (p : Page) : jsstr :=
  match p with
  | Login | Dashboard => js ""
  | Traces | ConversationDetail => js "traces"
  | Conversations => js "conversations"
  | Prompts => js "prompts"
  | Datasets | DatasetDetail => js "datasets"
  | Settings => js "settings"
  | EvalRules => js "eval-rules"
  | Admin => js "admin"
  | Foreign => js ""
  end.

(** [pathname.replace(/^\//, "").split("/")]. *)
Definition segments (pathname : jsstr) : list jsstr :=
  str_split c_slash (match pathname with c :: r => if (c =? c_slash)%N then r else pathname | [] => [] end).

Definition pageFromPathname (pathname : jsstr) : Page :=
  match object_get (default [] (head (segments pathname))) NAV_MAP with
  | Own p => p
  | Inherited => Foreign
  | Absent => Dashboard
  end.

Definition extractTraceIdFromPathname (pathname : jsstr) : option jsstr :=
  match segments pathname with
  | first :: tracePart :: _ =>
    if bool_decide (first = js "traces") && truthy tracePart then Some tracePart else None
  | _ => None
  end.

(** ** State *)

(** The login page. *)
Record form : Type := Form { email : jsstr; password : jsstr; error : jsstr; loading : bool }.
#[export] Instance form_eta : Eta form := λ s, Form (email s) (password s) (error s) (loading s).

Definition empty_form : form := Form [] [] [] false.

(** The frame of the authenticated screens. *)
Record frame : Type := Frame { menus : Header.menus; collapsed : bool; sections : list jsstr }.
#[export] Instance frame_eta : Eta frame := λ s, Frame (menus s) (collapsed s) (sections s).

(** [storage] is [None] when the local storage throws. *)
Record browser : Type := Browser {
  path : jsstr;
  back : list jsstr;
  forward : list jsstr;
  innerWidth : Z;
  storage : option (option jsstr)
}.
#[export] Instance browser_eta : Eta browser :=
  λ s, Browser (path s) (back s) (forward s) (innerWidth s) (storage s).

(** [mounts] counts the times the login page came on the screen: an answer to a login
    reports to the page that sent it, if that is still there.  [granted] and
    [deep_links] note, for the theorems, whether a session request has been answered
    with a success, and whether a [popstate] led to a trace. *)
Record state : Type := State {
  page : Page;
  projects : list Project;
  activeProject : jsstr;
  activeDatasetId : jsstr;
  activeConversationId : jsstr;
  conversationDetailReturnTo : Page;
  timeRange : jsstr;
  showNewProject : bool;
  traceOverlay : option jsstr;
  hasPerformedInitialSessionCheck : bool;
  login_form : form;
  mounts : nat;
  the_frame : frame;
  the_browser : browser;
  granted : bool;
  deep_links : bool
}.
#[export] Instance state_eta : Eta state := λ s,
  State (page s) (projects s) (activeProject s) (activeDatasetId s) (activeConversationId s)
    (conversationDetailReturnTo s) (timeRange s) (showNewProject s) (traceOverlay s)
    (hasPerformedInitialSessionCheck s) (login_form s) (mounts s) (the_frame s) (the_browser s)
    (granted s) (deep_links s).

Definition location (s : state) : jsstr := path (the_browser s).

(** The first render, on the page the browser has loaded. *)
Definition initial (b : browser) : state :=
  State Login [] [] [] [] Conversations (js "1d") false None false empty_form 0
    (Frame (Header.Menus false false) false Sidebar.default_open) b false false.

(** [setPage]: leaving or entering the login page drops the state of the components
    that leave the screen. *)
Definition setPage (p : Page) (s : state) : state :=
  let s' := s <| page := p |> in
  if bool_decide (page s = p) then s'
  else if bool_decide (p = Login) then s' <| login_form := empty_form |> <| mounts ::= S |>
  else if bool_decide (page s = Login) then
    s' <| the_frame := Frame (Header.Menus false false) (Layout.mount (innerWidth (the_browser s))) Sidebar.default_open |>
  else s'.

Definition persistActiveProject (projectId : jsstr) (s : state) : state :=
  s <| the_browser ::= λ b, b <| storage ::= fmap (λ _, Some projectId) |> |>.

Definition resolveActiveProject (defaultProjectId : jsstr) (availableProjects : list Project) (s : state) : jsstr :=
  match availableProjects with
  | [] => []
  | first :: _ =>
    let available id := existsb (λ p, bool_decide (project_id p = id)) availableProjects in
    let stored := default None (storage (the_browser s)) in
    if truthy_opt stored && available (default [] stored) then default [] stored
    else if available defaultProjectId then defaultProjectId
    else project_id first
  end.

(** [setProjects(ps)] and the three lines that follow it wherever projects arrive. *)
Definition useProjects (ps : list Project) (s : state) : state :=
  let s := s <| projects := ps |> in
  let resolved := resolveActiveProject (match ps with p :: _ => project_id p | [] => [] end) ps s in
  persistActiveProject resolved (s <| activeProject := resolved |>).

(** ** Requests *)

Definition projects_answer (a : answer (option (list Project))) (s : state) : outcome state :=
  match ok_body a with
  | Some (Some data) => now (useProjects data s)
  | _ => now s
  end.

Definition fetchProjects (s : state) : outcome state :=
  (s, [Fetch (option (list Project)) (get_request (js "/api/v1/projects")) projects_answer]).

(** The body of [/api/v1/me] has an array of projects or not. *)
Definition session_projects (ps : option (list (jsstr * jsstr))) (s : state) : outcome state :=
  match ps with
  | Some (x :: r) =>
    now (useProjects ((λ '(i, n), {| project_id := i; name := n; org_id := [] |}) <$> x :: r) s)
  | _ => fetchProjects s
  end.

Definition enter_page (s : state) : state :=
  match extractTraceIdFromPathname (location s) with
  | Some traceId => setPage Traces s <| traceOverlay := Some traceId |>
  | None => setPage (pageFromPathname (location s)) s
  end.

Definition session_answer (a : answer (option (list (jsstr * jsstr)))) (s : state) : outcome state :=
  match ok_body a with
  | Some ps =>
    let '(s, p) := session_projects ps (s <| granted := true |>) in (enter_page s, p)
  | None => now s
  end.

(** The effect on mount. *)
Definition checkSession (s : state) : outcome state :=
  if hasPerformedInitialSessionCheck s then now s else
  (s <| hasPerformedInitialSessionCheck := true |>,
   [Fetch (option (list (jsstr * jsstr))) (get_request (js "/api/v1/me")) session_answer]).

Definition login_request (email_ password_ : jsstr) : request :=
  Request (js "POST") (js "/login")
    (Some (stringify (JObj [(js "email", JStr email_); (js "password", JStr password_)]))).

(** What the login page does with its own state, if it is still on the screen. *)
Definition on_login_page (mount : nat) (f : form → form) (s : state) : state :=
  if bool_decide (page s = Login) && bool_decide (mounts s = mount) then s <| login_form ::= f |> else s.

(** [handleLogin] of the application, and what [handleSubmit] of the login page makes
    of its result or exception. *)
Definition login_answer (mount : nat) (a : answer unit) (s : state) : outcome state :=
  let report message := now (on_login_page mount (λ f, f <| error := message |> <| loading := false |>) s) in
  match a with
  | NoAnswer _ => report (js "Login failed. Please try again.")
  | Answer status _ body =>
    if ok_status status then
      match body with
      | Ok _ =>
        let '(s, p) := fetchProjects (s <| granted := true |>) in
        (on_login_page mount (λ f, f <| loading := false |>) (setPage Dashboard s), p)
      | Err _ => report (js "Login failed. Please try again.")
      end
    else report (js "Invalid email or password")
  end.

Definition handleSubmit (s : state) : outcome state :=
  (s <| login_form ::= λ f, f <| error := [] |> <| loading := true |> |>,
   [Fetch unit (login_request (email (login_form s)) (password (login_form s))) (login_answer (mounts s))]).

Definition logout_answer (a : answer unit) (s : state) : outcome state :=
  match a with
  | NoAnswer _ => now s
  | Answer _ _ _ =>
    let s := s <| the_browser ::= λ b, b <| storage ::= fmap (λ _, None) |> |> in
    now (setPage Login (s <| projects := [] |> <| activeProject := [] |> <| timeRange := js "1d" |>))
  end.

Definition handleLogout (s : state) : outcome state :=
  (s, [Fetch unit (Request (js "POST") (js "/logout") None) logout_answer]).

(** ** Navigation *)

Definition pushState (newPath : jsstr) (b : browser) : browser :=
  b <| back ::= cons (path b) |> <| forward := [] |> <| path := newPath |>.

Definition handleNavigate (id : jsstr) (s : state) : state :=
  match object_get id NAV_MAP with
  | Own route =>
    let pathSegment := PAGE_TO_PATH route in
    setPage route s <| the_browser ::= pushState (if truthy pathSegment then js "/" ++ pathSegment else js "/") |>
  | Inherited => setPage Foreign s <| the_browser ::= pushState (js "/") |>
  | Absent => s
  end.

Definition onPopState (s : state) : state :=
  match extractTraceIdFromPathname (location s) with
  | Some traceId => setPage Traces (s <| deep_links := true |>) <| traceOverlay := Some traceId |>
  | None => if bool_decide (page s = Login) then s else setPage (pageFromPathname (location s)) s
  end.

(** The back and forward buttons, where the history has somewhere to go. *)
Definition goBack (s : state) : state :=
  match back (the_browser s) with
  | p :: r => onPopState (s <| the_browser ::= λ b, b <| back := r |> <| forward ::= cons (path b) |> <| path := p |> |>)
  | [] => s
  end.
Definition goForward (s : state) : state :=
  match forward (the_browser s) with
  | p :: r => onPopState (s <| the_browser ::= λ b, b <| forward := r |> <| back ::= cons (path b) |> <| path := p |> |>)
  | [] => s
  end.

(** ** Events *)

Inductive login_action : Type := EditEmail (t : jsstr) | EditPassword (t : jsstr) | Submit.

Inductive op : Type :=
| Mounted | Back | Forward | Resize (width : Z)
| InLogin (a : login_action)
| InHeader (a : Header.action)
| InSidebar (a : Sidebar.action)
| CloseNewProject | ProjectCreated (p : Project)
| OpenTrace (traceId : jsstr) | CloseTrace
| OpenConversation (conversationId : jsstr) | LeaveConversation
| OpenDataset (datasetId : jsstr) | LeaveDataset.

Definition handle_header (a : Header.action) (s : state) : state :=
  let in_menus f s := s <| the_frame ::= λ fr, fr <| menus ::= f |> |> in
  match a with
  | Header.NewProject => s <| showNewProject := true |>
  | Header.ProjectMenu d =>
    let s := in_menus (λ m, Header.Menus (Header.dropdown_step d (Header.project_open m)) (Header.range_open m)) s in
    match d with
    | Header.Pick p => persistActiveProject p (s <| activeProject := p |>)
    | _ => s
    end
  | Header.RangeMenu d =>
    let s := in_menus (λ m, Header.Menus (Header.project_open m) (Header.dropdown_step d (Header.range_open m))) s in
    match d with Header.Pick r => s <| timeRange := r |> | _ => s end
  end.

Definition handle_sidebar (a : Sidebar.action) (s : state) : outcome state :=
  match a with
  | Sidebar.Navigate id => now (handleNavigate id s)
  | Sidebar.ToggleSection l => now (s <| the_frame ::= λ fr, fr <| sections ::= Sidebar.toggle_section l |> |>)
  | Sidebar.ToggleSidebar =>
    now (s <| the_frame ::= λ fr, fr <| collapsed ::= Layout.toggle (innerWidth (the_browser s)) |> |>)
  | Sidebar.Logout => handleLogout s
  end.

Definition handle (o : op) (s : state) : outcome state :=
  match o with
  | Mounted => checkSession s
  | Back => now (goBack s)
  | Forward => now (goForward s)
  | Resize w =>
    let s := s <| the_browser ::= λ b, b <| innerWidth := w |> |> in
    now (if bool_decide (page s = Login) then s
         else s <| the_frame ::= λ fr, fr <| collapsed ::= Layout.on_resize w |> |>)
  | InLogin (EditEmail t) => now (s <| login_form ::= λ f, f <| email := t |> |>)
  | InLogin (EditPassword t) => now (s <| login_form ::= λ f, f <| password := t |> |>)
  | InLogin Submit => handleSubmit s
  | InHeader a => now (handle_header a s)
  | InSidebar a => handle_sidebar a s
  | CloseNewProject => now (s <| showNewProject := false |>)
  | ProjectCreated p => now (s <| projects ::= λ prev, prev ++ [p] |>)
  | OpenTrace traceId => now (s <| traceOverlay := Some traceId |>)
  | CloseTrace => now (s <| traceOverlay := None |>)
  | OpenConversation c =>
    now (setPage ConversationDetail (s <| activeConversationId := c |> <| conversationDetailReturnTo := Conversations |>))
  | LeaveConversation => now (setPage (conversationDetailReturnTo s) s)
  | OpenDataset d => now (setPage DatasetDetail (s <| activeDatasetId := d |>))
  | LeaveDataset => now (setPage Datasets s)
  end.

(** ** Views *)

Definition render_login (f : form) : view login_action :=
  El "div" []
    [El "svg" [] [];
     El "div" [] [El "h1" [] [txt "Sign in to "; El "span" [] [txt "omneval"]];
                  El "p" [] [txt "Omni-coverage LLM evaluation & tracing"; El "br" [] [];
                             El "span" [] [txt "Precision-focused · Self-hostable · Privacy-first"]]];
     El "form" []
       (when (truthy (error f)) (El "div" [Attr "role" (js "alert")] [El "svg" [] []; Text (error f)])
        ++ [El "div" [] [El "label" [] [txt "Email"];
                         El "input" [Attr "id" (js "email"); Attr "value" (email f); OnValue "change" EditEmail] []];
            El "div" [] [El "label" [] [txt "Password"];
                         El "input" [Attr "id" (js "password"); Attr "value" (password f); OnValue "change" EditPassword] []];
            El "button" [Flag "disabled" (loading f); On "submit" Submit]
              (if loading f then [El "span" [] [El "svg" [] []; txt "Authenticating..."]] else [txt "Sign in"])]);
     El "div" [] [El "span" [] [txt "omneval"]]].

(** The pages that can be given a callback, with what it can lead to. *)
Definition opens (key : string) : attribute op := Callback key (λ o, ∃ t, o = OpenTrace t).

Definition shown (s : state) (p : Page) (tag : string) (ps : list (attribute op)) : list (view op) :=
  when (bool_decide (page s = p)) (El tag (Attr "activeProject" (activeProject s) :: ps) []).

(** The id the sidebar highlights. *)
Definition activeNav (p : Page) : jsstr :=
  match p with
  | ConversationDetail => js "traces"
  | Login => js "login" | Traces => js "traces" | Conversations => js "conversations"
  | Dashboard => js "dashboard" | Prompts => js "prompts" | Datasets => js "datasets"
  | DatasetDetail => js "dataset-detail" | Settings => js "settings" | EvalRules => js "eval-rules"
  | Admin => js "admin" | Foreign => []
  end.

Definition render_main (s : state) : view op :=
  El "div" []
    (when (showNewProject s)
       (El "NewProjectModal" [On "close" CloseNewProject; Callback "created" (λ o, ∃ p, o = ProjectCreated p)] [])
     ++ shown s Dashboard "DashboardPage" [Attr "timeRange" (timeRange s)]
     ++ shown s Traces "TracesPage"
          [Attr "timeRange" (timeRange s); opens "openTraceOverlay"; Attr "activeOverlayTraceId" (default [] (traceOverlay s))]
     ++ (if truthy_opt (traceOverlay s) then
           [El "SlideInTraceDetail"
              [Attr "traceId" (default [] (traceOverlay s)); Attr "activeProject" (activeProject s); On "close" CloseTrace] []]
         else [])
     ++ shown s Conversations "ConversationsPage" [Callback "navigateToConversation" (λ o, ∃ c, o = OpenConversation c)]
     ++ (if truthy (activeConversationId s) then
           shown s ConversationDetail "ConversationDetailPage"
             [Attr "conversationId" (activeConversationId s); On "back" LeaveConversation; opens "navigateToTrace";
              opens "navigateToTraceDetail"] else [])
     ++ shown s Prompts "PromptsPage" []
     ++ shown s Datasets "DatasetsPage" [Callback "navigateToDetail" (λ o, ∃ d, o = OpenDataset d)]
     ++ (if truthy (activeDatasetId s) then
           shown s DatasetDetail "DatasetDetailPage" [Attr "datasetId" (activeDatasetId s); On "back" LeaveDataset]
         else [])
     ++ shown s Settings "SettingsPage" []
     ++ shown s EvalRules "EvalRulesPage" []
     ++ shown s Admin "AdminPage" []).

Definition render (s : state) : view op :=
  if bool_decide (page s = Login) then map_view InLogin (render_login (login_form s)) else
  let fr := the_frame s in
  El "ErrorBoundary" []
    [El "div" []
       [map_view InHeader (Header.render (menus fr) (activeProject s) (projects s) (timeRange s));
        Layout.render
          (map_view InSidebar (Sidebar.render (collapsed fr) (sections fr) (activeNav (page s)) true))
          (El "ToastProvider" [] [render_main s])]].

(** What can happen: the browser's events, and what the screen offers. *)
Definition legal (o : op) (s : state) : Prop :=
  match o with
  | Mounted | Back | Forward | Resize _ => True
  | _ => offers (render s) o
  end.

Definition app_reachable (b : browser) := reachable legal handle (initial b).

(** ** The session guard *)

Lemma login_offers s o : page s = Login → offers (render s) o → ∃ a, o = InLogin a.
Proof.
  intros Hp. unfold render. rewrite bool_decide_true by done.
  intros (a & -> & _)%offers_map_view. eauto.
Qed.

Section setPage.
Context (p : Page) (s : state).
Local Ltac by_cases := unfold setPage; by repeat case_bool_decide.
Lemma setPage_page : page (setPage p s) = p. Proof. by_cases. Qed.
Lemma setPage_projects : projects (setPage p s) = projects s. Proof. by_cases. Qed.
Lemma setPage_active : activeProject (setPage p s) = activeProject s. Proof. by_cases. Qed.
Lemma setPage_overlay : traceOverlay (setPage p s) = traceOverlay s. Proof. by_cases. Qed.
Lemma setPage_browser : the_browser (setPage p s) = the_browser s. Proof. by_cases. Qed.
Lemma setPage_granted : granted (setPage p s) = granted s. Proof. by_cases. Qed.
Lemma setPage_deep : deep_links (setPage p s) = deep_links s. Proof. by_cases. Qed.
End setPage.
Create HintDb app.
#[local] Hint Rewrite setPage_page setPage_projects setPage_active setPage_overlay setPage_browser
  setPage_granted setPage_deep : app.

Definition guarded (s : state) : Prop := page s = Login ∨ granted s = true ∨ deep_links s = true.

Lemma guarded_flags s s' :
  guarded s → (page s ≠ Login → granted s' = granted s ∧ deep_links s' = deep_links s) →
  (page s = Login → page s' = Login) → guarded s'.
Proof.
  unfold guarded. intros Hg Hf Hp. destruct (decide (page s = Login)) as [E|E].
  - left. auto.
  - destruct (Hf E) as [-> ->]. destruct Hg as [?|?]; [done|by right].
Qed.

Section on_login_page.
Context (n : nat) (f : form → form) (s : state).
Local Ltac by_cases := unfold on_login_page; by case_match.
Lemma on_login_page_page : page (on_login_page n f s) = page s. Proof. by_cases. Qed.
Lemma on_login_page_granted : granted (on_login_page n f s) = granted s. Proof. by_cases. Qed.
Lemma on_login_page_deep : deep_links (on_login_page n f s) = deep_links s. Proof. by_cases. Qed.
Lemma on_login_page_projects : projects (on_login_page n f s) = projects s. Proof. by_cases. Qed.
Lemma on_login_page_active : activeProject (on_login_page n f s) = activeProject s. Proof. by_cases. Qed.
End on_login_page.
#[local] Hint Rewrite on_login_page_page on_login_page_granted on_login_page_deep on_login_page_projects
  on_login_page_active : app.

Lemma legal_login o s : page s = Login → legal o s →
  (∃ a, o = InLogin a) ∨ o = Mounted ∨ o = Back ∨ o = Forward ∨ ∃ w, o = Resize w.
Proof.
  intros Hp Hl. destruct o; simpl in Hl; try (by eauto 10); left; by eapply login_offers.
Qed.

Section answers.
Context (I : state → Prop) (Iuse : ∀ ps s, I s → I (useProjects ps s)).

Lemma keeps_projects s : all_keep I (fetchProjects s).2.
Proof using Iuse.
  apply keeps_answers. intros a s' Hs'. unfold projects_answer.
  destruct (ok_body a) as [[ps|]|]; split; try done; try constructor. by apply Iuse.
Qed.

Lemma keeps_session :
  (∀ s, I s → I (enter_page (s <| granted := true |>))) →
  (∀ ps s, I s → I (enter_page (useProjects ps (s <| granted := true |>)))) →
  ∀ s, all_keep I (checkSession s).2.
Proof using Iuse.
  intros H1 H2 s. unfold checkSession. destruct (hasPerformedInitialSessionCheck s); [constructor|].
  apply keeps_answers. intros a s' Hs'. unfold session_answer, session_projects.
  destruct (ok_body a) as [[[|x r]|]|]; split; simpl;
    first [done | by apply H1 | by apply H2 | by apply (keeps_projects s') | constructor].
Qed.

Lemma keeps_login s :
  (∀ n f s, I s → I (on_login_page n f s)) →
  (∀ n f s, I s → I (on_login_page n f (setPage Dashboard (s <| granted := true |>)))) →
  all_keep I (handleSubmit s).2.
Proof using Iuse.
  intros H1 H2. apply keeps_answers. intros a s' Hs'. unfold login_answer.
  destruct a as [st tx [b|e]|m]; [destruct (ok_status st)..|]; split; simpl;
    first [done | by apply H1 | by apply H2 | by apply (keeps_projects s') | constructor].
Qed.

Lemma keeps_logout s :
  (∀ a s, I s → I (logout_answer a s).1) → all_keep I (handleLogout s).2.
Proof. intros H. apply keeps_answers. intros a s' Hs'. split; [auto|]. destruct a; constructor. Qed.
End answers.

Lemma popstate_page s : page s = Login → page (onPopState s) = Login ∨ deep_links (onPopState s) = true.
Proof.
  intros Hp. unfold onPopState. destruct (extractTraceIdFromPathname _).
  - right. simpl. by autorewrite with app.
  - left. by rewrite bool_decide_true.
Qed.

Lemma popstate_guarded s : guarded s → guarded (onPopState s).
Proof.
  intros Hg. destruct (decide (page s = Login)) as [E|E].
  - unfold guarded. destruct (popstate_page s E); tauto.
  - unfold guarded in *. unfold onPopState. destruct (extractTraceIdFromPathname _).
    + right. right. simpl. by autorewrite with app.
    + rewrite bool_decide_false by done. autorewrite with app. tauto.
Qed.

Lemma guarded_handlers : handlers_keep legal handle guarded.
Proof.
  intros o s Hl Hg. split.
  - destruct (decide (page s = Login)) as [E|E].
    + destruct (legal_login o s E Hl) as [[[t|t|] ->]|[->|[->|[->|[w ->]]]]]; try done; simpl.
      * unfold checkSession. by destruct (hasPerformedInitialSessionCheck s).
      * unfold goBack. destruct (back (the_browser s)); [done|]. by apply popstate_guarded.
      * unfold goForward. destruct (forward (the_browser s)); [done|]. by apply popstate_guarded.
      * rewrite bool_decide_true by done. done.
    + destruct Hg as [?|Hg]; [done|].
      assert (∀ s', granted s' = granted s → deep_links s' = deep_links s → guarded s') as Hsame
        by (intros s' E1 E2; right; by rewrite E1, E2).
      assert (∀ p s', granted s' = granted s → deep_links s' = deep_links s → guarded (setPage p s')) as Hset.
      { intros p s' E1 E2. apply Hsame; by autorewrite with app. }
      destruct o as [| | |w|[t|t|]|a|a| |p|t| |c| |d|]; simpl; try (by apply Hsame); try (by apply Hset).
      * unfold checkSession. destruct (hasPerformedInitialSessionCheck s); by apply Hsame.
      * unfold goBack. destruct (back (the_browser s)); [by apply Hsame|]. apply popstate_guarded. by apply Hsame.
      * unfold goForward. destruct (forward (the_browser s)); [by apply Hsame|]. apply popstate_guarded. by apply Hsame.
      * destruct (bool_decide _); by apply Hsame.
      * destruct a as [|[]|[]]; by apply Hsame.
      * destruct a as [id| | |]; simpl; try (by apply Hsame).
        unfold handleNavigate. destruct (object_get id NAV_MAP) as [r| |]; [..|by apply Hsame].
        -- apply Hsame; simpl; by autorewrite with app.
        -- apply Hsame; simpl; by autorewrite with app.
  - assert (∀ ps s, guarded s → guarded (useProjects ps s)) as Huse by done.
    assert (∀ s, granted s = true → guarded (enter_page s)) as Henter.
    { intros s' E. right. left. unfold enter_page. case_match; simpl; by autorewrite with app. }
    destruct o as [| | |w|[t|t|]|a|[id|l| |]| |p|t| |c| |d|]; simpl; try apply Forall_nil_2.
    + apply (keeps_session guarded); [done|..]; intros; by apply Henter.
    + apply (keeps_login guarded Huse s).
      * intros n f s' Hs'. unfold guarded. by rewrite !on_login_page_page, on_login_page_granted, on_login_page_deep.
      * intros n f s' Hs'. right. left. rewrite on_login_page_granted. by autorewrite with app.
    + apply (keeps_logout guarded s). intros [st tx b|m] s' Hs'; [|done]. left. apply setPage_page.
Qed.

(** ** The active project *)

Lemma dropdown_offers is_open label_ value_ options p :
  offers (Header.Dropdown is_open label_ value_ options) (Header.Pick p) → p ∈ Header.value <$> options.
Proof.
  unfold Header.Dropdown. cbv zeta. intros (c & Hc & Ho)%offers_nil.
  apply elem_of_app in Hc as [Hc|Hc].
  { apply list_elem_of_singleton in Hc as ->. offer_cases Ho. }
  destruct is_open; [|by apply not_elem_of_nil in Hc].
  rewrite !elem_of_cons in Hc. destruct Hc as [->|[->|Hc]]; [offer_cases Ho| |by apply not_elem_of_nil in Hc].
  apply offers_nil in Ho as (c & (o & -> & Hin)%list_elem_of_fmap & Ho).
  offer_cases Ho. by apply list_elem_of_fmap_2.
Qed.

Lemma header_offers m a ps r p :
  offers (Header.render m a ps r) (Header.ProjectMenu (Header.Pick p)) → p = [] ∨ p ∈ project_id <$> ps.
Proof.
  unfold Header.render. intros (c & ->%list_elem_of_singleton & (d & Hd & Ho)%offers_nil)%offers_nil.
  rewrite !elem_of_cons in Hd. destruct Hd as [->|[->|[->|Hd]]]; [offer_cases Ho| | |by apply not_elem_of_nil in Hd].
  - apply offers_map_view in Ho as (x & E & Ho). simplify_eq. apply dropdown_offers in Ho.
    unfold Header.project_options in Ho. destruct (bool_decide (ps = [])).
    + left. by apply list_elem_of_singleton in Ho.
    + right. by rewrite <- list_fmap_compose in Ho.
  - apply offers_map_view in Ho as (x & E & _). simplify_eq.
Qed.

(** The pages and overlays offer no action of the login page or of the frame. *)
Lemma main_offers s o :
  offers (render_main s) o → match o with InLogin _ | InHeader _ | InSidebar _ => False | _ => True end.
Proof.
  unfold render_main. intros (c & Hc & Ho)%offers_nil. unfold shown, when, opens in Hc.
  repeat match goal with
         | H : _ ∈ _ ++ _ |- _ => apply elem_of_app in H as [H|H]
         | H : _ ∈ (if ?b then _ else _) |- _ => destruct b
         end; try (by apply not_elem_of_nil in Hc).
  all: apply list_elem_of_singleton in Hc as ->; offer_cases Ho; naive_solver.
Qed.

Lemma app_offers_header s a :
  page s ≠ Login → offers (render s) (InHeader a) →
  offers (Header.render (menus (the_frame s)) (activeProject s) (projects s) (timeRange s)) a.
Proof.
  intros Hp. unfold render. rewrite bool_decide_false by done. cbv zeta.
  intros (c & ->%list_elem_of_singleton & (d & Hd & Ho)%offers_nil)%offers_nil.
  rewrite !elem_of_cons in Hd. destruct Hd as [->|[->|Hd]]; [| |by apply not_elem_of_nil in Hd].
  - apply offers_map_view in Ho as (x & E & Ho). by simplify_eq.
  - apply offers_nil in Ho as (e & He & Ho). rewrite !elem_of_cons in He.
    destruct He as [->|[->|He]]; [| |by apply not_elem_of_nil in He].
    + apply offers_map_view in Ho as (x & E & _). simplify_eq.
    + apply offers_nil in Ho as (g & ->%list_elem_of_singleton & Ho).
      apply offers_nil in Ho as (h & ->%list_elem_of_singleton & Ho). by apply main_offers in Ho.
Qed.

Definition listed (s : state) : Prop := activeProject s = [] ∨ activeProject s ∈ project_id <$> projects s.

Lemma resolve_listed d ps s :
  ps = [] ∧ resolveActiveProject d ps s = [] ∨ resolveActiveProject d ps s ∈ project_id <$> ps.
Proof.
  unfold resolveActiveProject. destruct ps as [|p r]; [by left|right]. cbv zeta.
  assert (∀ i, existsb (λ q, bool_decide (project_id q = i)) (p :: r) = true → i ∈ project_id <$> p :: r) as Hex.
  { intros i (q & Hq & E%bool_decide_eq_true)%existsb_exists. subst.
    apply list_elem_of_fmap_2. by apply list_elem_of_In. }
  destruct (truthy_opt _ && _) eqn:E1; [apply andb_true_iff in E1 as [_ E1]; by apply Hex|].
  clear E1. match goal with |- (if ?b then _ else _) ∈ _ => destruct b eqn:E2 end; [by apply Hex|].
  rewrite fmap_cons. left.
Qed.

Lemma useProjects_listed ps s : listed (useProjects ps s).
Proof.
  unfold listed. simpl. destruct (resolve_listed (match ps with p :: _ => project_id p | [] => [] end) ps (s <| projects := ps |>)) as [[_ ?]|?]; [by left|by right].
Qed.

Lemma listed_same s s' : activeProject s' = activeProject s → projects s' = projects s → listed s → listed s'.
Proof. unfold listed. by intros -> ->. Qed.

Ltac same_projects := eapply listed_same; [..|eassumption]; simpl; by autorewrite with app.

Lemma popstate_listed s : listed s → listed (onPopState s).
Proof. intros Hs. unfold onPopState. case_match; [same_projects|]. case_bool_decide; [done|same_projects]. Qed.

Lemma enter_page_listed s : listed s → listed (enter_page s).
Proof. intros Hs. unfold enter_page. case_match; same_projects. Qed.

Lemma listed_handlers : handlers_keep legal handle listed.
Proof.
  intros o s Hl Hs. split.
  - destruct o as [| | |w|[t|t|]|a|[id|l| |]| |p|t| |c| |d|]; simpl; try same_projects.
    + unfold checkSession. case_match; same_projects.
    + unfold goBack. destruct (back (the_browser s)); [done|]. apply popstate_listed. same_projects.
    + unfold goForward. destruct (forward (the_browser s)); [done|]. apply popstate_listed. same_projects.
    + case_bool_decide; same_projects.
    + destruct (decide (page s = Login)) as [E|E].
      { destruct (legal_login _ _ E Hl) as [[? ?]|[?|[?|[?|[? ?]]]]]; done. }
      apply app_offers_header in Hl; [|done].
      destruct a as [|[| |p]|[| |r]]; simpl; try same_projects. by apply header_offers in Hl.
    + unfold handleNavigate. case_match; same_projects.
    + unfold listed in *. simpl. rewrite fmap_app, elem_of_app. tauto.
  - destruct o as [| | |w|[t|t|]|a|[id|l| |]| |p|t| |c| |d|]; simpl; try apply Forall_nil_2.
    + apply (keeps_session listed); [by intros; apply useProjects_listed|..].
      * intros s' Hs'. apply enter_page_listed. same_projects.
      * intros ps s' _. apply enter_page_listed, useProjects_listed.
    + apply (keeps_login listed ltac:(by intros; apply useProjects_listed) s); intros n f s' Hs'; same_projects.
    + apply (keeps_logout listed s). intros [st tx b|m] s' Hs'; [|done]. left. simpl. by autorewrite with app.
Qed.

(** ** Properties *)

(** C2. The session guard: whatever the user does and in whatever order answers
    arrive, a screen other than the login page is shown only after [/api/v1/me] or
    [/login] has been answered with a success, or after the browser went back or
    forward to a URL of the form [/traces/{id}]. *)
Theorem login_guard b s waiting :
  app_reachable b (s, waiting) → page s = Login ∨ granted s = true ∨ deep_links s = true.
Proof. apply (invariant legal handle guarded (initial b) (s, waiting) guarded_handlers). by left. Qed.

(** C21. The active project is one of the projects the header lists, or none, in every
    reachable state: the one kept in the local storage is used only if it is still
    listed, otherwise the first. *)
Theorem active_project_listed b s waiting :
  app_reachable b (s, waiting) → activeProject s = [] ∨ activeProject s ∈ project_id <$> projects s.
Proof. apply (invariant legal handle listed (initial b) (s, waiting) listed_handlers). by left. Qed.


(** Logging out: when the request cannot be sent the user stays where they are;
    with any answer, an error status included, the projects, the active project and
    its stored copy are dropped and the login page is shown.  An open trace is not
    dropped: after the next login its overlay is on the screen again, over the
    dashboard, whoever has logged in. *)
Theorem logout_keeps_overlay s st st' text t m :
  ok_status st' = true → truthy t = true → traceOverlay s = Some t →
  (logout_answer (NoAnswer m) s).1 = s
  ∧ let s1 := (logout_answer (Answer st text (Ok tt)) s).1 in
    page s1 = Login ∧ projects s1 = [] ∧ activeProject s1 = [] ∧ default None (storage (the_browser s1)) = None
    ∧ let s2 := (login_answer (mounts s1) (Answer st' text (Ok tt)) s1).1 in
      page s2 = Dashboard ∧ traceOverlay s2 = Some t ∧ offers (render s2) CloseTrace.
Proof.
  intros Hok Ht Ho. split; [done|]. intros s1.
  assert (page s1 = Login) as Hp1 by apply setPage_page.
  assert (traceOverlay s1 = Some t) as Ho1.
  { unfold s1, logout_answer, now. cbn [fst]. by rewrite setPage_overlay. }
  split_and!; [done|..].
  - unfold s1, logout_answer, now. cbn [fst]. by rewrite setPage_projects.
  - unfold s1, logout_answer, now. cbn [fst]. by rewrite setPage_active.
  - unfold s1, logout_answer, now. cbn [fst]. rewrite setPage_browser. simpl. by destruct (storage _).
  - intros s2. assert (page s2 = Dashboard) as Hp2.
    { unfold s2, login_answer. rewrite Hok. cbn [fetchProjects fst]. by autorewrite with app. }
    assert (traceOverlay s2 = Some t) as Ho2.
    { unfold s2, login_answer. rewrite Hok. cbn [fetchProjects fst]. unfold on_login_page.
      rewrite setPage_page. simpl. by rewrite setPage_overlay. }
    split_and!; [done|done|]. unfold render. rewrite bool_decide_false by (by rewrite Hp2). cbv zeta.
    apply offers_nil. eexists. split; [left|].
    apply offers_nil. eexists. split; [right; left|].
    apply offers_nil. eexists. split; [right; left|].
    do 2 (apply offers_nil; eexists; split; [left|]).
    unfold render_main. apply offers_nil. eexists. split.
    + rewrite Ho2, !elem_of_app. simpl truthy_opt. rewrite Ht. do 3 right. left. left.
    + left. simpl. left.
Qed.

(** The login guard has a gap: on the login page, with nobody logged in, going back
    or forward to a URL [/traces/{id}] shows the traces page and the trace overlay
    with the whole navigation, without any session request. *)
Theorem popstate_bypasses_login s p r t :
  page s = Login → back (the_browser s) = p :: r → extractTraceIdFromPathname p = Some t →
  let s' := goBack s in
  page s' = Traces ∧ traceOverlay s' = Some t ∧ granted s' = granted s ∧ offers (render s') (InSidebar Sidebar.Logout).
Proof.
  intros Hp Hb Ht s'. unfold s', goBack, onPopState, location. rewrite Hb. simpl. rewrite Ht. simpl.
  autorewrite with app. split_and!; [done|done|done|].
  unfold render. rewrite bool_decide_false; [|simpl; by autorewrite with app]. cbv zeta.
  apply offers_nil. eexists. split; [left|].
  apply offers_nil. eexists. split; [right; left|].
  apply offers_nil. eexists. split; [left|].
  apply offers_map_view. eexists. split; [done|]. left. rewrite actions_sidebar, !elem_of_app. do 3 right. left.
Qed.

(** ** Concrete runs *)

Module Runs.
Definition demo : browser := Browser (js "/traces/t1") [] [] 1280 (Some (Some (js "p2"))).
Definition p1 : Project := {| project_id := js "p1"; name := js "One"; org_id := [] |}.
Definition p2 : Project := {| project_id := js "p2"; name := js "Two"; org_id := [] |}.

(** The page is loaded on a trace, the session is valid and lists two projects. *)
Definition me : answer (option (list (jsstr * jsstr))) :=
  Answer 200 (Ok []) (Ok (Some [(js "p1", js "One"); (js "p2", js "Two")])).
Definition loaded : state := (session_answer me (checkSession (initial demo)).1).1.

Lemma loaded_reachable : app_reachable demo (loaded, (session_answer me (checkSession (initial demo)).1).2).
Proof.
  eapply rtc_l; [exact (step_event legal handle Mounted (initial demo) [] I)|].
  apply rtc_once.
  exact (step_answer legal handle (checkSession (initial demo)).1 [] [] _ (get_request (js "/api/v1/me")) session_answer me).
Qed.

Lemma login_guard_witness : page loaded = Login ∨ granted loaded = true ∨ deep_links loaded = true.
Proof. exact (login_guard demo loaded _ loaded_reachable). Defined.

Lemma active_project_listed_witness :
  activeProject loaded = js "p2" ∧ (activeProject loaded = [] ∨ activeProject loaded ∈ project_id <$> projects loaded).
Proof. split; [vm_compute; reflexivity|]. exact (active_project_listed demo loaded _ loaded_reachable). Defined.

Definition at_prompts : state := handleNavigate (js "prompts") loaded.


Lemma logout_keeps_overlay_witness : (logout_answer (NoAnswer (js "offline")) loaded).1 = loaded.
Proof. apply (logout_keeps_overlay loaded 200 200 (Ok []) (js "t1")); vm_compute; reflexivity. Defined.

(** After a logout, back to the URL the page was loaded on. *)
Definition logged_out : state := (logout_answer (Answer 200 (Ok []) (Ok tt)) at_prompts).1.

Lemma popstate_bypasses_login_witness : page logged_out = Login ∧ page (goBack logged_out) = Traces.
Proof.
  split; [vm_compute; reflexivity|].
  apply (popstate_bypasses_login logged_out (js "/traces/t1") [] (js "t1")); vm_compute; reflexivity.
Defined.
End Runs.
