(* ===== verification/Toast.v ===== *)
(** The notifications in the corner of the screen (ui/src/components/Toast.tsx).

    Timers are kept as the code sets them: one that removes a toast four seconds after
    it was added, and one, owned by the toast's element, that fades it out half a
    second earlier and is cleared when the element goes.  Time is an event. *)
From S2P Require Import Prelude.
From S2P Require Import JsString.
From S2P Require Import Ui.
Local Open Scope Z_scope.

Inductive ToastType : Type := success | error | info.

Record Toast : Type := MkToast { id : jsstr; type : ToastType; message : jsstr }.

(** [Math.random().toString(36).slice(2, 8)] of the n-th draw. *)
Class Random : Type := random36 : nat → jsstr.

Inductive timer : Type :=
| Dismiss (due : Z) (id : jsstr)
| Fade (due : Z) (id : jsstr).

Definition due (t : timer) : Z := match t with Dismiss d _ | Fade d _ => d end.

Record state : Type := State {
  toasts : list Toast;
  timers : list timer;
  faded : list jsstr;
  clock : Z;
  draws : nat
}.
#[export] Instance state_eta : Eta state := λ s, State (toasts s) (timers s) (faded s) (clock s) (draws s).

Definition initial (now : Z) : state := State [] [] [] now 0.

Definition DISMISS_AFTER : Z := 4000.
Definition FADE_AFTER : Z := 3500.

Section toasts.
Context `{Random}.

Definition toast_id (s : state) : jsstr :=
  js "toast-" ++ show_Z (clock s) ++ js "-" ++ random36 (draws s).

(** [addToast], and the element's effect when it is mounted. *)
Definition addToast (ty : ToastType) (msg : jsstr) (s : state) : state :=
  let i := toast_id s in
  State (toasts s ++ [MkToast i ty msg])
    (timers s ++ [Dismiss (clock s + DISMISS_AFTER) i; Fade (clock s + FADE_AFTER) i])
    (faded s) (clock s) (S (draws s)).

Definition fades (i : jsstr) (t : timer) : bool :=
  match t with Fade _ j => bool_decide (j = i) | Dismiss _ _ => false end.

(** Removing a toast unmounts its element, which clears the fading timer. *)
Definition removeToast (i : jsstr) (s : state) : state :=
  s <| toasts ::= filter (λ t, id t ≠ i) |>
    <| timers ::= filter (λ t, fades i t = false) |>
    <| faded ::= filter (.≠ i) |>.

Definition fire (t : timer) (s : state) : state :=
  match t with
  | Dismiss _ i => removeToast i s
  | Fade _ i => s <| faded ::= cons i |>
  end.

(** Time passes: the timers that have become due fire, in the order of their times. *)
Definition tick (dt : Z) (s : state) : state :=
  let now := clock s + dt in
  let ready := sort_by (λ a b, due a <=? due b) (filter (λ t, due t <= now) (timers s)) in
  let s := s <| clock := now |> <| timers ::= filter (λ t, ¬ due t <= now) |> in
  foldl (λ s t, fire t s) s ready.

Inductive op : Type :=
| Add (ty : ToastType) (msg : jsstr)
| Remove (i : jsstr)
| Tick (dt : Z).

Definition handle (o : op) (s : state) : state :=
  match o with
  | Add ty msg => addToast ty msg s
  | Remove i => removeToast i s
  | Tick dt => tick (Z.max 0 dt) s
  end.

(** ** Views *)

Definition ToastItem (is_faded : bool) (t : Toast) : view op :=
  El "div" [Attr "role" (js "alert"); Attr "opacity" (if is_faded then js "0" else js "1")]
    [El "svg" [Attr "icon" (match type t with success => js "check" | error => js "cross" | info => js "info" end)] [];
     El "span" [] [Text (message t)];
     El "button" [On "click" (Remove (id t)); Attr "aria-label" (js "Dismiss")] [El "svg" [] []]].

Definition ToastContainer (s : state) : list (view op) :=
  if bool_decide (length (toasts s) = 0%nat) then []
  else [El "div" [Attr "aria-live" (js "polite")]
          ((λ t, ToastItem (bool_decide (id t ∈ faded s)) t) <$> toasts s)].

(** [useToast]: outside of a provider it throws. *)
Definition useToast (provider : option state) : result jsstr state :=
  result_of_option (js "useToast must be used within a ToastProvider") provider.

(** ** No toast outlives its four seconds *)

Definition run (os : list op) (s : state) : state := foldl (λ s o, handle o s) s os.

(** Every toast has a pending timer that removes it in time. *)
Definition timed (s : state) : Prop :=
  Forall (λ t, Exists (λ tm, match tm with Dismiss d i => i = id t ∧ d <= clock s + DISMISS_AFTER | Fade _ _ => False end)
                (timers s)) (toasts s).

Definition dismisses (i : jsstr) (t : timer) : Prop :=
  match t with Dismiss _ j => j = i | Fade _ _ => False end.

Lemma timed_remove i s : timed s → timed (removeToast i s).
Proof.
  unfold timed. intros Hs. simpl. apply Forall_forall. intros t [Hne Ht]%list_elem_of_filter.
  apply (proj1 (Forall_forall _ _) Hs) in Ht. apply Exists_exists in Ht as (tm & Htm & Hd).
  apply Exists_exists. exists tm. destruct tm as [d j|d j]; [|done]. split; [|done].
  by apply list_elem_of_filter.
Qed.

(** What firing a list of timers leaves. *)
Lemma fire_all ts : ∀ s,
  (∀ t, t ∈ toasts (foldl (λ s t, fire t s) s ts) → t ∈ toasts s ∧ ¬ Exists (dismisses (id t)) ts)
  ∧ (∀ d j, Dismiss d j ∈ timers s → Dismiss d j ∈ timers (foldl (λ s t, fire t s) s ts))
  ∧ clock (foldl (λ s t, fire t s) s ts) = clock s.
Proof.
  induction ts as [|tm ts IH]; intros s; simpl.
  { split_and!; [|done|done]. intros t Ht. split; [done|]. by intros ?%Exists_nil. }
  destruct (IH (fire tm s)) as (H1 & H2 & H3). split_and!.
  - intros t Ht. apply H1 in Ht as [Ht Hn]. destruct tm as [d i|d i]; simpl in *.
    + apply list_elem_of_filter in Ht as [Hne Ht]. split; [done|].
      intros [E|?]%Exists_cons; [simpl in E; congruence|done].
    + split; [done|]. by intros [E|?]%Exists_cons.
  - intros d j Hin. apply H2. destruct tm as [d' i|d' i]; simpl; [|done]. by apply list_elem_of_filter.
  - rewrite H3. by destruct tm.
Qed.

Lemma timed_tick dt s : 0 <= dt → timed s → timed (tick dt s).
Proof.
  intros Hdt Hs. unfold tick. cbv zeta.
  set (ready := sort_by _ _). set (s0 := s <| clock := _ |> <| timers ::= _ |>).
  destruct (fire_all ready s0) as (H1 & H2 & H3). unfold timed. rewrite H3.
  apply Forall_forall. intros t Ht. apply H1 in Ht as [Ht Hn]. simpl in Ht.
  apply (proj1 (Forall_forall _ _) Hs) in Ht. apply Exists_exists in Ht as (tm & Htm & Hd).
  destruct tm as [d i|d i]; [|done]. destruct Hd as [-> Hd].
  apply Exists_exists. exists (Dismiss d (id t)). split; [|simpl; split; [done|lia]].
  apply H2. simpl. apply list_elem_of_filter. split; [|done]. intros Hdue. apply Hn.
  apply Exists_exists. exists (Dismiss d (id t)). split; [|done].
  unfold ready. rewrite sort_by_perm. by apply list_elem_of_filter.
Qed.

Lemma timed_run os s : timed s → timed (run os s).
Proof.
  revert s. induction os as [|o os IH]; intros s Hs; simpl; [done|]. apply IH.
  destruct o as [ty msg|i|dt]; simpl; [|by apply timed_remove|by apply timed_tick; [lia|]].
  unfold timed, addToast. simpl. apply Forall_app. split.
  - apply (Forall_impl _ _ _ Hs). intros t Ht. apply Exists_app. by left.
  - apply Forall_singleton. apply Exists_app. right. apply Exists_cons. left. simpl. split; [done|lia].
Qed.

(** C33. Every toast goes away by itself: whatever toasts are added and dismissed, four
    seconds without a new one leave none on the screen. *)
Theorem toasts_expire now os dt : DISMISS_AFTER <= dt → ToastContainer (tick dt (run os (initial now))) = [].
Proof.
  intros Hdt. set (s := run os (initial now)).
  assert (timed s) as Hs by (apply timed_run; constructor).
  assert (toasts (tick dt s) = []) as Ht; [|unfold ToastContainer; by rewrite Ht].
  unfold tick. cbv zeta. set (ready := sort_by _ _). set (s0 := s <| clock := _ |> <| timers ::= _ |>).
  destruct (fire_all ready s0) as (H1 & _ & _).
  destruct (toasts (foldl _ s0 ready)) as [|t l]; [done|]. exfalso.
  destruct (H1 t ltac:(left)) as [Hin Hn]. simpl in Hin.
  apply (proj1 (Forall_forall _ _) Hs) in Hin. apply Exists_exists in Hin as (tm & Htm & Hd).
  destruct tm as [d i|d i]; [|done]. destruct Hd as [-> Hd]. apply Hn.
  apply Exists_exists. exists (Dismiss d (id t)). split; [|done].
  unfold ready. rewrite sort_by_perm. apply list_elem_of_filter. split; [simpl; lia|done].
Qed.

(** Dismissing a toast removes it and no other one whose id differs, keeps the
    order of the rest, and the timers still pending for it do nothing later on. *)
Theorem dismiss_exactly i s t :
  (t ∈ toasts (removeToast i s) ↔ t ∈ toasts s ∧ id t ≠ i)
  ∧ (∀ d, toasts (fire (Dismiss d i) (removeToast i s)) = toasts (removeToast i s))
  ∧ (∀ d, Fade d i ∉ timers (removeToast i s)).
Proof.
  split_and!.
  - simpl. rewrite list_elem_of_filter. tauto.
  - intros d. simpl. apply filter_all_true. intros x [Hx _]%list_elem_of_filter. done.
  - intros d. simpl. intros [Hx _]%list_elem_of_filter. simpl in Hx. by rewrite bool_decide_true in Hx.
Qed.
End toasts.

Lemma toasts_expire_witness :
  let r : Random := λ n, digits (Z.of_nat n) in
  @ToastContainer (@tick 4000 (@run r [Add success (js "saved"); Tick 100; Add error (js "failed")] (initial 0))) = [].
Proof. apply (toasts_expire (H := λ n, digits (Z.of_nat n)) 0). reflexivity. Defined.
