(* ===== verification/FilterGroup.v ===== *)
(** The filter builder (ui/src/components/FilterGroup.tsx).

    A filter is a JavaScript object: its properties in the order they were written,
    among them groups of filters.  A property can be present with the value
    [undefined], which matters to [Object.keys] and not to [JSON.stringify].

    The component calls [onUpdate] with the new filter; in its view an action is that
    filter.  A nested group's actions are turned into those of its parent. *)
From S2P Require Import Prelude.
From S2P Require Import JsString.
From S2P Require Import JsNumber.
From S2P Require Import JsJson.
From S2P Require Import Ui.
Local Open Scope nat_scope.

#[warnings="-register-all"]
Inductive fval (F : Type) : Type :=
| VUndefined
| VNull
| VText (s : jsstr)
| VNum (n : num)
| VAttrs (l : list (jsstr * jsstr))
| VGroup (l : list F)
| VSub (f : F).
Arguments VUndefined {F}.
Arguments VNull {F}.
Arguments VText {F} s.
Arguments VNum {F} n.
Arguments VAttrs {F} l.
Arguments VGroup {F} l.
Arguments VSub {F} f.

#[warnings="-register-all"]
Inductive EvalFilter : Type :=
| Filter (props : list (jsstr * fval EvalFilter)).

Abbreviation fvalue := (fval EvalFilter).

Definition props (f : EvalFilter) : list (jsstr * fvalue) := match f with Filter ps => ps end.
Definition get (k : jsstr) (f : EvalFilter) : option fvalue := prop_get k (props f).
(** [{...f, [k]: v}]. *)
Definition put (k : jsstr) (v : fvalue) (f : EvalFilter) : EvalFilter := Filter (prop_set k v (props f)).

Definition SPAN_KINDS : list (jsstr * jsstr) :=
  [(js "llm", js "LLM"); (js "tool", js "Tool"); (js "agent", js "Agent"); (js "chain", js "Chain");
   (js "internal", js "Internal")].

Definition STATUS_CODES : list jsstr := [js "OK"; js "ERROR"; js "CANCELLED"; js "UNKNOWN"].

Definition LEAF_CONDITIONS : list (jsstr * jsstr) :=
  [(js "kind", js "Span Kind"); (js "model", js "Model"); (js "service_name", js "Service Name");
   (js "status_code", js "Status Code"); (js "min_cost_usd", js "Min Cost ($)");
   (js "max_cost_usd", js "Max Cost ($)"); (js "min_duration_ms", js "Min Duration (ms)");
   (js "max_duration_ms", js "Max Duration (ms)")].

Definition createEmptyFilter : EvalFilter := Filter [].

Definition activeLeaf (filter : EvalFilter) : option jsstr :=
  array_find (λ k, bool_decide (is_Some (get k filter))) LEAF_CONDITIONS.*1.

Definition withField (filter : EvalFilter) (key : jsstr) (value : fvalue) : EvalFilter :=
  let next := foldl (λ ps k, if bool_decide (k = key) then ps else prop_delete k ps) (props filter) LEAF_CONDITIONS.*1 in
  Filter (prop_set key value next).

(** [String(filter[k] ?? "")] and, for the text fields, [filter[k] ?? ""]. *)
Definition field_text (filter : EvalFilter) (k : jsstr) : jsstr :=
  match get k filter with Some (VText s) => s | Some (VNum n) => show_num n | _ => [] end.

(** ** Views

    Choosing an option of a select is an action of that option. *)

Definition Field {A} (label : jsstr) (child : view A) : view A :=
  El "div" [] [El "label" [] [Text label]; child].

Definition Input {A} (value : jsstr) (onChange : jsstr → A) (placeholder : string) : view A :=
  El "input" [Attr "value" value; OnValue "change" onChange; Attr "placeholder" (js placeholder)] [].

Definition Select {A} (value : jsstr) (onChange : jsstr → A) (options : list (jsstr * jsstr)) : view A :=
  El "select" [Attr "value" value]
    ((λ '(v, l), El "option" [Attr "value" v; On "change" (onChange v)] [Text l]) <$> options).

Definition ActionButton {A} (a : A) (label : jsstr) : view A := El "button" [On "click" a] [Text label].

Definition placeholder_of (active : jsstr) : option string :=
  prop_get active
    [(js "model", "e.g. gpt-4-turbo"%string); (js "service_name", "e.g. my-service"%string);
     (js "min_cost_usd", "0.00"%string); (js "max_cost_usd", "999.99"%string);
     (js "min_duration_ms", "100"%string); (js "max_duration_ms", "30000"%string)].

(** The value field of the active condition; [None] when it has none of its own. *)
Definition value_field (filter : EvalFilter) (active : jsstr) : option (view EvalFilter) :=
  let update v := withField filter active (VText v) in
  let label := default [] (prop_get active LEAF_CONDITIONS) in
  let value := field_text filter active in
  if bool_decide (active = js "kind") then
    Some (Field (js "Kind Value") (Select value update ((js "", js "Select kind...") :: SPAN_KINDS)))
  else if bool_decide (active = js "status_code") then
    Some (Field label (Select value update ((js "", js "Select status...") :: ((λ s, (s, s)) <$> STATUS_CODES))))
  else
    placeholder ← placeholder_of active;
    Some (Field label (Input value update placeholder)).

(** Choosing the empty type changes nothing, so the selector then gives the filter as
    it is. *)
Definition LeafConditionRow (filter : EvalFilter) (onDelete : option EvalFilter) : view EvalFilter :=
  let active := activeLeaf filter in
  El "div" []
    ([El "div" []
        (Field (js "Condition Type")
           (Select (default [] active) (λ key, if truthy key then withField filter key (VText []) else filter)
              ((js "", js "Select...") :: LEAF_CONDITIONS))
         :: match active ≫= value_field filter with Some v => [v] | None => [] end)]
     ++ match onDelete with
        | Some f => [El "button" [On "click" f; Attr "title" (js "Remove condition")] [El "svg" [] []]]
        | None => []
        end).

(** [value[key] ?? []] of a group. *)
Definition group (key : jsstr) (f : EvalFilter) : list EvalFilter :=
  match get key f with Some (VGroup l) => l | _ => [] end.

Definition has_group (key : jsstr) (f : EvalFilter) : bool := negb (bool_decide (length (group key f) = 0)).
Definition has_not (f : EvalFilter) : bool := match get (js "not") f with Some (VSub _) => true | _ => false end.

Definition addSub (key : jsstr) (value : EvalFilter) : EvalFilter :=
  put key (VGroup (group key value ++ [createEmptyFilter])) value.

(** [arr[index] = sub], the index being one of the array. *)
Definition updateSub (key : jsstr) (index : nat) (value sub : EvalFilter) : EvalFilter :=
  put key (VGroup (<[index := sub]> (group key value))) value.

Definition removeSub (key : jsstr) (index : nat) (value : EvalFilter) : EvalFilter :=
  let arr := delete index (group key value) in
  put key (if bool_decide (length arr = 0) then VUndefined else VGroup arr) value.

Definition updateNot (value sub : EvalFilter) : EvalFilter := put (js "not") (VSub sub) value.

Definition removeNot (value : EvalFilter) : EvalFilter := Filter (prop_delete (js "not") (props value)).

(** [value.kind || value.model]. *)
Definition truthy_field (k : jsstr) (f : EvalFilter) : bool :=
  match get k f with Some (VText s) => truthy s | _ => false end.

Definition wrap_in_or (value : EvalFilter) : EvalFilter :=
  if truthy_field (js "kind") value || truthy_field (js "model") value
  then Filter [(js "or", VGroup [value; createEmptyFilter])]
  else Filter [(js "or", VGroup [createEmptyFilter; createEmptyFilter])].

Definition add_condition (value : EvalFilter) : EvalFilter :=
  Filter [(js "and", VGroup [value; createEmptyFilter])].

(** One group around the views of its sub-filters. *)
Definition group_view (depth : nat) (value : EvalFilter) (children : jsstr → list (view EvalFilter)) : view EvalFilter :=
  let hasOr := has_group (js "or") value in
  let hasAnd := has_group (js "and") value in
  let hasNot := has_not value in
  let isLeaf := negb hasOr && negb hasAnd && negb hasNot in
  let isTopLevel := bool_decide (depth = 0) in
  let groupLabel := if hasNot then js "NOT" else if hasOr then js "OR" else if hasAnd then js "AND" else [] in
  let key := if hasOr then js "or" else js "and" in
  let name := if hasOr then js "OR" else js "AND" in
  El "div" [Attr "role" (js "group"); Attr "aria-label" (if truthy groupLabel then groupLabel else js "Filter group")]
    (when (truthy groupLabel && negb isTopLevel) (El "span" [] [Text groupLabel])
     ++ (if isLeaf then [LeafConditionRow value (if isTopLevel then None else Some createEmptyFilter)]
         else
           [El "div" []
              ((if hasOr || hasAnd then
                  [El "div" []
                     (imap (λ idx sub,
                        El "div" []
                          [map_view (updateSub key idx value) sub;
                           El "button" [On "click" (removeSub key idx value);
                                        Attr "title" (js "Remove " ++ name ++ js " condition")] [txt "×"]])
                        (children key));
                   ActionButton (addSub key value) (js "+ Add " ++ name ++ js " Condition")]
                else [])
               ++ (if hasNot then
                     [El "div" []
                        ([El "div" [] [El "span" [] [txt "NOT"]]]
                         ++ (map_view (updateNot value) <$> children (js "not"))
                         ++ [El "button" [On "click" (removeNot value); Attr "title" (js "Remove NOT condition")]
                               [txt "×"]])]
                   else []))])
     ++ when (isTopLevel && isLeaf) (El "div" [] [ActionButton (add_condition value) (js "+ Add Condition")])
     ++ when (isLeaf && negb isTopLevel && negb hasNot)
          (El "div" [] [El "button" [On "click" (wrap_in_or value)] [txt "+ Add OR/AND Group"]])).

Fixpoint FilterGroup (value : EvalFilter) (depth : nat) : view EvalFilter :=
  match value with
  | Filter ps =>
    let subs :=
      (λ '(k, v), (k, match v with
                      | VGroup l => (λ f, FilterGroup f (S depth)) <$> l
                      | VSub f => [FilterGroup f (S depth)]
                      | _ => []
                      end)) <$> ps in
    group_view depth value (λ k, default [] (prop_get k subs))
  end.

(** ** The filters that can be built *)

Definition is_leaf_key (k : jsstr) : Prop := k ∈ LEAF_CONDITIONS.*1.

(** A property of a leaf: a condition that holds a text, or what is left of a removed
    group. *)
Definition leaf_prop (kv : jsstr * fvalue) : Prop :=
  (is_leaf_key kv.1 ∧ ∃ s, kv.2 = VText s) ∨ ((kv.1 = js "and" ∨ kv.1 = js "or") ∧ kv.2 = VUndefined).

(** Filters with at most one condition in each leaf, an AND only at the top and an OR
    only below it, and no NOT. *)
Inductive built : bool → EvalFilter → Prop :=
| built_leaf top ps :
    Forall leaf_prop ps → NoDup ps.*1 →
    (∀ kv kv', kv ∈ ps → kv' ∈ ps → is_leaf_key kv.1 → is_leaf_key kv'.1 → kv.1 = kv'.1) →
    built top (Filter ps)
| built_group top l :
    l ≠ [] → Forall (built false) l →
    built top (Filter [(if top then js "and" else js "or", VGroup l)]).

Section built_ind.
Context (P : bool → EvalFilter → Prop).
Context (Hleaf : ∀ top ps, Forall leaf_prop ps → NoDup ps.*1 →
    (∀ kv kv', kv ∈ ps → kv' ∈ ps → is_leaf_key kv.1 → is_leaf_key kv'.1 → kv.1 = kv'.1) →
    P top (Filter ps)).
Context (Hgroup : ∀ top l, l ≠ [] → Forall (built false) l → Forall (P false) l →
    P top (Filter [(if top then js "and" else js "or", VGroup l)])).

Lemma built_nested_ind top f : built top f → P top f.
Proof using Hleaf Hgroup.
  revert top f. fix IH 3. intros top f [top' ps H1 H2 H3|top' l Hne Hl]; [by apply Hleaf|].
  apply Hgroup; [done|done|]. clear Hne. induction Hl as [|g l' Hg _ IHl]; constructor; [by apply IH|exact IHl].
Qed.
End built_ind.

Lemma built_empty top : built top createEmptyFilter.
Proof. apply built_leaf; [constructor|constructor|]. by intros kv kv' ?%not_elem_of_nil. Qed.

Lemma pair_built f g : built false f → built false g → Forall (built false) [f; g].
Proof. intros Hf Hg. by repeat apply Forall_cons_2. Qed.

Lemma and_or_no_leaf k : k = js "and" ∨ k = js "or" → ¬ is_leaf_key k.
Proof.
  unfold is_leaf_key. intros Hk Hin. assert (bool_decide (k ∈ LEAF_CONDITIONS.*1) = false) as E.
  { destruct Hk as [->| ->]; vm_compute; reflexivity. }
  apply bool_decide_eq_false in E. done.
Qed.

(** The loop of [withField] that deletes the other conditions. *)
Lemma cleared_in key ks : ∀ ps : list (jsstr * fvalue),
  NoDup ps.*1 →
  let next := foldl (λ ps k, if bool_decide (k = key) then ps else prop_delete k ps) ps ks in
  NoDup next.*1 ∧ ∀ kv, kv ∈ next → kv ∈ ps ∧ (kv.1 ∈ ks → kv.1 = key).
Proof.
  induction ks as [|k ks IH]; intros ps Hnd; simpl.
  { split; [done|]. intros kv Hkv. split; [done|]. by intros ?%not_elem_of_nil. }
  case_bool_decide as Hk.
  - subst. destruct (IH ps Hnd) as [H1 H2]. split; [done|]. intros kv Hkv. destruct (H2 kv Hkv) as [? H3].
    split; [done|]. intros [?|?]%elem_of_cons; auto.
  - destruct (IH (prop_delete k ps) (prop_delete_nodup k ps Hnd)) as [H1 H2]. split; [done|].
    intros kv Hkv. destruct (H2 kv Hkv) as [Hin H3]. apply list_elem_of_filter in Hin as [Hne Hin].
    split; [done|]. intros [?|?]%elem_of_cons; auto. done.
Qed.

Lemma built_withField top ps key s :
  Forall leaf_prop ps → NoDup ps.*1 → is_leaf_key key → built top (withField (Filter ps) key (VText s)).
Proof.
  intros Hps Hnd Hkey. unfold withField. simpl props.
  destruct (cleared_in key LEAF_CONDITIONS.*1 ps Hnd) as [Hnd' Hin].
  set (next := foldl _ ps _) in *. cbv zeta. apply built_leaf.
  - apply Forall_forall. intros kv [->|[Hkv _]]%prop_set_elem; [left; simpl; eauto|].
    apply Hin in Hkv as [Hkv _]. by apply (proj1 (Forall_forall _ _) Hps).
  - by apply prop_set_nodup.
  - assert (∀ kv, kv ∈ prop_set key (VText s) next → is_leaf_key kv.1 → kv.1 = key) as Hone.
    { intros kv [->|[Hkv _]]%prop_set_elem Hl; [done|]. apply Hin in Hkv as [_ H]. by apply H. }
    intros kv kv' Hkv Hkv' Hl Hl'. by rewrite (Hone kv), (Hone kv').
Qed.

Section leaf.
Context (ps : list (jsstr * fvalue)) (Hps : Forall leaf_prop ps).

Lemma leaf_get k v : get k (Filter ps) = Some v → (is_leaf_key k ∧ ∃ s, v = VText s) ∨ v = VUndefined.
Proof using Hps.
  intros Hg%prop_get_in. apply (proj1 (Forall_forall _ _) Hps) in Hg as [[? ?]|[_ ?]]; auto.
Qed.

Lemma leaf_no_group k : has_group k (Filter ps) = false.
Proof using Hps.
  unfold has_group, group. destruct (get k (Filter ps)) as [v|] eqn:E; [|done].
  by destruct (leaf_get k v E) as [[_ [s ->]]| ->].
Qed.

Lemma leaf_no_not : has_not (Filter ps) = false.
Proof using Hps.
  unfold has_not. destruct (get _ (Filter ps)) as [v|] eqn:E; [|done].
  by destruct (leaf_get _ v E) as [[_ [s ->]]| ->].
Qed.

Lemma active_leaf_key k : activeLeaf (Filter ps) = Some k → is_leaf_key k.
Proof using. unfold activeLeaf. by intros [? _]%array_find_Some. Qed.
End leaf.

Lemma select_offers {A} value (onChange : jsstr → A) options a :
  offers (Select value onChange options) a → ∃ v, v ∈ options.*1 ∧ a = onChange v.
Proof.
  unfold Select. intros [H|(c & ([v l] & -> & Hin)%list_elem_of_fmap & Ho)]%offers_el; [offer_cases H|].
  exists v. split; [by apply (list_elem_of_fmap_2 fst _ (v, l))|]. offer_cases Ho. done.
Qed.

Lemma field_offers {A} label (child : view A) a : offers (Field label child) a → offers child a.
Proof.
  unfold Field. intros (c & Hc & Ho)%offers_nil. rewrite !elem_of_cons in Hc.
  destruct Hc as [->|[->|Hc]]; [offer_cases Ho|done|by apply not_elem_of_nil in Hc].
Qed.

(** What the row of a leaf can turn it into. *)
Lemma row_built top ps onDelete f :
  Forall leaf_prop ps → NoDup ps.*1 → built top (Filter ps) →
  (∀ g, onDelete = Some g → built top g) →
  offers (LeafConditionRow (Filter ps) onDelete) f → built top f.
Proof.
  intros Hps Hnd Hb Hdel. unfold LeafConditionRow. cbv zeta. intros (c & Hc & Ho)%offers_nil.
  apply elem_of_app in Hc as [->%list_elem_of_singleton|Hc].
  - apply offers_nil in Ho as (d & [->|Hd]%elem_of_cons & Ho).
    + apply field_offers, select_offers in Ho as (v & Hv & ->).
      destruct (truthy v) eqn:Ht; [|done]. apply built_withField; [done|done|].
      rewrite fmap_cons in Hv. apply elem_of_cons in Hv as [->|Hv]; [done|exact Hv].
    + destruct (activeLeaf (Filter ps)) as [k|] eqn:Ha; simpl in Hd; [|by apply not_elem_of_nil in Hd].
      apply active_leaf_key in Ha.
      assert (∃ t, f = withField (Filter ps) k (VText t)) as [t ->]; [|by apply built_withField].
      unfold value_field in Hd.
      destruct (bool_decide (k = js "kind")); [|destruct (bool_decide (k = js "status_code"))].
      * apply list_elem_of_singleton in Hd as ->. apply field_offers, select_offers in Ho as (v & _ & ->). eauto.
      * apply list_elem_of_singleton in Hd as ->. apply field_offers, select_offers in Ho as (v & _ & ->). eauto.
      * destruct (placeholder_of k) as [ph|]; simpl in Hd; [|by apply not_elem_of_nil in Hd].
        apply list_elem_of_singleton in Hd as ->. apply field_offers in Ho. unfold Input in Ho.
        offer_cases Ho. eauto.
  - destruct onDelete as [g|]; [|by apply not_elem_of_nil in Hc].
    apply list_elem_of_singleton in Hc as ->. offer_cases Ho. by apply Hdel.
Qed.

Lemma leaf_step top ps children f :
  Forall leaf_prop ps → NoDup ps.*1 → built top (Filter ps) → (∀ b, built b (Filter ps)) →
  ∀ depth, top = bool_decide (depth = 0) → offers (group_view depth (Filter ps) children) f → built top f.
Proof.
  intros Hps Hnd Hb Hball depth Htop. unfold group_view.
  rewrite !(leaf_no_group ps Hps), (leaf_no_not ps Hps). cbv zeta. cbn [negb andb orb when truthy app].
  rewrite <- Htop. intros [Ho|(c & Hc & Ho)]%offers_el; [offer_cases Ho|].
  rewrite !elem_of_cons, elem_of_app in Hc. destruct Hc as [->|[Hc|Hc]].
  - eapply row_built; [done|done|done| |exact Ho]. intros g Hg. destruct top; simplify_eq. apply built_empty.
  - destruct top; cbn [andb when] in Hc; [|by apply not_elem_of_nil in Hc].
    apply list_elem_of_singleton in Hc as ->. apply offers_nil in Ho as (d & ->%list_elem_of_singleton & Ho).
    unfold ActionButton in Ho. offer_cases Ho. apply (built_group true); [done|].
    apply pair_built; [apply Hball|apply built_empty].
  - destruct top; cbn [andb negb when] in Hc; [by apply not_elem_of_nil in Hc|].
    apply list_elem_of_singleton in Hc as ->. apply offers_nil in Ho as (d & ->%list_elem_of_singleton & Ho).
    offer_cases Ho. unfold wrap_in_or.
    case_match; (apply (built_group false); [done|]); apply pair_built; first [apply Hball|apply built_empty].
Qed.

Definition group_key (top : bool) : jsstr := if top then js "and" else js "or".

Section group.
Context (top : bool) (l : list EvalFilter) (Hne : l ≠ []) (Hl : Forall (built false) l).
Local Abbreviation value := (Filter [(group_key top, VGroup l)]).

Lemma group_itself : group (group_key top) value = l.
Proof. unfold group, get. simpl. by rewrite decide_True. Qed.

Lemma group_has :
  has_group (js "or") value = negb top ∧ has_group (js "and") value = top ∧ has_not value = false.
Proof using Hne Hl.
  unfold has_group, group, get, has_not, get. destruct top; simpl; destruct l; done.
Qed.

Lemma put_group l' : l' ≠ [] → Forall (built false) l' → built top (put (group_key top) (VGroup l') value).
Proof.
  intros Hne' Hl'. unfold put, prop_set. simpl. rewrite decide_True by left. csimpl.
  rewrite decide_True by done. by apply (built_group top).
Qed.

Lemma put_removed : built top (put (group_key top) VUndefined value).
Proof.
  unfold put, prop_set. simpl. rewrite decide_True by left. csimpl. rewrite decide_True by done.
  apply built_leaf.
  - constructor; [|constructor]. right. simpl. split; [destruct top; auto|done].
  - apply NoDup_singleton.
  - intros kv kv' ->%list_elem_of_singleton ->%list_elem_of_singleton. done.
Qed.

Lemma removeSub_built i : built top (removeSub (group_key top) i value).
Proof using Hne Hl.
  unfold removeSub. rewrite group_itself. case_bool_decide as E; [apply put_removed|].
  apply put_group; [by intros Hd; rewrite Hd in E|by apply Forall_delete].
Qed.

Lemma updateSub_built i sub : built false sub → built top (updateSub (group_key top) i value sub).
Proof using Hne Hl.
  intros Hs. unfold updateSub. rewrite group_itself. apply put_group; [|by apply Forall_insert].
  intros Hd. apply (f_equal length) in Hd. rewrite length_insert in Hd. by destruct l.
Qed.

Lemma addSub_built : built top (addSub (group_key top) value).
Proof using Hne Hl.
  unfold addSub. rewrite group_itself. apply put_group; [by destruct l|].
  apply Forall_app. split; [done|]. apply Forall_singleton, built_empty.
Qed.

Lemma group_step depth f :
  Forall (λ g, ∀ g', offers (FilterGroup g (S depth)) g' → built false g') l →
  top = bool_decide (depth = 0) → offers (FilterGroup value depth) f → built top f.
Proof using Hne Hl.
  intros Hsub Htop. cbn [FilterGroup]. unfold group_view. destruct group_has as (-> & -> & ->).
  rewrite <- Htop. clear Htop. cbv zeta.
  assert (negb (negb top) && negb top = false) as -> by by destruct top.
  assert (negb top || top = true) as -> by by destruct top.
  assert ((if negb top then js "or" else js "and") = group_key top) as -> by by destruct top.
  rewrite andb_false_r. cbn [negb andb when]. rewrite !app_nil_r.
  intros [Ho|(c & Hc & Ho)]%offers_el; [offer_cases Ho|].
  apply elem_of_app in Hc as [Hc|Hc].
  { unfold when in Hc. case_match; [|by apply not_elem_of_nil in Hc].
    apply list_elem_of_singleton in Hc as ->. offer_cases Ho. }
  apply list_elem_of_singleton in Hc as ->. apply offers_nil in Ho as (c & Hc & Ho).
  rewrite !elem_of_cons in Hc. destruct Hc as [->|[->|Hc]]; [| |by apply not_elem_of_nil in Hc].
  2: { unfold ActionButton in Ho. offer_cases Ho. apply addSub_built. }
  apply offers_nil in Ho as (d & (i & sub & -> & Hi)%elem_of_lookup_imap & Ho).
  apply offers_nil in Ho as (e & He & Ho). rewrite !elem_of_cons in He.
  destruct He as [->|[->|He]]; [| |by apply not_elem_of_nil in He].
  - apply offers_map_view in Ho as (g' & -> & Ho). apply updateSub_built.
    csimpl in Hi. rewrite decide_True in Hi by done. cbn [from_option id] in Hi.
    rewrite list_lookup_fmap in Hi. destruct (l !! i) as [g|] eqn:Eg; simplify_eq/=.
    eapply (proj1 (Forall_forall _ _) Hsub g); [by eapply list_elem_of_lookup_2|exact Ho].
  - offer_cases Ho. apply removeSub_built.
Qed.
End group.

Lemma step_built top f : built top f → ∀ depth f', top = bool_decide (depth = 0) →
  offers (FilterGroup f depth) f' → built top f'.
Proof.
  intros Hb. induction Hb as [top ps Hps Hnd Hone|top l Hne Hl IH] using built_nested_ind;
    intros depth f' Htop Ho.
  - cbn [FilterGroup] in Ho. eapply leaf_step; [done|done|by apply built_leaf| |exact Htop|exact Ho].
    intros b. by apply built_leaf.
  - eapply group_step; [done|done| |exact Htop|exact Ho].
    apply Forall_forall. intros g Hg g' Hg'.
    by eapply (proj1 (Forall_forall _ _) IH g Hg (S depth)).
Qed.

(** ** Properties *)

(** A filter that some sequence of the builder's actions, at any depth, leads to. *)
Definition buildable : EvalFilter → Prop :=
  rtc (λ f f', offers (FilterGroup f 0) f') createEmptyFilter.

(** C26. What the filter builder can express: whatever the user clicks and types, every
    leaf holds at most one condition, the top level is a leaf or a non-empty AND, every
    group below is a non-empty OR, and there is no NOT. *)
Theorem builder_grammar f : buildable f → built true f.
Proof.
  unfold buildable. intros Hr. pose proof (built_empty true) as Hb.
  induction Hr as [f|f g h Hs _ IH]; [done|]. apply IH. exact (step_built true f Hb 0 g eq_refl Hs).
Qed.

(** Adding a group below the top level keeps the condition only if it is a span
    kind or a model: the condition of any other type is replaced by two empty ones,
    where the code means to keep it as the first branch. *)
Theorem add_group_keeps_condition k s :
  k ∈ LEAF_CONDITIONS.*1 → truthy s = true →
  let f := Filter [(k, VText s)] in
  offers (FilterGroup f 1) (wrap_in_or f)
  ∧ (group (js "or") (wrap_in_or f) = [f; createEmptyFilter] ↔ k = js "kind" ∨ k = js "model")
  ∧ (group (js "or") (wrap_in_or f) = [createEmptyFilter; createEmptyFilter] ↔ k ≠ js "kind" ∧ k ≠ js "model").
Proof.
  intros Hk Hs f.
  assert (wrap_in_or f = if bool_decide (k = js "kind" ∨ k = js "model")
                         then Filter [(js "or", VGroup [f; createEmptyFilter])]
                         else Filter [(js "or", VGroup [createEmptyFilter; createEmptyFilter])]) as E.
  { unfold wrap_in_or, truthy_field, get, f. simpl props. simpl prop_get.
    repeat case_decide; case_bool_decide; rewrite ?Hs; simpl; try done; naive_solver. }
  split_and!.
  - unfold f. cbn [FilterGroup]. unfold group_view.
    assert (Forall leaf_prop [(k, VText s)]) as Hps by (apply Forall_singleton; left; simpl; eauto).
    rewrite !(leaf_no_group _ Hps), (leaf_no_not _ Hps). cbv zeta. cbn [negb andb orb when truthy app].
    rewrite bool_decide_false by done. cbn [negb andb when app].
    apply offers_el. right. eexists. split; [right; left|].
    apply offers_nil. eexists. split; [left|]. left. simpl. left.
  - rewrite E. case_bool_decide as Hd; unfold group, get; simpl; [naive_solver|].
    split; [|done]. intros [=].
  - rewrite E. case_bool_decide as Hd; unfold group, get; simpl; [|naive_solver].
    split; [intros [=]|naive_solver].
Qed.

Lemma builder_grammar_witness : built true (add_condition createEmptyFilter).
Proof.
  apply builder_grammar. apply rtc_once. left. vm_compute. repeat first [left; reflexivity | left; fail | right].
Defined.

Lemma add_group_keeps_condition_witness :
  group (js "or") (wrap_in_or (Filter [(js "service_name", VText (js "api"))])) = [createEmptyFilter; createEmptyFilter].
Proof.
  apply (add_group_keeps_condition (js "service_name") (js "api")).
  - vm_compute. repeat first [by left | right].
  - reflexivity.
  - split; vm_compute; discriminate.
Defined.
