(* ===== verification/Settings.v ===== *)
(** The settings page (ui/src/pages/Settings.tsx): the API keys of a project, and the
    dialog for a new project.

    Module Keys is the page with its dialogs.  A dialog has a number: what its requests
    do after it is gone reaches nothing but the toasts.  The texts written to the
    clipboard are recorded with whether the browser let them.  Module NewProject is the
    dialog App shows. *)
From S2P Require Import Prelude.
From S2P Require Import JsString.
From S2P Require Import JsNumber.
From S2P Require Import JsJson.
From S2P Require Import Ui.
From S2P Require Import Widgets.
From S2P Require Import Shell.
From S2P Require Import Toast.
Local Open Scope Z_scope.

(** ** API keys *)

Module Keys.

Inductive key_kind : Type := project | service.
#[export] Instance key_kind_eq : EqDecision key_kind.
Proof. solve_decision. Defined.
Definition kind_text (k : key_kind) : jsstr := match k with project => js "project" | service => js "service" end.
Definition kind_title (k : key_kind) : jsstr := match k with project => js "Project" | service => js "Service" end.

Record APIKey : Type := {
  key_id : jsstr; kind : key_kind; service_name : option jsstr; name : option jsstr; created_at : jsstr;
  revoked_at : option jsstr
}.

(** [s.slice(-4)]. *)
Definition last_four (s : jsstr) : jsstr := drop (length s - 4) s.

Definition displayName (k : APIKey) : jsstr :=
  if truthy_opt (name k) then default [] (name k) else
  if bool_decide (kind k = service) && truthy_opt (service_name k) then default [] (service_name k) else
  kind_title (kind k) ++ js " Key (..." ++ last_four (key_id k) ++ js ")".

(** ** State *)

Record dialog : Type := Dialog {
  number : nat; serviceName : jsstr; keyName : jsstr; generating : bool; rawKey : option jsstr
}.
#[export] Instance dialog_eta : Eta dialog := λ d, Dialog (number d) (serviceName d) (keyName d) (generating d) (rawKey d).

Record state : Type := State {
  activeProject : jsstr;
  apiKeys : list APIKey;
  loading : bool;
  generateKind : option key_kind;
  generate : option dialog;
  dialogs : nat;
  revokeKeyId : option jsstr;
  clipboard : option jsstr;
  toasted : list (ToastType * jsstr)
}.
#[export] Instance state_eta : Eta state := λ s,
  State (activeProject s) (apiKeys s) (loading s) (generateKind s) (generate s) (dialogs s) (revokeKeyId s) (clipboard s) (toasted s).
Definition initial (p : jsstr) : state := State p [] true None None 0 None None [].

Definition addToast (t : ToastType) (m : jsstr) (s : state) : state := s <| toasted ::= λ l, l ++ [(t, m)] |>.

(** ** Requests *)

Definition keys_url (p : jsstr) : jsstr := js "/api/v1/projects/" ++ p ++ js "/api-keys".

(** [None] is a body that is no array. *)
Definition keys_answer (a : answer (option (list APIKey))) (s : state) : state :=
  match ok_body a with Some data => s <| apiKeys := default [] data |> | None => s end <| loading := false |>.

Definition fetchKeys (p : jsstr) (after : state → state) (s : state) : outcome state :=
  (s, [Fetch (option (list APIKey)) (get_request (keys_url p)) (λ a s, now (after (keys_answer a s)))]).

(** What the server says of a new key: an error, or the key if it is a text. *)
Record key_body : Type := { b_error : option jsstr; b_raw_key : option jsstr }.

(** The setters of a dialog that is gone do nothing. *)
Definition in_dialog (n : nat) (f : dialog → dialog) (s : state) : state :=
  s <| generate ::= fmap (λ d, if bool_decide (number d = n) then f d else d) |>.

Definition generate_answer (n : nat) (a : answer key_body) (s : state) : outcome state :=
  let failed (m : jsstr) := addToast Toast.error m s in
  now (in_dialog n (λ d, d <| generating := false |>)
    match a with
    | NoAnswer _ => failed (js "Failed to generate API key")
    | Answer status _ body =>
      if ok_status status then
        match body with
        | Ok b =>
          if truthy_opt (b_raw_key b) then in_dialog n (λ d, d <| rawKey := b_raw_key b |>) s
          else failed (js "Server returned an invalid key — please try again")
        | Err _ => failed (js "Failed to generate API key")
        end
      else failed (refusal_text b_error "Failed to generate API key" a)
    end).

Definition generate_body (k : key_kind) (d : dialog) : json :=
  JObj ([(js "kind", JStr (kind_text k))]
        ++ match k with
           | service => [(js "service_name", JStr (trim (serviceName d)))]
           | project => if truthy (trim (keyName d)) then [(js "name", JStr (trim (keyName d)))] else []
           end).

Definition handleSubmit (k : key_kind) (d : dialog) (s : state) : outcome state :=
  if bool_decide (k = service) && negb (truthy (trim (serviceName d))) then now s else
  (in_dialog (number d) (λ d, d <| generating := true |>) s,
   [Fetch key_body (send_json "POST" (keys_url (activeProject s)) (generate_body k d)) (generate_answer (number d))]).

(** [onClose] of the dialog. *)
Definition close_dialog (s : state) : outcome state :=
  fetchKeys (activeProject s) Datatypes.id (s <| generateKind := None |> <| generate := None |>).

(** What comes of writing to the clipboard: a page that was not loaded over a secure
    connection has none, and the call throws. *)
Inductive clipboard_write : Type := Written | Refused | Missing.

(** The button of the key: copy, say so, close.  The promise of the write is not waited
    for; an exception ends the handler before the toast. *)
Definition copy_key (w : clipboard_write) (s : state) : outcome state :=
  match generateKind s, d ← generate s; rawKey d with
  | Some k, Some raw =>
    let done := close_dialog ∘ addToast success (kind_title k ++ js " API key generated") in
    match w with
    | Written => done (s <| clipboard := Some raw |>)
    | Refused => done s
    | Missing => now s
    end
  | _, _ => now s
  end.

Definition revoke_answer (p : jsstr) (a : answer unit) (s : state) : outcome state :=
  let failed := now (addToast Toast.error (js "Failed to revoke key") s <| revokeKeyId := None |>) in
  match a with
  | Answer status _ _ =>
    if ok_status status
    then fetchKeys p (λ s, s <| revokeKeyId := None |>) (addToast success (js "API key revoked") s)
    else failed
  | NoAnswer _ => failed
  end.

Definition confirmRevoke (s : state) : outcome state :=
  match revokeKeyId s with
  | Some i =>
    if truthy i then
      (s, [Fetch unit (Request (js "DELETE") (keys_url (activeProject s) ++ js "/" ++ i) None) (revoke_answer (activeProject s))])
    else now s
  | None => now s
  end.

(** ** Events *)

Inductive op : Type :=
| Mounted
| SwitchProject (p : jsstr)
| Generate (k : key_kind)
| EditServiceName (t : jsstr)
| EditKeyName (t : jsstr)
| Submit
| CopyKey (w : clipboard_write)
| CloseDialog
| Revoke (keyId : jsstr)
| ConfirmRevoke
| CancelRevoke.

(** A dialog that is already there keeps its state when its kind changes. *)
Definition open_dialog (k : key_kind) (s : state) : state :=
  let s := s <| generateKind := Some k |> in
  match generate s with
  | Some _ => s
  | None => s <| generate := Some (Dialog (dialogs s) [] [] false None) |> <| dialogs ::= S |>
  end.

Definition edit_dialog (f : dialog → dialog) (s : state) : state := s <| generate ::= fmap f |>.

Definition handle (o : op) (s : state) : outcome state :=
  match o with
  | Mounted => fetchKeys (activeProject s) Datatypes.id s
  | SwitchProject p =>
    if bool_decide (p = activeProject s) then now s else fetchKeys p Datatypes.id (s <| activeProject := p |>)
  | Generate k => now (open_dialog k s)
  | EditServiceName t => now (edit_dialog (λ d, d <| serviceName := t |>) s)
  | EditKeyName t => now (edit_dialog (λ d, d <| keyName := t |>) s)
  | Submit => match generateKind s, generate s with Some k, Some d => handleSubmit k d s | _, _ => now s end
  | CopyKey w => copy_key w s
  | CloseDialog => close_dialog s
  | Revoke i => now (s <| revokeKeyId := Some i |>)
  | ConfirmRevoke => confirmRevoke s
  | CancelRevoke => now (s <| revokeKeyId := None |>)
  end.

(** ** Views *)

Section views.
Context (toLocaleDateString : jsstr → jsstr).

Definition KeyCard (k : APIKey) : view op :=
  let isRevoked := bool_decide (is_Some (revoked_at k)) in
  El "div" []
    (El "div" []
       [El "div" [] ([El "span" [] [Text (displayName k)]; El "span" [] [Text (kind_title (kind k))]]
                     ++ when isRevoked (El "span" [] [txt "Revoked"]));
        El "div" [] (El "span" [] [Text (key_id k)]
                     :: when (negb isRevoked) (El "CopyButton" [Attr "text" (key_id k); Attr "aria-label" (js "Copy API key " ++ kind_text (kind k))] []));
        El "p" [] [txt "Created: "; Text (toLocaleDateString (created_at k))]]
     :: when (negb isRevoked) (El "button" [On "click" (Revoke (key_id k))] [txt "Revoke"])).

Definition GenerateKeyDialog (k : key_kind) (d : dialog) : view op :=
  match rawKey d with
  | Some raw =>
    El "div" []
      [El "h3" [] [txt "Your API Key"];
       El "p" [] [txt "This is the only time your key will be shown. Store it securely."];
       El "code" [] [Text raw];
       El "button" [On "click" (CopyKey Written); On "click" (CopyKey Refused); On "click" (CopyKey Missing)] [txt "Copy Key"];
       El "button" [On "click" CloseDialog] [txt "Close"]]
  | None =>
    El "div" []
      [El "h3" [] [Text (js "Generate " ++ kind_title k ++ js " API Key")];
       El "form" []
         [match k with
          | service =>
            El "div" [] [El "label" [] [txt "Service Name"];
                         El "input" [Attr "value" (serviceName d); OnValue "change" EditServiceName;
                                     Attr "placeholder" (js "e.g. my-agent")] []]
          | project =>
            El "div" [] [El "label" [] [txt "Name "; El "span" [] [txt "(optional)"]];
                         El "input" [Attr "value" (keyName d); OnValue "change" EditKeyName;
                                     Attr "placeholder" (js "e.g. CI ingest, local dev")] []]
          end;
          El "button" [Attr "type" (js "submit"); On "submit" Submit;
                       Flag "disabled" (generating d || bool_decide (k = service) && negb (truthy (trim (serviceName d))))]
            [if generating d then txt "Generating..." else txt "Generate Key"];
          El "button" [Attr "type" (js "button"); On "click" CloseDialog] [txt "Cancel"]]]
  end.

Definition ConfirmDialog (message : jsstr) (onConfirm onCancel : op) : view op :=
  El "div" [] [El "p" [] [Text message]; El "button" [On "click" onConfirm] [txt "Confirm"];
               El "button" [On "click" onCancel] [txt "Cancel"]].

Definition render (s : state) : view op :=
  El "div" []
    ([El "div" []
        [El "div" [] [El "h2" [] [txt "API Keys"];
                      El "p" [] [txt "Manage API keys for your active project. Keys are shown only once when generated."]];
         El "div" [] [El "button" [On "click" (Generate project)] [txt "+ New Project Key"];
                      El "button" [On "click" (Generate service)] [txt "+ New Service Key"]];
         if loading s then El "div" [] (replicate 3 Skeleton) else
         if bool_decide (apiKeys s = []) then El "div" [] [txt "No API keys yet. Generate one to start ingesting traces."]
         else El "div" [] (KeyCard <$> apiKeys s)]]
     ++ match generateKind s, generate s with Some k, Some d => [GenerateKeyDialog k d] | _, _ => [] end
     ++ match revokeKeyId s with
        | Some i => when (truthy i)
                      (ConfirmDialog (js "Are you sure you want to revoke this API key? This action cannot be undone.")
                         ConfirmRevoke CancelRevoke)
        | None => []
        end).

Definition legal (o : op) (s : state) : Prop :=
  match o with
  | Mounted | SwitchProject _ => True
  | _ => offers (render s) o
  end.
End views.
End Keys.

(** ** The dialog for a new project *)

Module NewProject.

Record state : Type := State {
  new_name : jsstr; loading : bool; created : list Project; closes : nat; toasted : list (ToastType * jsstr)
}.
#[export] Instance state_eta : Eta state := λ s, State (new_name s) (loading s) (created s) (closes s) (toasted s).
Definition initial : state := State [] false [] 0 [].

Definition addToast (t : ToastType) (m : jsstr) (s : state) : state := s <| toasted ::= λ l, l ++ [(t, m)] |>.

(** What the server answers: an error, or the project; the status says which of the two counts. *)
Record body : Type := { b_error : option jsstr; b_project : Project }.

Definition create_answer (n : jsstr) (a : answer body) (s : state) : outcome state :=
  let failed (m : jsstr) := addToast Toast.error m s in
  now (match a with
       | NoAnswer _ => failed (js "Failed to create project")
       | Answer status _ b =>
         if ok_status status then
           match b with
           | Ok b =>
             let shown := if truthy (name (b_project b)) then name (b_project b) else trim n in
             addToast success (js "Project " ++ [c_quote] ++ shown ++ [c_quote] ++ js " created") s
               <| created ::= λ l, l ++ [b_project b] |> <| closes ::= S |>
           | Err _ => failed (js "Failed to create project")
           end
         else failed (refusal_text b_error "Failed to create project" a)
       end <| loading := false |>).

Definition handleSubmit (s : state) : outcome state :=
  if negb (truthy (trim (new_name s))) then now s else
  (s <| loading := true |>,
   [Fetch body (send_json "POST" (js "/api/v1/projects") (JObj [(js "name", JStr (trim (new_name s)))])) (create_answer (new_name s))]).

Inductive op : Type := EditName (t : jsstr) | Submit | Close.

Definition handle (o : op) (s : state) : outcome state :=
  match o with
  | EditName t => now (s <| new_name := t |>)
  | Submit => handleSubmit s
  | Close => now (s <| closes ::= S |>)
  end.

Definition render (s : state) : view op :=
  El "div" []
    [El "h3" [] [txt "New Project"];
     El "form" []
       [El "div" [] [El "label" [] [txt "Project Name"];
                     El "input" [Attr "value" (new_name s); OnValue "change" EditName; Attr "placeholder" (js "e.g. my-agent")] []];
        El "button" [Attr "type" (js "submit"); On "submit" Submit; Flag "disabled" (loading s || negb (truthy (trim (new_name s))))]
          [if loading s then txt "Creating..." else txt "Create Project"];
        El "button" [Attr "type" (js "button"); On "click" Close] [txt "Cancel"]]].
End NewProject.

(** ** Theorems on the keys page *)

Module KeysProps.
Import Keys.

(** *** The requests that wait *)

Definition is_post (p : program state) : bool := match p with Fetch _ q _ => bool_decide (r_method q = js "POST") end.
Definition asks (p : program state) (n : nat) : Prop := ∃ q, r_method q = js "POST" ∧ p = Fetch key_body q (generate_answer n).

Definition same_dialog (s s' : state) : Prop :=
  generate s' = generate s ∧ generateKind s' = generateKind s ∧ dialogs s' = dialogs s.

(** Programs that leave the dialogs alone, with what they go on to. *)
Inductive quiet : program state → Prop :=
| quiet_fetch T q resume :
    r_method q ≠ js "POST" → (∀ a s, same_dialog s (resume a s).1 ∧ Forall quiet (resume a s).2) → quiet (Fetch T q resume).

Lemma quiet_keys p f s : (∀ s, same_dialog s (f s)) → Forall quiet (fetchKeys p f s).2.
Proof.
  intros Hf. apply Forall_singleton. constructor; [by vm_compute|]. intros a s'. split; [|constructor].
  simpl. destruct (Hf (keys_answer a s')) as (H1 & H2 & H3). unfold same_dialog. rewrite H1, H2, H3.
  unfold keys_answer. by destruct (ok_body a).
Qed.

Lemma quiet_revoke s : same_dialog s (confirmRevoke s).1 ∧ Forall quiet (confirmRevoke s).2.
Proof.
  unfold confirmRevoke. destruct (revokeKeyId s) as [i|]; [|by repeat constructor].
  destruct (truthy i); [|by repeat constructor]. split; [done|].
  apply Forall_singleton. constructor; [by vm_compute|]. intros a s'. unfold revoke_answer.
  destruct a as [st t b|m]; [|by repeat constructor]. destruct (ok_status st); [|by repeat constructor].
  split; [done|]. by apply quiet_keys.
Qed.

Lemma quiet_not_post p : quiet p → is_post p = false.
Proof. intros [T q resume H _]. simpl. by apply bool_decide_eq_false. Qed.

Lemma quiet_filter ps : Forall quiet ps → filter (λ p, is_post p = true) ps = [].
Proof.
  induction 1 as [|p ps Hp _ IH]; [done|]. rewrite filter_cons_False; [done|]. by rewrite (quiet_not_post p Hp).
Qed.

Lemma asks_post p n : asks p n → is_post p = true.
Proof. intros (q & H & ->). simpl. by apply bool_decide_eq_true. Qed.

(** The numbers [ns] of the dialogs whose requests wait. *)
Definition waiting (c : outcome state) (ns : list nat) : Prop :=
  Forall (λ p, is_post p = false → quiet p) c.2 ∧ Forall2 asks (filter (λ p, is_post p = true) c.2) ns
  ∧ NoDup ns ∧ Forall (λ n, (n < dialogs c.1)%nat) ns
  ∧ (generateKind c.1 = None ↔ generate c.1 = None)
  ∧ (∀ d, generate c.1 = Some d →
      (number d < dialogs c.1)%nat ∧ (generating d = true ↔ number d ∈ ns) ∧ (is_Some (rawKey d) → number d ∉ ns)).

Lemma waiting_initial p : waiting (initial p, []) [].
Proof. by repeat (constructor || split). Qed.

(** A handler that makes no request for a key: the dialog afterwards is the same but for
    its fields, or a new one. *)
Definition dialog_kept (s s' : state) : Prop :=
  (dialogs s <= dialogs s')%nat ∧ (generateKind s' = None ↔ generate s' = None)
  ∧ ∀ d, generate s' = Some d →
      number d = dialogs s ∧ (dialogs s < dialogs s')%nat ∧ generating d = false ∧ rawKey d = None
      ∨ ∃ d0, generate s = Some d0 ∧ number d = number d0 ∧ generating d = generating d0 ∧ rawKey d = rawKey d0.

Lemma waiting_kept s ps s' qs ns :
  dialog_kept s s' → Forall quiet qs → waiting (s, ps) ns → waiting (s', ps ++ qs) ns.
Proof.
  intros (Hl & Hk & Hd) Hq (Hc & Hw & Hn & Hlt & _ & Hd0). unfold waiting in *. cbn [fst snd] in *.
  rewrite filter_app, (quiet_filter qs Hq), app_nil_r. split_and!; try done.
  - apply Forall_app. split; [done|]. eapply Forall_impl; [exact Hq|done].
  - eapply Forall_impl; [exact Hlt|]. simpl. lia.
  - intros d [(E1 & E2 & E3 & E4)|(d0 & E0 & E1 & E2 & E3)]%Hd.
    + rewrite E1, E3, E4. split; [lia|]. assert (dialogs s ∉ ns) as Hni.
      { intros Hin%(proj1 (Forall_forall _ _) Hlt). lia. }
      split; [by split; intros|done].
    + destruct (Hd0 d0 E0) as (B1 & B2 & B3). rewrite E1, E2, E3. split; [lia|done].
Qed.

Lemma same_kept s s' : same_dialog s s' → (generateKind s = None ↔ generate s = None) → dialog_kept s s'.
Proof.
  intros (H1 & H2 & H3) Hk. unfold dialog_kept. rewrite H1, H2, H3. split_and!; [lia|done|]. intros d Hd. right. by exists d.
Qed.

Lemma waiting_answer s ps p qs c ns :
  answered p s c → waiting (s, ps ++ p :: qs) ns → ∃ ns', waiting (c.1, ps ++ c.2 ++ qs) ns'.
Proof.
  intros Ha (Hc & Hw & Hn & Hl & Hk & Hd). cbn [fst snd] in *.
  rewrite filter_app, filter_cons in Hw. apply Forall_app in Hc as [Hps Hqs]. apply Forall_cons in Hqs as [Hp Hqs].
  destruct (decide (is_post p = true)) as [Hpost|Hpost].
  - apply Forall2_app_inv_l in Hw as (n1 & n2 & H1 & H2 & ->).
    apply Forall2_cons_inv_l in H2 as (n & n2' & (q & _ & ->) & H2 & ->). exists (n1 ++ n2').
    destruct Ha as [a ->]. assert ((generate_answer n a s).2 = []) as -> by done. cbn [app].
    assert (∀ m, m ∈ n1 ++ n2' ↔ m ∈ n1 ++ n :: n2' ∧ m ≠ n) as Hin.
    { apply NoDup_app in Hn as (Hn1 & Hdis & Hn2). apply NoDup_cons in Hn2 as [Hn2 _]. intros m.
      rewrite !elem_of_app, elem_of_cons. specialize (Hdis m). rewrite elem_of_cons in Hdis.
      split; [|naive_solver]. intros [?|?]; (split; [tauto|]); intros ->; naive_solver. }
    assert (∀ d, generate (generate_answer n a s).1 = Some d → ∃ d0, generate s = Some d0 ∧ number d = number d0
              ∧ (number d0 ≠ n ∧ d = d0 ∨ number d0 = n ∧ generating d = false)) as Hg.
    { intros d. unfold generate_answer. cbv zeta. unfold now, in_dialog, addToast.
      destruct a as [st t b|m]; [destruct (ok_status st); [destruct b as [b|e]; [destruct (truthy_opt _)|]|]|];
      simpl; destruct (generate s) as [d0|]; simpl; try done; intros [= <-]; exists d0;
      (split; [done|]); repeat (case_bool_decide; simpl); naive_solver. }
    assert (dialogs (generate_answer n a s).1 = dialogs s ∧ generateKind (generate_answer n a s).1 = generateKind s
            ∧ (generate (generate_answer n a s).1 = None ↔ generate s = None)) as (E1 & E2 & E3).
    { unfold generate_answer. cbv zeta. unfold now, in_dialog, addToast.
      destruct a as [st t b|m]; [destruct (ok_status st); [destruct b as [b|e]; [destruct (truthy_opt _)|]|]|];
      simpl; by destruct (generate s). }
    unfold waiting. cbn [fst snd]. rewrite E1, E2, E3. split_and!; try done.
    + by apply Forall_app.
    + rewrite filter_app. by apply Forall2_app.
    + apply NoDup_app in Hn as (Hn1 & Hdis & Hn2). apply NoDup_cons in Hn2 as [Hn2 Hn2']. apply NoDup_app.
      split_and!; [done| |done]. intros x Hx. specialize (Hdis x Hx). set_solver.
    + apply Forall_forall. intros m [Hm _]%Hin. by apply (proj1 (Forall_forall _ _) Hl).
    + intros d (d0 & Hd0 & -> & Hcase)%Hg. destruct (Hd d0 Hd0) as (B1 & B2 & B3). split; [done|].
      rewrite Hin. destruct Hcase as [[Hne ->]|[-> Hf]]; [naive_solver|]. rewrite Hf. naive_solver.
  - exists ns. apply not_true_is_false in Hpost. destruct (Hp Hpost) as [T q resume _ Hq]. destruct Ha as [a ->].
    destruct (Hq a s) as [(E1 & E2 & E3) Hqs']. unfold waiting. cbn [fst snd]. rewrite E1, E2, E3.
    split_and!; try done.
    + rewrite !Forall_app. split_and!; [done| |done]. eapply Forall_impl; [exact Hqs'|done].
    + by rewrite !filter_app, (quiet_filter _ Hqs').
Qed.

Section keys.
Context (toLocaleDateString : jsstr → jsstr) (p0 : jsstr).
#[local] Set Default Proof Using "All".

Abbreviation step := (step (legal toLocaleDateString) handle).
Definition keys_reachable := reachable (legal toLocaleDateString) handle (initial p0).

(** What the dialog offers, the page does. *)
Lemma offers_in_dialog k d o s :
  generateKind s = Some k → generate s = Some d → offers (GenerateKeyDialog k d) o →
  offers (render toLocaleDateString s) o.
Proof.
  intros Hk Hd Ho. unfold render. rewrite Hk, Hd. eapply offers_child; [|exact Ho].
  rewrite !elem_of_app. right. left. left.
Qed.

Lemma no_submit (v : view op) : emits (λ o, o ≠ Submit) v → ¬ offers v Submit.
Proof. intros H Ho. by apply (H Submit). Qed.

(** The form can be submitted while no request of its own waits and no key is shown. *)
Lemma submit_offered s : legal toLocaleDateString Submit s →
  ∃ k d, generateKind s = Some k ∧ generate s = Some d ∧ rawKey d = None ∧ generating d = false
    ∧ (k = service → truthy (trim (serviceName d)) = true).
Proof.
  simpl. unfold render. intros (c & Hc & H)%offers_nil.
  rewrite !elem_of_app in Hc. destruct Hc as [Hc|[Hc|Hc]].
  - apply list_elem_of_singleton in Hc as ->. exfalso. revert H. apply no_submit. unfold KeyCard, Skeleton. simpl replicate. emit; try done.
  - destruct (generateKind s) as [k|], (generate s) as [d|]; try by apply not_elem_of_nil in Hc.
    apply list_elem_of_singleton in Hc as ->. exists k, d. split; [done|]. split; [done|].
    destruct (rawKey d) as [r|] eqn:Hr; [|split; [done|]].
    { exfalso. revert H. apply no_submit. unfold GenerateKeyDialog. rewrite Hr. by emit. }
    destruct (generating d || bool_decide (k = service) && negb (truthy (trim (serviceName d)))) eqn:E.
    + exfalso. revert H. apply no_submit. unfold GenerateKeyDialog. rewrite Hr, E.
      apply emits_el; [constructor|]. constructor; [by emit|].
      constructor; [|constructor]. apply emits_el; [constructor|]. constructor; [by emit|].
      constructor; [|by emit]. apply emits_disabled; [done|by repeat constructor|by emit].
    + apply orb_false_iff in E as [E1 E2]. split; [done|]. intros ->.
      rewrite bool_decide_true in E2 by done. by apply negb_false_iff.
  - exfalso. destruct (revokeKeyId s); [|by apply not_elem_of_nil in Hc].
    destruct (truthy _); [|by apply not_elem_of_nil in Hc]. apply list_elem_of_singleton in Hc as ->.
    revert H. apply no_submit. unfold ConfirmDialog. by emit.
Qed.

Lemma handleSubmit_posts k d s :
  (k = service → truthy (trim (serviceName d)) = true) →
  handleSubmit k d s
  = (in_dialog (number d) (λ d, d <| generating := true |>) s,
     [Fetch key_body (send_json "POST" (keys_url (activeProject s)) (generate_body k d)) (generate_answer (number d))]).
Proof.
  intros H. unfold handleSubmit. destruct k; [done|]. by rewrite H.
Qed.

Lemma waiting_submit k d s ps ns :
  generate s = Some d → generating d = false → rawKey d = None →
  (k = service → truthy (trim (serviceName d)) = true) → waiting (s, ps) ns →
  waiting ((handleSubmit k d s).1, ps ++ (handleSubmit k d s).2) (ns ++ [number d]).
Proof.
  intros Hd Hg Hr Hv (Hc & Hw & Hn & Hlt & Hk & Hd0). rewrite (handleSubmit_posts k d s Hv).
  destruct (Hd0 d Hd) as (B1 & B2 & B3). cbn [fst snd] in *.
  assert (number d ∉ ns) as Hni by (intros Hin%B2; congruence).
  unfold waiting. cbn [fst snd]. unfold in_dialog. simpl. rewrite Hd. simpl. rewrite bool_decide_true by done.
  split_and!.
  - apply Forall_app. split; [done|]. apply Forall_singleton. done.
  - rewrite filter_app. apply Forall2_app; [done|]. rewrite filter_cons_True by done. constructor; [|constructor].
    eexists. split; [|reflexivity]. done.
  - apply NoDup_app. split_and!; [done| |apply NoDup_singleton]. intros x Hx ->%list_elem_of_singleton. done.
  - apply Forall_app. split; [done|]. by apply Forall_singleton.
  - rewrite Hd in Hk. split; [by intros ?%Hk|done].
  - intros d' [= <-]. simpl. split; [done|]. split; [|rewrite Hr; by intros []].
    split; [|done]. intros _. apply elem_of_app. right. left.
Qed.

Lemma waiting_event o s ps ns :
  legal toLocaleDateString o s → waiting (s, ps) ns → ∃ ns', waiting ((handle o s).1, ps ++ (handle o s).2) ns'.
Proof.
  intros Hl Hw. pose proof Hw as (_ & _ & _ & _ & Hk & Hd). simpl in Hk, Hd.
  assert (∀ s' qs, same_dialog s s' → Forall quiet qs → ∃ ns', waiting (s', ps ++ qs) ns') as Hsame.
  { intros s' qs Hs Hq. exists ns. eapply waiting_kept; [by apply same_kept|done|done]. }
  assert (∀ s' qs, dialog_kept s s' → Forall quiet qs → ∃ ns', waiting (s', ps ++ qs) ns') as Hkept.
  { intros s' qs Hs Hq. exists ns. by eapply waiting_kept. }
  assert (∀ s', dialogs s' = dialogs s → ∃ ns', waiting ((close_dialog s').1, ps ++ (close_dialog s').2) ns') as Hclose.
  { intros s' E. apply Hkept; [|by apply quiet_keys]. unfold dialog_kept. simpl. split_and!; [lia|done..]. }
  destruct o as [|p|k|t|t| |w| |i| |]; simpl handle.
  - apply Hsame; [done|by apply quiet_keys].
  - case_bool_decide; [by apply Hsame|]. apply Hsame; [done|by apply quiet_keys].
  - apply Hkept; [|constructor]. unfold open_dialog. cbv zeta. simpl. destruct (generate s) as [d|] eqn:E.
    + unfold dialog_kept. simpl. rewrite E. split_and!; [lia|done|]. intros d' [= <-]. right. by exists d.
    + unfold dialog_kept. simpl. split_and!; [lia|done|]. intros d' [= <-]. left. simpl. split_and!; [done|lia|done..].
  - apply Hkept; [|constructor]. unfold dialog_kept. simpl. destruct (generate s) as [d|]; simpl; [|split_and!; naive_solver].
    split_and!; [lia|naive_solver|]. intros d' [= <-]. right. by exists d.
  - apply Hkept; [|constructor]. unfold dialog_kept. simpl. destruct (generate s) as [d|]; simpl; [|split_and!; naive_solver].
    split_and!; [lia|naive_solver|]. intros d' [= <-]. right. by exists d.
  - destruct (submit_offered s Hl) as (k & d & -> & E & Hr & Hg & Hv). rewrite E.
    exists (ns ++ [number d]). by apply waiting_submit.
  - unfold copy_key. destruct (generateKind s) as [k|]; [|by apply Hsame].
    destruct (generate s) as [d|]; [|by apply Hsame]. simpl. destruct (rawKey d); [|by apply Hsame].
    destruct w; [by apply Hclose|by apply Hclose|by apply Hsame].
  - by apply Hclose.
  - by apply Hsame.
  - destruct (quiet_revoke s). by apply Hsame.
  - by apply Hsame.
Qed.

Lemma waiting_step c c' ns : step c c' → waiting c ns → ∃ ns', waiting c' ns'.
Proof.
  destruct c as [s ps]. intros [(o & Hl & ->)|(ps' & p & qs & d & Hps & Ha & ->)]%step_inv Hw; cbn [fst snd] in *.
  - by eapply waiting_event.
  - subst ps. by eapply waiting_answer.
Qed.

Lemma waiting_reachable c : keys_reachable c → ∃ ns, waiting c ns.
Proof.
  apply (reachable_ind _ _ (λ c, ∃ ns, waiting c ns)); [exists []; apply waiting_initial|]. intros c1 c2 [ns Hw] Hs. by eapply waiting_step.
Qed.

(** C34. Every request for a key that waits is that of a dialog of its own: a
    dialog is generating exactly while its request waits, and neither then nor once its
    key is there can its form be submitted again. *)
Theorem one_key_per_dialog s ps :
  keys_reachable (s, ps) →
  ∃ ns, NoDup ns ∧ Forall2 asks (filter (λ p, is_post p = true) ps) ns
    ∧ ∀ d, generate s = Some d →
        (generating d = true ↔ number d ∈ ns)
        ∧ (number d ∈ ns ∨ is_Some (rawKey d) → ¬ legal toLocaleDateString Submit s).
Proof.
  intros [ns Hw]%waiting_reachable. pose proof Hw as (_ & H1 & H2 & _ & _ & H3). exists ns. split_and!; [done..|].
  intros d Hd. destruct (H3 d Hd) as (_ & Hg & _). split; [done|].
  intros Hor (k & d' & _ & Hd' & Hr & Hng & _)%submit_offered. simplify_eq.
  destruct Hor as [Hin|[r Hs]]; [apply Hg in Hin|]; congruence.
Qed.

(** *** Keys that are lost *)

(** No dialog to come has the number [n]. *)
Definition gone (n : nat) (s : state) : Prop := (n < dialogs s)%nat ∧ ∀ d, generate s = Some d → number d ≠ n.

Lemma gone_in_dialog n m f s : (∀ d, number (f d) = number d) → gone n s → gone n (in_dialog m f s).
Proof.
  intros Hf [Hn Hg]. split; [done|]. simpl. intros d. destruct (generate s) as [d0|] eqn:E; [|done].
  simpl. intros [= <-]. specialize (Hg d0 eq_refl). case_bool_decide; [by rewrite Hf|done].
Qed.

Lemma gone_handle n o s : gone n s → gone n (handle o s).1.
Proof.
  intros Hs. pose proof Hs as [Hn Hg]. destruct o as [|p|k|t|t| |w| |i| |]; simpl handle; try done.
  - by case_bool_decide.
  - unfold gone, open_dialog. simpl. destruct (generate s) as [d|] eqn:E; simpl; [by split|].
    split; [lia|]. intros d [= <-]. simpl. lia.
  - unfold gone. simpl. split; [done|]. destruct (generate s) as [d0|]; [|done]. intros d [= <-]. apply (Hg d0 eq_refl).
  - unfold gone. simpl. split; [done|]. destruct (generate s) as [d0|]; [|done]. intros d [= <-]. apply (Hg d0 eq_refl).
  - destruct (generateKind s), (generate s) as [d|]; try done. unfold handleSubmit. destruct (_ && _); [done|].
    by apply gone_in_dialog.
  - unfold copy_key. destruct (generateKind s), (generate s) as [d|]; try done. simpl.
    destruct (rawKey d); [|done]. by destruct w.
  - unfold confirmRevoke. destruct (revokeKeyId s) as [i|]; [|done]. by destruct (truthy i).
Qed.

Lemma gone_step n c c' ns : step c c' → waiting c ns → gone n c.1 → gone n c'.1.
Proof.
  destruct c as [s ps]. intros [(o & Hl & ->)|(ps' & p & qs & d & Hps & Ha & ->)]%step_inv (Hc & Hw & _) Hs; cbn [fst snd] in *.
  - by apply gone_handle.
  - subst ps. apply Forall_app in Hc as [_ Hc]. apply Forall_cons in Hc as [Hp _].
    destruct (decide (is_post p = true)) as [Hpost|Hpost].
    + rewrite filter_app, filter_cons_True in Hw by done. apply Forall2_app_inv_l in Hw as (n1 & n2 & _ & Hw & _).
      apply Forall2_cons_inv_l in Hw as (m & _ & (q & _ & ->) & _). destruct Ha as [a ->].
      unfold generate_answer. cbv zeta. simpl fst. apply gone_in_dialog; [done|].
      destruct a as [st t b|e]; [destruct (ok_status st); [destruct b as [b|e]; [destruct (truthy_opt _)|]|]|]; try done.
      by apply gone_in_dialog.
    + apply not_true_is_false in Hpost. destruct (Hp Hpost) as [T q resume _ Hq]. destruct Ha as [a ->].
      destruct (Hq a s) as [(E1 & _ & E3) _]. unfold gone. by rewrite E1, E3.
Qed.

Lemma answer_gone n status text b s :
  gone n s → ok_status status = true → truthy_opt (b_raw_key b) = true →
  generate_answer n (Answer status text (Ok b)) s = now s.
Proof.
  intros [_ Hg] Hst Hb. unfold generate_answer. cbv zeta. rewrite Hst, Hb. f_equal.
  assert (∀ f s, generate s = generate s → (∀ d, generate s = Some d → number d ≠ n) → in_dialog n f s = s) as H.
  { intros f [a ks l k g ds r cl ts] _ H. unfold in_dialog. simpl in *. unfold in_dialog. cbn.
    destruct g as [d|]; [|done]. simpl. by rewrite bool_decide_false by auto. }
  by rewrite !H; [..|rewrite H].
Qed.

(** A key is shown by the dialog that asked for it or never: if the dialog is closed
    while the request waits, then whatever happens before the server answers with the
    key, the answer changes nothing, and nothing reports that there is a new key. *)
Theorem closed_dialog_loses_key s ps d c status text b :
  keys_reachable (s, ps) → generate s = Some d →
  rtc step ((handle CloseDialog s).1, ps ++ (handle CloseDialog s).2) c →
  ok_status status = true → truthy_opt (b_raw_key b) = true →
  generate_answer (number d) (Answer status text (Ok b)) c.1 = now c.1.
Proof.
  intros [ns Hw]%waiting_reachable Hd Hr Hst Hb. apply answer_gone; [|done..].
  assert (∃ ns, waiting ((handle CloseDialog s).1, ps ++ (handle CloseDialog s).2) ns) as Hw'.
  { exists ns. eapply waiting_kept; [|by apply quiet_keys|done]. split_and!; [done..|]. done. }
  assert (gone (number d) ((handle CloseDialog s).1, ps ++ (handle CloseDialog s).2).1) as Hg.
  { destruct Hw as (_ & _ & _ & _ & _ & Hlt). destruct (Hlt d Hd). by split. }
  revert Hw' Hg. induction Hr as [c|c c1 c2 Hs Hr IH]; [done|]. intros [ns1 Hw1] Hg.
  apply IH; [by eapply waiting_step|by eapply gone_step].
Qed.

(** Copying closes the dialog and reports success without waiting for the browser: if
    it refuses the write, the key is neither in the clipboard nor shown any more. *)
Theorem refused_copy_reported k d raw s :
  generateKind s = Some k → generate s = Some d → rawKey d = Some raw →
  legal toLocaleDateString (CopyKey Refused) s
  ∧ let s' := (handle (CopyKey Refused) s).1 in
    generate s' = None ∧ clipboard s' = clipboard s ∧ toasted s' = toasted s ++ [(success, kind_title k ++ js " API key generated")].
Proof.
  intros Hk Hd Hr. split.
  - apply (offers_in_dialog k d); [done..|]. unfold GenerateKeyDialog. rewrite Hr.
    eapply offers_child; [do 3 right; left|]. apply (offers_on _ _ _ "click"); [done|]. right. left.
  - simpl. unfold copy_key. rewrite Hk, Hd. simpl. by rewrite Hr.
Qed.

(** *** Keys of another project *)

(** After a switch of the project whose list fails the page shows the keys of the project
    before, and revoking one of them asks the server to revoke it in the new project. *)
Theorem stale_keys_revoked s p k :
  loading s = false → p ≠ activeProject s → k ∈ apiKeys s → revoked_at k = None → key_id k ≠ [] →
  ∃ s1, rtc step (s, []) (s1, []) ∧ activeProject s1 = p ∧ apiKeys s1 = apiKeys s
    ∧ legal toLocaleDateString (Revoke (key_id k)) s1
    ∧ let s2 := (handle (Revoke (key_id k)) s1).1 in
      legal toLocaleDateString ConfirmRevoke s2
      ∧ ∃ resume, (handle ConfirmRevoke s2).2
          = [Fetch unit (Request (js "DELETE") (js "/api/v1/projects/" ++ p ++ js "/api-keys/" ++ key_id k) None) resume].
Proof.
  intros Hl Hp Hk Hr Hi.
  set (s0 := s <| activeProject := p |>). set (s1 := keys_answer (NoAnswer []) s0).
  assert (s1 = s0) as E1.
  { unfold s1, s0. clear Hi Hr Hk. destruct s. simpl in *. by subst. }
  exists s1. assert (legal toLocaleDateString (Revoke (key_id k)) s1) as Hrev.
  { rewrite E1. eapply offers_child; [apply elem_of_app; left; left|]. eapply offers_child; [right; right; left|].
    simpl. rewrite Hl. rewrite bool_decide_false by (intros E; rewrite E in Hk; by apply not_elem_of_nil in Hk).
    eapply offers_child; [by apply list_elem_of_fmap_2|]. unfold KeyCard. rewrite Hr. simpl.
    eapply offers_child; [right; left|]. apply (offers_on _ _ _ "click"); [done|left]. }
  split_and!; [|by rewrite E1..|done|].
  - eapply rtc_l; [exact (step_event (legal toLocaleDateString) handle (SwitchProject p) s [] I)|].
    simpl. rewrite bool_decide_false by done. apply rtc_once.
    exact (step_answer (legal toLocaleDateString) handle s0 [] [] _ _ _ (NoAnswer [])).
  - cbv zeta. apply truthy_spec in Hi. split.
    + simpl legal. unfold render. simpl. rewrite Hi. eapply offers_child; [apply elem_of_cons; right; apply elem_of_app; right; left|].
      eapply offers_child; [right; left|]. apply (offers_on _ _ _ "click"); [done|left].
    + simpl. unfold confirmRevoke. simpl. rewrite Hi. eexists. unfold keys_url.
      by rewrite <- !app_assoc.
Qed.
End keys.

Module Runs.
Definition date (t : jsstr) : jsstr := take 10 t.

Definition asked : dialog := Dialog 0 (js "my-agent") [] true None.
Definition filled : state := (handle (EditServiceName (js "my-agent")) (handle (Generate service) (initial (js "p1"))).1).1.
Definition waits : outcome state := ((handle Submit filled).1, [] ++ (handle Submit filled).2).

Lemma waits_reachable : keys_reachable date (js "p1") waits.
Proof.
  unfold keys_reachable, reachable.
  eapply rtc_l; [apply (step_event (legal date) handle (Generate service) (initial (js "p1")) [])|].
  { eapply offers_child; [left|]. eapply offers_child; [right; left|]. eapply offers_child; [right; left|].
    apply (offers_on _ _ _ "click"); [done|left]. }
  eapply rtc_l; [apply (step_event (legal date) handle (EditServiceName (js "my-agent")) _ [])|].
  { eapply (offers_in_dialog date (js "p1") service); [done..|]. eapply offers_child; [right; left|]. eapply offers_child; [left|].
    eapply offers_child; [right; left|]. apply (offers_value _ _ _ "change"); [done|]. right. left. }
  apply rtc_once. apply (step_event (legal date) handle Submit filled []).
  eapply (offers_in_dialog date (js "p1") service); [done..|]. eapply offers_child; [right; left|].
  eapply offers_child; [right; left|]. apply (offers_on _ _ _ "submit"); [by vm_compute|]. right. left.
Qed.

Lemma one_key_per_dialog_witness :
  keys_reachable date (js "p1") waits ∧ ∃ ns, 0%nat ∈ ns ∧ Forall2 asks (filter (λ p, is_post p = true) waits.2) ns.
Proof.
  split; [exact waits_reachable|].
  destruct (one_key_per_dialog date (js "p1") waits.1 waits.2 waits_reachable) as (ns & _ & H & Hd).
  exists ns. split; [|exact H]. by apply (Hd asked eq_refl).
Defined.

Definition body : key_body := {| b_error := None; b_raw_key := Some (js "sk-1") |}.

Lemma closed_dialog_loses_key_witness :
  let c := ((handle CloseDialog waits.1).1, waits.2 ++ (handle CloseDialog waits.1).2) in
  keys_reachable date (js "p1") waits ∧ generate_answer 0 (Answer 201 (Ok []) (Ok body)) c.1 = now c.1.
Proof.
  split; [exact waits_reachable|].
  exact (closed_dialog_loses_key date (js "p1") waits.1 waits.2 asked _ 201 (Ok []) body waits_reachable eq_refl
           (rtc_refl _ _) eq_refl eq_refl).
Defined.

Definition shown : dialog := Dialog 0 [] [] false (Some (js "sk-1")).

Lemma refused_copy_reported_witness :
  let s := initial (js "p1") <| generateKind := Some project |> <| generate := Some shown |> <| dialogs := 1%nat |> in
  legal date (CopyKey Refused) s ∧ clipboard (handle (CopyKey Refused) s).1 = None.
Proof.
  intros s. destruct (refused_copy_reported date (js "p1") project shown (js "sk-1") s eq_refl eq_refl eq_refl) as (Hl & _ & Hc & _).
  by split.
Defined.

Definition key : APIKey :=
  {| key_id := js "k1"; kind := project; service_name := None; name := None; created_at := js "2026-01-01T00:00:00Z"; revoked_at := None |}.

Lemma stale_keys_revoked_witness :
  let s := initial (js "p1") <| loading := false |> <| apiKeys := [key] |> in
  key_id key ≠ [] ∧ ∃ s1, rtc (step (legal date) handle) (s, []) (s1, []) ∧ activeProject s1 = js "p2" ∧ apiKeys s1 = [key].
Proof.
  intros s. assert (js "p2" ≠ activeProject s) as Hp by by vm_compute. assert (key_id key ≠ []) as Hk by by vm_compute.
  split; [exact Hk|].
  destruct (stale_keys_revoked date (js "p1") s (js "p2") key eq_refl Hp ltac:(left) eq_refl Hk) as (s1 & H1 & H2 & H3 & _).
  by exists s1.
Defined.
End Runs.
End KeysProps.

(** ** Theorems on the dialog for a new project *)

Module NewProjectProps.
Import NewProject.

(** Submitting asks for a project with the trimmed name, if that is not empty.  The
    answer ends the waiting; exactly if it is a success with a project, App is given
    the project and then told to close the dialog, and a toast says which of the two it was. *)
Theorem new_project_reported s :
  trim (new_name s) ≠ [] →
  ∃ resume, (handle Submit s).2
    = [Fetch body (send_json "POST" (js "/api/v1/projects") (JObj [(js "name", JStr (trim (new_name s)))])) resume]
  ∧ ∀ a s', let s2 := (resume a s').1 in
      loading s2 = false ∧ (resume a s').2 = []
      ∧ match ok_body a with
        | Some b => created s2 = created s' ++ [b_project b] ∧ closes s2 = S (closes s')
                    ∧ ∃ m, toasted s2 = toasted s' ++ [(success, m)]
        | None => created s2 = created s' ∧ closes s2 = closes s' ∧ ∃ m, toasted s2 = toasted s' ++ [(error, m)]
        end.
Proof.
  intros Hs%truthy_spec. simpl. unfold handleSubmit. rewrite Hs. eexists. split; [done|]. intros a s'. cbv zeta.
  split; [done|]. split; [done|]. unfold ok_body, body_or_error, create_answer.
  destruct a as [st t b|m]; [|by split_and!; [..|eexists]].
  destruct (ok_status st); [|by split_and!; [..|eexists]].
  destruct b as [b|e]; by split_and!; [..|eexists].
Qed.

Lemma new_project_reported_witness :
  let s := initial <| new_name := js " agent " |> in
  trim (new_name s) ≠ [] ∧ ∃ q resume, (handle Submit s).2 = [Fetch body q resume].
Proof.
  intros s. assert (trim (new_name s) ≠ []) as Hs by by vm_compute. split; [exact Hs|].
  destruct (new_project_reported s Hs) as (r & E & _). by do 2 eexists.
Defined.
End NewProjectProps.
