(* ===== verification/Admin.v ===== *)
(** The administration page (ui/src/pages/Admin.tsx): the keys of all projects, the
    projects, the traces of the active project and the state of the ingest queue.

    The page fetches everything one after the other.  The section of the chosen tab is
    mounted when the tab is chosen and has a number: what a deletion does after its
    section is gone reaches nothing of a later one. *)
From S2P Require Import Prelude.
From S2P Require Import JsString.
From S2P Require Import JsJson.
From S2P Require Import Formatters.
From S2P Require Import Ui.
From S2P Require Import Widgets.
From S2P Require Import Shell.
From S2P Require Import Toast.
Local Open Scope Z_scope.

Inductive key_kind : Type := project | service.
#[export] Instance key_kind_eq : EqDecision key_kind.
Proof. solve_decision. Defined.

Record APIKey : Type := {
  key_id : jsstr; kind : key_kind; service_name : option jsstr; key_name : option jsstr; created_at : jsstr;
  revoked_at : option jsstr
}.

(** [s.slice(-4)]. *)
Definition last_four (s : jsstr) : jsstr := drop (length s - 4) s.

Definition keyDisplayName (k : APIKey) : jsstr :=
  if truthy_opt (key_name k) then default [] (key_name k) else
  if bool_decide (kind k = service) && truthy_opt (service_name k) then default [] (service_name k) else
  match kind k with service => js "Service Key (..." | project => js "Project Key (..." end ++ last_four (key_id k) ++ js ")".

(** ** State *)

Inductive tab : Type := keys | projects_ | traces | ops.
#[export] Instance tab_eq : EqDecision tab.
Proof. solve_decision. Defined.

Inductive order : Type := newest | oldest.

(** The state of the mounted section, of which each has its part. *)
Record section : Type := Section_ {
  number : nat; deleteKeyId : option jsstr; search : jsstr; sortOrder : order; deleteProjectId : option jsstr; confirmDelete : bool
}.
#[export] Instance section_eta : Eta section := λ c,
  Section_ (number c) (deleteKeyId c) (search c) (sortOrder c) (deleteProjectId c) (confirmDelete c).
Definition mounted (n : nat) : section := Section_ n None [] newest None false.

Record state : Type := State {
  activeProject : jsstr;
  activeTab : tab;
  own : section;
  allKeys : list APIKey;
  keysLoading : bool;
  projects : list Project;
  projectsLoading : bool;
  traceCount : option Z;
  tracesLoading : bool;
  opsMetrics : option (option Z);
  opsLoading : bool;
  toasted : list (ToastType * jsstr)
}.
#[export] Instance state_eta : Eta state := λ s,
  State (activeProject s) (activeTab s) (own s) (allKeys s) (keysLoading s) (projects s) (projectsLoading s)
    (traceCount s) (tracesLoading s) (opsMetrics s) (opsLoading s) (toasted s).
Definition initial (p : jsstr) : state := State p keys (mounted 0) [] true [] true None true None true [].

Definition addToast (t : ToastType) (m : jsstr) (s : state) : state := s <| toasted ::= λ l, l ++ [(t, m)] |>.

(** ** Fetching everything *)

(** [None] is a body that is no array. *)
Definition keys_answer (a : answer (option (list APIKey))) (s : state) : state :=
  match ok_body a with Some data => s <| allKeys := default [] data |> | None => s end <| keysLoading := false |>.
Definition projects_answer (a : answer (option (list Project))) (s : state) : state :=
  match ok_body a with Some data => s <| projects := default [] data |> | None => s end <| projectsLoading := false |>.
(** The body's [count]. *)
Definition count_answer (a : answer Z) (s : state) : state :=
  s <| traceCount := Some (default 0 (ok_body a)) |> <| tracesLoading := false |>.
(** The body's [ingest_queue_depth]. *)
Definition ops_answer (a : answer (option Z)) (s : state) : state :=
  s <| opsMetrics := ok_body a |> <| opsLoading := false |>.

Definition fetchOps (after : state → state) (s : state) : outcome state :=
  (s <| opsLoading := true |>,
   [Fetch (option Z) (get_request (js "/api/v1/admin/ops")) (λ a s, now (after (ops_answer a s)))]).

Definition fetchCount (p : jsstr) (after : state → state) (s : state) : outcome state :=
  (s <| tracesLoading := true |>,
   [Fetch Z (get_request (js "/api/v1/admin/traces/" ++ p ++ js "/count")) (λ a s, fetchOps after (count_answer a s))]).

Definition fetchProjects (p : jsstr) (after : state → state) (s : state) : outcome state :=
  (s <| projectsLoading := true |>,
   [Fetch (option (list Project)) (get_request (js "/api/v1/projects")) (λ a s, fetchCount p after (projects_answer a s))]).

(** [fetchAll] of a render with the project [p]. *)
Definition fetchAll (p : jsstr) (after : state → state) (s : state) : outcome state :=
  (s <| keysLoading := true |>,
   [Fetch (option (list APIKey)) (get_request (js "/api/v1/admin/api-keys")) (λ a s, fetchProjects p after (keys_answer a s))]).

(** ** Deleting *)

(** The setters of a section that is gone do nothing. *)
Definition in_section (n : nat) (f : section → section) (s : state) : state :=
  s <| own ::= λ c, if bool_decide (number c = n) then f c else c |>.

(** The body of a response is read if it is an error's. *)
Definition delete_answer (p : jsstr) (deleted : jsstr) (failed : string) (after : state → state) (a : answer (option jsstr)) (s : state) : outcome state :=
  match a with
  | Answer status _ _ =>
    if ok_status status then fetchAll p after (addToast success deleted s)
    else now (after (addToast error (refusal_text Datatypes.id failed a) s))
  | NoAnswer _ => now (after (addToast error (js failed) s))
  end.

Definition delete (url : jsstr) (deleted : jsstr) (failed : string) (after : state → state) (s : state) : outcome state :=
  (s, [Fetch (option jsstr) (Request (js "DELETE") url None) (delete_answer (activeProject s) deleted failed after)]).

Definition handleDeleteKey (keyId : jsstr) : (state → state) → state → outcome state :=
  delete (js "/api/v1/admin/api-keys/" ++ keyId) (js "API key deleted") "Failed to delete API key".

Definition handleDeleteProject (projectId projectName : jsstr) : (state → state) → state → outcome state :=
  delete (js "/api/v1/admin/projects/" ++ projectId) (js "Project " ++ [c_quote] ++ projectName ++ [c_quote] ++ js " deleted")
    "Failed to delete project".

Definition handleDeleteAllTraces (after : state → state) (s : state) : outcome state :=
  delete (js "/api/v1/admin/traces/" ++ activeProject s) (js "All traces deleted") "Failed to delete traces" after s.

(** The [handleDelete] of the sections. *)
Definition confirm_key (s : state) : outcome state :=
  match deleteKeyId (own s) with
  | Some i => if truthy i then handleDeleteKey i (in_section (number (own s)) (λ c, c <| deleteKeyId := None |>)) s else now s
  | None => now s
  end.

Definition confirm_project (s : state) : outcome state :=
  let close := in_section (number (own s)) (λ c, c <| deleteProjectId := None |>) in
  match deleteProjectId (own s) with
  | Some i =>
    if truthy i then
      match array_find (λ p, bool_decide (project_id p = i)) (projects s) with
      | Some p => handleDeleteProject i (Shell.name p) close s
      | None => now (close s)
      end
    else now s
  | None => now s
  end.

Definition confirm_traces (s : state) : outcome state :=
  handleDeleteAllTraces (in_section (number (own s)) (λ c, c <| confirmDelete := false |>)) s.

(** ** Events *)

Inductive op : Type :=
| Mounted
| SwitchProject (p : jsstr)
| ChooseTab (t : tab)
| EditSearch (t : jsstr)
| ToggleSortOrder
| DeleteKey (keyId : jsstr)
| ConfirmKey
| CancelKey
| DeleteProject (projectId : jsstr)
| ConfirmProject
| CancelProject
| DeleteTraces
| ConfirmTraces
| CancelTraces.

Definition flip (o : order) : order := match o with newest => oldest | oldest => newest end.

Definition set_own (f : section → section) (s : state) : state := s <| own ::= f |>.

Definition handle (o : op) (s : state) : outcome state :=
  match o with
  | Mounted => fetchAll (activeProject s) Datatypes.id s
  | SwitchProject p =>
    if bool_decide (p = activeProject s) then now s else fetchAll p Datatypes.id (s <| activeProject := p |>)
  | ChooseTab t =>
    now (if bool_decide (t = activeTab s) then s else s <| activeTab := t |> <| own := mounted (S (number (own s))) |>)
  | EditSearch t => now (set_own (λ c, c <| search := t |>) s)
  | ToggleSortOrder => now (set_own (λ c, c <| sortOrder ::= flip |>) s)
  | DeleteKey i => now (set_own (λ c, c <| deleteKeyId := Some i |>) s)
  | ConfirmKey => confirm_key s
  | CancelKey => now (set_own (λ c, c <| deleteKeyId := None |>) s)
  | DeleteProject i => now (set_own (λ c, c <| deleteProjectId := Some i |>) s)
  | ConfirmProject => confirm_project s
  | CancelProject => now (set_own (λ c, c <| deleteProjectId := None |>) s)
  | DeleteTraces => now (set_own (λ c, c <| confirmDelete := true |>) s)
  | ConfirmTraces => confirm_traces s
  | CancelTraces => now (set_own (λ c, c <| confirmDelete := false |>) s)
  end.

(** ** Views *)

Section views.
Context `{DateHost} (toLocaleDateString toLowerCase : jsstr → jsstr).

Definition MetricCard {A} (label value : jsstr) : view A :=
  El "div" [] [El "dt" [] [Text label]; El "dd" [] [Text value]].

Definition TabButton {A} (label : jsstr) (active : bool) (onClick : A) (badge : option jsstr) : view A :=
  El "button" [On "click" onClick; Flag "active" active]
    (El "span" [] [Text label] :: match badge with Some b => when (truthy b) (El "span" [] [Text b]) | None => [] end).

Definition ConfirmDialog {A} (title message confirmLabel : jsstr) (onConfirm onCancel : A) : view A :=
  El "div" [] [El "h3" [] [Text title]; El "p" [] [Text message];
               El "button" [On "click" onConfirm] [Text confirmLabel];
               El "button" [On "click" onCancel] [txt "Cancel"]].

Definition SectionHeader {A} (title description : jsstr) : view A :=
  El "div" [] [El "h2" [] [Text title]; El "p" [] [Text description]].

Definition KeyRow {A} (k : APIKey) (onDelete : A) : view A :=
  El "div" []
    [El "div" []
       [El "div" [] [El "span" [] [Text (keyDisplayName k)];
                     El "span" [] [match kind k with service => txt "Service" | project => txt "Project" end]];
        El "div" [] [El "span" [] [Text (key_id k)]];
        El "p" [] [txt "Created: "; Text (toLocaleDateString (created_at k))]];
     El "button" [On "click" onDelete] [txt "Delete"]].

(** *** The keys *)

Definition matches (query : jsstr) (k : APIKey) : bool :=
  let name := toLowerCase (default (match kind k with service => js "Service Key" | project => js "Project Key" end) (service_name k)) in
  includes query (toLowerCase (key_id k)) || includes query name.

(** Whether the comparison lets [a] come before [b]; one with a date that is none counts
    as equal.  The language leaves the order open when such dates make the comparison
    inconsistent. *)
Definition before (o : order) (a b : APIKey) : bool :=
  match date_parse (created_at a), date_parse (created_at b) with
  | Some ta, Some tb => match o with newest => tb <=? ta | oldest => ta <=? tb end
  | _, _ => true
  end.

Definition filteredKeys (s : state) : list APIKey :=
  let query := toLowerCase (trim (search (own s))) in
  sort_by (before (sortOrder (own s)))
    (if truthy query then filter (λ k, matches query k = true) (allKeys s) else allKeys s).

Definition of_kind (q : key_kind) (l : list APIKey) : list APIKey := filter (λ k, kind k = q) l.

Definition key_group (title : jsstr) (l : list APIKey) : list (view op) :=
  when (bool_decide (l ≠ []))
    (El "div" []
       [El "h3" [] [Text title; txt " ("; Text (show_Z (Z.of_nat (length l))); txt ")"];
        El "div" [] ((λ k, KeyRow k (DeleteKey (key_id k))) <$> l)]).

Definition no_keys (m : string) : view op := El "div" [] [txt m].

Definition AdminKeysSection (s : state) : view op :=
  let totalKeys := length (allKeys s) in
  let shown := filteredKeys s in
  if keysLoading s then El "div" [] (replicate 3 Skeleton) else
  El "div" []
    (SectionHeader (js "API Keys")
       (js "Delete project or service keys (" ++ show_Z (Z.of_nat totalKeys) ++ js " total). Revoked keys cannot be recovered.")
     :: when (bool_decide (0 < totalKeys)%nat)
          (El "div" []
             [El "input" [Attr "value" (search (own s)); OnValue "change" EditSearch;
                          Attr "placeholder" (js "Search by name or key ID...")] [];
              El "button" [Attr "type" (js "button"); On "click" ToggleSortOrder; Attr "title" (js "Toggle sort order by Created date")]
                [txt "Created "; match sortOrder (own s) with newest => txt "↓" | oldest => txt "↑" end]])
     ++ [if bool_decide (totalKeys = 0%nat) then no_keys "No API keys found."
         else if bool_decide (shown = []) then no_keys "No matching API keys found."
         else El "div" [] (key_group (js "Project Keys") (of_kind project shown) ++ key_group (js "Service Keys") (of_kind service shown))]
     ++ match deleteKeyId (own s) with
        | Some i => when (truthy i)
                      (ConfirmDialog (js "Delete API Key")
                         (js "Are you sure you want to delete this API key? This action cannot be undone.")
                         (js "Delete Key") ConfirmKey CancelKey)
        | None => []
        end).

(** *** The projects *)

Definition ProjectRow {A} (p : Project) (onDelete : A) : view A :=
  El "div" [] [El "div" [] [El "span" [] [Text (Shell.name p)]; El "div" [] [Text (project_id p)]];
               El "button" [On "click" onDelete] [txt "Delete"]].

(** [find(...)?.name || ""]. *)
Definition project_name (s : state) (i : jsstr) : jsstr :=
  from_option Shell.name [] (array_find (λ p, bool_decide (project_id p = i)) (projects s)).

Definition AdminProjectsSection (s : state) : view op :=
  if projectsLoading s then El "div" [] (replicate 3 Skeleton) else
  El "div" []
    ([SectionHeader (js "Projects")
        (js "Manage and delete projects (" ++ show_Z (Z.of_nat (length (projects s)))
           ++ js " total). Deleting a project removes all its traces and keys.");
      if bool_decide (projects s = []) then no_keys "No projects found."
      else El "div" [] ((λ p, ProjectRow p (DeleteProject (project_id p))) <$> projects s)]
     ++ match deleteProjectId (own s) with
        | Some i => when (truthy i)
                      (ConfirmDialog (js "Delete Project")
                         (js "Are you sure you want to delete " ++ [c_quote] ++ project_name s i ++ [c_quote]
                            ++ js "? This will remove all its traces and API keys.")
                         (js "Delete Project") ConfirmProject CancelProject)
        | None => []
        end).

(** *** The traces and the queue *)

Definition shown_count (s : state) : jsstr := show_Z (default 0 (traceCount s)).

Definition AdminTracesSection (s : state) : view op :=
  if tracesLoading s then Skeleton else
  El "div" []
    ([SectionHeader (js "Traces")
        (js "Delete all traces for the active project (" ++ shown_count s ++ js " traces). This is a destructive action.");
      El "div" []
        [El "div" []
           [El "p" [] [txt "Active Project"];
            El "p" [] [Text (if truthy (activeProject s) then activeProject s else js "No project selected")];
            El "p" [] [txt "Total traces: "; Text (shown_count s)]];
         El "button" [On "click" DeleteTraces] [txt "Delete All Traces"]]]
     ++ when (confirmDelete (own s))
          (ConfirmDialog (js "Delete All Traces")
             (js "This will permanently delete all " ++ shown_count s ++ js " traces for this project. This action cannot be undone.")
             (js "Yes, Delete All") ConfirmTraces CancelTraces)).

Definition AdminOpsSection (s : state) : view op :=
  if opsLoading s then Skeleton else
  match opsMetrics s with
  | None => no_keys "No metrics available."
  | Some depth =>
    El "div" []
      [SectionHeader (js "Operations") (js "Read-only system health metrics. No destructive actions here.");
       El "div" [] [MetricCard (js "Ingest Queue Depth") (match depth with Some n => show_Z n | None => js "Unavailable" end)]]
  end.

Definition tabs : list (tab * jsstr * option jsstr) :=
  [(keys, js "API Keys", None); (projects_, js "Projects", None); (traces, js "Traces", None);
   (ops, js "Ops", Some (js "Read-only"))].

Definition render (s : state) : view op :=
  El "div" []
    [El "div" [] ((λ '(t, label, badge), TabButton label (bool_decide (activeTab s = t)) (ChooseTab t) badge) <$> tabs);
     match activeTab s with
     | keys => AdminKeysSection s
     | projects_ => AdminProjectsSection s
     | traces => AdminTracesSection s
     | ops => AdminOpsSection s
     end].

Definition legal (o : op) (s : state) : Prop :=
  match o with
  | Mounted | SwitchProject _ => True
  | _ => offers (render s) o
  end.
End views.

(** ** Theorems *)

Module AdminProps.
Section page.
Context `{DateHost} (toLocaleDateString toLowerCase : jsstr → jsstr).
#[local] Set Default Proof Using "All".

Abbreviation can := (legal toLocaleDateString toLowerCase).
Abbreviation step := (step can handle).
Abbreviation shown := (filteredKeys toLowerCase).

(** *** The list of keys *)

(** The keys the search text admits. *)
Definition admitted (s : state) : list APIKey :=
  let query := toLowerCase (trim (search (own s))) in
  filter (λ k, truthy query = true → matches toLowerCase query k = true) (allKeys s).

Lemma of_kind_perm l : of_kind project l ++ of_kind service l ≡ₚ l.
Proof.
  unfold of_kind. induction l as [|k l IH]; [done|]. rewrite !filter_cons. destruct (kind k) eqn:E.
  - rewrite decide_True, decide_False by done. simpl. by rewrite IH.
  - rewrite decide_False, decide_True by done. rewrite <- Permutation_middle. by rewrite IH.
Qed.

Lemma shown_perm s : shown s ≡ₚ admitted s.
Proof.
  unfold filteredKeys, admitted. rewrite sort_by_perm. destruct (truthy _) eqn:E.
  - apply reflexive_eq, list_filter_iff'. naive_solver.
  - rewrite filter_all_true; [done|]. naive_solver.
Qed.

Lemma before_order o l : Forall (λ k, is_Some (date_parse (created_at k))) l → order_on (before o) l.
Proof.
  intros Hl. rewrite Forall_forall in Hl. unfold before. split.
  - intros x y [t ->]%Hl [u ->]%Hl. destruct o; lia.
  - intros x y z [t ->]%Hl [u ->]%Hl [v ->]%Hl. destruct o; lia.
Qed.

(** The rows of the keys are those the search admits, each in its group and as often as
    it is there; if their dates are valid they are in the chosen order of creation; and
    each can be deleted. *)
Theorem keys_shown s :
  of_kind project (shown s) ++ of_kind service (shown s) ≡ₚ admitted s
  ∧ (Forall (λ k, is_Some (date_parse (created_at k))) (admitted s) →
       StronglySorted (λ a b, before (sortOrder (own s)) a b = true) (shown s))
  ∧ (activeTab s = keys → keysLoading s = false → ∀ k, k ∈ admitted s → can (DeleteKey (key_id k)) s).
Proof.
  split_and!.
  - rewrite of_kind_perm. apply shown_perm.
  - intros Hd. assert (shown s = sort_by (before (sortOrder (own s)))
      (let q := toLowerCase (trim (search (own s))) in
       if truthy q then filter (λ k, matches toLowerCase q k = true) (allKeys s) else allKeys s)) as -> by done.
    apply sort_by_sorted, before_order. 
    rewrite <- (sort_by_perm (before (sortOrder (own s)))). change (Forall (λ k, is_Some (date_parse (created_at k))) (shown s)).
    by rewrite shown_perm.
  - intros Ht Hl k Hk. rewrite <- shown_perm in Hk.
    assert (k ∈ allKeys s) as Hin by (rewrite shown_perm in Hk; by apply list_elem_of_filter in Hk as [_ ?]).
    simpl. unfold render. rewrite Ht. eapply offers_child; [right; left|]. unfold AdminKeysSection. rewrite Hl. cbv zeta.
    rewrite (bool_decide_false (length (allKeys s) = 0%nat)) by (by destruct (allKeys s); [apply not_elem_of_nil in Hin|]).
    rewrite (bool_decide_false (shown s = [])) by (intros E; rewrite E in Hk; by apply not_elem_of_nil in Hk).
    eapply offers_child; [right; apply elem_of_app; right; apply elem_of_app; left; left|].
    rewrite <- of_kind_perm in Hk. apply elem_of_app in Hk.
    assert (∀ q t, k ∈ of_kind q (shown s) → ∃ g, g ∈ key_group toLocaleDateString t (of_kind q (shown s)) ∧ offers g (DeleteKey (key_id k))) as Hg.
    { intros q t Hq. unfold key_group. rewrite bool_decide_true by (intros E; rewrite E in Hq; by apply not_elem_of_nil in Hq).
      eexists. split; [left|]. eapply offers_child; [right; left|]. eapply offers_child; [by apply list_elem_of_fmap_2|].
      eapply offers_child; [right; left|]. apply (offers_on _ _ _ "click"); [done|left]. }
    destruct Hk as [Hk|Hk].
    + destruct (Hg project (js "Project Keys") Hk) as (g & Hg1 & Hg2). eapply offers_child; [|exact Hg2]. apply elem_of_app. by left.
    + destruct (Hg service (js "Service Keys") Hk) as (g & Hg1 & Hg2). eapply offers_child; [|exact Hg2]. apply elem_of_app. by right.
Qed.

(** The name a key was given, which its row shows, is not searched: a key whose id and
    service name (or the words used without one) do not have the text is not listed. *)
Theorem key_name_not_searched s k n :
  let query := toLowerCase (trim (search (own s))) in
  key_name k = Some n → n ≠ [] → truthy query = true →
  includes query (toLowerCase (key_id k)) = false →
  includes query (toLowerCase (default (match kind k with service => js "Service Key" | project => js "Project Key" end) (service_name k))) = false →
  keyDisplayName k = n ∧ k ∉ shown s.
Proof.
  intros query Hn Hne%truthy_spec Hq Hi Hs. split.
  - unfold keyDisplayName. rewrite Hn. simpl. by rewrite Hne.
  - rewrite shown_perm. intros [Hm _]%list_elem_of_filter. specialize (Hm Hq). unfold matches in Hm. cbv zeta in Hm.
    fold query in Hm. by rewrite Hi, Hs in Hm.
Qed.

(** *** Fetching everything *)

(** Everything is fetched with four requests in turn, each made whatever became of the
    ones before it, and after at most four answers nothing of it is waited for. *)
Theorem fetchAll_ends p after s :
  (∀ s, opsLoading (after s) = opsLoading s) →
  finishes (λ s, opsLoading s = false) 4 (fetchAll p after s)
  ∧ sends (fetchAll p after s)
      [get_request (js "/api/v1/admin/api-keys"); get_request (js "/api/v1/projects");
       get_request (js "/api/v1/admin/traces/" ++ p ++ js "/count"); get_request (js "/api/v1/admin/ops")].
Proof.
  intros Ha. split.
  - apply finishes_fetch. intros a1 s1. apply finishes_fetch. intros a2 s2. apply finishes_fetch. intros a3 s3.
    apply finishes_fetch. intros a4 s4. apply finishes_now. by rewrite Ha.
  - apply sends_fetch. intros ?????. apply sends_fetch. intros ?????. apply sends_fetch. intros ?????.
    apply sends_fetch. intros ?????. apply sends_nothing.
Qed.
(** A deletion ends after at most five answers, with the dialog of its section closed. *)
Theorem delete_ends url deleted failed n s :
  finishes (λ s, number (own s) = n → deleteKeyId (own s) = None) 5
    (delete url deleted failed (in_section n (λ c, c <| deleteKeyId := None |>)) s).
Proof.
  assert (∀ s, number (own (in_section n (λ c, c <| deleteKeyId := None |>) s)) = n →
     deleteKeyId (own (in_section n (λ c, c <| deleteKeyId := None |>) s)) = None) as Hs.
  { intros s'. simpl. by case_bool_decide. }
  apply finishes_fetch. intros [st t b|m] s0; unfold delete_answer; [|by apply finishes_now, Hs].
  destruct (ok_status st); [|by apply finishes_now, Hs].
  apply finishes_fetch. intros a1 s1. apply finishes_fetch. intros a2 s2. apply finishes_fetch. intros a3 s3.
  apply finishes_fetch. intros a4 s4. by apply finishes_now, Hs.
Qed.

(** *** The dialog of a deleted key *)

Lemma confirm_offered s i :
  activeTab s = keys → keysLoading s = false → deleteKeyId (own s) = Some i → truthy i = true → can ConfirmKey s.
Proof.
  intros Ht Hl Hd Hi. simpl. unfold render. rewrite Ht. eapply offers_child; [right; left|].
  unfold AdminKeysSection. rewrite Hl, Hd, Hi. cbv zeta.
  eapply offers_child; [right; apply elem_of_app; right; apply elem_of_app; right; left|].
  eapply offers_child; [right; right; left|]. apply (offers_on _ _ _ "click"); [done|left].
Qed.

(** When a key has been deleted and the list without it has arrived, the question whether
    to delete it is asked again, until the other three answers are there: confirming
    asks the server once more to delete it. *)
Theorem deleted_key_asked_again s i :
  activeTab s = keys → keysLoading s = false → deleteKeyId (own s) = Some i → i ≠ [] →
  can ConfirmKey s
  ∧ ∃ s' q, rtc step (s, []) (s', [q])
    ∧ i ∉ (key_id <$> allKeys s') ∧ (success, js "API key deleted") ∈ toasted s' ∧ can ConfirmKey s'
    ∧ ∀ c, c ∈ [s; s'] → ∃ r, (handle ConfirmKey c).2
        = [Fetch (option jsstr) (Request (js "DELETE") (js "/api/v1/admin/api-keys/" ++ i) None) r].
Proof.
  intros Ht Hl Hd Hi%truthy_spec. split; [by eapply confirm_offered|].
  set (rest := filter (λ k, key_id k ≠ i) (allKeys s)).
  set (s1 := addToast success (js "API key deleted") s <| keysLoading := true |>).
  set (s2 := keys_answer (Answer 200 (Ok []) (Ok (Some rest))) s1 <| projectsLoading := true |>).
  assert (∀ c, deleteKeyId (own c) = Some i → ∃ r, (handle ConfirmKey c).2
    = [Fetch (option jsstr) (Request (js "DELETE") (js "/api/v1/admin/api-keys/" ++ i) None) r]) as Hr.
  { intros c Hc. simpl. unfold confirm_key. rewrite Hc, Hi. by eexists. }
  exists s2. eexists. split_and!.
  - eapply rtc_l; [exact (step_event can handle ConfirmKey s [] ltac:(by eapply confirm_offered))|].
    simpl. unfold confirm_key. rewrite Hd, Hi.
    eapply rtc_l; [exact (step_answer can handle s [] [] _ _ _ (Answer 204 (Ok []) (Err [])))|].
    apply rtc_once. exact (step_answer can handle s1 [] [] _ _ _ (Answer 200 (Ok []) (Ok (Some rest)))).
  - simpl. intros (k & -> & [Hk _]%list_elem_of_filter)%list_elem_of_fmap. done.
  - simpl. apply elem_of_app. right. left.
  - by eapply confirm_offered.
  - intros c Hc. apply Hr. by repeat (apply elem_of_cons in Hc as [->|Hc]); [..|apply not_elem_of_nil in Hc].
Qed.

(** *** Counts of another project *)

Definition no_answer {T} : answer T := NoAnswer [].
Definition good {T} (b : T) : answer T := Answer 200 (Ok []) (Ok b).

(** The state after everything was fetched with these answers. *)
Definition fetched (n : Z) (s : state) : state :=
  ops_answer no_answer (count_answer (good n) (projects_answer no_answer (keys_answer no_answer s
    <| projectsLoading := true |>) <| tracesLoading := true |>) <| opsLoading := true |>).

Lemma fetchAll_run p n s s0 ps : rtc step (s, ps ++ (fetchAll p Datatypes.id s0).2) (fetched n s, ps).
Proof.
  eapply rtc_l; [exact (step_answer can handle s ps [] _ _ _ no_answer)|].
  eapply rtc_l; [exact (step_answer can handle _ ps [] _ _ _ no_answer)|].
  eapply rtc_l; [exact (step_answer can handle _ ps [] _ _ _ (good n))|].
  eapply rtc_l; [exact (step_answer can handle _ ps [] _ _ _ no_answer)|].
  simpl. rewrite app_nil_r. apply rtc_refl.
Qed.

(** After a switch of the project the count of the old project can arrive last: then the
    question before the deletion of all traces has the old project's count, and
    confirming deletes the traces of the new project. *)
Theorem late_count_shown p p' n n' :
  p' ≠ p →
  ∃ s r, reachable can handle (initial p) (s, [Fetch Z (get_request (js "/api/v1/admin/traces/" ++ p ++ js "/count")) r])
    ∧ activeProject s = p' ∧ traceCount s = Some n'
    ∧ let s1 := (r (good n) s).1 in
      let s2 := (handle DeleteTraces (handle (ChooseTab traces) s1).1).1 in
      js "This will permanently delete all " ++ show_Z n ++ js " traces for this project. This action cannot be undone."
        ∈ texts (render toLocaleDateString toLowerCase s2)
      ∧ can ConfirmTraces s2
      ∧ ∃ r', (handle ConfirmTraces s2).2
          = [Fetch (option jsstr) (Request (js "DELETE") (js "/api/v1/admin/traces/" ++ p') None) r'].
Proof.
  intros Hp.
  set (s1 := projects_answer no_answer (keys_answer no_answer (initial p) <| projectsLoading := true |>) <| tracesLoading := true |>).
  set (s2 := fetched n' (s1 <| activeProject := p' |> <| keysLoading := true |>)).
  exists s2. eexists. split_and!.
  - unfold reachable.
    eapply rtc_l; [exact (step_event can handle Mounted (initial p) [] I)|].
    eapply rtc_l; [exact (step_answer can handle _ [] [] _ _ _ no_answer)|].
    eapply rtc_l; [exact (step_answer can handle _ [] [] _ _ _ no_answer)|].
    eapply rtc_l; [exact (step_event can handle (SwitchProject p') s1 _ I)|].
    cbn [handle]. rewrite bool_decide_false by done. apply (fetchAll_run p' n').
  - done.
  - done.
  - intros s3 s4. split_and!.
    + assert (activeTab s4 = traces ∧ tracesLoading s4 = false ∧ traceCount s4 = Some n ∧ confirmDelete (own s4) = true) as (E1 & E2 & E3 & E4) by done.
      unfold render. rewrite E1. unfold AdminTracesSection, shown_count. rewrite E2, E3, E4.
      eapply texts_child; [right; left|]. eapply texts_child; [do 2 right; left|].
      eapply texts_child; [right; left|left].
    + simpl. eapply offers_child; [right; left|]. eapply offers_child; [do 2 right; left|].
      eapply offers_child; [do 2 right; left|]. apply (offers_on _ _ _ "click"); [done|left].
    + by eexists.
Qed.
End page.

Module Runs.
#[local] Instance host : DateHost := {| date_parse t := Some (digits_val t); full_year _ := 2024; to_locale_string _ _ := [] |}.
Definition lower (t : jsstr) : jsstr := fold_unit <$> t.
Definition date (t : jsstr) : jsstr := t.

Definition key (i : string) (q : key_kind) (n : option jsstr) (t : string) : APIKey :=
  {| key_id := js i; kind := q; service_name := None; key_name := n; created_at := js t; revoked_at := None |}.
Definition listed : state :=
  initial (js "p1") <| keysLoading := false |>
    <| allKeys := [key "k1" project None "1"; key "k2" service None "3"; key "k3" project (Some (js "ci")) "2"] |>.

Example newest_first : key_id <$> filteredKeys lower listed = [js "k2"; js "k3"; js "k1"].
Proof. by vm_compute. Qed.

Lemma keys_shown_witness :
  StronglySorted (λ a b, before newest a b = true) (filteredKeys lower listed)
  ∧ ∀ k, k ∈ admitted lower listed → legal date lower (DeleteKey (key_id k)) listed.
Proof.
  destruct (keys_shown date lower listed) as (_ & H2 & H3). split.
  - apply H2. apply Forall_forall. intros k _. by eexists.
  - by apply H3.
Defined.

Lemma key_name_not_searched_witness :
  key "k3" project (Some (js "ci")) "2" ∉ filteredKeys lower (listed <| own := mounted 0 <| search := js "ci" |> |>).
Proof.
  eapply (key_name_not_searched date lower _ (key "k3" project (Some (js "ci")) "2") (js "ci")); by vm_compute.
Defined.

Lemma fetchAll_ends_witness :
  finishes (λ s, opsLoading s = false) 4 (fetchAll (js "p1") Datatypes.id (initial (js "p1"))).
Proof. apply (fetchAll_ends date lower). done. Defined.

Lemma deleted_key_asked_again_witness :
  let s := listed <| own := mounted 0 <| deleteKeyId := Some (js "k1") |> |> in
  js "k1" ≠ [] ∧ ∃ s' q, rtc (step (legal date lower) handle) (s, []) (s', [q]) ∧ js "k1" ∉ (key_id <$> allKeys s').
Proof.
  intros s. assert (js "k1" ≠ []) as Hk by by vm_compute. split; [exact Hk|].
  destruct (deleted_key_asked_again date lower s (js "k1") eq_refl eq_refl eq_refl Hk) as (_ & s' & q & H1 & H2 & _).
  by exists s', q.
Defined.

Lemma late_count_shown_witness :
  js "p2" ≠ js "p1" ∧ ∃ s q, reachable (legal date lower) handle (initial (js "p1")) (s, [q]) ∧ traceCount s = Some 0.
Proof.
  assert (js "p2" ≠ js "p1") as Hp by by vm_compute. split; [exact Hp|].
  destruct (late_count_shown date lower (js "p1") (js "p2") 5000 0 Hp) as (s & r & H1 & _ & H2 & _). by do 2 eexists.
Defined.
End Runs.
End AdminProps.
