(* ===== verification/EvalRules.v ===== *)
(** The evaluation rules page (ui/src/pages/EvalRules.tsx): its list, the form for a
    new rule with the filter builder, and the preview. *)
From Stdlib Require Import QArith_base.
From S2P Require Import Prelude.
From S2P Require Import JsString.
From S2P Require Import JsNumber.
From S2P Require Import JsJson.
From S2P Require Import Ui.
From S2P Require Import Widgets.
From S2P Require Import Formatters.
From S2P Require Import FilterGroup.
From S2P Require Import Toast.
Local Open Scope Z_scope.

Record PreviewSpan : Type := {
  span_id : jsstr; trace_id : jsstr; span_name : jsstr; span_kind : jsstr; span_model : jsstr;
  start_time : jsstr; cost_usd : num
}.

Record PreviewResult : Type := { spans : list PreviewSpan; match_count_24h : Z }.

Record EvalRule : Type := {
  rule_id : jsstr; project_id : jsstr; rule_name : jsstr; judge_model : option jsstr;
  prompt_name : jsstr; prompt_version : Z; sample_rate : option num; enabled : bool;
  created_at : jsstr; rule_filter : option EvalFilter
}.

Record PromptVersionInfo : Type := { version : Z; template : jsstr; model : jsstr }.
Record PromptListItem : Type := { name : jsstr; latest_version : Z; labels : list (jsstr * Z) }.

Record NewRuleFormState : Type := RuleForm {
  ruleName : jsstr; judgeModel : jsstr; promptName : jsstr; promptVersion : Z;
  promptLabel : jsstr; sampleRate : num; form_filter : EvalFilter
}.
#[export] Instance form_eta : Eta NewRuleFormState := λ f,
  RuleForm (ruleName f) (judgeModel f) (promptName f) (promptVersion f) (promptLabel f) (sampleRate f) (form_filter f).

Definition LABELS : list jsstr := [js "production"; js "staging"; js "dev"].

Definition defaultFormState : NewRuleFormState :=
  RuleForm [] (js "gpt-4") [] 1 [] (of_Z 100) createEmptyFilter.

(** ** Filters on the wire and on the screen *)

Definition cost_keys : list jsstr := [js "min_cost_usd"; js "max_cost_usd"].
Definition duration_keys : list jsstr := [js "min_duration_ms"; js "max_duration_ms"].

Definition normalize_text (k s : jsstr) : fvalue :=
  if truthy s then
    if bool_decide (k ∈ cost_keys) then VNum (parse_float s)
    else if bool_decide (k ∈ duration_keys) then VNum (parse_int s) else VText s
  else VText s.

(** A copy whose numeric conditions, the empty ones excepted, are numbers. *)
Fixpoint normalizeFilter (filter : EvalFilter) : EvalFilter :=
  match filter with
  | Filter ps =>
    Filter ((λ '(k, v),
      (k, match v with
          | VText s => normalize_text k s
          | VGroup l => if bool_decide (k = js "and" ∨ k = js "or") then VGroup (normalizeFilter <$> l) else VGroup l
          | VSub f => if bool_decide (k = js "not") then VSub (normalizeFilter f) else VSub f
          | _ => v
          end)) <$> ps)
  end.

(** What [JSON.stringify] makes of a filter: undefined properties are left out. *)
Fixpoint filter_json (filter : EvalFilter) : json :=
  match filter with
  | Filter ps =>
    JObj (omap (λ '(k, v),
      match v with
      | VUndefined => None
      | VNull => Some (k, JNull)
      | VText s => Some (k, JStr s)
      | VNum n => Some (k, JNum n)
      | VAttrs l => Some (k, JArr ((λ '(a, p), JObj [(js "key", JStr a); (js "pattern", JStr p)]) <$> l))
      | VGroup l => Some (k, JArr (filter_json <$> l))
      | VSub f => Some (k, filter_json f)
      end) ps)
  end.

Definition sampleRatePercent (rate : option num) : jsstr :=
  match rate with
  | Some r => if is_finite r then show_num (num_round (num_mul r (of_Z 100))) ++ js "%" else js "N/A"
  | None => js "N/A"
  end.

(** [if (filter.k) parts.push(`prefix${filter.k}`)] for the text conditions, and
    [if (filter.k != null)] for the numeric ones. *)
Definition text_part (filter : EvalFilter) (k prefix : jsstr) : list jsstr :=
  match get k filter with Some (VText s) => if truthy s then [prefix ++ s] else [] | _ => [] end.
Definition number_part (filter : EvalFilter) (k prefix suffix : jsstr) : list jsstr :=
  match get k filter with
  | Some (VText s) => [prefix ++ s ++ suffix]
  | Some (VNum n) => [prefix ++ show_num n ++ suffix]
  | _ => []
  end.

Definition filter_parts (filter : EvalFilter) : list jsstr :=
  text_part filter (js "kind") (js "kind=") ++ text_part filter (js "model") (js "model=")
  ++ text_part filter (js "service_name") (js "service=") ++ text_part filter (js "status_code") (js "status=")
  ++ number_part filter (js "min_cost_usd") (js "min_cost=$") []
  ++ number_part filter (js "max_cost_usd") (js "max_cost=$") []
  ++ number_part filter (js "min_duration_ms") (js "min_dur=") (js "ms")
  ++ number_part filter (js "max_duration_ms") (js "max_dur=") (js "ms")
  ++ match get (js "attributes_match") filter with
     | Some (VAttrs l) => if bool_decide (l = []) then [] else [js "attrs=" ++ show_Z (Z.of_nat (length l))]
     | _ => []
     end.

Fixpoint filter_text (filter : EvalFilter) : jsstr :=
  match filter with
  | Filter ps =>
    let texts := (λ '(k, v), (k, match v with
                                 | VGroup l => Some (filter_text <$> l)
                                 | VSub f => Some [filter_text f]
                                 | _ => None
                                 end)) <$> ps in
    let sub k := o ← prop_get k texts; o in
    match sub (js "and"), sub (js "or"), sub (js "not") with
    | Some l, _, _ => js "(" ++ str_join (js " AND ") l ++ js ")"
    | None, Some l, _ => js "(" ++ str_join (js " OR ") l ++ js ")"
    | None, None, Some l => js "(NOT " ++ str_join [] l ++ js ")"
    | None, None, None =>
      let text := str_join (js ", ") (filter_parts filter) in
      if truthy text then text else js "no filter"
    end
  end.

Definition filterDisplayText (filter : option EvalFilter) : jsstr :=
  match filter with None => js "no filter" | Some f => filter_text f end.

(** ** State *)

Record state : Type := State {
  activeProject : jsstr;
  rules : list EvalRule;
  loading : bool;
  error : option jsstr;
  showNewRuleForm : bool;
  createForm : NewRuleFormState;
  createError : option jsstr;
  formErrors : list (jsstr * jsstr);
  previewLoading : bool;
  previewError : option jsstr;
  previewResult : option PreviewResult;
  showPreview : bool;
  promptList : list PromptListItem;
  promptVersions : gmap jsstr (list PromptVersionInfo);
  promptLoading : bool;
  toasted : list (ToastType * jsstr)
}.
#[export] Instance state_eta : Eta state := λ s,
  State (activeProject s) (rules s) (loading s) (error s) (showNewRuleForm s) (createForm s) (createError s)
    (formErrors s) (previewLoading s) (previewError s) (previewResult s) (showPreview s) (promptList s)
    (promptVersions s) (promptLoading s) (toasted s).

Definition initial (p : jsstr) : state :=
  State p [] true None false defaultFormState None [] false None None false [] ∅ false [].

Definition addToast (t : ToastType) (m : jsstr) (s : state) : state := s <| toasted ::= λ l, l ++ [(t, m)] |>.

Definition by_project (path project : jsstr) : jsstr := path ++ js "?project_id=" ++ project.

(** ** Requests *)

Definition rules_answer (a : answer (option (list EvalRule))) (s : state) : outcome state :=
  now (match body_or_error (js "Failed to fetch eval rules") a with
       | Ok data => s <| rules := default [] data |>
       | Err m => s <| error := Some m |>
       end <| loading := false |>).

Definition fetchRules (project : jsstr) (s : state) : outcome state :=
  (s <| loading := true |> <| error := None |>,
   [Fetch (option (list EvalRule)) (get_request (by_project (js "/api/v1/eval-rules") project)) rules_answer]).

Definition prompts_answer (a : answer (option (list PromptListItem))) (s : state) : outcome state :=
  now (match ok_body a with
       | Some data => s <| promptList := default [] data |>
       | None => s
       end <| promptLoading := false |>).

Definition fetchPrompts (s : state) : outcome state :=
  (s <| promptLoading := true |>,
   [Fetch (option (list PromptListItem)) (get_request (by_project (js "/api/v1/prompts") (activeProject s))) prompts_answer]).

(** The versions come as an array, or under [versions]. *)
Inductive versions_body : Type :=
| VersionsArray (l : list PromptVersionInfo)
| VersionsObject (l : option (list PromptVersionInfo)).

Definition versions_of (b : versions_body) : list PromptVersionInfo :=
  match b with VersionsArray l => l | VersionsObject o => default [] o end.

Definition versions_answer (n : jsstr) (a : answer versions_body) (s : state) : outcome state :=
  now (match ok_body a with
       | Some b => s <| promptVersions ::= <[n := versions_of b]> |>
       | None => s
       end).

Definition fetchPromptVersions (n : jsstr) (s : state) : outcome state :=
  if bool_decide (is_Some (promptVersions s !! n)) then now s else
  (s, [Fetch versions_body
         (get_request (by_project (js "/api/v1/prompts/" ++ n ++ js "/versions") (activeProject s))) (versions_answer n)]).

(** ** The form *)

Definition find_prompt (n : jsstr) (s : state) : option PromptListItem :=
  array_find (λ p, bool_decide (name p = n)) (promptList s).

Definition handlePromptSelect (n : jsstr) (s : state) : outcome state :=
  let f := createForm s <| promptName := n |> <| promptVersion := 1 |> <| promptLabel := [] |> in
  if truthy n then
    let '(s', ps) := fetchPromptVersions n s in
    let f := match find_prompt n s with Some p => f <| promptVersion := latest_version p |> | None => f end in
    (s' <| createForm := f |>, ps)
  else now (s <| createForm := f |>).

Definition handleLabelSelect (label : jsstr) (s : state) : state :=
  let f := createForm s <| promptLabel := label |> <| promptVersion := 1 |> in
  let p := find_prompt (promptName f) s in
  let f :=
    if truthy label && truthy (promptName f) then
      match (p ← p; prop_get label (labels p)) with
      | Some v => if v =? 0 then f else f <| promptVersion := v |>
      | None => f
      end
    else if negb (truthy label) then
      match p with Some p => f <| promptVersion := latest_version p |> | None => f end
    else f in
  s <| createForm := f |>.

(** [parseInt(e.target.value) || 1] of an option, whose text is a version. *)
Definition select_version (v : Z) (s : state) : state :=
  s <| createForm ::= λ f, f <| promptVersion := if v =? 0 then 1 else v |> |>.

Definition clear_error (k : jsstr) (s : state) : state := s <| formErrors ::= prop_set k [] |>.

(** [Math.min(100, Math.max(0, parseInt(text) || 0))]. *)
Definition clamp_rate (text : jsstr) : num :=
  let n := parse_int text in
  num_min (of_Z 100) (num_max (of_Z 0) (if is_nan n then of_Z 0 else n)).

Definition resetCreateForm (s : state) : state :=
  s <| createForm := defaultFormState |> <| createError := None |> <| showNewRuleForm := false |>
    <| previewResult := None |> <| previewLoading := false |> <| previewError := None |> <| showPreview := false |>.

Definition form_errors (f : NewRuleFormState) (prompts : list PromptListItem) : list (jsstr * jsstr) :=
  (if negb (truthy (trim (ruleName f))) then [(js "ruleName", js "Rule name is required")]
   else if bool_decide (128 < length (ruleName f))%nat then [(js "ruleName", js "Name must be 128 characters or fewer")]
   else [])
  ++ (if negb (truthy (trim (judgeModel f))) then [(js "judgeModel", js "Judge model is required")]
      else if bool_decide (64 < length (judgeModel f))%nat then [(js "judgeModel", js "Model name must be 64 characters or fewer")]
      else [])
  ++ (if num_lt (sampleRate f) (of_Z 0) || num_lt (of_Z 100) (sampleRate f)
      then [(js "sampleRate", js "Sample rate must be between 0 and 100")] else [])
  ++ (if truthy (promptName f) && negb (existsb (λ p, bool_decide (name p = promptName f)) prompts)
      then [(js "promptName", js "Selected prompt does not exist in the registry")] else []).

Definition create_body (f : NewRuleFormState) : json :=
  JObj ([(js "name", JStr (trim (ruleName f))); (js "judge_model", JStr (trim (judgeModel f)));
         (js "prompt_name", JStr (trim (promptName f))); (js "prompt_version", JNum (of_Z (promptVersion f)))]
        ++ (if truthy (promptLabel f) then [(js "prompt_label", JStr (promptLabel f))] else [])
        ++ [(js "sample_rate", JNum (num_div (sampleRate f) 100)); (js "enabled", JBool true);
            (js "filter", filter_json (normalizeFilter (form_filter f)))]).

(** Of the answer to the creation only its status and, for an error, its text are read. *)
Definition create_answer (f : NewRuleFormState) (project : jsstr) (a : answer unit) (s : state) : outcome state :=
  match refusal (js "Failed to create rule") a with
  | Some m => now (s <| createError := Some m |>)
  | None =>
    fetchRules project (resetCreateForm (addToast success (js "Rule " ++ [c_quote] ++ trim (ruleName f) ++ [c_quote] ++ js " created") s))
  end.

Definition handleCreate (s : state) : outcome state :=
  let errors := form_errors (createForm s) (promptList s) in
  let s := s <| createError := None |> <| formErrors := errors |> in
  if bool_decide (errors = []) then
    (s, [Fetch unit (Request (js "POST") (js "/api/v1/eval-rules") (Some (stringify (create_body (createForm s)))))
           (create_answer (createForm s) (activeProject s))])
  else now s.

Definition preview_answer (a : answer PreviewResult) (s : state) : outcome state :=
  now (match refusal (js "Failed to preview") a, ok_body a with
       | Some m, _ => s <| previewError := Some m |>
       | None, Some data => s <| previewResult := Some data |>
       | None, None => s <| previewError := match body_or_error [] a with Err m => Some m | Ok _ => None end |>
       end <| previewLoading := false |>).

Definition handlePreview (s : state) : outcome state :=
  let filter := normalizeFilter (form_filter (createForm s)) in
  if bool_decide (length (props filter) = 0)%nat then
    now (s <| showPreview := true |> <| previewError := Some (js "Add at least one filter condition to preview") |>)
  else
    (s <| previewLoading := true |> <| previewError := None |> <| showPreview := true |>,
     [Fetch PreviewResult
        (Request (js "POST") (js "/api/v1/eval-rules/preview")
           (Some (stringify (JObj [(js "filter", filter_json filter)])))) preview_answer]).

Definition delete_answer (ruleId : jsstr) (a : answer unit) (s : state) : outcome state :=
  now (match refusal (js "Failed to delete rule") a with
       | Some m => s <| error := Some m |>
       | None => addToast success (js "Rule deleted") s <| rules ::= filter (λ r, rule_id r ≠ ruleId) |>
       end).

(** The user confirms the question or not. *)
Definition handleDelete (ruleId : jsstr) (confirmed : bool) (s : state) : outcome state :=
  if confirmed
  then (s, [Fetch unit (Request (js "DELETE") (js "/api/v1/eval-rules/" ++ ruleId) None) (delete_answer ruleId)])
  else now s.

(** ** Events *)

Inductive op : Type :=
| Mounted
| SwitchProject (p : jsstr)
| NewRule
| NewRuleFromEmpty
| EditRuleName (t : jsstr)
| EditJudgeModel (t : jsstr)
| SelectPrompt (n : jsstr)
| SelectLabel (l : jsstr)
| SelectVersion (v : Z)
| EditSampleRate (t : jsstr)
| UpdateFilter (f : EvalFilter)
| Preview
| TogglePreview
| Create
| Cancel
| Delete (ruleId : jsstr) (confirmed : bool).

(** The effect of the form being shown. *)
Definition show_form (s : state) : outcome state :=
  let s' := s <| showNewRuleForm := true |> in
  if showNewRuleForm s then now s' else fetchPrompts s'.

Definition handle (o : op) (s : state) : outcome state :=
  match o with
  | Mounted => fetchRules (activeProject s) s
  | SwitchProject p =>
    if bool_decide (p = activeProject s) then now s else
    let '(s1, ps1) := fetchRules p (s <| activeProject := p |>) in
    let '(s2, ps2) := if showNewRuleForm s then fetchPrompts s1 else now s1 in
    (s2, ps1 ++ ps2)
  | NewRule =>
    show_form (s <| createForm := defaultFormState |> <| previewResult := None |> <| previewError := None |>
                 <| formErrors := [] |>)
  | NewRuleFromEmpty => show_form s
  | EditRuleName t => now (clear_error (js "ruleName") (s <| createForm ::= λ f, f <| ruleName := t |> |>))
  | EditJudgeModel t => now (clear_error (js "judgeModel") (s <| createForm ::= λ f, f <| judgeModel := t |> |>))
  | SelectPrompt n => handlePromptSelect n s
  | SelectLabel l => now (handleLabelSelect l s)
  | SelectVersion v => now (select_version v s)
  | EditSampleRate t =>
    now (clear_error (js "sampleRate") (s <| createForm ::= λ f, f <| sampleRate := clamp_rate t |> |>))
  | UpdateFilter f => now (s <| createForm ::= λ g, g <| form_filter := f |> |>)
  | Preview => handlePreview s
  | TogglePreview => now (s <| showPreview ::= negb |>)
  | Create => handleCreate s
  | Cancel => now (resetCreateForm s)
  | Delete i c => handleDelete i c s
  end.

(** ** Views *)

Section views.
Context `{DateHost} (clock : Z) (toLocaleString : jsstr → jsstr).

Definition StatusBadge (b : bool) : view op := El "span" [] [if b then txt "Enabled" else txt "Disabled"].

Definition RuleCard (r : EvalRule) : view op :=
  El "div" []
    [El "div" []
      [El "div" []
        [El "div" [] [El "span" [] [Text (rule_name r)]; StatusBadge (enabled r)];
         El "div" []
          ([El "span" [] [txt "Model: "; El "span" [] [Text (match judge_model r with
                                                             | Some m => if truthy m then m else js "—"
                                                             | None => js "—"
                                                             end)]]]
           ++ when (truthy (prompt_name r))
                (El "span" [] [txt "Prompt: "; El "span" []
                   (Text (prompt_name r) :: when (1 <? prompt_version r) (Text (js " v" ++ show_Z (prompt_version r))))])
           ++ [El "span" [] [txt "Sample: "; El "span" [] [Text (sampleRatePercent (sample_rate r))]];
               El "span" [] [txt "Filter: "; El "span" [] [Text (truncate (Some (filterDisplayText (rule_filter r))) 40)]]])];
       El "span" [] [Text (formatTime clock (created_at r))];
       El "button" [On "click" (Delete (rule_id r) true); On "click" (Delete (rule_id r) false);
                    Attr "title" (js "Delete rule"); Attr "aria-label" (js "Delete rule: " ++ rule_name r)]
         [El "svg" [] []]]].

Definition error_text (k : jsstr) (s : state) : list (view op) :=
  match prop_get k (formErrors s) with Some e => when (truthy e) (El "p" [] [Text e]) | None => [] end.

(** The versions offered: those up to the latest and those fetched, each once, in
    order. *)
Definition version_options (s : state) : list Z :=
  let fetched := version <$> default [] (promptVersions s !! promptName (createForm s)) in
  let all := match find_prompt (promptName (createForm s)) s with
             | Some p => seqZ 1 (latest_version p)
             | None => [1]
             end in
  sort_by Z.leb (remove_dups (all ++ fetched)).

Definition form_fields (s : state) : list (view op) :=
  let f := createForm s in
  [El "div" []
     [El "div" [] ([El "label" [] [txt "Rule Name"];
                    Input (ruleName f) EditRuleName "e.g. Production LLM Eval"] ++ error_text (js "ruleName") s);
      El "div" [] ([El "label" [] [txt "Judge Model"];
                    Input (judgeModel f) EditJudgeModel "e.g. gpt-4"] ++ error_text (js "judgeModel") s)];
   El "div" []
     [El "div" []
        ([El "label" [] [txt "Judge Prompt"];
          Select (promptName f) SelectPrompt
            (([], js "— No prompt —")
             :: if promptLoading s then []
                else (λ p, (name p, name p ++ js " (v" ++ show_Z (latest_version p) ++ js ")")) <$> promptList s)]
         ++ error_text (js "promptName") s);
      El "div" []
        [El "label" [] [txt "Prompt Label"];
         if truthy (promptName f)
         then Select (promptLabel f) SelectLabel (([], js "— Auto —") :: ((λ l, (l, l)) <$> LABELS))
         else El "select" [Flag "disabled" true] [El "option" [] [txt "— Auto —"]]];
      El "div" []
        [El "label" [] [txt "Prompt Version"];
         El "select" [Attr "value" (show_Z (promptVersion f))]
           ((λ v, El "option" [Attr "value" (show_Z v); On "change" (SelectVersion v)] [Text (js "v" ++ show_Z v)])
              <$> version_options s)];
      El "div" []
        ([El "label" [] [txt "Sample Rate (%)"]; Input (show_num (sampleRate f)) EditSampleRate ""]
         ++ error_text (js "sampleRate") s)];
   El "div" [] [El "h4" [] [txt "Filter Conditions"]; map_view UpdateFilter (FilterGroup (form_filter f) 0)]].

Definition preview_row (p : PreviewSpan) : view op :=
  El "div" []
    [El "span" [Attr "title" (span_name p)] [Text (span_name p)];
     El "span" [] [txt "model: "; El "span" [] [Text (span_model p)]];
     El "span" [] [txt "kind: "; El "span" [] [Text (span_kind p)]];
     El "span" [] [txt "cost: "; El "span" [] [Text (formatCost (Some (cost_usd p)))]];
     El "span" [Attr "title" (start_time p)] [Text (toLocaleString (start_time p))];
     El "span" [] [El "span" [] [txt "trace: "]; Text (take 8 (trace_id p) ++ js "...")]].

Definition preview_panel (s : state) : list (view op) :=
  when (showPreview s)
    (El "div" []
       [El "button" [On "click" TogglePreview]
          [El "span" [] [match previewResult s with Some _ => txt "Matching spans" | None => txt "Preview results" end];
           El "svg" [] []];
        El "div" []
          [if truthy_opt (previewError s) then El "div" [] [Text (default [] (previewError s))] else
           match previewResult s with
           | Some r =>
             if bool_decide (length (spans r) = 0)%nat then El "div" [] [txt "No matching spans found."]
             else El "div" [] (preview_row <$> spans r)
           | None => El "div" [] []
           end]]).

Definition new_rule_form (s : state) : view op :=
  El "div" []
    ([El "h3" [] [txt "New Eval Rule"]]
     ++ match createError s with Some e => when (truthy e) (El "div" [] [Text e]) | None => [] end
     ++ form_fields s
     ++ [El "div" []
           ([El "button" [Flag "disabled" (previewLoading s); On "click" Preview]
               [if previewLoading s then txt "Previewing..." else txt "Preview Matching Spans"]]
            ++ match previewResult s with
               | Some r => [El "span" [] [Text (show_Z (Z.of_nat (length (spans r))) ++ js " matches in last hour · "
                                                ++ show_Z (match_count_24h r) ++ js " in last 24h")]]
               | None => []
               end)]
     ++ preview_panel s
     ++ [El "div" [] [ActionButton Create (js "Create Rule"); ActionButton Cancel (js "Cancel")]]).

Definition render (s : state) : view op :=
  if loading s then El "div" [] [El "div" [] []; El "p" [] [txt "Loading eval rules..."]] else
  if truthy_opt (error s) then El "div" [] [El "div" [] [txt "⚠"]; El "p" [] [Text (default [] (error s))]] else
  let n := Z.of_nat (length (rules s)) in
  El "div" []
    ([El "div" []
        [El "div" [] [El "h1" [] [txt "Eval Rules"];
                      El "p" [] [Text (show_Z n ++ js " rule" ++ (if n =? 1 then [] else js "s") ++ js " · " ++ activeProject s)]];
         El "button" [On "click" NewRule] [txt "+ New Rule"]]]
     ++ when (showNewRuleForm s) (new_rule_form s)
     ++ [if bool_decide (length (rules s) = 0)%nat
         then EmptyState default_ (Some (js "No eval rules yet")) (Some (js "Create your first eval rule to start evaluating traces"))
                (Some (js "+ New Rule")) (Some NewRuleFromEmpty)
         else El "div" [] (RuleCard <$> rules s)]).

(** What can happen: the page is mounted, the header switches the project, or the user
    does what the screen offers. *)
Definition legal (o : op) (s : state) : Prop :=
  match o with
  | Mounted | SwitchProject _ => True
  | _ => offers (render s) o
  end.
End views.

(** ** Normalised filters *)

(** A filter inside a filter, at any depth of its groups. *)
Inductive occurs (g : EvalFilter) : EvalFilter → Prop :=
| occurs_here : occurs g g
| occurs_group k l f ps : k = js "and" ∨ k = js "or" → (k, VGroup l) ∈ ps → f ∈ l → occurs g f → occurs g (Filter ps)
| occurs_not f ps : (js "not", VSub f) ∈ ps → occurs g f → occurs g (Filter ps).

Lemma filter_tree_ind (P : EvalFilter → Prop) :
  (∀ ps, Forall (λ kv : jsstr * fvalue, match kv.2 with VGroup l => Forall P l | VSub f => P f | _ => True end) ps
         → P (Filter ps)) → ∀ f, P f.
Proof.
  intros H. fix IH 1. intros [ps]. apply H. induction ps as [|[k v] ps IHps]; constructor; [|exact IHps].
  simpl. destruct v as [| |s|n|l|l|f]; try exact I; [|apply IH].
  induction l as [|f l IHl]; constructor; [apply IH|exact IHl].
Qed.

Lemma normalize_text_flat k s : match normalize_text k s with VText _ | VNum _ => True | _ => False end.
Proof. unfold normalize_text. by repeat case_match. Qed.

Lemma normalize_group k l ps :
  (k, VGroup l) ∈ props (normalizeFilter (Filter ps)) → k = js "and" ∨ k = js "or" →
  ∃ l0, (k, VGroup l0) ∈ ps ∧ l = normalizeFilter <$> l0.
Proof.
  cbn [normalizeFilter props]. intros ([k' v] & E & Hin)%list_elem_of_fmap Hk. injection E as -> E.
  destruct v as [| |s|n|l'|l'|f]; try done.
  - pose proof (normalize_text_flat k' s) as F. by rewrite <- E in F.
  - rewrite bool_decide_true in E by done. simplify_eq. eauto.
  - by case_bool_decide.
Qed.

Lemma normalize_not f ps :
  (js "not", VSub f) ∈ props (normalizeFilter (Filter ps)) → ∃ f0, (js "not", VSub f0) ∈ ps ∧ f = normalizeFilter f0.
Proof.
  cbn [normalizeFilter props]. intros ([k' v] & E & Hin)%list_elem_of_fmap. injection E as Hk E.
  destruct v as [| |s|n|l'|l'|f']; try done.
  - pose proof (normalize_text_flat k' s) as F. by rewrite <- E in F.
  - by case_bool_decide.
  - rewrite bool_decide_true in E by done. simplify_eq. eauto.
Qed.

Lemma normalized_texts g h f k s :
  occurs g h → h = normalizeFilter f → k ∈ cost_keys ++ duration_keys → (k, VText s) ∈ props g → s = [].
Proof.
  intros Ho. revert f. induction Ho as [|k' l f' ps Hk' Hl Hf _ IH|f' ps Hf _ IH]; intros f0 Hh Hk Hin.
  - subst g. apply elem_of_app in Hk. destruct f0 as [ps]. cbn [normalizeFilter props] in Hin.
    apply list_elem_of_fmap in Hin as ([k' v] & E & Hin). injection E as -> E.
    destruct v as [| |t|n|l|l|f]; try done; [|by case_bool_decide..].
    unfold normalize_text in E. destruct (truthy t) eqn:Ht; [|destruct t; by simplify_eq].
    case_bool_decide; [done|]. case_bool_decide; [done|]. tauto.
  - destruct f0 as [ps0]. rewrite (f_equal props Hh : ps = _) in Hl. apply normalize_group in Hl as (l0 & Hl0 & ->); [|done].
    apply list_elem_of_fmap in Hf as (f1 & -> & Hf1). by apply (IH f1).
  - destruct f0 as [ps0]. rewrite (f_equal props Hh : ps = _) in Hf. apply normalize_not in Hf as (f1 & _ & ->). by apply (IH f1).
Qed.

Lemma normalize_text_idem k s t : normalize_text k s = VText t → t = s ∧ normalize_text k t = VText t.
Proof.
  intros E. assert (t = s) as ->; [|done]. unfold normalize_text in E. by repeat case_match; simplify_eq.
Qed.

(** What is to be sent for a filter, condition by condition: the properties keep their
    order and names; of the numeric conditions the filled ones become the number of their
    text, a blank one stays; the filters of a group and a negated one are sent in the same
    way; everything else stays as it is. *)
#[warnings="-register-all"]
Inductive sent_as : EvalFilter → EvalFilter → Prop :=
| sent_filter ps qs : Forall2 (λ p q, p.1 = q.1 ∧ value_sent p.1 p.2 q.2) ps qs → sent_as (Filter ps) (Filter qs)
with value_sent : jsstr → fvalue → fvalue → Prop :=
| sent_cost k t : k ∈ [js "min_cost_usd"; js "max_cost_usd"] → t ≠ [] → value_sent k (VText t) (VNum (parse_float t))
| sent_duration k t : k ∈ [js "min_duration_ms"; js "max_duration_ms"] → t ≠ [] →
    value_sent k (VText t) (VNum (parse_int t))
| sent_blank k : value_sent k (VText []) (VText [])
| sent_text k t :
    k ∉ [js "min_cost_usd"; js "max_cost_usd"; js "min_duration_ms"; js "max_duration_ms"] →
    value_sent k (VText t) (VText t)
| sent_group k l m : k = js "and" ∨ k = js "or" → Forall2 sent_as l m → value_sent k (VGroup l) (VGroup m)
| sent_other_group k l : k ≠ js "and" → k ≠ js "or" → value_sent k (VGroup l) (VGroup l)
| sent_not f g : sent_as f g → value_sent (js "not") (VSub f) (VSub g)
| sent_other_filter k f : k ≠ js "not" → value_sent k (VSub f) (VSub f)
| sent_number k n : value_sent k (VNum n) (VNum n)
| sent_attributes k l : value_sent k (VAttrs l) (VAttrs l)
| sent_null k : value_sent k VNull VNull
| sent_undefined k : value_sent k VUndefined VUndefined.

Lemma text_sent k t : value_sent k (VText t) (normalize_text k t).
Proof.
  unfold normalize_text. destruct (truthy t) eqn:Ht; [|destruct t; [apply sent_blank|done]].
  apply truthy_spec in Ht. case_bool_decide as Hc; [by apply sent_cost|].
  case_bool_decide as Hd; [by apply sent_duration|]. apply sent_text.
  intros Hin. change (k ∈ cost_keys ++ duration_keys) in Hin. apply elem_of_app in Hin. tauto.
Qed.

Lemma Forall2_same_fmap {A B} (R : A → B → Prop) (f : A → B) l : Forall (λ x, R x (f x)) l → Forall2 R l (f <$> l).
Proof. induction 1; constructor; auto. Qed.

Lemma normalizeFilter_sent f : sent_as f (normalizeFilter f).
Proof.
  induction f as [ps IH] using filter_tree_ind. constructor. apply Forall2_same_fmap.
  eapply Forall_impl; [exact IH|]. intros [k v] Hv. simpl in *. split; [done|].
  destruct v as [| |t|n|l|l|g]; try constructor.
  - apply text_sent.
  - case_bool_decide as Hk; [|apply sent_other_group; tauto]. apply sent_group; [done|]. by apply Forall2_same_fmap.
  - case_bool_decide as Hk; [|by apply sent_other_filter]. subst k. by apply sent_not.
Qed.

(** ** The number typed *)

Definition digits_only (t : jsstr) : Prop := t ≠ [] ∧ Forall (λ c, is_digit c = true) t.

Lemma digit_bounds c : is_digit c = true → (48 <= c <= 57)%N.
Proof. unfold is_digit. rewrite andb_true_iff, !N.leb_le. lia. Qed.

Lemma digits_head t : digits_only t → ∃ c r, t = c :: r ∧ (48 <= c <= 57)%N.
Proof. intros [Hne Ht]. destruct Ht as [|c r Hc _]; [done|]. exists c, r. split; [done|]. by apply digit_bounds. Qed.

Lemma digit_cases c : (48 <= c <= 57)%N → c ∈ [48; 49; 50; 51; 52; 53; 54; 55; 56; 57]%N.
Proof. intros Hc. rewrite !elem_of_cons. lia. Qed.

Ltac each_digit H := apply digit_cases in H; repeat (apply elem_of_cons in H as [->|H]); [..|by apply not_elem_of_nil in H].

Lemma take_digits_app t r :
  Forall (λ c, is_digit c = true) t → match r with c :: _ => is_digit c = false | [] => True end →
  take_digits (t ++ r) = (t, r).
Proof.
  intros Ht Hr. induction Ht as [|c t Hc _ IH]; simpl.
  - destruct r as [|c r]; [done|]. simpl. by rewrite Hr.
  - by rewrite Hc, IH.
Qed.

Lemma parse_int_starts t : digits_only t →
  parse_int t = match (take_digits t).1 with [] => NaN | d => of_Z (digits_val d) end.
Proof.
  intros [Hne Ht]. destruct Ht as [|c r Hc%digit_bounds Hr]; [done|]. each_digit Hc; try reflexivity.
  destruct Hr as [|d r Hd%digit_bounds Hr]; [reflexivity|]. each_digit Hd; reflexivity.
Qed.

Lemma parse_float_starts t rest : digits_only t →
  parse_float (t ++ rest)
  = let '(i, s) := take_digits (t ++ rest) in
    let '(f, s) := match s with 46%N :: r => take_digits r | _ => ([], s) end in
    match i ++ f with
    | [] => NaN
    | d =>
      let e := match exp_part s with Some (e, _) => e | None => 0 end in
      rnd (inject_Z (digits_val d) * pow10 (e - Z.of_nat (length f)))%Q
    end.
Proof.
  intros [Hne Ht]. destruct Ht as [|c r Hc%digit_bounds _]; [done|]. each_digit Hc; reflexivity.
Qed.

Lemma typed_numbers i d : digits_only i → digits_only d →
  parse_int i = of_Z (digits_val i) ∧ parse_float i = of_Z (digits_val i)
  ∧ parse_float (i ++ js "." ++ d) = rnd (inject_Z (digits_val (i ++ d)) * pow10 (- Z.of_nat (length d)))%Q.
Proof.
  intros Hi Hd. pose proof (proj2 Hi) as Hi'. pose proof (proj2 Hd) as Hd'. split; [|split].
  - rewrite parse_int_starts by done. rewrite <- (app_nil_r i) at 1. rewrite take_digits_app by done. simpl.
    by destruct i; [destruct Hi|].
  - rewrite <- (app_nil_r i) at 1. rewrite parse_float_starts, take_digits_app by done. cbv beta iota zeta.
    rewrite app_nil_r. destruct i as [|c i]; [by destruct Hi|]. unfold of_Z. apply rnd_comp.
    change (pow10 (0 - Z.of_nat (@length N []))) with 1%Q. apply Qmult_1_r.
  - rewrite parse_float_starts by done. change (js ".") with [46%N]. rewrite take_digits_app by done.
    cbn [app]. rewrite <- (app_nil_r d) at 1. rewrite take_digits_app by done. cbv beta iota zeta.
    destruct i as [|c i]; [by destruct Hi|]. reflexivity.
Qed.


(** ** The form *)

(** The condition under which a rule is created, as the messages of the form put it. *)
Record creatable (f : NewRuleFormState) (prompts : list PromptListItem) : Prop := {
  creatable_name : trim (ruleName f) ≠ [] ∧ (length (ruleName f) ≤ 128)%nat;
  creatable_model : trim (judgeModel f) ≠ [] ∧ (length (judgeModel f) ≤ 64)%nat;
  creatable_prompt : promptName f ≠ [] → promptName f ∈ name <$> prompts
}.

(** The sample rate is a percentage: an invariant of the form. *)
Definition rate_ok (f : NewRuleFormState) : Prop :=
  num_lt (sampleRate f) (of_Z 0) = false ∧ num_lt (of_Z 100) (sampleRate f) = false ∧ is_nan (sampleRate f) = false.
Definition form_ok (s : state) : Prop := rate_ok (createForm s).

Lemma clamp_rate_ok text f : rate_ok (f <| sampleRate := clamp_rate text |>).
Proof.
  unfold rate_ok. cbn [sampleRate]. unfold clamp_rate.
  apply clamp_bounds; [unfold safe; lia..|lia|]. by destruct (is_nan (parse_int text)) eqn:E.
Qed.

(** The bodies of the requests a handler starts. *)
Definition request_bodies {S} (c : outcome S) : list (option jsstr) := (λ '(Fetch _ q _), r_body q) <$> c.2.

Section pages.
Context `{DateHost} (clock : Z) (toLocaleString : jsstr → jsstr).
Let legal := legal clock toLocaleString.

Definition page_reachable (p : jsstr) := reachable legal handle (initial p).

(** An answer changes nothing of the form, or resets it. *)
Definition keeps_form (ps : list (program state)) : Prop := Forall (keeps form_ok) ps.

Lemma same_form s s' : sampleRate (createForm s') = sampleRate (createForm s) → form_ok s → form_ok s'.
Proof. unfold form_ok, rate_ok. by intros ->. Qed.

Ltac same_rate := eapply same_form; [|eassumption]; done.

Lemma default_form_ok s : createForm s = defaultFormState → form_ok s.
Proof. unfold form_ok. intros ->. by vm_compute. Qed.

Lemma rules_request_keeps q : keeps_form [Fetch _ q rules_answer].
Proof.
  apply keeps_answers. intros a s' Hs. split; [|apply Forall_nil_2]. simpl. case_match; same_rate.
Qed.

Lemma prompts_request_keeps q : keeps_form [Fetch _ q prompts_answer].
Proof. apply keeps_answers. intros a s' Hs. split; [|apply Forall_nil_2]. simpl. case_match; same_rate. Qed.

Lemma show_form_keeps s : form_ok s → form_ok (show_form s).1 ∧ keeps_form (show_form s).2.
Proof.
  intros Hs. unfold show_form. cbv zeta. destruct (showNewRuleForm s); (split; [same_rate|]).
  - apply Forall_nil_2.
  - apply prompts_request_keeps.
Qed.

Lemma handlePromptSelect_keeps n s :
  form_ok s → form_ok (handlePromptSelect n s).1 ∧ keeps_form (handlePromptSelect n s).2.
Proof.
  intros Hs. unfold handlePromptSelect, fetchPromptVersions.
  destruct (truthy n); [|split; [same_rate|apply Forall_nil_2]].
  destruct (bool_decide _); simpl.
  - split; [case_match; same_rate|apply Forall_nil_2].
  - split; [case_match; same_rate|]. apply keeps_answers. intros a s' Hs'. split; [|apply Forall_nil_2].
    simpl. case_match; same_rate.
Qed.

Lemma handleCreate_keeps s : form_ok s → form_ok (handleCreate s).1 ∧ keeps_form (handleCreate s).2.
Proof.
  intros Hs. unfold handleCreate. cbv zeta. case_bool_decide; (split; [same_rate|]); [|apply Forall_nil_2].
  apply keeps_answers. intros a s' Hs'. unfold create_answer. case_match; [split; [same_rate|apply Forall_nil_2]|].
  split; [|apply rules_request_keeps]. by apply default_form_ok.
Qed.

Lemma handlePreview_keeps s : form_ok s → form_ok (handlePreview s).1 ∧ keeps_form (handlePreview s).2.
Proof.
  intros Hs. unfold handlePreview. cbv zeta. case_bool_decide; (split; [same_rate|]); [apply Forall_nil_2|].
  apply keeps_answers. intros a s' Hs'. split; [|apply Forall_nil_2]. simpl. repeat case_match; same_rate.
Qed.

Lemma handleDelete_keeps i c s : form_ok s → form_ok (handleDelete i c s).1 ∧ keeps_form (handleDelete i c s).2.
Proof.
  intros Hs. unfold handleDelete. destruct c; (split; [done|]); [|apply Forall_nil_2].
  apply keeps_answers. intros a s' Hs'. split; [|apply Forall_nil_2]. simpl. case_match; same_rate.
Qed.

Lemma handleLabelSelect_keeps l s : form_ok s → form_ok (handleLabelSelect l s).
Proof. intros Hs. unfold handleLabelSelect. cbv zeta. repeat case_match; same_rate. Qed.

Lemma form_handlers : handlers_keep legal handle form_ok.
Proof.
  intros o s _ Hs.
  destruct o as [|p| | |t|t|n|l|v|t|f| | | | |i c]; cbn [handle];
    try (split; [same_rate|apply Forall_nil_2]).
  - split; [same_rate|apply rules_request_keeps].
  - case_bool_decide; [split; [done|apply Forall_nil_2]|]. cbv zeta.
    destruct (showNewRuleForm s); simpl; (split; [same_rate|]); [|apply rules_request_keeps].
    apply (Forall_app_2 _ [_] [_]); [apply rules_request_keeps|].
    apply prompts_request_keeps.
  - by apply show_form_keeps, default_form_ok.
  - by apply show_form_keeps.
  - by apply handlePromptSelect_keeps.
  - split; [by apply handleLabelSelect_keeps|apply Forall_nil_2].
  - split; [apply clamp_rate_ok|apply Forall_nil_2].
  - by apply handlePreview_keeps.
  - by apply handleCreate_keeps.
  - split; [by apply default_form_ok|apply Forall_nil_2].
  - by apply handleDelete_keeps.
Qed.

Lemma required_ok (k m m' t v : jsstr) n :
  (if negb (truthy t) then [(k, m)] else if bool_decide (n < length v)%nat then [(k, m')] else []) = []
  ↔ t ≠ [] ∧ (length v ≤ n)%nat.
Proof. destruct t; simpl; [naive_solver|]. case_bool_decide; naive_solver lia. Qed.

Lemma listed_ok (n k m : jsstr) prompts :
  (if truthy n && negb (existsb (λ p, bool_decide (name p = n)) prompts) then [(k, m)] else []) = []
  ↔ (n ≠ [] → n ∈ name <$> prompts).
Proof.
  assert (existsb (λ p, bool_decide (name p = n)) prompts = true ↔ n ∈ name <$> prompts) as He.
  { rewrite existsb_exists, list_elem_of_fmap. setoid_rewrite list_elem_of_In. setoid_rewrite bool_decide_eq_true.
    naive_solver. }
  destruct n, (existsb _ prompts); naive_solver.
Qed.

Lemma form_errors_creatable f prompts : rate_ok f → form_errors f prompts = [] ↔ creatable f prompts.
Proof.
  intros (R0 & R1 & _). unfold form_errors. rewrite R0, R1. cbn [orb].
  rewrite !app_nil, !required_ok, listed_ok. split; [|intros []; naive_solver].
  intros (? & ? & _ & ?). by constructor.
Qed.

(** The form has no error when it is not touched after a creation was asked for. *)
Lemma no_rate_error f prompts : rate_ok f → js "sampleRate" ∉ (form_errors f prompts).*1.
Proof.
  intros (R0 & R1 & _). unfold form_errors. rewrite R0, R1. cbn [orb app].
  rewrite !fmap_app, !not_elem_of_app. split_and!; repeat case_match; cbn [fmap list_fmap fst];
    rewrite ?not_elem_of_cons; try split; by (apply not_elem_of_nil || vm_compute).
Qed.

(** C10. In every reachable state of the page, Create sends a request exactly if the
    name and the model are there and short enough and the prompt is listed; the sample
    rate of the form is a percentage, so its message never appears.  The request is
    the one for the form's rule; otherwise nothing is sent and the form shows why. *)
Theorem create_when_valid p s waiting :
  page_reachable p (s, waiting) →
  let f := createForm s in
  rate_ok f ∧ js "sampleRate" ∉ (form_errors f (promptList s)).*1
  ∧ (creatable f (promptList s) →
     handle Create s =
       (s <| createError := None |> <| formErrors := [] |>,
        [Fetch unit (Request (js "POST") (js "/api/v1/eval-rules") (Some (stringify (create_body f))))
           (create_answer f (activeProject s))]))
  ∧ (¬ creatable f (promptList s) →
     handle Create s = now (s <| createError := None |> <| formErrors := form_errors f (promptList s) |>)
     ∧ form_errors f (promptList s) ≠ []).
Proof.
  intros Hr f. assert (rate_ok f) as Hf.
  { apply (invariant legal handle form_ok (initial p) (s, waiting) form_handlers); [|done].
    by apply default_form_ok. }
  pose proof (form_errors_creatable f (promptList s) Hf) as Hc.
  split; [done|]. split; [by apply no_rate_error|]. cbn [handle]. unfold handleCreate. cbv zeta. fold f.
  split; intros Hv; [rewrite bool_decide_true by by apply Hc|rewrite bool_decide_false by by rewrite Hc].
  - apply Hc in Hv. by rewrite Hv.
  - by rewrite Hc.
Qed.

(** An error while deleting takes the whole page: the list and the forms give way
    to the message and nothing on the page can be clicked any more, although no rule
    was removed. *)
Theorem failed_delete_blocks_page i a m s :
  refusal (js "Failed to delete rule") a = Some m → m ≠ [] → loading s = false →
  let s' := (delete_answer i a s).1 in
  rules s' = rules s ∧ (∀ o, ¬ offers (render clock toLocaleString s') o).
Proof.
  intros Ha Hm Hl. unfold delete_answer. rewrite Ha. split; [done|]. intros o.
  destruct s as [? ? l]; cbn in Hl; subst l. destruct m as [|c m]; [done|].
  intros (v & Hv & Ho)%offers_nil. rewrite !elem_of_cons in Hv.
  destruct Hv as [->|[->|Hv]]; [| |by apply not_elem_of_nil in Hv].
  all: apply offers_nil in Ho as (w & ->%list_elem_of_singleton & Ho); by apply offers_text in Ho.
Qed.

(** Answers are not matched with the project they were asked for: when the project
    is switched before the list arrives, and the old list arrives last, the page of the
    new project shows the rules of the old one. *)
Theorem stale_rules_shown p q old new t t' :
  p ≠ q →
  let asked r := Fetch _ (get_request (by_project (js "/api/v1/eval-rules") r)) rules_answer in
  ∃ s1 s2 s3, page_reachable p (s1, [asked p; asked q]) ∧ activeProject s1 = q
    ∧ s2 = (rules_answer (Answer 200 t (Ok (Some new))) s1).1 ∧ step legal handle (s1, [asked p; asked q]) (s2, [asked p])
    ∧ s3 = (rules_answer (Answer 200 t' (Ok (Some old))) s2).1 ∧ step legal handle (s2, [asked p]) (s3, [])
    ∧ activeProject s3 = q ∧ rules s2 = new ∧ rules s3 = old ∧ loading s3 = false ∧ error s3 = None.
Proof.
  intros Hpq asked. pose (s0 := (handle Mounted (initial p)).1). exists (handle (SwitchProject q) s0).1.
  do 2 eexists. split.
  { apply (rtc_l _ _ (s0, [asked p])); [exact (step_event legal handle Mounted _ [] I)|].
    assert ((handle (SwitchProject q) s0).2 = [asked q]) as E.
    { cbn [handle]. by rewrite bool_decide_false by done. }
    apply rtc_once. pose proof (step_event legal handle (SwitchProject q) s0 [asked p] I) as Hs. by rewrite E in Hs. }
  split; [cbn [handle]; by rewrite bool_decide_false by done|].
  split; [reflexivity|].
  split; [exact (step_answer legal handle _ [asked p] [] _ _ _ _)|].
  split; [reflexivity|].
  split; [exact (step_answer legal handle _ [] [] _ _ _ _)|].
  cbn [handle]. by rewrite bool_decide_false by done.
Qed.
End pages.


(** A numeric condition that was chosen and not filled in: the builder gives the
    empty text for it, [normalizeFilter] keeps it, and the request holds a text where
    the rules' filters have numbers. *)
Theorem blank_number_sent_as_text k s :
  k ∈ cost_keys ++ duration_keys →
  let f := withField createEmptyFilter k (VText []) in
  offers (FilterGroup createEmptyFilter 0) f
  ∧ filter_json (normalizeFilter f) = JObj [(k, JStr [])]
  ∧ request_bodies (handlePreview (s <| createForm ::= λ g, g <| form_filter := f |> |>))
    = [Some (stringify (JObj [(js "filter", JObj [(k, JStr [])])]))].
Proof.
  intros Hk f. unfold cost_keys, duration_keys in Hk. cbn [app] in Hk. rewrite !elem_of_cons in Hk.
  destruct Hk as [E|[E|[E|[E|Hk]]]]; [..|by apply not_elem_of_nil in Hk].
  all: subst k; split_and!; [left; apply list_elem_of_lookup|reflexivity..].
  - exists 5%nat. by vm_compute.
  - exists 6%nat. by vm_compute.
  - exists 7%nat. by vm_compute.
  - exists 8%nat. by vm_compute.
Qed.

(** Removing the only condition of a group leaves a filter that counts as having a
    condition, so that a preview of the filter without any is asked for; of the filter
    that never had one it is not. *)
Theorem emptied_group_previewed key sub s :
  key = js "and" ∨ key = js "or" →
  let start f := s <| createForm ::= λ g, g <| form_filter := f |> |> in
  request_bodies (handlePreview (start createEmptyFilter)) = []
  ∧ offers (FilterGroup (Filter [(key, VGroup [sub])]) 0) (removeSub key 0 (Filter [(key, VGroup [sub])]))
  ∧ request_bodies (handlePreview (start (removeSub key 0 (Filter [(key, VGroup [sub])]))))
    = [Some (stringify (JObj [(js "filter", JObj [])]))].
Proof.
  intros Hk start. split; [reflexivity|]. split.
  - apply offers_el. right. destruct Hk as [-> | ->].
    all: eexists; split; [apply elem_of_app; right; apply elem_of_app; left; left|].
    all: apply offers_nil; eexists; split; [left|]; apply offers_nil; eexists; split; [left|].
    all: apply offers_nil; eexists; split; [right; left|]; left; left.
  - by destruct Hk as [-> | ->].
Qed.

(** ** Runs *)

Module Runs.

#[local] Instance host : DateHost := {| date_parse _ := None; full_year _ := 2024; to_locale_string _ _ := [] |}.

Definition show (iso : jsstr) : jsstr := iso.
Definition team : jsstr := js "team".
Definition empty_answer : answer (option (list EvalRule)) := Answer 200 (Ok (js "{}")) (Ok None).

Definition loaded : state := (rules_answer empty_answer (handle Mounted (initial team)).1).1.
Definition opened : state := (handle NewRule loaded).1.
Definition named : state := (handle (EditRuleName (js " judge ")) opened).1.

Lemma legal_action o s n : actions (render 0 show s) !! n = Some o → offers (render 0 show s) o.
Proof. intros E. left. by apply list_elem_of_lookup_2 in E. Qed.

Lemma legal_entry f t s n : entries (render 0 show s) !! n = Some f → offers (render 0 show s) (f t).
Proof. intros E. right. left. exists f, t. by apply list_elem_of_lookup_2 in E. Qed.

Lemma named_reachable : page_reachable 0 show team (named, (handle NewRule loaded).2).
Proof.
  apply (rtc_l _ _ ((handle Mounted (initial team)).1, (handle Mounted (initial team)).2)).
  { exact (step_event (legal 0 show) handle Mounted (initial team) [] I). }
  apply (rtc_l _ _ (loaded, [])); [exact (step_answer (legal 0 show) handle _ [] [] _ _ _ empty_answer)|].
  apply (rtc_l _ _ (opened, (handle NewRule loaded).2)).
  { apply (step_event (legal 0 show) handle NewRule loaded []). apply (legal_action _ _ 0). by vm_compute. }
  apply rtc_once. apply (step_event (legal 0 show) handle (EditRuleName (js " judge ")) opened).
  apply (legal_entry EditRuleName _ _ 0). by vm_compute.
Qed.

Lemma create_when_valid_witness :
  creatable (createForm named) [] ∧ length (handle Create named).2 = 1%nat.
Proof.
  assert (creatable (createForm named) []) as Hc.
  { split; [split; [by vm_compute|by vm_compute; lia]|split; [by vm_compute|by vm_compute; lia]|done]. }
  split; [exact Hc|].
  destruct (create_when_valid 0 show team named _ named_reachable) as (_ & _ & H & _).
  by rewrite (H Hc).
Defined.

Lemma failed_delete_blocks_page_witness :
  let s' := (delete_answer (js "r1") (NoAnswer (js "offline")) loaded).1 in
  rules s' = rules loaded ∧ ¬ offers (render 0 show s') NewRule.
Proof.
  destruct (failed_delete_blocks_page 0 show (js "r1") (NoAnswer (js "offline")) (js "offline") loaded
              eq_refl ltac:(done) eq_refl) as [H1 H2].
  exact (conj H1 (H2 NewRule)).
Defined.

Lemma stale_rules_shown_witness : team ≠ js "other" ∧ ∃ s, page_reachable 0 show team (s, []) ∧ activeProject s = js "other".
Proof.
  assert (team ≠ js "other") as Hn by by vm_compute.
  split; [exact Hn|].
  destruct (stale_rules_shown 0 show team (js "other") [] [] (Ok []) (Ok []) Hn)
    as (s1 & s2 & s3 & H1 & _ & _ & H2 & _ & H3 & E & _).
  exists s3. split; [|exact E]. eapply rtc_r; [eapply rtc_r; [exact H1|exact H2]|exact H3].
Defined.


Lemma blank_number_sent_as_text_witness :
  js "min_cost_usd" ∈ cost_keys
  ∧ filter_json (normalizeFilter (withField createEmptyFilter (js "min_cost_usd") (VText [])))
    = JObj [(js "min_cost_usd", JStr [])].
Proof.
  assert (js "min_cost_usd" ∈ cost_keys) as Hk by left.
  split; [exact Hk|].
  exact (proj1 (proj2 (blank_number_sent_as_text (js "min_cost_usd") loaded (proj2 (elem_of_app _ _ _) (or_introl Hk))))).
Defined.

Lemma emptied_group_previewed_witness :
  let f := removeSub (js "or") 0 (Filter [(js "or", VGroup [createEmptyFilter])]) in
  request_bodies (handlePreview (loaded <| createForm ::= λ g, g <| form_filter := f |> |>))
  = [Some (stringify (JObj [(js "filter", JObj [])]))].
Proof. exact (proj2 (proj2 (emptied_group_previewed (js "or") createEmptyFilter loaded (or_intror eq_refl)))). Defined.
End Runs.
