(* ===== verification/Prompts.v ===== *)
(** The prompts page (ui/src/pages/Prompts.tsx): the list with its versions and labels,
    the form for a new prompt and the comparison of two versions.

    Version numbers are integers.  The effect of mounting may run more than once. *)
From S2P Require Import Prelude.
From S2P Require Import JsString.
From S2P Require Import JsNumber.
From S2P Require Import JsJson.
From S2P Require Import Ui.
From S2P Require Import Widgets.
From S2P Require Import Formatters.
From S2P Require Diff.
From S2P Require Import FilterGroup.
From S2P Require Import Toast.
From Stdlib Require Import QArith_base.
Local Open Scope Z_scope.

Record PromptMessage : Type := { role : jsstr; content : jsstr }.
#[export] Instance message_eta : Eta PromptMessage := λ m, {| role := role m; content := content m |}.

Record PromptVersion : Type := {
  version_id : jsstr; version : Z; kind : option jsstr; template : jsstr;
  messages : option (list PromptMessage); model : jsstr; temperature : num; max_tokens : num;
  created_at : jsstr
}.

Definition MESSAGE_ROLES : list jsstr := [js "system"; js "user"; js "assistant"].

Record PromptListItem : Type := { name : jsstr; latest_version : Z; labels : list (jsstr * Z) }.

Definition LABELS : list jsstr := [js "production"; js "staging"; js "dev"].
Definition VERSION_OPTIONS : list Z := seqZ 1 50.

Inductive prompt_kind : Type := text | chat.
#[export] Instance prompt_kind_eq : EqDecision prompt_kind.
Proof. solve_decision. Defined.
Inductive model_source : Type := select | custom.
#[export] Instance model_source_eq : EqDecision model_source.
Proof. solve_decision. Defined.

Record comparison : Type := Comparison { textDiff : list Diff.DiffLine; modelDiff : list Diff.ModelConfigDiff }.

(** ** State *)

Record state : Type := State {
  activeProject : jsstr;
  prompts : list PromptListItem;
  loading : bool;
  error : option jsstr;
  expandedNames : gset jsstr;
  versionData : gmap jsstr (list PromptVersion);
  showNewPromptForm : bool;
  newName : jsstr;
  newKind : prompt_kind;
  newTemplate : jsstr;
  newMessages : list PromptMessage;
  newModel : jsstr;
  newTemperature : num;
  newMaxTokens : num;
  createError : option jsstr;
  createSuccess : option jsstr;
  formErrors : list (jsstr * jsstr);
  knownModels : list jsstr;
  modelSource : model_source;
  customModel : jsstr;
  modelsLoading : bool;
  modelsError : option jsstr;
  labelAssignments : gmap jsstr Z;
  showDiffPanel : bool;
  diffPromptName : jsstr;
  diffOldVersion : Z;
  diffNewVersion : Z;
  diffData : option comparison;
  toasted : list (ToastType * jsstr)
}.
#[export] Instance state_eta : Eta state := λ s,
  State (activeProject s) (prompts s) (loading s) (error s) (expandedNames s) (versionData s) (showNewPromptForm s)
    (newName s) (newKind s) (newTemplate s) (newMessages s) (newModel s) (newTemperature s) (newMaxTokens s)
    (createError s) (createSuccess s) (formErrors s) (knownModels s) (modelSource s) (customModel s) (modelsLoading s)
    (modelsError s) (labelAssignments s) (showDiffPanel s) (diffPromptName s) (diffOldVersion s) (diffNewVersion s)
    (diffData s) (toasted s).

Definition first_message : list PromptMessage := [{| role := js "system"; content := [] |}].

Definition initial (p : jsstr) : state :=
  State p [] true None ∅ ∅ false [] text [] first_message (js "gpt-4") (rnd (7 # 10)) (of_Z 256) None None [] [] select []
    false None ∅ false [] 1 2 None [].

Definition addToast (t : ToastType) (m : jsstr) (s : state) : state := s <| toasted ::= λ l, l ++ [(t, m)] |>.

Definition by_project (path project : jsstr) : jsstr := path ++ js "?project_id=" ++ project.

(** ** Requests

    [None] is a body that is not an array. *)

Definition prompts_answer (a : answer (option (list PromptListItem))) (s : state) : outcome state :=
  now (match body_or_error (js "Failed to fetch prompts") a with
       | Ok data => s <| prompts := default [] data |>
       | Err m => s <| error := Some m |>
       end <| loading := false |>).

Definition fetchPrompts (project : jsstr) (s : state) : outcome state :=
  (s <| loading := true |> <| error := None |>,
   [Fetch (option (list PromptListItem)) (get_request (by_project (js "/api/v1/prompts") project)) prompts_answer]).

Definition models_answer (a : answer (option (list jsstr))) (s : state) : outcome state :=
  now (match body_or_error (js "Failed to fetch models") a with
       | Ok data => s <| knownModels := default [] data |>
       | Err m => s <| modelsError := Some m |>
       end <| modelsLoading := false |>).

Definition fetchModels (s : state) : outcome state :=
  (s <| modelsLoading := true |> <| modelsError := None |>,
   [Fetch (option (list jsstr)) (get_request (js "/api/v1/models")) models_answer]).

(** The form is shown or hidden; the models are fetched when it appears. *)
Definition set_show (b : bool) (s : state) : outcome state :=
  let s' := s <| showNewPromptForm := b |> in
  if b && negb (showNewPromptForm s) then fetchModels s' else now s'.

(** The versions come as an array, or under [versions]. *)
Inductive versions_body : Type :=
| VersionsArray (l : list PromptVersion)
| VersionsObject (l : option (list PromptVersion)).

Definition versions_of (b : versions_body) : list PromptVersion :=
  match b with VersionsArray l => l | VersionsObject o => default [] o end.

Definition versions_answer (n : jsstr) (a : answer versions_body) (s : state) : outcome state :=
  now (match ok_body a with
       | Some b => s <| versionData ::= <[n := versions_of b]> |>
       | None => s
       end).

Definition versions_request (n project : jsstr) : request :=
  get_request (by_project (js "/api/v1/prompts/" ++ n ++ js "/versions") project).

Definition fetchVersions (n : jsstr) (s : state) : outcome state :=
  if bool_decide (is_Some (versionData s !! n)) then now s else
  (s, [Fetch versions_body (versions_request n (activeProject s)) (versions_answer n)]).

Definition toggleExpand (n : jsstr) (s : state) : state :=
  s <| expandedNames ::= λ e, if bool_decide (n ∈ e) then e ∖ {[n]} else {[n]} ∪ e |>.

(** The click on the row of a prompt. *)
Definition click_prompt (n : jsstr) (s : state) : outcome state :=
  let isExpanded := bool_decide (n ∈ expandedNames s) in
  let s' := toggleExpand n s in
  if isExpanded then now s' else fetchVersions n s'.

(** ** Labels *)

Definition assignment_key (n label : jsstr) : jsstr := n ++ 58%N :: label.

Definition label_answer (project n label : jsstr) (v : Z) (a : answer unit) (s : state) : outcome state :=
  match a with
  | Answer status _ _ =>
    if ok_status status then
      fetchPrompts project
        (addToast success (js "Label " ++ [c_quote] ++ label ++ [c_quote] ++ js " assigned to v" ++ show_Z v)
           (s <| labelAssignments ::= <[assignment_key n label := v]> |>))
    else now (addToast Toast.error (js "Label reassignment failed") s)
  | NoAnswer _ => now (addToast Toast.error (js "Label reassignment failed") s)
  end.

Definition handleLabelChange (n label : jsstr) (v : Z) (s : state) : outcome state :=
  (s, [Fetch unit
         (send_json "PUT" (by_project (js "/api/v1/prompts/" ++ n ++ js "/labels/" ++ label) (activeProject s))
            (JObj [(js "version", JNum (of_Z v))]))
         (label_answer (activeProject s) n label v)]).

(** The option chosen: a version, or the one without. *)
Definition label_selected (n label : jsstr) (newVersion : option Z) (s : state) : outcome state :=
  match newVersion with
  | Some v => if 0 <? v then handleLabelChange n label v s else now s
  | None => now s
  end.

Definition currentVersion (s : state) (p : PromptListItem) (label : jsstr) : option Z :=
  match labelAssignments s !! assignment_key (name p) label with
  | Some v => Some v
  | None => prop_get label (labels p)
  end.

(** ** The form *)

Definition effectiveModel (s : state) : jsstr :=
  match modelSource s with custom => customModel s | select => newModel s end.

(** The patterns [/^[a-zA-Z0-9_\-]+$/] and [/^[a-zA-Z0-9_\-\./]+$/]. *)
Definition name_unit (c : N) : bool := is_word c || (c =? 45)%N.
Definition model_unit (c : N) : bool := name_unit c || (c =? 46)%N || (c =? 47)%N.
Definition all_units (p : N → bool) (s : jsstr) : bool := truthy s && forallb p s.

Definition blank (s : jsstr) : bool := negb (truthy (trim s)).

Definition form_errors (s : state) : list (jsstr * jsstr) :=
  (if blank (newName s) then [(js "name", js "Prompt name is required")]
   else if bool_decide (128 < length (newName s))%nat then [(js "name", js "Name must be 128 characters or fewer")]
   else if negb (all_units name_unit (newName s))
        then [(js "name", js "Name can only contain letters, numbers, underscores, and hyphens")]
   else [])
  ++ match newKind s with
     | chat => if forallb (λ m, blank (content m)) (newMessages s)
               then [(js "template", js "At least one message with content is required")] else []
     | text => if blank (newTemplate s) then [(js "template", js "Template is required")]
               else if bool_decide (32000 < Z.of_nat (length (newTemplate s)))
                    then [(js "template", js "Template must be 32000 characters or fewer")]
               else []
     end
  ++ (if blank (effectiveModel s) then []
      else if bool_decide (64 < length (effectiveModel s))%nat
           then [(js "model", js "Model name must be 64 characters or fewer")]
      else if negb (all_units model_unit (effectiveModel s))
           then [(js "model", js "Model name can only contain letters, numbers, underscores, hyphens, dots, and slashes")]
      else [])
  ++ (if num_lt (newTemperature s) (of_Z 0) || num_lt (of_Z 2) (newTemperature s)
      then [(js "temperature", js "Temperature must be between 0 and 2")] else [])
  ++ (if num_lt (newMaxTokens s) (of_Z 1) then [(js "maxTokens", js "Max tokens must be at least 1")] else []).

Definition message_json (m : PromptMessage) : json := JObj [(js "role", JStr (role m)); (js "content", JStr (content m))].

Definition payload (s : state) : json :=
  JObj ([(js "name", JStr (trim (newName s))); (js "version", JNum (of_Z 1))]
        ++ match newKind s with
           | chat => [(js "kind", JStr (js "chat"));
                      (js "messages", JArr (message_json <$> filter (λ m, blank (content m) = false) (newMessages s)))]
           | text => [(js "template", JStr (newTemplate s))]
           end
        ++ [(js "model", JStr (effectiveModel s)); (js "temperature", JNum (newTemperature s));
            (js "max_tokens", JNum (newMaxTokens s))]).

Definition created_message (n : jsstr) : jsstr := js "Created prompt " ++ [c_quote] ++ trim n ++ [c_quote] ++ js " version 1".

(** [n] and [project] are those of the moment the button was clicked. *)
Definition create_answer (n project : jsstr) (a : answer unit) (s : state) : outcome state :=
  match a with
  | NoAnswer m => now (s <| createError := Some m |>)
  | Answer status body _ =>
    if ok_status status then
      let s := addToast success (created_message n) s in
      let s := s <| createSuccess := Some (created_message n) |> <| newName := [] |> <| newTemplate := [] |>
                 <| newKind := text |> <| newMessages := first_message |> in
      let '(s, ps) := set_show false s in
      let '(s, qs) := fetchPrompts project s in
      (s, ps ++ qs)
    else
      now (s <| createError := Some (match body with
                                     | Err m => m
                                     | Ok t => if status =? 409 then js "A prompt with this name already exists"
                                               else if truthy t then t else js "Failed to create prompt"
                                     end) |>)
  end.

Definition handleCreate (s : state) : outcome state :=
  let errors := form_errors s in
  let s := s <| createError := None |> <| createSuccess := None |> <| formErrors := errors |> in
  if bool_decide (errors = []) then
    (s, [Fetch unit (send_json "POST" (by_project (js "/api/v1/prompts") (activeProject s)) (payload s))
           (create_answer (newName s) (activeProject s))])
  else now s.

Definition clear_error (k : jsstr) (s : state) : state := s <| formErrors ::= prop_set k [] |>.

(** [n || 0]. *)
Definition or_zero (n : num) : num := if is_nan n then of_Z 0 else n.

Definition select_model (t : jsstr) (s : state) : state :=
  clear_error (js "model")
    (if bool_decide (t = js "__other__")
     then s <| modelSource := custom |> <| customModel := [] |>
     else s <| modelSource := select |> <| newModel := t |>).

(** [newMessages.filter((_, i) => i !== idx)]. *)
Definition remove_at {A} (i : nat) (l : list A) : list A := take i l ++ drop (S i) l.

(** ** The comparison *)

Definition versionDiffText (v : option PromptVersion) : jsstr :=
  match v with
  | None => []
  | Some v =>
    if bool_decide (kind v = Some (js "chat"))
    then str_join [c_nl] ((λ m, role m ++ js ": " ++ content m) <$> default [] (messages v))
    else template v
  end.

Definition config_of (v : PromptVersion) : Diff.PromptVersion :=
  {| Diff.model := Some (model v); Diff.temperature := Some (temperature v); Diff.max_tokens := Some (max_tokens v) |}.

Definition find_version (v : Z) (versions : list PromptVersion) : option PromptVersion :=
  array_find (λ x, bool_decide (version x = v)) versions.

Definition compare (versions : list PromptVersion) (oldVer newVer : Z) : comparison :=
  let oldVerData := find_version oldVer versions in
  let newVerData := find_version newVer versions in
  Comparison (Diff.diffText (versionDiffText oldVerData) (versionDiffText newVerData))
    (Diff.diffModelConfig (config_of <$> oldVerData) (config_of <$> newVerData)).

Definition computeDiff (versions : list PromptVersion) (oldVer newVer : Z) (s : state) : state :=
  s <| diffOldVersion := oldVer |> <| diffNewVersion := newVer |> <| diffData := Some (compare versions oldVer newVer) |>.

Definition max_version (v : PromptVersion) (versions : list PromptVersion) : Z :=
  foldl Z.max (version v) (version <$> versions).

Definition openDiffPanel (n : jsstr) (versions : list PromptVersion) (s : state) : state :=
  match versions with
  | [] => s
  | v :: vs =>
    let maxVer := max_version v vs in
    computeDiff versions 1 (if 1 <? maxVer then maxVer else 2)
      (s <| diffPromptName := n |> <| showDiffPanel := true |>)
  end.

Definition closeDiffPanel (s : state) : state := s <| showDiffPanel := false |> <| diffData := None |>.

(** [versionData.get(name) || []]. *)
Definition versions_shown (s : state) (n : jsstr) : list PromptVersion := default [] (versionData s !! n).

(** ** Events *)

Inductive op : Type :=
| Mounted
| SwitchProject (p : jsstr)
| ToggleForm
| ShowFormFromEmpty
| SelectKind (k : prompt_kind)
| EditName (t : jsstr)
| SelectModel (t : jsstr)
| EditCustomModel (t : jsstr)
| EditTemperature (t : jsstr)
| EditMaxTokens (t : jsstr)
| EditTemplate (t : jsstr)
| SelectRole (i : nat) (t : jsstr)
| EditContent (i : nat) (t : jsstr)
| RemoveMessage (i : nat)
| AddMessage
| Create
| Cancel
| ClickPrompt (n : jsstr)
| SelectLabelVersion (n label : jsstr) (v : option Z)
| OpenDiff (n : jsstr) (versions : list PromptVersion)
| SelectOld (v : Z)
| SelectNew (v : Z)
| CloseDiff.

Definition handle (o : op) (s : state) : outcome state :=
  match o with
  | Mounted => fetchPrompts (activeProject s) s
  | SwitchProject p =>
    if bool_decide (p = activeProject s) then now s else fetchPrompts p (s <| activeProject := p |>)
  | ToggleForm => set_show (negb (showNewPromptForm s)) s
  | ShowFormFromEmpty => set_show true s
  | SelectKind k => now (clear_error (js "template") (s <| newKind := k |>))
  | EditName t => now (clear_error (js "name") (s <| newName := t |>))
  | SelectModel t => now (select_model t s)
  | EditCustomModel t => now (clear_error (js "model") (s <| customModel := t |>))
  | EditTemperature t => now (clear_error (js "temperature") (s <| newTemperature := or_zero (parse_float t) |>))
  | EditMaxTokens t => now (clear_error (js "maxTokens") (s <| newMaxTokens := or_zero (parse_int t) |>))
  | EditTemplate t => now (clear_error (js "template") (s <| newTemplate := t |>))
  | SelectRole i t => now (clear_error (js "template") (s <| newMessages ::= alter (λ m, m <| role := t |>) i |>))
  | EditContent i t => now (clear_error (js "template") (s <| newMessages ::= alter (λ m, m <| content := t |>) i |>))
  | RemoveMessage i => now (s <| newMessages ::= remove_at i |>)
  | AddMessage => now (s <| newMessages ::= λ l, l ++ [{| role := js "user"; content := [] |}] |>)
  | Create => handleCreate s
  | Cancel => let '(s, ps) := set_show false s in (s <| createError := None |>, ps)
  | ClickPrompt n => click_prompt n s
  | SelectLabelVersion n label v => label_selected n label v s
  | OpenDiff n versions => now (openDiffPanel n versions s)
  | SelectOld v => now (computeDiff (versions_shown s (diffPromptName s)) v (diffNewVersion s) s)
  | SelectNew v => now (computeDiff (versions_shown s (diffPromptName s)) (diffOldVersion s) v s)
  | CloseDiff => now (closeDiffPanel s)
  end.

(** ** Views *)

Section views.
Context `{DateHost} (clock : Z) (to_locale : num → jsstr).

Definition error_text (k : jsstr) (s : state) : list (view op) :=
  match prop_get k (formErrors s) with Some e => when (truthy e) (El "p" [] [Text e]) | None => [] end.

Definition model_options (s : state) : list (jsstr * jsstr) :=
  ((λ m, (m, m)) <$> knownModels s) ++ [(js "__other__", js "Other...")].

Definition kind_choice (k : prompt_kind) (label : string) (s : state) : view op :=
  El "label" [] [El "input" [Attr "type" (js "radio"); Flag "checked" (bool_decide (newKind s = k)); On "change" (SelectKind k)] [];
                 txt label].

Definition message_row (many : bool) (i : nat) (m : PromptMessage) : view op :=
  let label (what suffix : string) := js what ++ show_Z (Z.of_nat i + 1) ++ js suffix in
  El "div" []
    ([El "div" [Attr "aria-label" (label "Message " " role")%string]
        [Select (role m) (SelectRole i) ((λ r, (r, r)) <$> MESSAGE_ROLES)];
      El "textarea" [Attr "value" (content m); OnValue "change" (EditContent i);
                     Attr "placeholder" (js "Message content...")] []]
     ++ when many (El "button" [Attr "aria-label" (label "Remove message " "")%string; On "click" (RemoveMessage i)] [txt "✕"])).

Definition body_fields (s : state) : view op :=
  match newKind s with
  | text =>
    El "div" []
      ([El "label" [] [txt "Template"; El "span" [] [txt "(use "; El "code" [] [txt "{{variable}}"]; txt " syntax)"]];
        El "textarea" [Attr "value" (newTemplate s); OnValue "change" EditTemplate;
                       Attr "placeholder" (js "Hello {{name}}, welcome to {{place}}!")] []]
       ++ error_text (js "template") s
       ++ [El "p" [] [Text (to_locale (of_Z (Z.of_nat (length (newTemplate s)))) ++ js " / 32,000 chars")]])
  | chat =>
    El "div" []
      ([El "label" [] [txt "Messages"; El "span" [] [txt "(use "; El "code" [] [txt "{{variable}}"]; txt " syntax)"]];
        El "div" [] (imap (message_row (bool_decide (1 < length (newMessages s))%nat)) (newMessages s))]
       ++ error_text (js "template") s
       ++ [El "button" [On "click" AddMessage] [txt "+ Add message"]])
  end.

Definition new_prompt_form (s : state) : view op :=
  El "div" []
    ([El "h3" [] [txt "New Prompt"]]
     ++ match createError s with Some e => when (truthy e) (El "div" [] [Text e]) | None => [] end
     ++ match createSuccess s with Some e => when (truthy e) (El "div" [] [Text e]) | None => [] end
     ++ [El "div" [] [El "label" [] [txt "Type"]; El "div" [] [kind_choice text "Text" s; kind_choice chat "Chat" s]];
         El "div" []
           [El "div" [] ([El "label" [] [txt "Prompt Name"]; Input (newName s) EditName "e.g. greeting"]
                         ++ error_text (js "name") s);
            El "div" []
              ([El "label" [] [txt "Model"]]
               ++ match modelsError s with Some e => when (truthy e) (El "p" [] [Text e]) | None => [] end
               ++ [if modelsLoading s then El "div" [] [txt "Loading models..."]
                   else Select (effectiveModel s) SelectModel (model_options s)]
               ++ when (bool_decide (modelSource s = custom)) (Input (customModel s) EditCustomModel "Enter custom model name")
               ++ error_text (js "model") s)];
         El "div" []
           [El "div" [] ([El "label" [] [txt "Temperature (0–2)"]; Input (show_num (newTemperature s)) EditTemperature ""]
                         ++ error_text (js "temperature") s);
            El "div" [] ([El "label" [] [txt "Max Tokens"]; Input (show_num (newMaxTokens s)) EditMaxTokens ""]
                         ++ error_text (js "maxTokens") s)];
         body_fields s;
         El "div" [] [ActionButton Create (js "Create"); ActionButton Cancel (js "Cancel")]]).

(** ** The list *)

Definition label_badge (p : PromptListItem) (label : jsstr) : view op :=
  match prop_get label (labels p) with
  | Some v => El "span" [Flag "active" (0 <? v)] (Text label :: when (0 <? v) (El "span" [] [Text (js "v" ++ show_Z v)]))
  | None => El "span" [Flag "active" false] [Text label]
  end.

Definition summary_row (p : PromptListItem) (isExpanded : bool) : view op :=
  El "button" [On "click" (ClickPrompt (name p)); Flag "expanded" isExpanded]
    [El "span" [] [Text (name p)];
     El "span" [] [Text (js "v" ++ show_Z (latest_version p))];
     El "div" [] (label_badge p <$> LABELS)].

(** The value of the menu is empty for no version and for version zero. *)
Definition label_menu (s : state) (p : PromptListItem) (versions : list PromptVersion) (label : jsstr) : view op :=
  let value := match currentVersion s p label with Some v => if v =? 0 then [] else show_Z v | None => [] end in
  El "div" []
    [El "span" [] [Text (label ++ js ":")];
     El "select" [Attr "value" value]
       (El "option" [Attr "value" []; On "change" (SelectLabelVersion (name p) label None)] [txt "—"]
        :: ((λ v, El "option" [Attr "value" (show_Z (version v)); On "change" (SelectLabelVersion (name p) label (Some (version v)))]
                    [Text (js "v" ++ show_Z (version v))]) <$> versions))].

Definition version_card (s : state) (p : PromptListItem) (versions : list PromptVersion) (v : PromptVersion) : view op :=
  El "div" []
    [El "div" [] [El "span" [] [Text (js "Version " ++ show_Z (version v))];
                  El "span" [] [Text (formatTime clock (created_at v))]];
     if bool_decide (kind v = Some (js "chat"))
     then El "div" [] [El "div" [] [txt "Messages"];
                       El "div" [] ((λ m, El "div" [] [El "span" [] [Text (role m)]; El "span" [] [Text (content m)]])
                                      <$> default [] (messages v))]
     else El "div" [] [El "div" [] [txt "Template"]; El "pre" [] [Text (template v)]];
     El "div" [] [El "span" [] [txt "Model: "; Text (model v)];
                  El "span" [] [txt "Temp: "; Text (show_num (temperature v))];
                  El "span" [] [txt "Max: "; Text (show_num (max_tokens v))]];
     El "div" [] (label_menu s p versions <$> LABELS)].

Definition prompt_item (s : state) (p : PromptListItem) : view op :=
  let isExpanded := bool_decide (name p ∈ expandedNames s) in
  let versions := versions_shown s (name p) in
  El "div" []
    (summary_row p isExpanded
     :: when isExpanded
          (El "div" []
             [if bool_decide (versions = []) then El "p" [] [txt "No version history"]
              else El "div" []
                     ((version_card s p versions <$> versions)
                      ++ when (bool_decide (2 ≤ length versions)%nat)
                           (El "button" [On "click" (OpenDiff (name p) versions)] [txt "Compare versions"]))])).

(** ** The comparison panel *)

Definition version_menu (value : Z) (onChange : Z → op) (options : list (Z * jsstr)) : view op :=
  El "select" [Attr "value" (show_Z value)]
    ((λ '(v, l), El "option" [Attr "value" (show_Z v); On "change" (onChange v)] [Text l]) <$> options).

Definition numbered : list (Z * jsstr) := (λ v, (v, show_Z v)) <$> VERSION_OPTIONS.

Definition diff_line (i : nat) (l : Diff.DiffLine) : view op :=
  let row sign t := El "div" [] [El "span" [] [Text (show_Z (Z.of_nat i))]; El "span" [] [txt sign]; Text t] in
  match l with
  | Diff.Header t => El "div" [] [Text t]
  | Diff.Added t => row "+"%string t
  | Diff.Removed t => row "-"%string t
  | Diff.Unchanged t => row " "%string t
  end.

Definition config_text (v : Diff.config_value) : jsstr :=
  match v with Diff.CStr t => t | Diff.CNum n => show_num n end.

Definition diff_panel (s : state) (d : comparison) : view op :=
  El "div" [On "click" CloseDiff]
    [El "div" []
       [El "div" []
          [El "div" [] [El "h2" [] [Text (js "Compare: " ++ diffPromptName s)];
                        El "p" [] [Text (js "Version " ++ show_Z (diffOldVersion s) ++ js " vs " ++ show_Z (diffNewVersion s))]];
           El "button" [On "click" CloseDiff] []];
        El "div" []
          [El "span" [] [txt "From:"];
           version_menu (diffOldVersion s) SelectOld ((0, js "(empty baseline)") :: numbered);
           El "span" [] [txt "To:"];
           version_menu (diffNewVersion s) SelectNew numbered];
        El "div" []
          ([El "div" [] [El "h3" [] [txt "Template Diff"]; El "div" [] (imap diff_line (textDiff d))]]
           ++ when (bool_decide (modelDiff d ≠ []))
                (El "div" []
                   [El "h3" [] [txt "Model Config Changes"];
                    El "table" []
                      [El "tr" [] [El "th" [] [txt "Field"]; El "th" [] [Text (js "v" ++ show_Z (diffOldVersion s))];
                                   El "th" [] [Text (js "v" ++ show_Z (diffNewVersion s))]];
                       El "tbody" []
                         ((λ c, El "tr" [] [El "td" [] [Text (Diff.d_field c)]; El "td" [] [Text (config_text (Diff.oldValue c))];
                                            El "td" [] [Text (config_text (Diff.newValue c))]]) <$> modelDiff d)]])
           ++ [El "div" [] [El "span" [] [txt "Added"]; El "span" [] [txt "Removed"]]])]].

Definition render (s : state) : view op :=
  if loading s then El "div" [] [El "div" [] []; El "p" [] [txt "Loading prompts..."]] else
  if truthy_opt (error s) then El "div" [] [El "div" [] [txt "⚠"]; El "p" [] [Text (default [] (error s))]] else
  let n := Z.of_nat (length (prompts s)) in
  El "div" []
    ([El "div" []
        [El "div" [] [El "h1" [] [txt "Prompt Registry"];
                      El "p" [] [Text (show_Z n ++ js " prompt" ++ (if n =? 1 then [] else js "s") ++ js " · " ++ activeProject s)]];
         El "button" [On "click" ToggleForm] [txt "+ New Prompt"]]]
     ++ when (showNewPromptForm s) (new_prompt_form s)
     ++ [if bool_decide (prompts s = [])
         then EmptyState default_ (Some (js "No prompts yet")) (Some (js "Create your first prompt to get started"))
                (Some (js "+ New Prompt")) (Some ShowFormFromEmpty)
         else El "div" [] (prompt_item s <$> prompts s)]
     ++ (if showDiffPanel s then when_some (diffData s) (diff_panel s) else [])).

(** What can happen: the page is mounted, the header switches the project, or the user
    does what the screen offers. *)
Definition legal (o : op) (s : state) : Prop :=
  match o with
  | Mounted | SwitchProject _ => True
  | _ => offers (render s) o
  end.
End views.
