(* ===== verification/PromptsProps.v ===== *)
(** Theorems on the prompts page: what is published, what the label menus and the
    comparison show, and what survives a change of the project. *)
From S2P Require Import Prelude.
From S2P Require Import JsString.
From S2P Require Import JsNumber.
From S2P Require Import JsJson.
From S2P Require Import Ui.
From S2P Require Import Widgets.
From S2P Require Import Formatters.
From S2P Require Diff.
From S2P Require Import FilterGroup.
From S2P Require Import Toast.
From S2P Require Import Prompts.
From Stdlib Require Import QArith_base.
Local Open Scope Z_scope.

(** ** The form *)

(** A prompt that can be published, as the messages of the form put it. *)
Record publishable (s : state) : Prop := {
  publishable_name : newName s ≠ [] ∧ (length (newName s) ≤ 128)%nat ∧ Forall (λ c, name_unit c = true) (newName s);
  publishable_body : match newKind s with
                     | chat => ∃ m, m ∈ newMessages s ∧ trim (content m) ≠ []
                     | text => trim (newTemplate s) ≠ [] ∧ Z.of_nat (length (newTemplate s)) ≤ 32000
                     end;
  publishable_model : trim (effectiveModel s) ≠ [] →
                      (length (effectiveModel s) ≤ 64)%nat ∧ Forall (λ c, model_unit c = true) (effectiveModel s);
  publishable_temperature : num_le (of_Z 0) (newTemperature s) = true ∧ num_le (newTemperature s) (of_Z 2) = true;
  publishable_tokens : num_le (of_Z 1) (newMaxTokens s) = true
}.

Lemma name_unit_no_space c : name_unit c = true → is_space c = false.
Proof.
  intros H. assert (45 ≤ c ∧ c ≤ 122)%N as [H1 H2].
  { unfold name_unit, is_word, is_digit, is_upper, is_lower in H.
    rewrite !orb_true_iff, !andb_true_iff, !N.leb_le, !N.eqb_eq in H. lia. }
  unfold is_space. rewrite bool_decide_false; [|set_solver by lia]. apply andb_false_iff. left. apply N.leb_gt. lia.
Qed.

Lemma trim_start_no_space s : Forall (λ c, is_space c = false) s → trim_start s = s.
Proof. by intros [|c l Hc _]; simpl; [|rewrite Hc]. Qed.

Lemma trim_no_space s : Forall (λ c, is_space c = false) s → trim s = s.
Proof.
  intros H. unfold trim, trim_end. rewrite (trim_start_no_space s) by done.
  rewrite trim_start_no_space; [apply rev_involutive|]. rewrite Forall_forall in H. apply Forall_forall.
  intros c Hc. apply H. rewrite list_elem_of_In in *. by apply in_rev.
Qed.

Lemma blank_spec s : blank s = true ↔ trim s = [].
Proof. unfold blank. by destruct (trim s). Qed.
Lemma not_blank_spec s : blank s = false ↔ trim s ≠ [].
Proof. rewrite <- blank_spec. by destruct (blank s). Qed.

Lemma all_units_spec p s : all_units p s = true ↔ s ≠ [] ∧ Forall (λ c, p c = true) s.
Proof.
  unfold all_units. rewrite andb_true_iff, truthy_spec, forallb_forall, Forall_forall.
  by setoid_rewrite list_elem_of_In.
Qed.

(** The numbers of the form are numbers: an invariant of the page. *)
Definition numbers_ok (s : state) : Prop := is_nan (newTemperature s) = false ∧ is_nan (newMaxTokens s) = false.

Lemma chain_nil {A} (b : bool) (x : A) l : (if b then [x] else l) = [] ↔ b = false ∧ l = [].
Proof. destruct b; naive_solver. Qed.

Lemma form_errors_publishable s : numbers_ok s → form_errors s = [] ↔ publishable s.
Proof.
  intros [Ht Hm]. unfold form_errors.
  rewrite !not_lt_le by by rewrite ?Ht, ?Hm. rewrite !app_nil.
  assert (match newKind s with
          | text => if blank (newTemplate s) then [(js "template", js "Template is required")]
                    else if bool_decide (32000 < Z.of_nat (length (newTemplate s)))
                         then [(js "template", js "Template must be 32000 characters or fewer")] else []
          | chat => if forallb (λ m, blank (content m)) (newMessages s)
                    then [(js "template", js "At least one message with content is required")] else []
          end = [] ↔ match newKind s with
                     | chat => ∃ m, m ∈ newMessages s ∧ trim (content m) ≠ []
                     | text => trim (newTemplate s) ≠ [] ∧ Z.of_nat (length (newTemplate s)) ≤ 32000
                     end) as ->.
  { destruct (newKind s).
    - rewrite !chain_nil, not_blank_spec, bool_decide_eq_false. naive_solver lia.
    - rewrite chain_nil, <- not_true_iff_false, forallb_forall. setoid_rewrite blank_spec.
      setoid_rewrite <- list_elem_of_In. split; [|naive_solver].
      intros [H _]. induction (newMessages s) as [|m l IH]; [by destruct H; intros x ?%not_elem_of_nil|].
      destruct (decide (trim (content m) = [])) as [E|E]; [|exists m; split; [left|done]].
      destruct IH as (m' & Hm' & Hc); [|exists m'; split; [by right|done]].
      intros Hl. apply H. intros x [->|Hx]%elem_of_cons; auto. }
  assert ((if blank (effectiveModel s) then []
           else if bool_decide (64 < length (effectiveModel s))%nat
                then [(js "model", js "Model name must be 64 characters or fewer")]
                else if negb (all_units model_unit (effectiveModel s))
                     then [(js "model", js "Model name can only contain letters, numbers, underscores, hyphens, dots, and slashes")]
                     else []) = []
          ↔ (trim (effectiveModel s) ≠ [] → (length (effectiveModel s) ≤ 64)%nat ∧ Forall (λ c, model_unit c = true) (effectiveModel s))) as ->.
  { destruct (blank (effectiveModel s)) eqn:Hb; [apply blank_spec in Hb; naive_solver|]. apply not_blank_spec in Hb.
    rewrite !chain_nil, negb_false_iff, bool_decide_eq_false, all_units_spec. split.
    - intros (H1 & (H2 & H3) & _) _. split; [lia|done].
    - intros H. destruct (H Hb) as [H1 H2]. split; [lia|]. split; [|done]. split; [by intros E; rewrite E in Hb|done]. }
  rewrite !chain_nil, orb_false_iff, !negb_false_iff, not_blank_spec, bool_decide_eq_false, all_units_spec.
  split; [intros ((H1 & H2 & (H3 & H3') & _) & H4 & H5 & (H6 & _) & H7 & _)|intros [(H1 & H2 & H3) H4 H5 H6 H7]].
  - constructor; [|done..]. split; [done|]. split; [lia|done].
  - split; [|done]. rewrite trim_no_space by (eapply Forall_impl; [exact H3|]; apply name_unit_no_space).
    split; [done|]. split; [lia|done].
Qed.

Section page.
Context `{DateHost} (clock : Z) (to_locale : num → jsstr).
#[local] Set Default Proof Using "All".
Let legal := legal clock to_locale.

Definition page_reachable (p : jsstr) := reachable legal handle (initial p).

Definition keeps_numbers (ps : list (program state)) : Prop := Forall (keeps numbers_ok) ps.

Lemma or_zero_ok n : is_nan (or_zero n) = false.
Proof. unfold or_zero. by destruct (is_nan n) eqn:E. Qed.

Lemma prompts_request_numbers q : keeps_numbers [Fetch _ q prompts_answer].
Proof. apply keeps_answers. intros a s Hs. split; [|apply Forall_nil_2]. simpl. by case_match. Qed.

Lemma set_show_numbers b s : numbers_ok s → numbers_ok (set_show b s).1 ∧ keeps_numbers (set_show b s).2.
Proof.
  intros Hs. unfold set_show. cbv zeta. destruct (_ && _); (split; [done|]); [|apply Forall_nil_2].
  apply keeps_answers. intros a s' Hs'. split; [|apply Forall_nil_2]. simpl. by case_match.
Qed.

Lemma fetchVersions_numbers n s : numbers_ok s → numbers_ok (fetchVersions n s).1 ∧ keeps_numbers (fetchVersions n s).2.
Proof.
  intros Hs. unfold fetchVersions. destruct (bool_decide _); (split; [done|]); [apply Forall_nil_2|].
  apply keeps_answers. intros a s' Hs'. split; [|apply Forall_nil_2]. simpl. by case_match.
Qed.

Lemma label_selected_numbers n l v s : numbers_ok s → numbers_ok (label_selected n l v s).1 ∧ keeps_numbers (label_selected n l v s).2.
Proof.
  intros Hs. unfold label_selected. destruct v as [v|]; [|split; [done|apply Forall_nil_2]].
  destruct (0 <? v); (split; [done|]); [|apply Forall_nil_2].
  apply keeps_answers. intros a s' Hs'. unfold label_answer. destruct a as [st t b|m]; [|split; [done|apply Forall_nil_2]].
  destruct (ok_status st); (split; [done|]); [apply prompts_request_numbers|apply Forall_nil_2].
Qed.

Lemma create_answer_numbers n p a s : numbers_ok s → numbers_ok (create_answer n p a s).1 ∧ keeps_numbers (create_answer n p a s).2.
Proof.
  intros Hs. destruct a as [st t b|m]; cbn [create_answer]; [|split; [done|apply Forall_nil_2]].
  destruct (ok_status st); (split; [done|]); [apply prompts_request_numbers|apply Forall_nil_2].
Qed.

Lemma handleCreate_numbers s : numbers_ok s → numbers_ok (handleCreate s).1 ∧ keeps_numbers (handleCreate s).2.
Proof.
  intros Hs. unfold handleCreate. cbv zeta. destruct (bool_decide _); (split; [done|]); [|apply Forall_nil_2].
  apply keeps_answers. intros a s' Hs'. by apply create_answer_numbers.
Qed.

Lemma numbers_handlers : handlers_keep legal handle numbers_ok.
Proof.
  intros o s _ Hs. destruct o; cbn [handle]; try (split; [done|apply Forall_nil_2]).
  - split; [done|apply prompts_request_numbers].
  - case_bool_decide; (split; [done|]); [apply Forall_nil_2|apply prompts_request_numbers].
  - by apply set_show_numbers.
  - by apply set_show_numbers.
  - split; [|apply Forall_nil_2]. unfold select_model. by case_bool_decide.
  - split; [|apply Forall_nil_2]. split; [apply or_zero_ok|apply Hs].
  - split; [|apply Forall_nil_2]. split; [apply Hs|apply or_zero_ok].
  - by apply handleCreate_numbers.
  - unfold click_prompt. cbv zeta. destruct (bool_decide _); [split; [done|apply Forall_nil_2]|].
    by apply fetchVersions_numbers.
  - by apply label_selected_numbers.
  - split; [|apply Forall_nil_2]. by destruct versions.
Qed.

Lemma filter_blank (ms : list PromptMessage) :
  filter (λ m, blank (content m) = false) ms = filter (λ m, trim (content m) ≠ []) ms.
Proof. apply list_filter_iff. intros m. apply not_blank_spec. Qed.

(** C14. In every reachable state Create publishes the form's prompt exactly if it is
    publishable: the name has one to 128 letters, digits, underscores and hyphens, the
    body is there, the model is left blank or fits, the numbers are in their ranges.  What
    is sent is the name as it is, version 1, the model and the numbers as they are, and
    either the template as it is or, for a chat, exactly the messages with content, all of
    them and in order, with their roles.  In the other case nothing is sent and the form
    says why. *)
Theorem create_when_publishable p s waiting :
  page_reachable p (s, waiting) →
  (publishable s →
    handle Create s =
      (s <| createError := None |> <| createSuccess := None |> <| formErrors := [] |>,
       [Fetch unit (send_json "POST" (by_project (js "/api/v1/prompts") (activeProject s)) (payload s))
          (create_answer (newName s) (activeProject s))])
    ∧ field (js "name") (payload s) = Some (JStr (newName s))
    ∧ field (js "version") (payload s) = Some (JNum (of_Z 1))
    ∧ field (js "model") (payload s) = Some (JStr (effectiveModel s))
    ∧ field (js "temperature") (payload s) = Some (JNum (newTemperature s))
    ∧ field (js "max_tokens") (payload s) = Some (JNum (newMaxTokens s))
    ∧ match newKind s with
      | text => field (js "template") (payload s) = Some (JStr (newTemplate s))
                ∧ field (js "kind") (payload s) = None ∧ field (js "messages") (payload s) = None
      | chat => let written := filter (λ m, trim (content m) ≠ []) (newMessages s) in
                written ≠ []
                ∧ field (js "messages") (payload s)
                  = Some (JArr ((λ m, JObj [(js "role", JStr (role m)); (js "content", JStr (content m))]) <$> written))
                ∧ field (js "kind") (payload s) = Some (JStr (js "chat")) ∧ field (js "template") (payload s) = None
      end)
  ∧ (¬ publishable s →
     form_errors s ≠ []
     ∧ handle Create s = now (s <| createError := None |> <| createSuccess := None |> <| formErrors := form_errors s |>)).
Proof.
  intros Hr. assert (numbers_ok s) as Hn.
  { by apply (invariant legal handle numbers_ok (initial p) (s, waiting) numbers_handlers). }
  pose proof (form_errors_publishable s Hn) as Hf. cbn [handle]. unfold handleCreate. cbv zeta. split.
  - intros Hp. pose proof (proj2 Hf Hp) as E. rewrite E, bool_decide_true by done. split; [done|].
    destruct Hp as [(_ & _ & Hname) Hbody _ _ _]. unfold payload.
    rewrite trim_no_space by (eapply Forall_impl; [exact Hname|]; apply name_unit_no_space).
    destruct (newKind s); [done|]. rewrite filter_blank. split_and!; try done.
    destruct Hbody as (m0 & Hm0 & Hc0). intros E0. apply (not_elem_of_nil m0). rewrite <- E0. by apply list_elem_of_filter.
  - intros Hp. assert (form_errors s ≠ []) as E by by intros E%Hf. by rewrite bool_decide_false.
Qed.

(** ** Labels *)

(** The key of an assignment says which prompt and which label it is for, whatever
    units the prompt's name has. *)
Lemma assignment_key_inj n n' l l' :
  58%N ∉ l → 58%N ∉ l' → assignment_key n l = assignment_key n' l' → n = n' ∧ l = l'.
Proof.
  unfold assignment_key. intros Hl Hl' E. apply (f_equal (rev (A:=N))) in E. rewrite !rev_app_distr in E. cbn [rev] in E.
  rewrite <- !app_assoc in E. cbn [app] in E.
  assert (∀ x : jsstr, 58%N ∉ x → 58%N ∉ rev x) as Hrev by (intros x; by rewrite !list_elem_of_In, <- in_rev).
  apply sep_inj in E as [E1 E2]; [|by apply Hrev..].
  apply (f_equal (rev (A:=N))) in E1, E2. by rewrite !rev_involutive in E1, E2.
Qed.

Lemma labels_no_colon l : l ∈ LABELS → 58%N ∉ l.
Proof. unfold LABELS. rewrite !elem_of_cons. intros [->|[->|[->|?%not_elem_of_nil]]]; [..|done]; eapply bool_decide_unpack; by vm_compute. Qed.

(** What the page offers: a label is one of the three, the comparison is opened with the
    versions at hand, and versions are chosen while it is shown. *)
Definition comparable (s : state) (o : op) : Prop :=
  match o with
  | SelectLabelVersion n l v => l ∈ LABELS
  | OpenDiff n vs => vs = versions_shown s n ∧ (2 ≤ length vs)%nat
  | SelectOld v => showDiffPanel s = true ∧ (v = 0 ∨ v ∈ VERSION_OPTIONS)
  | SelectNew v => showDiffPanel s = true ∧ v ∈ VERSION_OPTIONS
  | _ => True
  end.

Lemma error_text_emits k s : Forall (emits (comparable s)) (error_text k s).
Proof. unfold error_text. emit. Qed.

Lemma select_emits (P : op → Prop) value onChange options : (∀ t, P (onChange t)) → emits P (Select value onChange options).
Proof. intros HP. unfold Select. emit. Qed.

Lemma form_emits s : emits (comparable s) (new_prompt_form to_locale s).
Proof.
  unfold new_prompt_form, kind_choice, Input, ActionButton. emit; try (apply error_text_emits); try (by apply select_emits).
  unfold body_fields. destruct (newKind s); emit; try (apply error_text_emits).
  apply Forall_forall. intros v (i & m & -> & _)%elem_of_lookup_imap. unfold message_row. emit. by apply select_emits.
Qed.

Lemma version_menu_emits (P : op → Prop) value onChange options :
  (∀ v l, (v, l) ∈ options → P (onChange v)) → emits P (version_menu value onChange options).
Proof. intros HP. unfold version_menu. emit. by eapply HP. Qed.

Lemma diff_panel_emits s d : showDiffPanel s = true → emits (comparable s) (diff_panel s d).
Proof.
  intros Hs. unfold diff_panel. emit.
  - apply version_menu_emits. intros v l [E|Hv]%elem_of_cons; [simplify_eq; by split; [|left]|].
    apply list_elem_of_fmap in Hv as (w & E & Hw). simplify_eq. by split; [|right].
  - apply version_menu_emits. intros v l (w & E & Hw)%list_elem_of_fmap. by simplify_eq.
  - apply Forall_forall. intros v (i & l & -> & _)%elem_of_lookup_imap. unfold diff_line. emit.
Qed.

Lemma render_comparable s o : offers (render clock to_locale s) o → comparable s o.
Proof.
  revert o. change (emits (comparable s) (render clock to_locale s)). unfold render, EmptyState. emit; [by apply form_emits| |].
  - unfold prompt_item, summary_row, label_badge. emit.
    + unfold version_card, label_menu. emit.
    + unfold ActionButton. emit. split; [done|]. by eapply bool_decide_eq_true.
  - by apply diff_panel_emits.
Qed.


(** *** Which requests change the assignments *)

(** A request whose answer, whatever it is and whenever it comes, changes none. *)
Inductive steady : program state → Prop :=
| steady_fetch T q resume :
    (∀ a s, labelAssignments (resume a s).1 = labelAssignments s) →
    (∀ a s, Forall steady (resume a s).2) →
    steady (Fetch T q resume).

(** The choice of a version for a label, on its way. *)
Definition choice (project n l : jsstr) (v : Z) : program state :=
  Fetch unit
    (send_json "PUT" (by_project (js "/api/v1/prompts/" ++ n ++ js "/labels/" ++ l) project) (JObj [(js "version", JNum (of_Z v))]))
    (label_answer project n l v).

(** A choice for a label for which [can] holds, or a request that changes no assignment. *)
Definition choice_or_steady (can : jsstr → jsstr → Prop) (w : program state) : Prop :=
  steady w ∨ ∃ project n l v, can n l ∧ l ∈ LABELS ∧ w = choice project n l v.

Lemma steady_prompts q : steady (Fetch _ q prompts_answer).
Proof.
  constructor; intros a s; [|constructor]. cbn. by destruct (body_or_error _ a).
Qed.

Lemma steady_set_show b s :
  labelAssignments (set_show b s).1 = labelAssignments s ∧ Forall steady (set_show b s).2.
Proof.
  unfold set_show. cbv zeta. destruct (_ && _); (split; [done|]); [|constructor].
  apply Forall_singleton. constructor; intros a s'; [|constructor]. cbn. by destruct (body_or_error _ a).
Qed.

Lemma steady_create n q project : steady (Fetch unit q (create_answer n project)).
Proof.
  constructor; intros [st t b|m] s; cbn; try done; destruct (ok_status st); try done; cbn.
  apply Forall_singleton, steady_prompts.
Qed.

Lemma steady_versions n q : steady (Fetch _ q (versions_answer n)).
Proof. constructor; intros a s; [|constructor]. cbn. by destruct (ok_body a). Qed.

(** Every event leaves the assignments alone; it starts a choice only if it is one. *)
Lemma event_choices (can : jsstr → jsstr → Prop) o s :
  match o with SelectLabelVersion n l _ => can n l ∧ l ∈ LABELS | _ => True end →
  labelAssignments (handle o s).1 = labelAssignments s ∧ Forall (choice_or_steady can) (handle o s).2.
Proof.
  intros Ho. assert (∀ ps, Forall steady ps → Forall (choice_or_steady can) ps) as Hps.
  { intros ps Hp. eapply Forall_impl; [exact Hp|]. by left. }
  destruct o as [|p| | |k|t|t|t|t|t|t|i t|i t|i| | | |m|m l' v'|m vs|v'|v'|]; cbn [handle];
    try (split; [done|apply Forall_nil_2]).
  - split; [done|]. apply Hps, Forall_singleton, steady_prompts.
  - case_bool_decide; (split; [done|]); [constructor|apply Hps, Forall_singleton, steady_prompts].
  - destruct (steady_set_show (negb (showNewPromptForm s)) s). auto.
  - destruct (steady_set_show true s). auto.
  - split; [|constructor]. unfold select_model. by case_bool_decide.
  - unfold handleCreate. cbv zeta. destruct (bool_decide _); (split; [done|]); [|constructor].
    apply Hps, Forall_singleton, steady_create.
  - unfold click_prompt. cbv zeta. destruct (bool_decide _); [split; [done|constructor]|].
    unfold fetchVersions. destruct (bool_decide _); (split; [done|]); [constructor|apply Hps, Forall_singleton, steady_versions].
  - unfold label_selected. destruct v' as [v'|]; [|split; [done|constructor]].
    destruct (0 <? v'); (split; [done|]); [|constructor]. apply Forall_singleton. right. naive_solver.
  - split; [|constructor]. by destruct vs.
Qed.

(** The requests that wait in a reachable state. *)
Lemma waiting_choices p s ps : page_reachable p (s, ps) → Forall (choice_or_steady (λ _ _, True)) ps.
Proof.
  apply (reachable_ind legal handle (λ c, Forall (choice_or_steady (λ _ _, True)) c.2)); [constructor|].
  intros [s1 ps1] c Hc [(o & Hl & ->)|(qs & w & rs & d & E & Ha & ->)]%step_inv; cbn [fst snd] in *.
  - apply Forall_app. split; [done|]. apply event_choices. destruct o; try done.
    split; [done|]. by apply render_comparable in Hl.
  - rewrite E, Forall_app, Forall_cons in Hc. destruct Hc as (H1 & Hw & H2). rewrite !Forall_app. split_and!; [done| |done].
    revert Ha. destruct Hw as [[T q resume _ Hs]|(project & n & l & v & _ & _ & ->)]; intros (a & ->).
    + eapply Forall_impl; [apply Hs|]. by left.
    + destruct a as [st t b|m]; cbn; [|constructor]. destruct (ok_status st); [|constructor].
      apply Forall_singleton. left. apply steady_prompts.
Qed.

Definition assigned (n l : jsstr) (v : Z) (s : state) : Prop := labelAssignments s !! assignment_key n l = Some v.

(** The answer to a choice for another label or prompt. *)
Lemma other_choice project n l v n' l' v' a s :
  l ∈ LABELS → l' ∈ LABELS → ¬ (n' = n ∧ l' = l) → assigned n l v s →
  assigned n l v (label_answer project n' l' v' a s).1 ∧ Forall steady (label_answer project n' l' v' a s).2.
Proof.
  intros Hl Hl' Hne Hs. destruct a as [st t b|m]; cbn; [|split; [done|constructor]].
  destruct (ok_status st); [|split; [done|constructor]]. split; [|apply Forall_singleton, steady_prompts].
  unfold assigned. cbn. rewrite lookup_insert_ne; [done|]. intros E. apply Hne.
  by apply assignment_key_inj in E; [|by apply labels_no_colon..].
Qed.

(** What may happen without this label of this prompt being chosen. *)
Definition legal_but (n l : jsstr) (o : op) (s : state) : Prop :=
  legal o s ∧ match o with SelectLabelVersion n' l' _ => ¬ (n' = n ∧ l' = l) | _ => True end.

Lemma assigned_kept n l v c c' :
  l ∈ LABELS → rtc (step (legal_but n l) handle) c c' →
  assigned n l v c.1 → Forall (choice_or_steady (λ n' l', ¬ (n' = n ∧ l' = l))) c.2 → assigned n l v c'.1.
Proof.
  intros Hl. induction 1 as [c|[s ps] c1 c2 Hstep _ IH]; [done|]. cbn [fst snd]. intros Hs Hps. apply IH; clear IH.
  - apply step_inv in Hstep as [(o & [Hlo Ho] & ->)|(qs & w & rs & d & E & Ha & ->)]; cbn [fst snd] in *.
    + unfold assigned. rewrite (proj1 (event_choices (λ _ _, True) o s ltac:(destruct o; try done; by apply render_comparable in Hlo))). done.
    + rewrite E, Forall_app, Forall_cons in Hps. destruct Hps as (_ & Hw & _).
      revert Ha. destruct Hw as [[T q resume H1 _]|(project & n' & l' & v' & Hne & Hl' & ->)]; intros (a & ->).
      * unfold assigned. by rewrite H1.
      * by apply other_choice.
  - apply step_inv in Hstep as [(o & [Hlo Ho] & ->)|(qs & w & rs & d & E & Ha & ->)]; cbn [fst snd] in *.
    + apply Forall_app. split; [done|]. apply event_choices. destruct o; try done. by apply render_comparable in Hlo.
    + rewrite E, Forall_app, Forall_cons in Hps. destruct Hps as (H1 & Hw & H2). rewrite !Forall_app. split_and!; [done| |done].
      assert (Forall steady d.2) as Hd.
      { revert Ha. destruct Hw as [[T q resume _ Hst]|(project & n' & l' & v' & Hne & Hl' & ->)]; intros (a & ->); [apply Hst|].
        by eapply (other_choice project n l v). }
      eapply Forall_impl; [exact Hd|]. by left.
Qed.

(** C28. When the server's answer that accepts a choice arrives, in whatever reachable state
    and with whatever else under way, the menu of that label shows the version for the
    prompt and every other menu shows what it did.  If no other choice for this label of
    this prompt is on its way then, the menu shows that version until one is made:
    whatever other events happen and answers arrive, whatever the lists that arrive say,
    and also for the prompt of that name of another project.  (If one is, its answer
    decides in turn.) *)
Theorem label_menu_sticks p0 s before after project l v p st t b :
  page_reachable p0 (s, before ++ choice project (name p) l v :: after) → ok_status st = true → l ∈ LABELS →
  let d := label_answer project (name p) l v (Answer st t b) s in
  currentVersion d.1 p l = Some v
  ∧ (∀ p' l', l' ∈ LABELS → name p' ≠ name p ∨ l' ≠ l → currentVersion d.1 p' l' = currentVersion s p' l')
  ∧ (Forall (λ w, ∀ project' v', w ≠ choice project' (name p) l v') (before ++ after) →
     ∀ s2 ps p', rtc (step (legal_but (name p) l) handle) (d.1, before ++ d.2 ++ after) (s2, ps) →
       name p' = name p → currentVersion s2 p' l = Some v).
Proof.
  intros Hr Hst Hl d.
  assert (labelAssignments d.1 = <[assignment_key (name p) l := v]> (labelAssignments s)) as E1.
  { unfold d. cbn [label_answer]. by rewrite Hst. }
  assert (assigned (name p) l v d.1) as Hs1 by (unfold assigned; rewrite E1; apply lookup_insert_eq).
  split; [|split].
  - unfold currentVersion. by rewrite Hs1.
  - intros p' l' Hl' Hne. unfold currentVersion. rewrite E1, lookup_insert_ne; [done|].
    intros [En El]%assignment_key_inj; [|by apply labels_no_colon..]. by destruct Hne; congruence.
  - intros Hno s2 ps p' Hr2 Hp'. unfold currentVersion. rewrite Hp'.
    enough (assigned (name p) l v s2) as -> by done.
    apply (assigned_kept _ _ _ _ _ Hl Hr2 Hs1). cbn [snd].
    apply waiting_choices in Hr. rewrite Forall_app, Forall_cons in Hr. destruct Hr as (Hb & _ & Ha).
    assert (Forall (choice_or_steady (λ n' l', ¬ (n' = name p ∧ l' = l))) (before ++ after)) as Hrest.
    { apply Forall_forall. intros w Hw. rewrite Forall_forall in Hno. specialize (Hno w Hw).
      assert (choice_or_steady (λ _ _, True) w) as [?|(project' & n' & l' & v' & _ & Hl' & E)]; [|by left|].
      { apply elem_of_app in Hw. rewrite Forall_forall in Hb, Ha. destruct Hw; auto. }
      right. exists project', n', l', v'. split; [|done]. intros [-> ->]. by apply (Hno project' v'). }
    rewrite Forall_app in Hrest. rewrite !Forall_app. split_and!; [tauto| |tauto].
    unfold d. cbn. rewrite Hst. apply Forall_singleton. left. apply steady_prompts.
Qed.

(** ** The comparison *)

(** What is compared for the number [k] among the versions [vs]: the first version with it,
    by its template or the lines of its messages, or no version and the empty text. *)
Inductive side (vs : list PromptVersion) (k : Z) : jsstr → option PromptVersion → Prop :=
| side_template before v after :
    vs = before ++ v :: after → version v = k → Forall (λ x, version x ≠ k) before → kind v ≠ Some (js "chat") →
    side vs k (template v) (Some v)
| side_chat before v after :
    vs = before ++ v :: after → version v = k → Forall (λ x, version x ≠ k) before → kind v = Some (js "chat") →
    side vs k (str_join [c_nl] ((λ m, role m ++ js ": " ++ content m) <$> default [] (messages v))) (Some v)
| side_none : Forall (λ x, version x ≠ k) vs → side vs k [] None.

(** The rows of the table before those without a difference are left out. *)
Definition config_rows (old new : option PromptVersion) : list Diff.ModelConfigDiff :=
  let cell (f : PromptVersion → Diff.config_value) (o : option PromptVersion) :=
    match o with Some v => f v | None => Diff.CStr (js "—") end in
  let row k f := Diff.ConfigDiff k (cell f old) (cell f new) in
  [row (js "model") (λ v, Diff.CStr (model v)); row (js "temperature") (λ v, Diff.CNum (temperature v));
   row (js "max_tokens") (λ v, Diff.CNum (max_tokens v))].

Lemma array_find_split {A} (p : A → bool) l x :
  array_find p l = Some x → ∃ before after, l = before ++ x :: after ∧ Forall (λ y, p y = false) before.
Proof.
  induction l as [|y l IH]; simpl; [done|]. destruct (p y) eqn:E; [intros [= ->]; by exists [], l|].
  intros (before & after & -> & Hb)%IH. exists (y :: before), after. split; [done|by constructor].
Qed.

Lemma side_found vs k : side vs k (versionDiffText (find_version k vs)) (find_version k vs).
Proof.
  unfold find_version. destruct (array_find _ vs) as [v|] eqn:E.
  - pose proof (array_find_Some _ _ _ E) as [_ Hv]. apply bool_decide_eq_true in Hv.
    apply array_find_split in E as (before & after & E & Hb).
    assert (Forall (λ x, version x ≠ k) before) as Hb'.
    { eapply Forall_impl; [exact Hb|]. simpl. intros x Hx. by apply bool_decide_eq_false in Hx. }
    unfold versionDiffText. case_bool_decide; [by eapply side_chat|by eapply side_template].
  - apply side_none, Forall_forall. intros x Hx. rewrite array_find_None in E.
    specialize (E x Hx). by apply bool_decide_eq_false in E.
Qed.

Lemma config_table old new :
  Diff.diffModelConfig (config_of <$> old) (config_of <$> new)
  = filter (λ c, Diff.value_differs (Diff.oldValue c) (Diff.newValue c) = true) (config_rows old new).
Proof.
  unfold Diff.diffModelConfig, config_rows. destruct old, new; cbn;
    by repeat match goal with |- context [if ?b then _ else _] => destruct b; cbn end.
Qed.

Lemma compare_sides vs x y :
  ∃ d told tnew old new, Some (compare vs x y) = Some d
    ∧ side vs x told old ∧ side vs y tnew new
    ∧ Diff.old_of (textDiff d) = str_split c_nl told ∧ Diff.new_of (textDiff d) = str_split c_nl tnew
    ∧ modelDiff d = filter (λ c, Diff.value_differs (Diff.oldValue c) (Diff.newValue c) = true) (config_rows old new).
Proof.
  do 5 eexists. split; [done|]. split; [apply side_found|]. split; [apply side_found|].
  unfold compare. cbn [textDiff modelDiff].
  destruct (Diff.diff_lines (versionDiffText (find_version x vs)) (versionDiffText (find_version y vs))) as (h & d & E & _ & E1 & E2).
  rewrite E. split; [exact E1|]. split; [exact E2|]. apply config_table.
Qed.

Lemma foldl_max_le (l : list Z) : ∀ x y, y ∈ x :: l → y <= foldl Z.max x l.
Proof.
  induction l as [|z l IH]; intros x y Hy; simpl.
  - apply list_elem_of_singleton in Hy. lia.
  - rewrite !elem_of_cons in Hy. specialize (IH (Z.max x z)). destruct Hy as [->|[->|Hy]].
    + pose proof (IH (Z.max x z) ltac:(left)). lia.
    + pose proof (IH (Z.max x z) ltac:(left)). lia.
    + apply IH. by right.
Qed.

Lemma foldl_max_elem (l : list Z) : ∀ x, foldl Z.max x l ∈ x :: l.
Proof.
  induction l as [|z l IH]; intros x; simpl; [left|]. specialize (IH (Z.max x z)).
  rewrite !elem_of_cons in *. destruct (Z.max_spec x z) as [[_ E]|[_ E]]; rewrite E in IH |- *; tauto.
Qed.

(** The new version a comparison opens with. *)
Lemma max_version_spec v vs :
  max_version v vs ∈ version <$> v :: vs ∧ Forall (λ x, version x <= max_version v vs) (v :: vs).
Proof.
  unfold max_version. split; [|apply Forall_forall; intros x Hx; apply foldl_max_le].
  - pose proof (foldl_max_elem (version <$> vs) (version v)) as Hmax. exact Hmax.
  - exact (list_elem_of_fmap_2 version (v :: vs) x Hx).
Qed.

(** C15. When the comparison is opened, it is with version 1 and the highest number among
    the versions the page holds of the prompt, or with 1 and 2 if no number is above 1;
    a choice in one of its menus, of 1 to 50 or, as the old version, of 0, replaces that
    version and keeps the other.  In each case the panel is shown and its lines replay two
    texts, those that are not additions the text of the old version and those that are not
    removals that of the new one, and the table has exactly the rows of the two
    configurations that differ.  The text and configuration are those of the first version
    held with the number; a number the page holds no version for, as a choice or the first
    two numbers may be, counts as the empty text and has dashes for its configuration. *)
Theorem comparison_replays s o :
  legal o s →
  match o with OpenDiff _ _ | SelectOld _ | SelectNew _ => True | _ => False end →
  let s' := (handle o s).1 in
  let vs := versions_shown s' (diffPromptName s') in
  showDiffPanel s' = true
  ∧ match o with
    | OpenDiff n _ =>
      diffPromptName s' = n ∧ diffOldVersion s' = 1
      ∧ (Exists (λ x, 1 < version x) vs →
           diffNewVersion s' ∈ version <$> vs ∧ Forall (λ x, version x <= diffNewVersion s') vs)
      ∧ (Forall (λ x, version x <= 1) vs → diffNewVersion s' = 2)
    | SelectOld v => diffOldVersion s' = v ∧ 0 <= v <= 50
                     ∧ diffNewVersion s' = diffNewVersion s ∧ diffPromptName s' = diffPromptName s
    | SelectNew v => diffNewVersion s' = v ∧ 1 <= v <= 50
                     ∧ diffOldVersion s' = diffOldVersion s ∧ diffPromptName s' = diffPromptName s
    | _ => True
    end
  ∧ ∃ d told tnew old new, diffData s' = Some d
      ∧ side vs (diffOldVersion s') told old ∧ side vs (diffNewVersion s') tnew new
      ∧ Diff.old_of (textDiff d) = str_split c_nl told ∧ Diff.new_of (textDiff d) = str_split c_nl tnew
      ∧ modelDiff d = filter (λ c, Diff.value_differs (Diff.oldValue c) (Diff.newValue c) = true) (config_rows old new).
Proof.
  intros Hl Ho. destruct o; try done; apply render_comparable in Hl.
  - destruct Hl as [E Hlen]. unfold versions_shown in *. cbn [handle openDiffPanel].
    destruct versions as [|v vs]; [by apply Nat.nle_succ_0 in Hlen|]. cbn -[max_version]. rewrite <- E.
    split; [done|]. split; [|apply compare_sides]. split; [done|]. split; [done|].
    destruct (max_version_spec v vs) as [Hin Hmax]. rewrite Forall_forall in Hmax. split.
    + intros (x & Hx & Hlt)%Exists_exists. pose proof (Hmax x Hx).
      rewrite (proj2 (Z.ltb_lt 1 (max_version v vs))) by lia. split; [exact Hin|by apply Forall_forall].
    + intros Hall. apply list_elem_of_fmap in Hin as (x & Ex & Hx). rewrite Forall_forall in Hall.
      specialize (Hall x Hx). by rewrite (proj2 (Z.ltb_ge 1 (max_version v vs))) by lia.
  - destruct Hl as [Hs Hv]. split; [done|]. split; [|apply compare_sides]. split_and!; try done;
      destruct Hv as [->|[??]%elem_of_seqZ]; lia.
  - destruct Hl as [Hs [??]%elem_of_seqZ]. split; [done|]. split; [|apply compare_sides]. split_and!; try done; lia.
Qed.

(** The comparison opens at the highest version, which the menu for it does not offer
    when it is above fifty: once another version was chosen there is no way back to it
    but to open the panel again. *)
Lemma newest_version_not_offered s n vs :
  legal (OpenDiff n vs) s → (∃ v, v ∈ vs ∧ 50 < version v) →
  let s' := (handle (OpenDiff n vs) s).1 in
  (∀ v, v ∈ vs → version v <= diffNewVersion s') ∧ diffNewVersion s' ∉ VERSION_OPTIONS.
Proof.
  intros _ (w & Hw & Hlt). cbn [handle openDiffPanel]. destruct vs as [|v vs]; [by apply not_elem_of_nil in Hw|]. cbv zeta.
  assert (∀ u, u ∈ v :: vs → version u <= max_version v vs) as Hmax.
  { intros u Hu. apply foldl_max_le. change (version u ∈ version <$> v :: vs). by apply list_elem_of_fmap_2. }
  pose proof (Hmax w Hw) as Hw'. cbn. rewrite (proj2 (Z.ltb_lt 1 (max_version v vs))) by lia.
  split; [exact Hmax|]. unfold VERSION_OPTIONS. rewrite elem_of_seqZ. lia.
Qed.

(** ** Projects *)

Definition listed (l : list PromptListItem) : answer (option (list PromptListItem)) := Answer 200 (Ok []) (Ok (Some l)).

Lemma offers_row s p : loading s = false → truthy_opt (error s) = false → p ∈ prompts s →
  offers (render clock to_locale s) (ClickPrompt (name p)).
Proof.
  intros Hl He Hp. unfold render. rewrite Hl, He. cbv zeta.
  eapply offers_child; [apply elem_of_app; right; apply elem_of_app; right; apply elem_of_app; left; left|].
  rewrite bool_decide_false by by intros E; rewrite E in Hp; apply not_elem_of_nil in Hp.
  eapply offers_child; [by apply list_elem_of_fmap_2|].
  eapply offers_child; [left|]. apply (offers_on _ _ _ "click"); [|left].
  cbn. by rewrite andb_false_r.
Qed.

Lemma step_answered s T q resume a : step legal handle (s, [Fetch T q resume]) ((resume a s).1, (resume a s).2).
Proof. pose proof (step_answer legal handle s [] [] T q resume a) as Hs. by rewrite app_nil_r in Hs. Qed.

(** Versions are kept under the name of their prompt only: after a switch to a project
    that has a prompt of the same name, the row of that prompt stays open with the
    versions of the other project, and they are not asked for again. *)
Theorem other_project_versions p q item vs t :
  p ≠ q →
  let n := name item in
  let asked := Fetch versions_body (versions_request n p) (versions_answer n) in
  ∃ s1 s2, page_reachable p (s1, [asked])
    ∧ rtc (step legal handle) ((versions_answer n (Answer 200 t (Ok (VersionsArray vs))) s1).1, []) (s2, [])
    ∧ activeProject s2 = q ∧ prompts s2 = [item] ∧ loading s2 = false ∧ error s2 = None
    ∧ n ∈ expandedNames s2 ∧ versions_shown s2 n = vs ∧ fetchVersions n s2 = now s2.
Proof.
  intros Hpq n asked.
  pose (s0 := (handle Mounted (initial p)).1). pose (sl := (prompts_answer (listed [item]) s0).1).
  pose (s1 := toggleExpand n sl). pose (sv := (versions_answer n (Answer 200 t (Ok (VersionsArray vs))) s1).1).
  pose (sq := (handle (SwitchProject q) sv).1).
  assert ((handle (SwitchProject q) sv).2 = (fetchPrompts q sv).2) as Eq.
  { cbn [handle]. by rewrite bool_decide_false by done. }
  exists s1, (prompts_answer (listed [item]) sq).1. split; [|split].
  - unfold page_reachable, reachable.
    eapply rtc_l; [exact (step_event legal handle Mounted (initial p) [] I)|].
    eapply rtc_l; [apply step_answered|]. apply rtc_once.
    assert (legal (ClickPrompt n) sl) as Hl by (apply offers_row; [done|done|left]).
    pose proof (step_event legal handle _ sl [] Hl) as Hs. cbn [app] in Hs.
    assert (handle (ClickPrompt n) sl = (s1, [asked])) as E.
    { cbn [handle]. unfold click_prompt, fetchVersions. cbv zeta. rewrite bool_decide_false by apply not_elem_of_empty.
      rewrite bool_decide_false; [done|]. intros [x Hx]. change (versionData (toggleExpand n sl) !! n) with ((∅ : gmap jsstr (list PromptVersion)) !! n) in Hx.
      by rewrite lookup_empty in Hx. }
    by rewrite E in Hs.
  - eapply rtc_l.
    + pose proof (step_event legal handle (SwitchProject q) sv [] I) as Hs. rewrite Eq in Hs. exact Hs.
    + apply rtc_once. apply step_answered.
  - assert (sq = (fetchPrompts q (sv <| activeProject := q |>)).1) as Esq.
    { unfold sq. cbn [handle]. by rewrite bool_decide_false by done. }
    rewrite Esq.
    split; [done|]. split; [done|]. split; [done|]. split; [done|]. split.
    { change (n ∈ expandedNames s1). change (n ∈ (if bool_decide (n ∈ (∅ : gset jsstr)) then ∅ ∖ {[n]} else {[n]} ∪ ∅ : gset jsstr)).
      rewrite bool_decide_false by apply not_elem_of_empty. set_solver. }
    set (s2 := (prompts_answer _ _).1).
    assert (versionData s2 !! n = Some vs) as Hv by apply lookup_insert_eq.
    unfold versions_shown, fetchVersions. rewrite Hv. split; [done|]. by rewrite bool_decide_true.
Qed.

(** ** The model that was not chosen *)

Lemma offers_form s o : loading s = false → truthy_opt (error s) = false → showNewPromptForm s = true →
  offers (new_prompt_form to_locale s) o → offers (render clock to_locale s) o.
Proof.
  intros Hl He Hs Ho. unfold render. rewrite Hl, He, Hs. cbv zeta.
  eapply offers_child; [apply elem_of_app; right; apply elem_of_app; left; left|done].
Qed.

Lemma form_offers_name s t : offers (new_prompt_form to_locale s) (EditName t).
Proof.
  eapply offers_child; [do 3 (apply elem_of_app; right); right; left|].
  eapply offers_child; [left|]. eapply offers_child; [apply elem_of_app; left; right; left|].
  apply (offers_value _ _ _ "change"); [done|right; left].
Qed.

Lemma form_offers_template s t : newKind s = text → offers (new_prompt_form to_locale s) (EditTemplate t).
Proof.
  intros Hk. eapply offers_child; [do 3 (apply elem_of_app; right); do 3 right; left|]. unfold body_fields. rewrite Hk.
  eapply offers_child; [apply elem_of_app; left; right; left|].
  apply (offers_value _ _ _ "change"); [done|right; left].
Qed.

(** The form filled in without a choice of the model, after the models [ms] arrived. *)
Lemma filled_form p ms (t : result jsstr jsstr) :
  ∃ s, page_reachable p (s, []) ∧ publishable s ∧ modelsLoading s = false ∧ modelsError s = None
    ∧ knownModels s = ms ∧ effectiveModel s = js "gpt-4".
Proof.
  pose (s0 := (handle Mounted (initial p)).1). pose (sl := (prompts_answer (listed []) s0).1).
  pose (sf := (handle ToggleForm sl).1). pose (sm := (models_answer (Answer 200 t (Ok (Some ms))) sf).1).
  pose (sn := (handle (EditName (js "greeting")) sm).1). exists (handle (EditTemplate (js "Hello")) sn).1.
  split; [|split; [|split_and!; [done..|by vm_compute]]].
  - unfold page_reachable, reachable.
    eapply rtc_l; [exact (step_event legal handle Mounted (initial p) [] I)|].
    eapply rtc_l; [apply step_answered|].
    eapply rtc_l; [apply (step_event legal handle ToggleForm sl []); left; left|].
    eapply rtc_l; [apply step_answered|].
    eapply rtc_l; [apply (step_event legal handle (EditName (js "greeting")) sm []);
                   apply offers_form; [done|done|done|apply form_offers_name]|].
    apply rtc_once. apply (step_event legal handle (EditTemplate (js "Hello")) sn []).
    apply offers_form; [done|done|done|by apply form_offers_template].
  - split; [|split; by vm_compute|intros _; split; [by apply (bool_decide_unpack (_ ≤ _)%nat); vm_compute|]|split; by vm_compute|by vm_compute].
    + split; [by vm_compute|]. split; [by apply (bool_decide_unpack (_ ≤ _)%nat); vm_compute|]. by apply (bool_decide_unpack _); vm_compute.
    + by apply (bool_decide_unpack _); vm_compute.
Qed.

(** The form starts with a model of its own.  When the models that arrive do not have
    it, the menu offers other models only, and a prompt whose model was not chosen is
    published with the one that is not offered. *)
Theorem unlisted_model_sent p ms :
  js "gpt-4" ∉ ms →
  ∃ s, page_reachable p (s, []) ∧ publishable s
    ∧ modelsLoading s = false ∧ modelsError s = None ∧ knownModels s = ms
    ∧ js "gpt-4" ∉ (model_options s).*1 ∧ field (js "model") (payload s) = Some (JStr (js "gpt-4")).
Proof.
  intros Hms. destruct (filled_form p ms (Ok [])) as (s & Hr & Hp & Hl & He & Hk & Hm).
  exists s. split_and!; [done..| |].
  - unfold model_options. rewrite Hk, fmap_app, <- list_fmap_compose, not_elem_of_app. split.
    + intros (m & E & Hin)%list_elem_of_fmap. cbn in E. by subst m.
    + eapply bool_decide_unpack. by vm_compute.
  - rewrite <- Hm. unfold payload. by destruct (newKind s).
Qed.
End page.

(** ** Runs *)

Module Runs.

#[local] Instance host : DateHost := {| date_parse _ := None; full_year _ := 2024; to_locale_string _ _ := [] |}.

Definition item : PromptListItem := {| name := js "greeting"; latest_version := 2; labels := [(js "staging", 1)] |}.
Definition version_of (v : Z) (t : string) : PromptVersion :=
  {| version_id := show_Z v; version := v; kind := None; template := js t; messages := None; model := js "gpt-4";
     temperature := of_Z 1; max_tokens := of_Z 256; created_at := [] |}.
Definition both : list PromptVersion := [version_of 1 "Hello"; version_of 2 "Hello you"].
Definition team : jsstr := js "team".
Definition shown : state :=
  initial team <| loading := false |> <| prompts := [item] |> <| expandedNames := {[name item]} |>
    <| versionData := {[name item := both]} |>.

Lemma create_when_publishable_witness :
  ∃ s, publishable s ∧ field (js "name") (payload s) = Some (JStr (newName s)) ∧ length (handle Create s).2 = 1%nat.
Proof.
  destruct (filled_form 0 show_num team [] (Ok [])) as (s & Hr & Hp & _). exists s. split; [exact Hp|].
  destruct (create_when_publishable 0 show_num team s [] Hr) as [H _]. destruct (H Hp) as (E & En & _).
  split; [exact En|]. by rewrite E.
Defined.

(** The list arrives, the row is opened, its versions arrive. *)
Definition listed_page : state := (prompts_answer (listed [item]) (handle Mounted (initial team)).1).1.
Definition opened_page : state := (handle (ClickPrompt (name item)) listed_page).1.
Definition held_page : state :=
  (versions_answer (name item) (Answer 200 (Ok []) (Ok (VersionsArray both))) opened_page).1.
Abbreviation staging := (js "staging").

Lemma choice_reachable :
  page_reachable 0 show_num team (held_page, [] ++ choice team (name item) staging 2 :: []).
Proof.
  unfold page_reachable, reachable. set (legal := Prompts.legal 0 show_num).
  eapply rtc_l; [exact (step_event legal handle Mounted (initial team) [] I)|].
  eapply rtc_l; [exact (step_answered 0 show_num _ _ _ _ (listed [item]))|].
  assert (legal (ClickPrompt (name item)) listed_page) as Hc by (apply offers_row; [done|done|left]).
  eapply rtc_l; [exact (step_event legal handle _ listed_page [] Hc)|].
  assert ((handle (ClickPrompt (name item)) listed_page).2
          = [Fetch versions_body (versions_request (name item) team) (versions_answer (name item))]) as E
    by (vm_compute; reflexivity).
  rewrite E. eapply rtc_l; [exact (step_answered 0 show_num _ _ _ _ (Answer 200 (Ok []) (Ok (VersionsArray both))))|].
  assert (legal (SelectLabelVersion (name item) staging (Some 2)) held_page) as Hs.
  { left. apply (list_elem_of_lookup_2 _ 7). vm_compute. reflexivity. }
  apply rtc_once. exact (step_event legal handle _ held_page [] Hs).
Qed.

Lemma label_menu_sticks_witness :
  let s1 := (label_answer team (name item) staging 2 (Answer 200 (Ok []) (Ok tt)) held_page).1 in
  currentVersion s1 item staging = Some 2
  ∧ currentVersion (handle (SwitchProject (js "other")) s1).1 item staging = Some 2.
Proof.
  assert (staging ∈ LABELS) as Hl by (right; left).
  destruct (label_menu_sticks 0 show_num team held_page [] [] team staging 2 item 200 (Ok []) (Ok tt)
              choice_reachable eq_refl Hl) as (H1 & _ & H3).
  split; [exact H1|]. eapply (H3 (Forall_nil_2 _)); [|reflexivity].
  apply rtc_once, (step_event _ handle (SwitchProject (js "other"))). by split.
Defined.

Lemma comparison_replays_witness :
  ∃ d t v, diffData (handle (OpenDiff (name item) both) shown).1 = Some d
    ∧ side both 2 t v ∧ Diff.new_of (textDiff d) = str_split c_nl t.
Proof.
  assert (Prompts.legal 0 show_num (OpenDiff (name item) both) shown) as Hl.
  { left. apply (list_elem_of_lookup_2 _ 20). by vm_compute. }
  destruct (comparison_replays 0 show_num shown (OpenDiff (name item) both) Hl I)
    as (_ & _ & d & told & tnew & old & new & Hd & _ & Hs & _ & Hn & _).
  exists d, tnew, new. split; [exact Hd|]. split; [exact Hs|exact Hn].
Defined.

Lemma other_project_versions_witness :
  team ≠ js "other" ∧ ∃ s, activeProject s = js "other" ∧ versions_shown s (name item) = both.
Proof.
  assert (team ≠ js "other") as Hn by by vm_compute.
  split; [exact Hn|].
  destruct (other_project_versions 0 show_num team (js "other") item both (Ok []) Hn)
    as (s1 & s2 & _ & _ & Hp & _ & _ & _ & _ & Hv & _).
  by exists s2.
Defined.

Lemma unlisted_model_sent_witness :
  js "gpt-4" ∉ [js "claude"]
  ∧ ∃ s, page_reachable 0 show_num team (s, []) ∧ knownModels s = [js "claude"]
      ∧ field (js "model") (payload s) = Some (JStr (js "gpt-4")).
Proof.
  assert (js "gpt-4" ∉ [js "claude"]) as Hn by (eapply bool_decide_unpack; by vm_compute).
  split; [exact Hn|].
  destruct (unlisted_model_sent 0 show_num team [js "claude"] Hn) as (s & Hr & _ & _ & _ & Hk & _ & Hf).
  by exists s.
Defined.
End Runs.
