(* ===== verification/Datasets.v ===== *)
(** The datasets page (ui/src/pages/Datasets.tsx): the list, the creation of a dataset,
    and the import of items from a CSV or JSON file in batches.

    The files being read belong to the browser: the state holds their names, and each
    of them is loaded or fails at any time.  Where the user is sent to is recorded. *)
From S2P Require Import Prelude.
From S2P Require Import JsString.
From S2P Require Import JsNumber.
From S2P Require Import JsJson.
From S2P Require Import Ui.
From S2P Require Import Widgets.
From S2P Require Import Formatters.
From S2P Require Import Toast.
Local Open Scope Z_scope.

Record DatasetListItem : Type := { dataset_id : jsstr; name : jsstr; created_at : jsstr; item_count : Z }.

(** What a JSON file gives for the output and the span need not be texts. *)
Record ParsedItem : Type := { input : jsstr; expected_output : json; source_span_id : option json }.

(** ** The CSV parser *)

(** [text.split(/\r?\n/)]. *)
Fixpoint split_lines (text : jsstr) : list jsstr :=
  match text with
  | [] => [[]]
  | 13%N :: ((10%N :: _) as r) => split_lines r
  | 10%N :: r => [] :: split_lines r
  | c :: r => match split_lines r with l :: ls => (c :: l) :: ls | [] => [[c]] end
  end.

Definition c_comma : N := 44.

(** The loop over the characters of a line. *)
Fixpoint parse_chars (line : jsstr) (result : list jsstr) (current : jsstr) (inQuotes : bool) : list jsstr :=
  match line with
  | [] => result ++ [trim current]
  | ch :: r =>
    if inQuotes then
      if (ch =? c_quote)%N then parse_chars r result current false
      else parse_chars r result (current ++ [ch]) true
    else
      if (ch =? c_quote)%N then parse_chars r result current true
      else if (ch =? c_comma)%N then parse_chars r (result ++ [trim current]) [] false
      else parse_chars r result (current ++ [ch]) false
  end.
Definition parseLine (line : jsstr) : list jsstr := parse_chars line [] [] false.

(** [l.toLowerCase()], for a comparison with a text of small ASCII letters without k. *)
Definition lower (s : jsstr) : jsstr := fold_unit <$> s.

(** [l.indexOf(x)]. *)
Fixpoint position (x : jsstr) (l : list jsstr) : option nat :=
  match l with
  | [] => None
  | y :: r => if bool_decide (y = x) then Some 0%nat else S <$> position x r
  end.

(** [cols[i] || ""], for the index of a column that may be missing. *)
Definition column (cols : list jsstr) (i : option nat) : jsstr := default [] (i ← i; cols !! i).

Definition csv_item (inputIdx : nat) (outputIdx spanIdx : option nat) (line : jsstr) : option ParsedItem :=
  let cols := parseLine line in
  if bool_decide (length cols ≤ inputIdx)%nat then None else
  let i := default [] (cols !! inputIdx) in
  if negb (truthy i) then None else
  let span := column cols spanIdx in
  Some {| input := i; expected_output := JStr (column cols outputIdx);
          source_span_id := if truthy span then Some (JStr span) else None |}.

Definition csv_lines (text : jsstr) : list jsstr := filter (λ l, truthy (trim l) = true) (split_lines text).

Definition parseCSV (text : jsstr) : list ParsedItem :=
  match csv_lines text with
  | header :: ((_ :: _) as rows) =>
    let headers := lower <$> parseLine header in
    match position (js "input") headers with
    | None => []
    | Some inputIdx =>
      omap (csv_item inputIdx (position (js "expected_output") headers) (position (js "source_span_id") headers)) rows
    end
  | _ => []
  end.

Definition json_item (item : json) : option ParsedItem :=
  match field (js "input") item with
  | Some (JStr i) =>
    if truthy i then
      Some {| input := i;
              expected_output := match field (js "expected_output") item with
                                 | Some v => if truthy_json v then v else JStr []
                                 | None => JStr []
                                 end;
              source_span_id := match field (js "source_span_id") item with
                                | Some v => if truthy_json v then Some v else None
                                | None => None
                                end |}
    else None
  | _ => None
  end.

(** [None]: it throws, as for a text that is no JSON or an array with a [null]. *)
Definition parseJSON (text : jsstr) : option (list ParsedItem) :=
  match parse text with
  | Some (JArr l) => if existsb (λ v, match v with JNull => true | _ => false end) l then None else Some (omap json_item l)
  | Some _ => Some []
  | None => None
  end.

Definition item_json (i : ParsedItem) : json :=
  JObj ([(js "input", JStr (input i)); (js "expected_output", expected_output i)]
        ++ match source_span_id i with Some v => [(js "source_span_id", v)] | None => [] end).

(** ** State *)

Record state : Type := State {
  activeProject : jsstr;
  datasets : list DatasetListItem;
  loading : bool;
  error : option jsstr;
  showNewForm : bool;
  newName : jsstr;
  creating : bool;
  createError : option jsstr;
  deleteConfirmId : option jsstr;
  deleting : option jsstr;
  uploadedFile : option jsstr;
  parsedItems : list ParsedItem;
  parseError : option jsstr;
  importing : bool;
  importProgress : num;
  importError : option jsstr;
  reading : list jsstr;
  opened : list jsstr;
  toasted : list (ToastType * jsstr)
}.
#[export] Instance state_eta : Eta state := λ s,
  State (activeProject s) (datasets s) (loading s) (error s) (showNewForm s) (newName s) (creating s) (createError s)
    (deleteConfirmId s) (deleting s) (uploadedFile s) (parsedItems s) (parseError s) (importing s) (importProgress s)
    (importError s) (reading s) (opened s) (toasted s).

Definition initial (p : jsstr) : state :=
  State p [] true None false [] false None None None None [] None false (of_Z 0) None [] [] [].

Definition addToast (t : ToastType) (m : jsstr) (s : state) : state := s <| toasted ::= λ l, l ++ [(t, m)] |>.

Definition by_project (path project : jsstr) : jsstr := path ++ js "?project_id=" ++ project.
Definition datasets_url : jsstr := js "/api/v1/datasets".

(** ** Requests *)

(** [None] is an object whose [datasets] is no array. *)
Definition list_answer (a : answer (option (list DatasetListItem))) (s : state) : state :=
  match body_or_error (js "Failed to fetch datasets") a with
  | Ok data => s <| datasets := default [] data |>
  | Err m => s <| error := Some m |>
  end <| loading := false |>.

(** [await fetchDatasets()], and what comes after it. *)
Definition fetchDatasets (project : jsstr) (after : state → state) (s : state) : outcome state :=
  (s <| loading := true |> <| error := None |>,
   [Fetch (option (list DatasetListItem)) (get_request (by_project datasets_url project)) (λ a s, now (after (list_answer a s)))]).

(** ** Files *)

Definition handleFileChange (file : jsstr) (s : state) : state :=
  s <| uploadedFile := Some file |> <| parseError := None |> <| reading ::= λ l, l ++ [file] |>.

Definition parse_file (file text : jsstr) : option (list ParsedItem) :=
  if ends_with (js ".csv") file then Some (parseCSV text) else parseJSON text.

Definition no_items : jsstr :=
  js "No valid items found. CSV needs an 'input' column; JSON needs an array of objects with 'input' fields.".

Definition file_loaded (file text : jsstr) (s : state) : state :=
  match parse_file file text with
  | Some items =>
    let s := s <| parsedItems := items |> in
    if bool_decide (items = []) then s <| parseError := Some no_items |> else s
  | None => s <| parseError := Some (js "Failed to parse file. Ensure it is a valid CSV or JSON file.") |>
  end.

Definition handleCancelImport (s : state) : state :=
  s <| parsedItems := [] |> <| uploadedFile := None |> <| parseError := None |> <| importError := None |>.

(** ** The import *)

Definition BATCH_SIZE : nat := 50.

(** The slices [items.slice(i, i + BATCH_SIZE)] for [i] from a start in steps of
    [BATCH_SIZE], as long as there are items. *)
Fixpoint batches (fuel start : nat) (items : list ParsedItem) : list (nat * list ParsedItem) :=
  match fuel, items with
  | S fuel, _ :: _ => (start, take BATCH_SIZE items) :: batches fuel (start + BATCH_SIZE) (drop BATCH_SIZE items)
  | _, _ => []
  end.
Definition batches_of (items : list ParsedItem) : list (nat * list ParsedItem) := batches (length items) 0 items.

Definition progress (done_ total : nat) : num :=
  num_min (of_Z 100) (num_round (num_mul (num_div (of_Z (Z.of_nat done_)) (Pos.of_nat total)) (of_Z 100))).

Definition batch_request (datasetId : jsstr) (batch : list ParsedItem) : request :=
  send_json "POST" (datasets_url ++ js "/" ++ datasetId ++ js "/items/batch") (JObj [(js "items", JArr (item_json <$> batch))]).

(** After the loop; the callers of [importItems] end with [setCreating(false)]. *)
Definition import_done (project datasetId : jsstr) (s : state) : outcome state :=
  fetchDatasets project (λ s, s <| opened ::= λ l, l ++ [datasetId] |> <| creating := false |>)
    (s <| importing := false |> <| parsedItems := [] |> <| uploadedFile := None |> <| showNewForm := false |>).

Fixpoint import_loop (project datasetId : jsstr) (total : nat) (rest : list (nat * list ParsedItem)) (s : state) : outcome state :=
  match rest with
  | [] => import_done project datasetId s
  | (i, batch) :: rest =>
    let failed m s := import_done project datasetId (s <| importError := Some m |>) in
    let network := js "Network error during import at item " ++ show_Z (Z.of_nat i + 1) in
    (s, [Fetch unit (batch_request datasetId batch) (λ a s,
           match a with
           | NoAnswer _ => failed network s
           | Answer status text body =>
             if ok_status status then
               match body with
               | Ok _ => import_loop project datasetId total rest (s <| importProgress := progress (i + length batch) total |>)
               | Err _ => failed network s
               end
             else match text with
                  | Ok t => failed (if truthy t then t
                                    else js "Failed to upload batch starting at item " ++ show_Z (Z.of_nat i + 1)) s
                  | Err _ => failed network s
                  end
           end)])
  end.

Definition importItems (project datasetId : jsstr) (items : list ParsedItem) (s : state) : outcome state :=
  import_loop project datasetId (length items) (batches_of items)
    (s <| importing := true |> <| importError := None |> <| importProgress := of_Z 0 |>).

(** ** Creation and deletion

    [n], [items] and [project] are those of the moment of the click; the body is the id
    of the new dataset. *)
Definition create_answer (n : jsstr) (items : list ParsedItem) (project : jsstr) (a : answer jsstr) (s : state) : outcome state :=
  let failed m s := now (s <| createError := Some m |> <| creating := false |>) in
  let network := js "Network error while creating dataset" in
  match a with
  | NoAnswer _ => failed network s
  | Answer status text body =>
    if ok_status status then
      match body with
      | Err _ => failed network s
      | Ok datasetId =>
        let s := s <| newName := [] |> in
        match items with
        | _ :: _ => importItems project datasetId items s
        | [] =>
          fetchDatasets project (λ s, s <| creating := false |>)
            (addToast success (js "Dataset " ++ [c_quote] ++ trim n ++ [c_quote] ++ js " created") s
               <| showNewForm := false |> <| parsedItems := [] |> <| uploadedFile := None |>)
        end
      end
    else match text with
         | Ok t => failed (if truthy t then t else js "Failed to create dataset") s
         | Err _ => failed network s
         end
  end.

Definition handleCreate (s : state) : outcome state :=
  if negb (truthy (trim (newName s))) then now s else
  (s <| creating := true |> <| createError := None |>,
   [Fetch jsstr (send_json "POST" (by_project datasets_url (activeProject s)) (JObj [(js "name", JStr (trim (newName s)))]))
      (create_answer (newName s) (parsedItems s) (activeProject s))]).

Definition delete_answer (project : jsstr) (a : answer unit) (s : state) : outcome state :=
  let failed s := now (addToast Toast.error (js "Failed to delete dataset") s <| deleting := None |>) in
  match a with
  | Answer status _ _ =>
    if ok_status status
    then fetchDatasets project (λ s, s <| deleting := None |>) (addToast success (js "Dataset deleted") s)
    else failed s
  | NoAnswer _ => failed s
  end.

Definition handleDelete (datasetId : jsstr) (s : state) : outcome state :=
  (s <| deleting := Some datasetId |> <| deleteConfirmId := None |>,
   [Fetch unit (Request (js "DELETE") (by_project (datasets_url ++ js "/" ++ datasetId) (activeProject s)) None)
      (delete_answer (activeProject s))]).

(** ** Events *)

Inductive op : Type :=
| Mounted
| SwitchProject (p : jsstr)
| NewDataset
| EditName (t : jsstr)
| Create
| CancelForm
| ChooseFile (file : jsstr)
| RemoveFile
| FileLoaded (i : nat) (text : jsstr)
| FileFailed (i : nat)
| OpenDetail (datasetId : jsstr)
| AskDelete (datasetId : jsstr)
| CancelDelete
| Delete (datasetId : jsstr).

Definition forget {A} (i : nat) (l : list A) : list A := take i l ++ drop (S i) l.

Definition handle (o : op) (s : state) : outcome state :=
  match o with
  | Mounted => fetchDatasets (activeProject s) Datatypes.id s
  | SwitchProject p =>
    if bool_decide (p = activeProject s) then now s else fetchDatasets p Datatypes.id (s <| activeProject := p |>)
  | NewDataset => now (s <| showNewForm := true |>)
  | EditName t => now (s <| newName := t |>)
  | Create => handleCreate s
  | CancelForm => now (handleCancelImport (s <| showNewForm := false |> <| newName := [] |> <| createError := None |>))
  | ChooseFile f => now (handleFileChange f s)
  | RemoveFile => now (handleCancelImport s)
  | FileLoaded i text =>
    match reading s !! i with
    | Some f => now (file_loaded f text (s <| reading ::= forget i |>))
    | None => now s
    end
  | FileFailed i => now (s <| reading ::= forget i |> <| parseError := Some (js "Failed to read file.") |>)
  | OpenDetail i => now (s <| opened ::= λ l, l ++ [i] |>)
  | AskDelete i => now (s <| deleteConfirmId := Some i |>)
  | CancelDelete => now (s <| deleteConfirmId := None |>)
  | Delete i => handleDelete i s
  end.

(** ** Views *)

Section views.
Context `{DateHost} (clock : Z).

Definition banner (m : option jsstr) : list (view op) :=
  match m with Some t => when (truthy t) (ErrorBanner t None None (js "Retry")) | None => [] end.

Definition upload_section (s : state) : view op :=
  El "div" []
    ([El "label" [] [txt "Upload CSV or JSON"]]
     ++ when_some (uploadedFile s) (λ f,
          El "div" [] [El "span" [] [Text f];
                       El "span" [] [Text (js "(" ++ show_Z (Z.of_nat (length (parsedItems s))) ++ js " items)")];
                       El "button" [On "click" RemoveFile] [txt "✕"]])
     ++ [El "input" [Attr "type" (js "file"); Attr "accept" (js ".csv,.json"); OnValue "change" ChooseFile] []]).

Definition import_section (s : state) : list (view op) :=
  when (importing s)
    (El "div" []
       ([El "div" [] [El "span" [] [Text (js "Importing " ++ show_Z (Z.of_nat (length (parsedItems s))) ++ js " items…")];
                      El "span" [] [Text (show_num (importProgress s) ++ js "%")]]]
        ++ banner (importError s))).

(** The Enter key in the name field creates too. *)
Definition new_form (s : state) : view op :=
  El "div" []
    ([El "h3" [] [txt "New Dataset"];
      El "div" []
        [El "input" [Attr "value" (newName s); OnValue "change" EditName; On "enter" Create; Attr "placeholder" (js "Dataset name")] [];
         El "button" [On "click" Create; Flag "disabled" (negb (truthy (trim (newName s))) || creating s || importing s)]
           [if creating s then txt "Creating…" else txt "Create"];
         El "button" [On "click" CancelForm] [txt "Cancel"]];
      upload_section s]
     ++ banner (parseError s) ++ import_section s ++ banner (createError s)).

Definition delete_buttons (s : state) (d : DatasetListItem) : view op :=
  let busy := bool_decide (deleting s = Some (dataset_id d)) in
  if bool_decide (deleteConfirmId s = Some (dataset_id d))
  then El "div" []
         [El "button" [On "click" (Delete (dataset_id d)); Flag "disabled" busy] [if busy then txt "…" else txt "Delete"];
          El "button" [On "click" CancelDelete] [txt "Cancel"]]
  else El "button" [On "click" (AskDelete (dataset_id d))] [txt "Delete"].

Definition dataset_row (s : state) (d : DatasetListItem) : view op :=
  El "div" []
    [El "div" [On "click" (OpenDetail (dataset_id d))]
       [El "h3" [] [Text (name d)];
        El "p" [] [Text (show_Z (item_count d) ++ js " item" ++ (if item_count d =? 1 then [] else js "s") ++ js " · "
                         ++ formatTime clock (created_at d))]];
     El "div" [] [El "button" [On "click" (OpenDetail (dataset_id d))] [txt "View"]; delete_buttons s d]].

Definition content (s : state) : list (view op) :=
  if loading s then [El "div" [] [El "svg" [] []]] else
  if truthy_opt (error s) then banner (error s) else
  if bool_decide (datasets s = [])
  then [El "div" [] [El "p" [] [txt "No datasets found. Create one to evaluate model outputs."]]]
  else [El "div" [] (dataset_row s <$> datasets s)].

Definition render (s : state) : view op :=
  El "div" []
    ([El "div" [] [El "h1" [] [txt "Datasets"]; El "button" [On "click" NewDataset] [txt "+ New Dataset"]]]
     ++ when (showNewForm s) (new_form s)
     ++ [El "div" [] (content s)]).

(** What can happen: the page is mounted, the header switches the project, a file that
    is being read is loaded or fails, or the user does what the screen offers. *)
Definition legal (o : op) (s : state) : Prop :=
  match o with
  | Mounted | SwitchProject _ => True
  | FileLoaded i _ | FileFailed i => is_Some (reading s !! i)
  | _ => offers (render s) o
  end.
End views.
