(* ===== verification/DatasetsProps.v ===== *)
(** Theorems on the datasets page: what a CSV file becomes, what an import sends and
    that it ends, and what the form does with files and keys. *)
From S2P Require Import Prelude.
From S2P Require Import JsString.
From S2P Require Import JsNumber.
From S2P Require Import JsJson.
From S2P Require Import Ui.
From S2P Require Import Widgets.
From S2P Require Import Formatters.
From S2P Require Import Toast.
From S2P Require Import Datasets.
Local Open Scope Z_scope.

(** ** CSV files as other programs write them (RFC 4180)

    A field is written in quotes, with a quote inside it doubled, or as it is when it has
    no comma, quote or line break; a line ends with a newline, or with a carriage return
    and a newline, and the last one may have no end. *)

Definition doubled (f : jsstr) : jsstr := f ≫= λ c, if (c =? c_quote)%N then [c_quote; c_quote] else [c].

Inductive writes_field : jsstr → jsstr → Prop :=
| field_quoted f : 10%N ∉ f → writes_field f (c_quote :: doubled f ++ [c_quote])
| field_plain f : Forall (λ c, c ∉ [c_comma; c_quote; 10%N; 13%N]) f → writes_field f f.

Inductive writes_line : list jsstr → jsstr → Prop :=
| line_last f t : writes_field f t → writes_line [f] t
| line_field f t fs l : writes_field f t → writes_line fs l → writes_line (f :: fs) (t ++ c_comma :: l).

Inductive writes_file : list (list jsstr) → jsstr → Prop :=
| file_end : writes_file [] []
| file_last fs l : writes_line fs l → writes_file [fs] l
| file_line fs l eol rows t :
    writes_line fs l → (eol = [10%N] ∨ eol = [13%N; 10%N]) → writes_file rows t →
    writes_file (fs :: rows) (l ++ eol ++ t).

(** What the parser makes of a field. *)
Definition clean (f : jsstr) : jsstr := trim (filter (λ c, c ≠ c_quote) f).

Lemma parse_doubled f : ∀ r result current,
  parse_chars (doubled f ++ r) result current true = parse_chars r result (current ++ filter (λ c, c ≠ c_quote) f) true.
Proof.
  induction f as [|c f IH]; intros r result current; [by rewrite app_nil_r|]. unfold doubled in *. cbn [mbind list_bind].
  rewrite <- app_assoc. destruct (N.eqb_spec c c_quote) as [->|Hc].
  - rewrite filter_cons_False by naive_solver. cbn [app]. simpl. apply IH.
  - rewrite filter_cons_True by done. cbn [app parse_chars]. apply N.eqb_neq in Hc. rewrite Hc, IH.
    by rewrite <- app_assoc.
Qed.

Lemma parse_plain f : ∀ r result current, c_comma ∉ f → c_quote ∉ f →
  parse_chars (f ++ r) result current false = parse_chars r result (current ++ f) false.
Proof.
  induction f as [|c f IH]; intros r result current Hc Hq; [by rewrite app_nil_r|].
  apply not_elem_of_cons in Hc as [Hc Hc'], Hq as [Hq Hq']. cbn [app parse_chars].
  rewrite (proj2 (N.eqb_neq c c_quote)), (proj2 (N.eqb_neq c c_comma)) by done. by rewrite IH, <- app_assoc.
Qed.

Lemma plain_chars (f : jsstr) : Forall (λ c, c ∉ [c_comma; c_quote; 10%N; 13%N]) f →
  c_comma ∉ f ∧ c_quote ∉ f ∧ 10%N ∉ f ∧ 13%N ∉ f.
Proof. rewrite Forall_forall. intros Hf. split_and!; intros Hin; apply (Hf _ Hin); set_solver. Qed.

Lemma filter_no_quote (f : jsstr) : c_quote ∉ f → filter (λ c, c ≠ c_quote) f = f.
Proof. intros Hq. apply filter_all_true. by intros c Hc ->. Qed.

Lemma parse_written f t r result : writes_field f t →
  parse_chars (t ++ r) result [] false = parse_chars r result (filter (λ c, c ≠ c_quote) f) false.
Proof.
  intros [f' _|f' Hf].
  - cbn [app parse_chars]. simpl. rewrite <- app_assoc, parse_doubled. done.
  - apply plain_chars in Hf as (Hc & Hq & _). by rewrite parse_plain, filter_no_quote.
Qed.

Lemma parse_line fs l : writes_line fs l → ∀ result, parse_chars l result [] false = result ++ (clean <$> fs).
Proof.
  induction 1 as [f t Ht|f t fs l Ht Hl IH]; intros result.
  - rewrite <- (app_nil_r t), (parse_written f) by done. done.
  - rewrite (parse_written f) by done. cbn [parse_chars]. simpl (c_comma =? _)%N. cbv iota.
    by rewrite IH, <- app_assoc.
Qed.

Lemma parseLine_written fs l : writes_line fs l → parseLine l = clean <$> fs.
Proof. intros Hl. unfold parseLine. by rewrite (parse_line fs l Hl). Qed.

(** ** Lines *)

(** A character that ends no line. *)
Lemma split_lines_char c t : c ≠ 10%N → (c = 13%N → head t ≠ Some 10%N) →
  split_lines (c :: t) = match split_lines t with l :: ls => (c :: l) :: ls | [] => [[c]] end.
Proof.
  intros Hc Hcr. destruct (decide (c = 13%N)) as [->|Hn].
  - destruct t as [|d t]; [done|]. assert (d ≠ 10%N) as Hd by (intros ->; by apply Hcr).
    destruct d as [|d]; [done|]. repeat (destruct d as [d|d|]; try done).
  - destruct c as [|c]; [done|]. repeat (destruct c as [c|c|]; try done).
Qed.

Lemma split_lines_eol l eol t : 10%N ∉ l → last l ≠ Some 13%N → (eol = [10%N] ∨ eol = [13%N; 10%N]) →
  split_lines (l ++ eol ++ t) = l :: split_lines t.
Proof.
  intros Hl Hlast Heol. induction l as [|c l IH].
  - by destruct Heol as [-> | ->].
  - apply not_elem_of_cons in Hl as [Hc Hl]. cbn [app]. rewrite split_lines_char.
    + rewrite IH; [done|done|]. by destruct l.
    + done.
    + intros ->. destruct l as [|d l]; [by destruct Hlast|]. cbn. intros [= ->]. apply Hl. left.
Qed.

Lemma split_lines_last l : 10%N ∉ l → split_lines l = [l].
Proof.
  induction l as [|c l IH]; intros Hl; [done|]. apply not_elem_of_cons in Hl as [Hc Hl].
  rewrite split_lines_char, IH; [done|done|done|]. intros _ Hh. destruct l as [|d l]; [done|].
  injection Hh as ->. apply Hl. left.
Qed.

Lemma doubled_elem c f : c ∈ doubled f → c ∈ f.
Proof.
  unfold doubled. intros (d & H & Hd)%list_elem_of_bind. destruct (N.eqb_spec d c_quote) as [E|_].
  - rewrite !elem_of_cons in H. by destruct H as [Hc|[Hc|?%not_elem_of_nil]]; [rewrite Hc, <- E..|].
  - by apply list_elem_of_singleton in H as ->.
Qed.

(** A written line has no newline, and no carriage return at its end. *)
Lemma written_line_ends fs l : writes_line fs l → 10%N ∉ l ∧ last l ≠ Some 13%N.
Proof.
  assert (∀ f t, writes_field f t → 10%N ∉ t ∧ last t ≠ Some 13%N) as Hfield.
  { intros f t [f' Hf|f' Hf]; split.
    - intros [?|[?%doubled_elem|?%list_elem_of_singleton]%elem_of_app]%elem_of_cons; done.
    - rewrite app_comm_cons, last_snoc. done.
    - by apply plain_chars in Hf as (_ & _ & ? & _).
    - intros H%last_Some_elem_of. by apply plain_chars in Hf as (_ & _ & _ & ?). }
  induction 1 as [f t Ht|f t fs l Ht Hl [IH1 IH2]]; [by apply (Hfield f)|].
  destruct (Hfield f t Ht) as [H1 _]. split.
  - intros [?|[?|?]%elem_of_cons]%elem_of_app; done.
  - rewrite last_app_cons, last_cons. by destruct (last l).
Qed.

(** The lines of a file, but for an empty one after the last end of line. *)
Lemma split_lines_written rows t : writes_file rows t →
  ∃ ls, Forall2 writes_line rows ls ∧ (split_lines t = ls ∨ split_lines t = ls ++ [[]]).
Proof.
  induction 1 as [|fs l Hl|fs l eol rows t Hl Heol Ht (ls & Hls & E)].
  - exists []. split; [constructor|by right].
  - exists [l]. split; [by repeat constructor|left]. apply split_lines_last. by apply (written_line_ends fs).
  - exists (l :: ls). split; [by constructor|]. destruct (written_line_ends fs l Hl) as [H1 H2].
    rewrite split_lines_eol by done. destruct E as [->| ->]; [by left|by right].
Qed.

Lemma csv_lines_written rows t : writes_file rows t →
  ∃ ls, Forall2 writes_line rows ls ∧ csv_lines t = filter (λ l, truthy (trim l) = true) ls.
Proof.
  intros (ls & Hls & E)%split_lines_written. exists ls. split; [done|]. unfold csv_lines.
  destruct E as [->| ->]; [done|]. by rewrite filter_app, app_nil_r.
Qed.

(** A blank line has one empty field. *)
Lemma trim_start_blank s : trim_start s = [] → Forall (λ c, is_space c = true) s.
Proof.
  induction s as [|c s IH]; simpl; [done|]. destruct (is_space c) eqn:E; [|done]. constructor; auto.
Qed.

Lemma trim_blank s : trim s = [] → Forall (λ c, is_space c = true) s.
Proof.
  unfold trim, trim_end. intros E%(f_equal (@rev N)). rewrite rev_involutive in E.
  apply trim_start_blank, Forall_rev in E. rewrite rev_involutive in E.
  induction s as [|c s IH]; [constructor|]. simpl in E. destruct (is_space c) eqn:Ec; [|by apply Forall_cons in E as [E _]; rewrite Ec in E].
  constructor; auto.
Qed.

Lemma blank_line l : trim l = [] → parseLine l = [[]].
Proof.
  intros E. pose proof (trim_blank l E) as Hs. rewrite Forall_forall in Hs. unfold parseLine.
  rewrite <- (app_nil_r l), parse_plain; [change ([trim l] = [[]]); by rewrite E|intros H%Hs; by vm_compute in H..].
Qed.

(** ** The items of a file *)

(** The field of a row under the first column with this name. *)
Definition named (name : jsstr) (header row : list jsstr) : jsstr :=
  match filter (λ p : jsstr * jsstr, lower (clean p.1) = name) (zip header row) with
  | p :: _ => clean p.2
  | [] => []
  end.

Definition row_item (header row : list jsstr) : option ParsedItem :=
  let i := named (js "input") header row in
  let p := named (js "source_span_id") header row in
  if bool_decide (i = []) then None else
  Some {| input := i; expected_output := JStr (named (js "expected_output") header row);
          source_span_id := if bool_decide (p = []) then None else Some (JStr p) |}.

Lemma column_named name header : ∀ row,
  column (clean <$> row) (position name (lower <$> (clean <$> header))) = named name header row.
Proof.
  unfold named. induction header as [|h header IH]; intros row; [done|]. cbn [fmap list_fmap position].
  destruct row as [|f row].
  - cbn. by case_bool_decide; [|destruct (position name _)].
  - cbn [zip zip_with]. case_bool_decide as E.
    + by rewrite filter_cons_True.
    + rewrite filter_cons_False by done. rewrite <- IH. by destruct (position name _).
Qed.

Lemma truthy_decide (s : jsstr) : truthy s = negb (bool_decide (s = [])).
Proof. by destruct s. Qed.

Lemma csv_item_row header fs l k :
  position (js "input") (lower <$> (clean <$> header)) = Some k → writes_line fs l →
  csv_item k (position (js "expected_output") (lower <$> (clean <$> header)))
    (position (js "source_span_id") (lower <$> (clean <$> header))) l
  = row_item header fs.
Proof.
  intros Hk Hl. unfold csv_item, row_item. rewrite (parseLine_written fs l Hl), !column_named.
  pose proof (column_named (js "input") header fs) as Hi. rewrite Hk in Hi. unfold column in Hi. cbn [mbind option_bind] in Hi.
  rewrite <- Hi, !truthy_decide. case_bool_decide as Hlen.
  - by rewrite (lookup_ge_None_2 _ _ Hlen).
  - destruct (bool_decide (default _ _ = [])); [done|]. simpl. by destruct (bool_decide _).
Qed.

Lemma csv_item_blank k o p l : trim l = [] → csv_item k o p l = None.
Proof.
  intros E. unfold csv_item. rewrite blank_line by done. case_bool_decide as H; [done|].
  destruct k; [done|]. simpl in H. lia.
Qed.

(** C12. A CSV file written as RFC 4180 has it - each field in quotes or, where it may be,
    without, lines ended by a newline with or without a carriage return, the last line
    ended or not, the columns in any order and their names in letters of any case - whose
    fields have no newline and which has a column [input] gives an item for every row with
    an input, in order, of the fields under the three names; of each field the quotes and
    the spaces at its ends are lost, and nothing else: a field without them is read back
    as it was, commas and letters of any script included. *)
Theorem csv_roundtrip header rows text :
  writes_file (header :: rows) text → Exists (λ h, lower (clean h) = js "input") header →
  parseCSV text = omap (row_item header) rows
  ∧ (∀ f, c_quote ∉ f → trim f = f → clean f = f).
Proof.
  intros Hfile Hinput. split; last first.
  { intros f Hq Ht. unfold clean. by rewrite filter_no_quote. }
  apply csv_lines_written in Hfile as (ls & Hls & E). unfold parseCSV. rewrite E.
  apply Forall2_cons_inv_l in Hls as (hl & ls' & Hh & Hls & ->).
  destruct (position (js "input") (lower <$> (clean <$> header))) as [k|] eqn:Hk; last first.
  { exfalso. clear -Hinput Hk. induction Hinput as [h hs Hi|h hs _ IH]; cbn in Hk; [by rewrite bool_decide_true in Hk|].
    case_bool_decide; [done|]. by destruct (position _ _); [|apply IH]. }
  assert (truthy (trim hl) = true) as Hkept.
  { apply truthy_spec. intros Hb%blank_line. rewrite (parseLine_written header hl Hh) in Hb. rewrite Hb in Hk. done. }
  rewrite filter_cons_True by done.
  assert (omap (csv_item k (position (js "expected_output") (lower <$> (clean <$> header)))
                  (position (js "source_span_id") (lower <$> (clean <$> header))))
            (filter (λ l, truthy (trim l) = true) ls') = omap (row_item header) rows) as <-.
  { clear E. induction Hls as [|fs l rows ls' Hl _ IH]; [done|]. cbn [omap list_omap].
    rewrite <- (csv_item_row header fs l k Hk Hl), <- IH.
    destruct (decide (truthy (trim l) = true)) as [Ht|Ht]; [by rewrite filter_cons_True|].
    rewrite filter_cons_False by done. rewrite csv_item_blank; [done|]. by destruct (trim l). }
  rewrite (parseLine_written header hl Hh), Hk. by destruct (filter _ ls').
Qed.

(** ** The batches *)

Lemma batches_partition fuel : ∀ start items, (length items ≤ fuel)%nat →
  concat (snd <$> batches fuel start items) = items
  ∧ Forall (λ b, (1 ≤ length b.2 ≤ BATCH_SIZE)%nat) (batches fuel start items)
  ∧ (length (batches fuel start items) * BATCH_SIZE < length items + BATCH_SIZE)%nat
  ∧ (∀ k b, batches fuel start items !! k = Some b → b.1 = (start + k * BATCH_SIZE)%nat).
Proof.
  induction fuel as [|fuel IH]; intros start items Hl.
  - destruct items; [|simpl in Hl; lia]. by repeat split; [constructor|unfold BATCH_SIZE; simpl; lia|].
  - destruct items as [|x items]; [by repeat split; [constructor|unfold BATCH_SIZE; simpl; lia|]|].
    set (l := x :: items) in *. change (batches (S fuel) start l)
      with ((start, take BATCH_SIZE l) :: batches fuel (start + BATCH_SIZE) (drop BATCH_SIZE l)).
    assert (1 ≤ length l)%nat as Hpos by (simpl; lia).
    destruct (IH (start + BATCH_SIZE)%nat (drop BATCH_SIZE l)) as (H1 & H2 & H3 & H4).
    { rewrite length_drop. unfold BATCH_SIZE. lia. }
    rewrite length_drop in H3. split; [|split; [|split]].
    + cbn [fmap list_fmap concat snd]. rewrite H1. apply take_drop.
    + constructor; [|done]. cbn [snd]. rewrite length_take. unfold BATCH_SIZE in *. lia.
    + cbn [length]. destruct (batches fuel (start + BATCH_SIZE) (drop BATCH_SIZE l)) as [|b bs] eqn:E; [cbn [length]; unfold BATCH_SIZE; lia|].
      assert (1 ≤ length (drop BATCH_SIZE l))%nat as Hd by (destruct (drop BATCH_SIZE l); [by destruct fuel|simpl; lia]).
      rewrite length_drop in Hd. lia.
    + intros [|k] b Hb; [injection Hb as <-; cbn; lia|]. apply H4 in Hb. lia.
Qed.

(** ** The import *)

Definition import_over (datasetId : jsstr) (s : state) : Prop :=
  last (opened s) = Some datasetId ∧ creating s = false ∧ loading s = false.

Lemma import_done_finishes project i s : finishes (import_over i) 1 (import_done project i s).
Proof.
  apply finishes_fetch. intros a s'. apply finishes_now.
  assert (loading (list_answer a s') = false) as Hl by (unfold list_answer; by destruct (body_or_error _ a)).
  split; [apply last_snoc|]. by split.
Qed.

Lemma finishes_more {S} (Q : S → Prop) n m c : (n ≤ m)%nat → finishes Q n c → finishes Q m c.
Proof.
  intros Hle Hf. revert m Hle. induction Hf as [n s HQ|n s T q resume _ IH]; intros m Hle; [by constructor|].
  destruct m as [|m]; [lia|]. constructor. intros a s'. apply IH. lia.
Qed.

Lemma import_loop_finishes project i total rest : ∀ s,
  finishes (import_over i) (S (length rest)) (import_loop project i total rest s).
Proof.
  induction rest as [|[k b] rest IH]; intros s; [apply import_done_finishes|]. cbn [import_loop length].
  assert (∀ s, finishes (import_over i) (S (length rest)) (import_done project i s)) as Hdone.
  { intros s'. eapply finishes_more; [|apply import_done_finishes]. lia. }
  apply finishes_fetch. intros a s'. destruct a as [st [t|e] [u|e']|m]; [..|done]; destruct (ok_status st); auto.
Qed.

Lemma import_loop_sends project i total rest : ∀ s,
  sends (import_loop project i total rest s)
    (((λ b, batch_request i b.2) <$> rest) ++ [get_request (by_project datasets_url project)]).
Proof.
  induction rest as [|[k b] rest IH]; intros s; cbn [import_loop fmap list_fmap app]; apply sends_fetch; intros st t u s' Hst.
  - apply sends_nothing.
  - rewrite Hst. apply IH.
Qed.

(** C13. An import ends: whatever is answered, whatever else happens in between, after at
    most one answer more than there are batches the user is sent to the dataset and the
    form can be used again.  If every request succeeds, the items are sent exactly once
    and in order, in batches of one to fifty, of which there are no more than it takes,
    and then the list is asked for. *)
Theorem import_ends project datasetId items s :
  let bs := snd <$> batches_of items in
  finishes (import_over datasetId) (S (length bs)) (importItems project datasetId items s)
  ∧ sends (importItems project datasetId items s)
      ((batch_request datasetId <$> bs) ++ [get_request (by_project datasets_url project)])
  ∧ concat bs = items ∧ Forall (λ b, (1 ≤ length b ≤ 50)%nat) bs
  ∧ (length bs * 50 < length items + 50)%nat.
Proof.
  intros bs. destruct (batches_partition (length items) 0 items (le_n _)) as (H1 & H2 & H3 & _).
  fold (batches_of items) in H1, H2, H3. unfold bs. rewrite length_fmap. split; [apply import_loop_finishes|].
  split; [rewrite <- list_fmap_compose; apply import_loop_sends|]. split; [done|]. split; [|done].
  by apply Forall_fmap.
Qed.

(** ** What the form holds *)

(** Every item has an input, and while items are imported there is no import error. *)
Definition form_ok (s : state) : Prop :=
  Forall (λ i, input i ≠ []) (parsedItems s) ∧ (importing s = true → importError s = None).

Lemma omap_inputs {A} (f : A → option ParsedItem) l :
  (∀ x i, f x = Some i → input i ≠ []) → Forall (λ i, input i ≠ []) (omap f l).
Proof. intros H. apply Forall_forall. intros i (x & _ & E)%list_elem_of_omap. by eapply H. Qed.

Lemma parse_file_inputs file text items : parse_file file text = Some items → Forall (λ i, input i ≠ []) items.
Proof.
  unfold parse_file. destruct (ends_with _ file).
  - intros [= <-]. unfold parseCSV. destruct (csv_lines text) as [|h [|r rows]]; [constructor..|].
    case_match; [|constructor]. apply omap_inputs. intros x i. unfold csv_item. cbv zeta.
    case_bool_decide; [done|]. destruct (default [] _) eqn:E; [done|]. by intros [= <-].
  - unfold parseJSON. destruct (parse text) as [[| | | |l|]|]; try (by intros [= <-]).
    destruct (existsb _ l); [done|]. intros [= <-]. apply omap_inputs. intros x i. unfold json_item.
    destruct (field _ x) as [[| |j|j| |]|]; try done. destruct j; [done|]. by intros [= <-].
Qed.

Section page.
Context `{DateHost} (clock : Z).
#[local] Set Default Proof Using "All".
Let legal := legal clock.

Definition page_reachable (p : jsstr) := reachable legal handle (initial p).

Definition keeps_form (c : outcome state) : Prop := form_ok c.1 ∧ Forall (keeps form_ok) c.2.

Lemma fetchDatasets_keeps project after s :
  (∀ s, form_ok s → form_ok (after s)) → form_ok s → keeps_form (fetchDatasets project after s).
Proof.
  intros Ha Hs. split; [done|]. apply keeps_answers. intros a s' Hs'. split; [|apply Forall_nil_2]. apply Ha.
  unfold list_answer. by case_match.
Qed.

Lemma import_done_keeps project i s : Forall (λ i, input i ≠ []) (parsedItems s) → keeps_form (import_done project i s).
Proof. intros Hs. apply fetchDatasets_keeps; [done|]. split; [apply Forall_nil_2|done]. Qed.

Lemma import_loop_keeps project i total rest : ∀ s, form_ok s → keeps_form (import_loop project i total rest s).
Proof.
  induction rest as [|[k b] rest IH]; intros s Hs; [by apply import_done_keeps; destruct Hs|].
  split; [done|]. apply keeps_answers. intros a s' Hs'.
  assert (∀ m, keeps_form (import_done project i (s' <| importError := Some m |>))) as Hf
    by (intros m; apply import_done_keeps; by destruct Hs').
  destruct a as [st t u|m]; [|apply Hf]. destruct (ok_status st); [destruct u; [by apply IH|apply Hf]|].
  destruct t; apply Hf.
Qed.

Lemma create_answer_keeps n items project a s : form_ok s → keeps_form (create_answer n items project a s).
Proof.
  intros Hs. assert (∀ m, keeps_form (now (s <| createError := Some m |> <| creating := false |>))) as Hf
    by (intros m; split; [done|apply Forall_nil_2]).
  destruct a as [st t u|m]; cbn [create_answer]; [|apply Hf].
  destruct (ok_status st); [|destruct t; apply Hf]. destruct u as [i|]; [|apply Hf].
  destruct items as [|x items].
  - apply fetchDatasets_keeps; [done|]. split; [apply Forall_nil_2|apply Hs].
  - apply import_loop_keeps. split; [apply Hs|done].
Qed.

Lemma items_handlers : handlers_keep legal handle form_ok.
Proof.
  intros o s _ Hs. change (keeps_form (handle o s)).
  assert (∀ s, form_ok s → keeps_form (now s)) as Hnow by (intros s' Hs'; split; [done|apply Forall_nil_2]).
  destruct o as [|p| |t| | |f| |i text|i|d|d| |d]; cbn [handle]; try (by apply Hnow).
  - by apply fetchDatasets_keeps.
  - case_bool_decide; [by apply Hnow|by apply fetchDatasets_keeps].
  - unfold handleCreate. destruct (negb _); [by apply Hnow|]. split; [done|].
    apply keeps_answers. intros a s' Hs'. by apply create_answer_keeps.
  - destruct (reading s !! i) as [f|]; apply Hnow; [|done]. unfold file_loaded.
    destruct (parse_file f text) as [items|] eqn:E; [|done]. apply parse_file_inputs in E. cbv zeta.
    case_bool_decide; (split; [done|apply Hs]).
  - split; [done|]. apply keeps_answers. intros a s' Hs'. change (keeps_form (delete_answer (activeProject s) a s')).
    destruct a as [st t u|m]; cbn [delete_answer]; [|by apply Hnow].
    destruct (ok_status st); [by apply fetchDatasets_keeps|by apply Hnow].
Qed.

(** In every reachable state every item of the form has an input.  The message of a
    failed import is never on the page: it is inside the progress bar, and whenever it
    is set the import is over and the form, with the bar, is gone; the user is sent to
    the dataset without a word. *)
Theorem import_error_unseen p s waiting :
  page_reachable p (s, waiting) →
  Forall (λ i, input i ≠ []) (parsedItems s)
  ∧ ¬ (importing s = true ∧ is_Some (importError s))
  ∧ (∀ project i total k b rest, ∃ resume,
       (import_loop project i total ((k, b) :: rest) s).2 = [Fetch unit (batch_request i b) resume]
       ∧ ∀ a s', (∀ st t, a = Answer st t (Ok tt) → ok_status st = false) →
           let s2 := (resume a s').1 in is_Some (importError s2) ∧ importing s2 = false ∧ showNewForm s2 = false).
Proof.
  intros Hr.
  assert (form_ok s) as [H1 H2] by (apply (invariant legal handle form_ok (initial p) (s, waiting) items_handlers); [by split|done]).
  split; [done|]. split; [intros [Hi [m Hm]]; rewrite H2 in Hm; [done|exact Hi]|].
  intros project i total k b rest. eexists. split; [done|]. intros [st t [[]|e]|m] s' Ha; simpl.
  - rewrite (Ha st t eq_refl). by destruct t.
  - by destruct (ok_status st), t.
  - done.
Qed.

(** ** Files and keys *)

Lemma create_valid s : truthy (trim (newName s)) = true →
  handle Create s = (s <| creating := true |> <| createError := None |>,
    [Fetch jsstr (send_json "POST" (by_project datasets_url (activeProject s)) (JObj [(js "name", JStr (trim (newName s)))]))
       (create_answer (newName s) (parsedItems s) (activeProject s))]).
Proof. intros Hn. cbn [handle]. unfold handleCreate. by rewrite Hn. Qed.

(** A file that cannot be parsed is shown as the chosen one, with the items of the file
    before it; creating the dataset imports those. *)
Theorem bad_file_keeps_items file text s :
  parse_file file text = None →
  let s1 := (handle (ChooseFile file) s).1 in
  let s2 := (handle (FileLoaded (length (reading s)) text) s1).1 in
  uploadedFile s2 = Some file ∧ parsedItems s2 = parsedItems s ∧ is_Some (parseError s2)
  ∧ (trim (newName s) ≠ [] → parsedItems s ≠ [] → ∃ q resume,
       (handle Create s2).2 = [Fetch jsstr q resume]
       ∧ ∀ i t s', sends (resume (Answer 200 t (Ok i)) s')
           ((batch_request i <$> (snd <$> batches_of (parsedItems s)))
            ++ [get_request (by_project datasets_url (activeProject s))])).
Proof.
  intros Hp s1 s2.
  assert (s2 = file_loaded file text (s1 <| reading ::= forget (length (reading s)) |>)) as E2.
  { unfold s2. cbn [handle]. change (reading s1) with (reading s ++ [file]). by rewrite list_lookup_middle. }
  unfold file_loaded in E2. rewrite Hp in E2. rewrite E2. split; [done|]. split; [done|]. split; [done|].
  intros Hn%truthy_spec Hi. rewrite create_valid by exact Hn. do 2 eexists. split; [done|]. intros i t s'.
  change (sends (create_answer (newName s) (parsedItems s) (activeProject s) (Answer 200 t (Ok i)) s')
    ((batch_request i <$> (snd <$> batches_of (parsedItems s))) ++ [get_request (by_project datasets_url (activeProject s))])).
  destruct (parsedItems s) as [|x items]; [done|]. cbn [create_answer ok_status]. simpl (ok_status 200). cbv iota zeta.
  rewrite <- list_fmap_compose. apply import_loop_sends.
Qed.

(** While a dataset is being created the button is disabled, but the Enter key is not:
    pressed again it creates the dataset a second time. *)
Theorem enter_creates_twice s :
  showNewForm s = true → trim (newName s) ≠ [] →
  let s1 := (handle Create s).1 in
  creating s1 = true ∧ legal Create s1 ∧
  ∃ q r1 r2, (handle Create s).2 = [Fetch jsstr q r1] ∧ (handle Create s1).2 = [Fetch jsstr q r2] ∧ r_method q = js "POST".
Proof.
  intros Hs Hn%truthy_spec. assert ((handle Create s).1 = s <| creating := true |> <| createError := None |>) as E.
  { by rewrite create_valid. }
  cbv zeta. rewrite E. split; [done|]. split.
  - unfold render. eapply offers_child; [apply elem_of_app; right; apply elem_of_app; left|].
    { cbn. rewrite Hs. left. }
    eapply offers_child; [apply elem_of_app; left; right; left|].
    eapply offers_child; [left|]. apply (offers_on _ _ _ "enter"); [done|right; right; left].
  - rewrite !create_valid by exact Hn. do 3 eexists. split; [done|]. by split.
Qed.
End page.

(** ** Runs *)

Module Runs.

#[local] Instance host : DateHost := {| date_parse _ := None; full_year _ := 2024; to_locale_string _ _ := [] |}.

Definition team : jsstr := js "team".
Definition item : ParsedItem := {| input := js "2+2"; expected_output := JStr (js "4"); source_span_id := None |}.
Definition filled : state := initial team <| showNewForm := true |> <| newName := js "golden" |> <| parsedItems := [item] |>.

(** A writer: of each field whether it is quoted, of each line whether it ends with a
    carriage return and a newline. *)
Definition write_field (f : bool * jsstr) : jsstr := if f.1 then c_quote :: doubled f.2 ++ [c_quote] else f.2.
Definition field_ok (f : bool * jsstr) : bool :=
  forallb (λ c, bool_decide (c ∉ if f.1 then [10%N] else [c_comma; c_quote; 10%N; 13%N])) f.2.
Fixpoint write_line (fs : list (bool * jsstr)) : jsstr :=
  match fs with
  | [] => []
  | [f] => write_field f
  | f :: fs => write_field f ++ c_comma :: write_line fs
  end.
Fixpoint write_file (rows : list (bool * list (bool * jsstr))) : jsstr :=
  match rows with
  | [] => []
  | [r] => write_line r.2
  | r :: rows => write_line r.2 ++ (if r.1 then [13%N; 10%N] else [10%N]) ++ write_file rows
  end.

Lemma write_field_ok f : field_ok f = true → writes_field f.2 (write_field f).
Proof.
  unfold field_ok, write_field. destruct f as [[] f]; simpl; rewrite forallb_forall; intros Hf.
  - apply field_quoted. intros Hin%list_elem_of_In%Hf. apply bool_decide_eq_true in Hin. set_solver.
  - apply field_plain, Forall_forall. intros c Hc%list_elem_of_In. specialize (Hf c Hc).
    by apply bool_decide_eq_true in Hf.
Qed.

Lemma write_line_ok fs : fs ≠ [] → forallb field_ok fs = true → writes_line fs.*2 (write_line fs).
Proof.
  induction fs as [|f [|g fs] IH]; intros Hne; [done|..]; intros [Hf Hfs]%andb_true_iff.
  - by apply line_last, write_field_ok.
  - apply (line_field f.2); [by apply write_field_ok|]. by apply IH.
Qed.

Lemma write_file_ok rows :
  forallb (λ r : bool * list (bool * jsstr), bool_decide (r.2 ≠ []) && forallb field_ok r.2) rows = true →
  writes_file ((λ r, r.2.*2) <$> rows) (write_file rows).
Proof.
  induction rows as [|r [|r' rows] IH]; [constructor|..]; intros [[Hr Hf]%andb_true_iff Hrows]%andb_true_iff;
    apply bool_decide_eq_true in Hr.
  - by apply file_last, write_line_ok.
  - apply (file_line (r.2.*2) (write_line r.2)); [by apply write_line_ok|destruct r.1; auto|by apply IH].
Qed.

(** More columns in another order, both kinds of fields and of ends of line. *)
Definition csv_file : list (bool * list (bool * jsstr)) :=
  [(true, [(false, js "Id"); (true, js "Expected_Output"); (false, js " INPUT "); (false, js "source_span_id")]);
   (false, [(false, js "1"); (false, js "c"); (true, js "a, b"); (false, js "s1")]);
   (true, [(false, js "2"); (true, js "x")]); (false, [(false, [])]);
   (false, [(false, js "3"); (false, js "e"); (false, js "d "); (false, [])])].

Lemma csv_file_written : writes_file ((λ r, r.2.*2) <$> csv_file) (write_file csv_file).
Proof. apply write_file_ok. by vm_compute. Qed.

Lemma csv_roundtrip_witness :
  parseCSV (write_file csv_file)
  = [{| input := js "a, b"; expected_output := JStr (js "c"); source_span_id := Some (JStr (js "s1")) |};
     {| input := js "d"; expected_output := JStr (js "e"); source_span_id := None |}].
Proof.
  destruct (csv_roundtrip _ _ _ csv_file_written) as [E _].
  - do 2 apply Exists_cons_tl. apply Exists_cons_hd. by vm_compute.
  - rewrite E. by vm_compute.
Defined.

Lemma import_error_unseen_witness : page_reachable 0 team (initial team, []) ∧ ¬ (importing (initial team) = true ∧ is_Some (importError (initial team))).
Proof.
  assert (page_reachable 0 team (initial team, [])) as Hr by apply rtc_refl.
  split; [exact Hr|]. exact (proj1 (proj2 (import_error_unseen 0 team (initial team) [] Hr))).
Defined.

Lemma bad_file_keeps_items_witness :
  parse_file (js "bad.json") (js "oops") = None
  ∧ parsedItems (handle (FileLoaded 0 (js "oops")) (handle (ChooseFile (js "bad.json")) filled).1).1 = [item].
Proof.
  assert (parse_file (js "bad.json") (js "oops") = None) as Hp by by vm_compute.
  split; [exact Hp|]. exact (proj1 (proj2 (bad_file_keeps_items 0 (js "bad.json") (js "oops") filled Hp))).
Defined.

Lemma enter_creates_twice_witness :
  let s1 := (handle Create filled).1 in creating s1 = true ∧ length (handle Create s1).2 = 1%nat.
Proof.
  destruct (enter_creates_twice 0 filled eq_refl ltac:(by vm_compute)) as (H1 & _ & q & r1 & r2 & _ & H2 & _).
  split; [exact H1|]. by rewrite H2.
Defined.
End Runs.
