(* ===== verification/DatasetModals.v ===== *)
(** The dialogs that add spans to a dataset (ui/src/components/SaveToDatasetModal.tsx and
    BulkAddToDatasetModal.tsx).

    Both choose or create a dataset in the same way; what they do so with is the state
    [state X], whose last part is their own.  The calls of [onClose] and [onSuccess] are
    counted. *)
From S2P Require Import Prelude.
From S2P Require Import JsString.
From S2P Require Import JsNumber.
From S2P Require Import JsJson.
From S2P Require Import Ui.
From S2P Require Import FilterGroup.
Local Open Scope Z_scope.

Record DatasetItem : Type := { dataset_id : jsstr; name : jsstr; created_at : jsstr; item_count : Z }.

Record state (X : Type) : Type := State {
  datasets : list DatasetItem;
  loading : bool;
  selectedDatasetId : jsstr;
  showCreateNew : bool;
  newDatasetName : jsstr;
  saving : bool;
  error : option jsstr;
  creating : bool;
  createError : option jsstr;
  closed : nat;
  succeeded : nat;
  own : X
}.
Arguments State {X} _ _ _ _ _ _ _ _ _ _ _ _.
Arguments datasets {X} _. Arguments loading {X} _. Arguments selectedDatasetId {X} _. Arguments showCreateNew {X} _.
Arguments newDatasetName {X} _. Arguments saving {X} _. Arguments error {X} _. Arguments creating {X} _.
Arguments createError {X} _. Arguments closed {X} _. Arguments succeeded {X} _. Arguments own {X} _.
#[export] Instance state_eta X : Eta (state X) := λ s,
  State (datasets s) (loading s) (selectedDatasetId s) (showCreateNew s) (newDatasetName s) (saving s) (error s)
    (creating s) (createError s) (closed s) (succeeded s) (own s).

Definition initial {X} (x : X) : state X := State [] true [] false [] false None false None 0 0 x.

Section choosing.
Context {X : Type}.
Implicit Types s : state X.

(** ** Choosing and creating a dataset *)

(** [None] is an object without datasets. *)
Definition list_answer (a : answer (option (list DatasetItem))) s : state X :=
  match a with
  | NoAnswer _ => s <| error := Some (js "Failed to load datasets") |>
  | Answer status _ body =>
    if ok_status status then
      match body with
      | Ok data =>
        let s := s <| datasets := default [] data |> in
        match data with Some [d] => s <| selectedDatasetId := dataset_id d |> | _ => s end
      | Err _ => s <| error := Some (js "Failed to load datasets") |>
      end
    else s
  end <| loading := false |>.

Definition fetchDatasets (after : state X → state X) s : outcome (state X) :=
  (s <| loading := true |> <| error := None |>,
   [Fetch (option (list DatasetItem)) (get_request (js "/api/v1/datasets")) (λ a s, now (after (list_answer a s)))]).

(** The body is the id of the new dataset. *)
Definition create_answer (a : answer jsstr) s : outcome (state X) :=
  let failed m s := now (s <| createError := Some m |> <| creating := false |>) in
  let network := js "Network error while creating dataset" in
  match a with
  | NoAnswer _ => failed network s
  | Answer status text body =>
    if ok_status status then
      match body with
      | Ok i => fetchDatasets (λ s, s <| creating := false |>)
                  (s <| selectedDatasetId := i |> <| showCreateNew := false |> <| newDatasetName := [] |>)
      | Err _ => failed network s
      end
    else match text with
         | Ok t => failed (if truthy t then t else js "Failed to create dataset") s
         | Err _ => failed network s
         end
  end.

Definition handleCreateDataset s : outcome (state X) :=
  if negb (truthy (trim (newDatasetName s))) then now s else
  (s <| creating := true |> <| createError := None |>,
   [Fetch jsstr (send_json "POST" (js "/api/v1/datasets") (JObj [(js "name", JStr (trim (newDatasetName s)))])) create_answer]).

(** ** Saving: the end of the [try] of both dialogs *)

Definition not_saved {T} (a : answer T) s : state X :=
  match a with
  | Answer _ (Ok t) _ => s <| error := Some (if truthy t then t else js "Failed to save to dataset") |>
  | _ => s <| error := Some (js "Network error while saving") |>
  end.

(** ** Events *)

Inductive op : Type :=
| Mounted
| SelectDataset (t : jsstr)
| ShowCreateNew
| EditDatasetName (t : jsstr)
| CreateDataset
| CancelCreate
| Save
| Close
| EditOwn (x : X).

(** What both do; [first] is the dialog's effect of being mounted, [save] its own. *)
Definition handle (first save : state X → outcome (state X)) (o : op) s : outcome (state X) :=
  match o with
  | Mounted => first s
  | SelectDataset t => now (s <| selectedDatasetId := t |>)
  | ShowCreateNew => now (s <| showCreateNew := true |>)
  | EditDatasetName t => now (s <| newDatasetName := t |>)
  | CreateDataset => handleCreateDataset s
  | CancelCreate => now (s <| showCreateNew := false |> <| createError := None |>)
  | Save => save s
  | Close => now (s <| closed ::= S |>)
  | EditOwn x => now (s <| own := x |>)
  end.

(** ** Views *)

Definition message (m : option jsstr) : list (view op) :=
  match m with Some t => when (truthy t) (El "div" [] [Text t]) | None => [] end.

Definition dataset_choice s (loading_text : string) : list (view op) :=
  [El "div" []
     [El "label" [] [txt "Dataset"];
      if loading s then El "div" [] [txt loading_text] else
      if bool_decide (datasets s = []) then El "div" [] [txt "No datasets found. Create one to get started."]
      else Select (selectedDatasetId s) SelectDataset
             ((λ d, (dataset_id d, name d ++ js " (" ++ show_Z (item_count d) ++ js " items)")) <$> datasets s)];
   El "button" [On "click" ShowCreateNew] [txt "+ Create new dataset"]] ++ message (error s).

Definition create_form s : view op :=
  El "div" []
    ([El "div" []
        [El "label" [] [txt "New Dataset Name"];
         El "input" [Attr "value" (newDatasetName s); OnValue "change" EditDatasetName; On "enter" CreateDataset;
                     Attr "placeholder" (js "e.g., eval-prompts-v1")] []];
      El "div" []
        [El "button" [On "click" CreateDataset; Flag "disabled" (negb (truthy (trim (newDatasetName s))) || creating s)]
           [if creating s then txt "Creating…" else txt "Create"];
         El "button" [On "click" CancelCreate] [txt "Cancel"]]]
     ++ message (createError s)).

Definition footer s : list (view op) :=
  when (negb (showCreateNew s) && bool_decide (datasets s ≠ []))
    (El "div" []
       [El "button" [On "click" Close] [txt "Cancel"];
        El "button" [On "click" Save; Flag "disabled" (negb (truthy (selectedDatasetId s)) || saving s)]
          [if saving s then txt "Saving…" else txt "Save to Dataset"]]).

(** The dialog around its own fields. *)
Definition dialog s (title subtitle : jsstr) (loading_text : string) (fields : list (view op)) : view op :=
  El "div" [On "click" Close]
    [El "div" []
       ([El "div" [] [El "div" [] [El "h2" [] [Text title]; El "p" [] [Text subtitle]];
                      El "button" [On "click" Close; Attr "aria-label" (js "Close")] [El "svg" [] []]];
         El "div" [] (fields ++ if showCreateNew s then [create_form s] else dataset_choice s loading_text)]
        ++ footer s)].
End choosing.
Arguments op : clear implicits.

(** An item of a request; undefined properties are left out. *)
Definition item_json (input : jsstr) (expected_output : jsstr) (spanId : jsstr) : json :=
  JObj ([(js "input", JStr input)]
        ++ (if truthy expected_output then [(js "expected_output", JStr expected_output)] else [])
        ++ [(js "source_span_id", JStr spanId)]).

(** ** One span, with an expected output that can be edited *)

Module SaveToDatasetModal.
Section modal.
Context (spanId traceId input : jsstr).

Abbreviation state := (state jsstr).
Definition customExpectedOutput (s : state) : jsstr := own s.
Definition start (expectedOutput : option jsstr) : state := initial (default [] expectedOutput).

Definition save_answer (a : answer unit) (s : state) : outcome state :=
  now (match a with
       | Answer status _ _ => if ok_status status then s <| succeeded ::= S |> else not_saved a s
       | NoAnswer _ => not_saved a s
       end <| saving := false |>).

Definition handleSave (s : state) : outcome state :=
  if negb (truthy (selectedDatasetId s)) then now s else
  (s <| saving := true |> <| error := None |>,
   [Fetch unit (send_json "POST" (js "/api/v1/datasets/" ++ selectedDatasetId s ++ js "/items")
                  (item_json input (customExpectedOutput s) spanId)) save_answer]).

Definition run : op jsstr → state → outcome state := handle (fetchDatasets Datatypes.id) handleSave.

Definition render (s : state) : view (op jsstr) :=
  dialog s (js "Save to Dataset") (js "Trace " ++ take 12 traceId ++ js "… · Span " ++ take 8 spanId ++ js "…") "Loading…"
    [El "div" [] [El "label" [] [txt "Input"];
                  El "div" [] [Text (if bool_decide (200 < length input)%nat then take 200 input ++ js "…" else input)]];
     El "div" [] [El "label" [] [txt "Expected Output (optional)"];
                  El "textarea" [Attr "value" (customExpectedOutput s); OnValue "change" EditOwn;
                                 Attr "placeholder" (js "Auto-filled from span output (editable)")] []]].

Definition legal (o : op jsstr) (s : state) : Prop :=
  match o with Mounted => True | _ => offers (render s) o end.
End modal.
End SaveToDatasetModal.

(** ** Many spans, whose data is fetched *)

Module BulkAddToDatasetModal.

Record SpanData : Type := { span_id : jsstr; input : jsstr; output : jsstr }.
Record saved : Type := { created : option Z; skipped : option (list json) }.

Section modal.
Context (spanIds : list jsstr).

Abbreviation state := (state (list SpanData)).
Definition fetchedSpans (s : state) : list SpanData := own s.

Definition spans_answer (a : answer (option (list SpanData))) (s : state) : outcome state :=
  now (match ok_body a with Some data => s <| own := default [] data |> | None => s end).

Definition fetchSpanData (s : state) : outcome state :=
  (s, [Fetch (option (list SpanData))
         (send_json "POST" (js "/api/v1/spans/batch") (JObj [(js "span_ids", JArr (JStr <$> spanIds))])) spans_answer]).

Definition first (s : state) : outcome state :=
  let '(s, ps) := fetchDatasets Datatypes.id s in
  let '(s, qs) := fetchSpanData s in
  (s, ps ++ qs).

(** [new Map(fetchedSpans.map((s) => [s.span_id, s])).get(spanId)]: the last one counts. *)
Definition span_data (s : state) (spanId : jsstr) : option SpanData :=
  array_find (λ d, bool_decide (span_id d = spanId)) (rev (fetchedSpans s)).

Definition item_of (s : state) (spanId : jsstr) : json :=
  let d := span_data s spanId in
  item_json (from_option input [] d) (from_option output [] d) spanId.

Definition skipped_message (createdCount skippedCount total : Z) : jsstr :=
  js "Added " ++ show_Z createdCount ++ js " of " ++ show_Z total ++ js " spans — " ++ show_Z skippedCount ++ js " skipped (no input)".

(** [total] is the number of items of the request. *)
Definition save_answer (total : Z) (a : answer saved) (s : state) : outcome state :=
  now (match a with
       | Answer status _ body =>
         if ok_status status then
           match body with
           | Ok data =>
             let createdCount := default 0 (created data) in
             if createdCount <? total then
               let skippedCount := match skipped data with Some l => Z.of_nat (length l) | None => total - createdCount end in
               s <| error := Some (skipped_message createdCount skippedCount total) |>
             else s <| succeeded ::= S |>
           | Err _ => s <| error := Some (js "Network error while saving") |>
           end
         else not_saved a s
       | NoAnswer _ => not_saved a s
       end <| saving := false |>).

Definition handleSave (s : state) : outcome state :=
  if negb (truthy (selectedDatasetId s)) then now s else
  (s <| saving := true |> <| error := None |>,
   [Fetch saved (send_json "POST" (js "/api/v1/datasets/" ++ selectedDatasetId s ++ js "/items/batch")
                   (JObj [(js "items", JArr (item_of s <$> spanIds))]))
      (save_answer (Z.of_nat (length spanIds)))]).

Definition run : op (list SpanData) → state → outcome state := handle first handleSave.

Definition render (s : state) : view (op (list SpanData)) :=
  let n := Z.of_nat (length spanIds) in
  dialog s (js "Add to Dataset") (show_Z n ++ js " span" ++ (if n =? 1 then [] else js "s") ++ js " selected") "Loading datasets…" [].

Definition legal (o : op (list SpanData)) (s : state) : Prop :=
  match o with Mounted => True | _ => offers (render s) o end.
End modal.
End BulkAddToDatasetModal.

(** ** Theorems on the dialog for many spans *)

Section bulk.
Import BulkAddToDatasetModal.
Context (spanIds : list jsstr).
#[local] Set Default Proof Using "All".

Definition dialog_reachable := reachable (legal spanIds) (run spanIds) (initial []).

(** C27. Success is reported exactly if the server says that it added as many items as there
    are spans; otherwise a message says what failed or how many spans were skipped.
    The request has one item per span in order, with the data fetched last for it. *)
Theorem bulk_save_reports s :
  selectedDatasetId s ≠ [] →
  ∃ resume, (run spanIds Save s).2
    = [Fetch saved (send_json "POST" (js "/api/v1/datasets/" ++ selectedDatasetId s ++ js "/items/batch")
                      (JObj [(js "items", JArr (item_of s <$> spanIds))])) resume]
  ∧ ∀ a s', let s2 := (resume a s').1 in
      saving s2 = false ∧ (resume a s').2 = []
      ∧ (succeeded s2 = S (succeeded s') ∧ error s2 = error s'
           ↔ ∃ st t d, a = Answer st t (Ok d) ∧ ok_status st = true ∧ Z.of_nat (length spanIds) <= default 0 (created d))
      ∧ (succeeded s2 = succeeded s' → is_Some (error s2)).
Proof.
  intros Hs%truthy_spec. unfold run, handle, handleSave. rewrite Hs. cbn [negb]. eexists. split; [done|].
  assert (∀ T (b : answer T) (s' : state (list SpanData)), succeeded (not_saved b s') = succeeded s' ∧ is_Some (error (not_saved b s'))) as Hn
    by by intros T [st [t|e] u|m] s'.
  intros a s'. set (s2 := (save_answer _ a s').1). split; [done|]. split; [done|].
  assert ((∃ st t d, a = Answer st t (Ok d) ∧ ok_status st = true ∧ Z.of_nat (length spanIds) <= default 0 (created d))
          ∧ succeeded s2 = S (succeeded s') ∧ error s2 = error s'
          ∨ (¬ ∃ st t d, a = Answer st t (Ok d) ∧ ok_status st = true ∧ Z.of_nat (length spanIds) <= default 0 (created d))
            ∧ succeeded s2 = succeeded s' ∧ is_Some (error s2)) as [(H1 & H2 & H3)|(H1 & H2 & H3)].
  { unfold s2, save_answer. destruct a as [st t u|m]; [|right; split; [naive_solver|by apply (Hn saved (NoAnswer m))]].
    destruct (ok_status st) eqn:Hst; [|right; split; [naive_solver congruence|by apply (Hn saved (Answer st t u))]].
    destruct u as [d|e]; [|right; split; [naive_solver|done]]. cbv zeta.
    destruct (Z.ltb_spec (default 0 (created d)) (Z.of_nat (length spanIds))).
    - right. split; [naive_solver lia|done].
    - left. split; [by exists st, t, d|done]. }
  - split; [tauto|]. intros E. rewrite H2 in E. lia.
  - split; [|done]. split; [|tauto]. intros [E _]. rewrite H2 in E. lia.
Qed.

(** Saving does not wait for the data of the spans: when there is one dataset it can be
    saved to as soon as the datasets are there, and if the data is not, every span is
    sent with an empty input. *)
Theorem early_save_is_empty d :
  dataset_id d ≠ [] →
  ∃ s q, dialog_reachable (s, [q]) ∧ legal spanIds Save s
    ∧ (∃ r body, (run spanIds Save s).2 = [Fetch saved r body]
         ∧ r_body r = Some (stringify (JObj [(js "items",
             JArr ((λ i, JObj [(js "input", JStr []); (js "source_span_id", JStr i)]) <$> spanIds))]))).
Proof.
  intros Hd. pose (s0 := (run spanIds Mounted (initial [])).1).
  pose (a := Answer 200 (Ok []) (Ok (Some [d]))). pose (s1 := list_answer a s0).
  exists s1. eexists. split; [|split].
  - unfold dialog_reachable, reachable.
    eapply rtc_l; [exact (step_event (legal spanIds) (run spanIds) Mounted (initial []) [] I)|].
    apply rtc_once.
    exact (step_answer (legal spanIds) (run spanIds) s0 [] _ _ _ _ a).
  - eapply offers_child; [left|]. eapply offers_child; [apply elem_of_app; right; left|].
    eapply offers_child; [right; left|]. apply (offers_on _ _ _ "click"); [|left].
    cbn. by destruct (dataset_id d).
  - do 2 eexists. split.
    + unfold run, handle, handleSave. change (selectedDatasetId s1) with (dataset_id d).
      by rewrite (proj2 (truthy_spec (dataset_id d)) Hd).
    + done.
Qed.

(** Until a dataset is chosen there is no saving, and with two datasets or more none is
    chosen when they arrive. *)
Lemma no_save_unchosen s : selectedDatasetId s = [] → ¬ legal spanIds Save s.
Proof.
  intros Hs Ho. enough (emits (λ o : op (list SpanData), o ≠ Save) (render spanIds s)) as He by by apply (He Save Ho).
  assert (Forall (emits (λ o : op (list SpanData), o ≠ Save)) (footer s)) as Hf.
  { unfold footer. apply emits_when. intros _. apply emits_el; [constructor|]. constructor; [by emit|].
    constructor; [|constructor]. apply emits_disabled; [cbn; by rewrite Hs|by repeat constructor|by emit]. }
  unfold render, dialog, create_form, dataset_choice, message, Select. by emit.
Qed.
End bulk.

Lemma two_datasets_unchosen {X} (s : state X) st t d d' l :
  ok_status st = true →
  let s' := list_answer (Answer st t (Ok (Some (d :: d' :: l)))) s in
  selectedDatasetId s' = selectedDatasetId s ∧ datasets s' = d :: d' :: l.
Proof. intros Hst. simpl. by rewrite Hst. Qed.

(** A refused list of datasets is not reported: the dialog says that there are none. *)
Theorem refused_list_says_none spanIds st t b :
  ok_status st = false →
  let s := list_answer (Answer st t b) (fetchDatasets Datatypes.id (initial [])).1 in
  error s = None ∧ js "No datasets found. Create one to get started." ∈ texts (BulkAddToDatasetModal.render spanIds s).
Proof.
  intros Hst s.
  assert (s = (fetchDatasets Datatypes.id (initial [])).1 <| loading := false |>) as ->
    by (unfold s, list_answer; by rewrite Hst).
  split; [done|]. apply (list_elem_of_lookup_2 _ 3). by vm_compute.
Qed.

Module Runs.
Import BulkAddToDatasetModal.

Definition dataset : DatasetItem := {| dataset_id := js "d1"; name := js "golden"; created_at := []; item_count := 0 |}.
Definition ready : state (list SpanData) := initial [] <| selectedDatasetId := js "d1" |> <| datasets := [dataset] |>.

Lemma bulk_save_reports_witness :
  selectedDatasetId ready ≠ [] ∧ ∃ q r, (run [js "s1"; js "s2"] Save ready).2 = [Fetch saved q r].
Proof.
  assert (selectedDatasetId ready ≠ []) as Hs by by vm_compute. split; [exact Hs|].
  destruct (bulk_save_reports [js "s1"; js "s2"] ready Hs) as (r & E & _). by do 2 eexists.
Defined.

Lemma early_save_is_empty_witness : dataset_id dataset ≠ [] ∧ ∃ s q, dialog_reachable [js "s1"] (s, [q]) ∧ legal [js "s1"] Save s.
Proof.
  assert (dataset_id dataset ≠ []) as Hd by by vm_compute. split; [exact Hd|].
  destruct (early_save_is_empty [js "s1"] dataset Hd) as (s & q & Hr & Hl & _). by exists s, q.
Defined.

Lemma refused_list_says_none_witness :
  ok_status 500 = false
  ∧ error (list_answer (Answer 500 (Ok []) (Err [])) (fetchDatasets Datatypes.id (initial (X := list SpanData) [])).1) = None.
Proof.
  split; [done|]. exact (proj1 (refused_list_says_none [] 500 (Ok []) (Err []) eq_refl)).
Defined.
End Runs.
