(* ===== verification/DatasetDetail.v ===== *)
(** One dataset (ui/src/pages/DatasetDetail.tsx): the page that loads it, the tab with its
    items, the tab with its runs, and the dialog that starts one.

    A tab is mounted anew whenever it comes into view; it has a number, and so has the
    dialog: what their requests do after they are gone reaches nothing.  [after_render]
    is what rendering makes of the state: which of them are mounted, the requests of those
    that newly are, and which rows of results are.  The interval of the runs is the time
    at which it fires next, with the runs it was made for; the clock moves with [Tick]. *)
From S2P Require Import Prelude.
From S2P Require Import JsString.
From S2P Require Import JsNumber.
From S2P Require Import JsJson.
From S2P Require Import Formatters.
From S2P Require Import Ui.
From S2P Require Import Widgets.
From S2P Require Import FilterGroup.
Local Open Scope Z_scope.

(** ** Data *)

Record DatasetInfo : Type := { dataset_name : jsstr; dataset_created_at : jsstr; dataset_item_count : Z }.

Record DatasetItemEntry : Type := { item_id : jsstr; item_input : jsstr; item_expected : jsstr; item_created_at : jsstr }.

Record RunListItem : Type := {
  run_id : jsstr; eval_rule_id : jsstr; status : jsstr; item_count : Z; mean_score : option num; run_created_at : jsstr
}.

Record RunItemEntry : Type := { input : jsstr; expected_output : jsstr; score : num; reasoning : jsstr }.

(** Of a run's detail the page uses its items. *)
Abbreviation RunDetail := (list RunItemEntry).

Record EvalRule : Type := { rule_id : jsstr; rule_name : jsstr; judge_model : jsstr; enabled : bool }.

(** ** State *)

Inductive tab_kind : Type := items_tab | runs_tab.
#[export] Instance tab_kind_eq : EqDecision tab_kind.
Proof. solve_decision. Defined.

Record NewRunModal : Type := Modal {
  modal_number : nat; rules : list EvalRule; rules_loading : bool; selectedRuleId : jsstr; running : bool; modal_error : option jsstr
}.
#[export] Instance modal_eta : Eta NewRunModal := λ m,
  Modal (modal_number m) (rules m) (rules_loading m) (selectedRuleId m) (running m) (modal_error m).

Record ItemsTab : Type := Items { items_number : nat; items : list DatasetItemEntry; items_loading : bool; items_error : option jsstr }.
#[export] Instance items_eta : Eta ItemsTab := λ t, Items (items_number t) (items t) (items_loading t) (items_error t).

(** [rows] are the rows of results that are open, as the run and the place of the item. *)
Record RunsTab : Type := Runs {
  runs_number : nat;
  runs : list RunListItem;
  runDetails : gmap jsstr RunDetail;
  runs_loading : bool;
  runs_error : option jsstr;
  showNewRunModal : bool;
  expandedRuns : list jsstr;
  interval : option (Z * list jsstr);
  modal : option NewRunModal;
  rows : list (jsstr * nat)
}.
#[export] Instance runs_eta : Eta RunsTab := λ t,
  Runs (runs_number t) (runs t) (runDetails t) (runs_loading t) (runs_error t) (showNewRunModal t) (expandedRuns t)
    (interval t) (modal t) (rows t).

Inductive tab : Type := OfItems (t : ItemsTab) | OfRuns (t : RunsTab).

(** [mounts] numbers the tabs and the dialogs; [back] counts the calls of [onBack]. *)
Record state : Type := State {
  activeProject : jsstr;
  dataset : option DatasetInfo;
  loading : bool;
  error : option jsstr;
  activeTab : tab_kind;
  shown : option tab;
  mounts : nat;
  clock : Z;
  back : nat
}.
#[export] Instance state_eta : Eta state := λ s,
  State (activeProject s) (dataset s) (loading s) (error s) (activeTab s) (shown s) (mounts s) (clock s) (back s).

Definition initial (p : jsstr) (now : Z) : state := State p None true None items_tab None 0 now 0.

(** State updates of a component that may be gone. *)
Definition in_items (n : nat) (f : ItemsTab → ItemsTab) (s : state) : state :=
  s <| shown ::= fmap (λ t, match t with OfItems t => OfItems (if bool_decide (items_number t = n) then f t else t) | _ => t end) |>.
Definition in_runs (n : nat) (f : RunsTab → RunsTab) (s : state) : state :=
  s <| shown ::= fmap (λ t, match t with OfRuns t => OfRuns (if bool_decide (runs_number t = n) then f t else t) | _ => t end) |>.
Definition in_modal (n : nat) (f : NewRunModal → NewRunModal) (s : state) : state :=
  s <| shown ::= fmap (λ t, match t with
                            | OfRuns t => OfRuns (t <| modal ::= fmap (λ m, if bool_decide (modal_number m = n) then f m else m) |>)
                            | _ => t
                            end) |>.

Definition the_runs (s : state) : option RunsTab := match shown s with Some (OfRuns t) => Some t | _ => None end.

Section page.
Context (datasetId : jsstr).

Definition dataset_url : jsstr := js "/api/v1/datasets/" ++ datasetId.
Definition of_project (p : jsstr) : jsstr := js "?project_id=" ++ p.
Definition run_url (id : jsstr) : jsstr := dataset_url ++ js "/runs/" ++ id.

(** ** What the requests ask and what their answers do, before the next render *)

Definition items_answer (n : nat) (a : answer (option (list DatasetItemEntry))) : state → state :=
  in_items n (λ t,
    match body_or_error (js "Failed to fetch items") a with
    | Ok l => t <| items := default [] l |>
    | Err m => t <| items_error := Some m |>
    end <| items_loading := false |>).

Definition rules_answer (n : nat) (a : answer (option (list EvalRule))) : state → state :=
  in_modal n (λ m,
    match a with
    | Answer st _ (Ok data) =>
      if ok_status st then
        let activeRules := filter (λ r, enabled r = true) (default [] data) in
        let m := m <| rules := activeRules |> in
        match activeRules with [r] => m <| selectedRuleId := rule_id r |> | _ => m end
      else m
    | Answer st _ (Err _) => if ok_status st then m <| modal_error := Some (js "Failed to load eval rules") |> else m
    | NoAnswer _ => m <| modal_error := Some (js "Failed to load eval rules") |>
    end <| rules_loading := false |>).

Definition active_ids (l : list RunListItem) : list jsstr := run_id <$> filter (λ r, status r = js "running") l.

(** The effect on [runs]: an interval for the runs that are going on. *)
Definition polled (now : Z) (l : list RunListItem) : option (Z * list jsstr) :=
  match active_ids l with [] => None | ids => Some (now + 3000, ids) end.

Definition runs_answer (n : nat) (a : answer (option (list RunListItem))) (s : state) : state :=
  in_runs n (λ t,
    match body_or_error (js "Failed to fetch runs") a with
    | Ok l => t <| runs := default [] l |> <| runs_error := None |> <| interval := polled (clock s) (default [] l) |>
    | Err m => t <| runs_error := Some m |>
    end <| runs_loading := false |>) s.

(** The end of [toggleRunExpand] after its request: [next] is the set made before it. *)
Definition detail_answer (n : nat) (id : jsstr) (next : list jsstr) (a : answer RunDetail) : state → state :=
  in_runs n (λ t,
    match body_or_error [] a with Ok d => t <| runDetails ::= <[id := d]> |> | Err _ => t end <| expandedRuns := next |>).

Definition dataset_answer (a : answer DatasetInfo) (s : state) : state :=
  match body_or_error (js "Failed to fetch dataset") a with
  | Ok d => s <| dataset := Some d |>
  | Err m => s <| error := Some m |>
  end <| loading := false |>.

Definition items_request (p : jsstr) : request := get_request (dataset_url ++ js "/items" ++ of_project p ++ js "&limit=100").
Definition runs_request (p : jsstr) : request := get_request (dataset_url ++ js "/runs" ++ of_project p).
Definition detail_request (id p : jsstr) : request := get_request (run_url id ++ of_project p).
Definition status_request (id p : jsstr) : request := get_request (run_url id ++ js "/status" ++ of_project p).
Definition rules_request (p : jsstr) : request := get_request (js "/api/v1/eval-rules" ++ of_project p).

(** ** Rendering *)

Definition dataset_shown (s : state) : bool :=
  negb (loading s) && negb (truthy_opt (error s)) && bool_decide (is_Some (dataset s)).
Definition runs_shown (t : RunsTab) : bool := negb (runs_loading t) && negb (truthy_opt (runs_error t)).
Definition kind_of (t : tab) : tab_kind := match t with OfItems _ => items_tab | OfRuns _ => runs_tab end.

(** The rows of results that are still there. *)
Definition rows_there (t : RunsTab) : list (jsstr * nat) :=
  filter (λ '(id, i), id ∈ run_id <$> runs t ∧ id ∈ expandedRuns t ∧ (i < length (default [] (runDetails t !! id)))%nat) (rows t).

Definition set_runs (t : RunsTab) (s : state) : state := s <| shown := Some (OfRuns t) |>.

(** The effect of the dialog: for a project, by the dialog with a number. *)
Definition fetchRules (n : nat) (p : jsstr) (s : state) : outcome state :=
  (s, [Fetch (option (list EvalRule)) (rules_request p) (λ a s, now (rules_answer n a s))]).

(** The runs' tab: its dialog, which is mounted anew when it comes back into view, and
    its rows. *)
Definition render_runs (s : state) : outcome state :=
  match the_runs s with
  | None => now s
  | Some t =>
    if negb (runs_shown t) then now (set_runs (t <| modal := None |> <| rows := [] |>) s) else
    let t := t <| rows := rows_there t |> in
    match showNewRunModal t, modal t with
    | false, _ => now (set_runs (t <| modal := None |>) s)
    | true, Some _ => now (set_runs t s)
    | true, None =>
      let n := mounts s in
      fetchRules n (activeProject s)
        (set_runs (t <| modal := Some (Modal n [] true [] false None) |>) s <| mounts ::= S |>)
    end
  end.

Definition fetchRuns (n : nat) (p : jsstr) (s : state) : outcome state :=
  (s, [Fetch (option (list RunListItem)) (runs_request p) (λ a s, render_runs (runs_answer n a s))]).

Definition fetchItems (n : nat) (p : jsstr) (s : state) : outcome state :=
  (in_items n (λ t, t <| items_loading := true |> <| items_error := None |>) s,
   [Fetch (option (list DatasetItemEntry)) (items_request p) (λ a s, now (items_answer n a s))]).

(** The tab that is in view is mounted, with its effect. *)
Definition render (s : state) : outcome state :=
  if negb (dataset_shown s) then now (s <| shown := None |>) else
  if bool_decide (kind_of <$> shown s = Some (activeTab s)) then render_runs s else
  let n := mounts s in
  match activeTab s with
  | items_tab => fetchItems n (activeProject s) (s <| mounts ::= S |> <| shown := Some (OfItems (Items n [] true None)) |>)
  | runs_tab =>
    fetchRuns n (activeProject s)
      (s <| mounts ::= S |> <| shown := Some (OfRuns (Runs n [] ∅ true None false [] None None [])) |>)
  end.

Definition after_render (c : outcome state) : outcome state :=
  let '(s, ps) := c in
  let '(s, qs) := render s in
  (s, ps ++ qs).

(** ** The page *)

Definition fetchDataset (s : state) : outcome state :=
  (s <| loading := true |> <| error := None |>,
   [Fetch DatasetInfo (get_request (dataset_url ++ of_project (activeProject s))) (λ a s, after_render (now (dataset_answer a s)))]).

(** The effects for another project, those of the components inside first; they are gone
    as soon as the page's own has run. *)
Definition inner_effects (s : state) : outcome state :=
  let p := activeProject s in
  match shown s with
  | Some (OfItems t) => fetchItems (items_number t) p s
  | Some (OfRuns t) =>
    let '(s, ps) := match modal t with Some m => fetchRules (modal_number m) p s | None => now s end in
    let '(s, qs) := fetchRuns (runs_number t) p s in
    (s, ps ++ qs)
  | None => now s
  end.

(** ** The runs *)

Definition toggleRunExpand (id : jsstr) (s : state) : outcome state :=
  match the_runs s with
  | None => now s
  | Some t =>
    if bool_decide (id ∈ expandedRuns t) then
      now (set_runs (t <| expandedRuns ::= filter (λ x, x ≠ id) |>) s)
    else
      let next := expandedRuns t ++ [id] in
      match runDetails t !! id with
      | Some _ => now (set_runs (t <| expandedRuns := next |>) s)
      | None =>
        (s, [Fetch RunDetail (detail_request id (activeProject s))
               (λ a s, render_runs (detail_answer (runs_number t) id next a s))])
      end
  end.

(** The loop of a poll, which goes on whatever becomes of the tab. *)
Fixpoint poll_loop (n : nat) (p : jsstr) (ids : list jsstr) (s : state) : outcome state :=
  match ids with
  | [] => now s
  | id :: ids =>
    (s, [Fetch jsstr (status_request id p) (λ a s,
           match ok_body a with
           | Some st =>
             if bool_decide (st = js "running") then poll_loop n p ids s else
             (s, [Fetch (option (list RunListItem)) (runs_request p) (λ a s,
                    let '(s, ps) := render_runs (runs_answer n a s) in
                    let '(s, qs) := poll_loop n p ids s in
                    (s, ps ++ qs))])
           | None => poll_loop n p ids s
           end)])
  end.

(** The interval fires. *)
Definition poll (s : state) : outcome state :=
  match the_runs s with
  | Some t =>
    match interval t with
    | Some (_, ids) =>
      poll_loop (runs_number t) (activeProject s) ids (set_runs (t <| interval := Some (clock s + 3000, ids) |>) s)
    | None => now s
    end
  | None => now s
  end.

(** ** The dialog *)

Definition run_answer (n m : nat) (p : jsstr) (a : answer unit) (s : state) : outcome state :=
  let failed e s := now (in_modal m (λ m, m <| modal_error := Some e |> <| running := false |>) s) in
  match a with
  | NoAnswer _ => failed (js "Network error while starting run") s
  | Answer st text _ =>
    if ok_status st then
      let '(s, ps) := render_runs (in_runs n (λ t, t <| showNewRunModal := false |>) s) in
      let '(s, qs) := fetchRuns n p s in
      (s, ps ++ qs)
    else match text with
         | Ok t => failed (if truthy t then t else js "Failed to start run") s
         | Err _ => failed (js "Network error while starting run") s
         end
  end.

Definition handleRun (s : state) : outcome state :=
  match the_runs s with
  | Some t =>
    match modal t with
    | Some m =>
      if negb (truthy (selectedRuleId m)) then now s else
      (in_modal (modal_number m) (λ m, m <| running := true |> <| modal_error := None |>) s,
       [Fetch unit (send_json "POST" (dataset_url ++ js "/runs") (JObj [(js "eval_rule_id", JStr (selectedRuleId m))]))
          (run_answer (runs_number t) (modal_number m) (activeProject s))])
    | None => now s
    end
  | None => now s
  end.

(** ** Events *)

Inductive op : Type :=
| Mounted
| SwitchProject (p : jsstr)
| ChooseTab (k : tab_kind)
| Back
| ToggleRun (id : jsstr)
| ToggleItem (id : jsstr) (i : nat)
| NewRun
| CloseModal
| SelectRule (id : jsstr)
| StartRun
| Tick (dt : Z)
| Poll.

Definition on_runs (f : RunsTab → RunsTab) (s : state) : state :=
  match the_runs s with Some t => set_runs (f t) s | None => s end.

Definition toggle_row (r : jsstr * nat) (l : list (jsstr * nat)) : list (jsstr * nat) :=
  if bool_decide (r ∈ l) then filter (λ x, x ≠ r) l else l ++ [r].

Definition handle_op (o : op) (s : state) : outcome state :=
  match o with
  | Mounted => fetchDataset s
  | SwitchProject p =>
    if bool_decide (p = activeProject s) then now s else
    let '(s, ps) := inner_effects (s <| activeProject := p |>) in
    let '(s, qs) := fetchDataset s in
    (s, ps ++ qs)
  | ChooseTab k => now (s <| activeTab := k |>)
  | Back => now (s <| back ::= S |>)
  | ToggleRun id => toggleRunExpand id s
  | ToggleItem id i => now (on_runs (λ t, t <| rows ::= toggle_row (id, i) |>) s)
  | NewRun => now (on_runs (λ t, t <| showNewRunModal := true |>) s)
  | CloseModal => now (on_runs (λ t, t <| showNewRunModal := false |>) s)
  | SelectRule id => now (on_runs (λ t, t <| modal ::= fmap (λ m, m <| selectedRuleId := id |>) |>) s)
  | StartRun => handleRun s
  | Tick dt => now (s <| clock ::= Z.add dt |>)
  | Poll => poll s
  end.

Definition handle (o : op) (s : state) : outcome state := after_render (handle_op o s).

(** ** Views *)

Section views.
Context `{DateHost}.

Definition Spinner : view op := El "svg" [] [].

Definition capital (s : jsstr) : jsstr := match s with c :: r => to_upper [c] ++ r | [] => [] end.

Definition StatusBadge (st : jsstr) : view op :=
  El "span" [] (when (bool_decide (st = js "running")) (El "span" [] []) ++ [Text (capital st)]).

Definition count_text (n : Z) (what : jsstr) : jsstr := show_Z n ++ js " " ++ what ++ (if n =? 1 then [] else js "s").

Definition or_dash (t : jsstr) : jsstr := if truthy t then t else js "—".

Definition ItemResultRow (expanded : bool) (toggle : op) (i : RunItemEntry) : view op :=
  El "div" []
    (El "button" [On "click" toggle]
       [El "div" [] [El "span" [] [Text (to_fixed 1 (score i))]; El "span" [] [Text (truncate (Some (input i)) 80)]]; El "svg" [] []]
     :: when expanded
          (El "div" []
             [El "div" [] [El "label" [] [txt "Input"]; El "div" [] [Text (input i)]];
              El "div" [] [El "label" [] [txt "Expected Output"]; El "div" [] [Text (or_dash (expected_output i))]];
              El "div" [] [El "label" [] [txt "Reasoning"]; El "div" [] [Text (or_dash (reasoning i))]]])).

Definition mean_text (r : RunListItem) : list (view op) :=
  match mean_score r with
  | Some x => when (bool_decide (status r = js "complete") && num_lt (of_Z 0) x) (El "span" [] [Text (js "avg " ++ to_fixed 2 x)])
  | None => []
  end.

Definition RunRow (now : Z) (t : RunsTab) (r : RunListItem) : view op :=
  El "div" []
    (El "button" [On "click" (ToggleRun (run_id r))]
       [El "div" []
          [StatusBadge (status r); El "span" [Attr "title" (run_id r)] [Text (truncate (Some (run_id r)) 12)];
           El "span" [] [Text (eval_rule_id r)]];
        El "div" []
          (mean_text r
           ++ [El "span" [] [Text (count_text (item_count r) (js "item"))];
               El "span" [] [Text (formatTime now (run_created_at r))]; El "svg" [] []])]
     :: when (bool_decide (run_id r ∈ expandedRuns t))
          (El "div" []
             (when (bool_decide (status r = js "error")) (El "div" [] [txt "Run failed. Check the server logs for details."])
              ++ match runDetails t !! run_id r with
                 | Some ((_ :: _) as l) =>
                   imap (λ i item, ItemResultRow (bool_decide ((run_id r, i) ∈ rows t)) (ToggleItem (run_id r) i) item) l
                 | _ =>
                   if bool_decide (status r = js "running") then [El "div" [] [Spinner; txt " Scoring items…"]]
                   else [El "div" [] [txt "No items scored yet."]]
                 end))).

Definition ModalView (m : NewRunModal) : view op :=
  El "div" [On "click" CloseModal]
    [El "div" []
       ([El "div" [] [El "h2" [] [txt "New Dataset Run"];
                      El "button" [On "click" CloseModal; Attr "aria-label" (js "Close")] [El "svg" [] []]];
         El "div" []
           (if rules_loading m then [El "div" [] [Spinner; txt " Loading eval rules…"]] else
            if bool_decide (rules m = []) then [El "div" [] [txt "No active eval rules found. Create an eval rule to start a run."]]
            else
              El "div" [] [El "label" [] [txt "Eval Rule"];
                           Select (selectedRuleId m) SelectRule
                             ((λ r, (rule_id r, rule_name r ++ js " (" ++ judge_model r ++ js ")")) <$> rules m)]
              :: match modal_error m with Some e => when (truthy e) (El "div" [] [Text e]) | None => [] end)]
        ++ when (bool_decide (rules m ≠ []))
             (El "div" []
                [El "button" [On "click" CloseModal] [txt "Cancel"];
                 El "button" [On "click" StartRun; Flag "disabled" (negb (truthy (selectedRuleId m)) || running m)]
                   [if running m then txt "Running…" else txt "Start Run"]]))].

Definition failure (e : option jsstr) : view op := El "div" [] [Text (default [] e)].

Definition RunsTabView (now : Z) (t : RunsTab) : view op :=
  if runs_loading t then El "div" [] [Spinner] else
  if truthy_opt (runs_error t) then failure (runs_error t) else
  El "div" []
    ([El "div" [] [El "p" [] [Text (count_text (Z.of_nat (length (runs t))) (js "run"))];
                   El "button" [On "click" NewRun] [txt "+ New Run"]];
      if bool_decide (runs t = []) then El "div" [] [txt "No runs yet. Create a run to evaluate dataset items."]
      else El "div" [] (RunRow now t <$> runs t)]
     ++ when_some (modal t) ModalView).

Definition ItemView (now : Z) (i : nat) (x : DatasetItemEntry) : view op :=
  El "div" []
    [El "div" [] [El "span" [] [Text (js "#" ++ show_Z (Z.of_nat i + 1))]; El "span" [] [Text (formatTime now (item_created_at x))]];
     El "div" []
       (El "div" [] [El "label" [] [txt "Input"]; El "div" [] [Text (item_input x)]]
        :: when (truthy (item_expected x))
             (El "div" [] [El "label" [] [txt "Expected Output"]; El "div" [] [Text (item_expected x)]]))].

Definition ItemsTabView (now : Z) (t : ItemsTab) : view op :=
  if items_loading t then El "div" [] [Spinner] else
  if truthy_opt (items_error t) then failure (items_error t) else
  El "div" []
    (if bool_decide (items t = []) then [El "div" [] [txt "No items in this dataset. Save spans from traces to build your dataset."]]
     else imap (ItemView now) (items t)).

Definition DatasetDetail (s : state) : view op :=
  let now := clock s in
  if loading s then El "div" [] [Spinner; El "p" [] [txt "Loading dataset…"]] else
  match truthy_opt (error s), dataset s with
  | false, Some d =>
    El "div" []
      [El "div" []
         (Breadcrumb [(js "Datasets", Some Back); (dataset_name d, None)]
          ++ [El "div" []
                [El "button" [On "click" Back; Attr "aria-label" (js "Back")] [El "svg" [] []];
                 El "div" []
                   [El "h1" [] [Text (dataset_name d)];
                    El "p" [] [Text (count_text (dataset_item_count d) (js "item") ++ js " · Created "
                                     ++ formatTime now (dataset_created_at d))]]]]);
       El "div" [] [El "button" [On "click" (ChooseTab items_tab)] [txt "Items"];
                    El "button" [On "click" (ChooseTab runs_tab)] [txt "Runs"]];
       El "div" []
         [match shown s with
          | Some (OfItems t) => ItemsTabView now t
          | Some (OfRuns t) => RunsTabView now t
          | None => El "div" [] []
          end]]
  | failed, _ =>
    El "div" []
      [El "p" [] [Text (if failed then default [] (error s) else js "Dataset not found")];
       El "button" [On "click" Back] [txt "← Back"]]
  end.

Definition legal (o : op) (s : state) : Prop :=
  match o with
  | Mounted | SwitchProject _ => True
  | Tick dt => 0 <= dt
  | Poll => ∃ t due ids, the_runs s = Some t ∧ interval t = Some (due, ids) ∧ due <= clock s
  | _ => offers (DatasetDetail s) o
  end.
End views.
End page.
