(* ===== verification/DatasetDetailProps.v ===== *)
(** Theorems on the page of a dataset: the tabs, the dialog and the interval agree with
    what is shown; a run is started for an enabled rule; what goes wrong with late,
    failing and overlapping answers. *)
From S2P Require Import Prelude.
From S2P Require Import JsString.
From S2P Require Import JsNumber.
From S2P Require Import JsJson.
From S2P Require Import Formatters.
From S2P Require Import Ui.
From S2P Require Import Widgets.
From S2P Require Import FilterGroup.
From S2P Require Import DatasetDetail.
Local Open Scope Z_scope.

(** ** What is mounted *)

Definition tab_ok (s : state) : Prop := kind_of <$> shown s = if dataset_shown s then Some (activeTab s) else None.

(** The interval is there for the runs that are going on in the list. *)
Definition interval_ok (t : RunsTab) : Prop :=
  snd <$> interval t = match active_ids (runs t) with [] => None | ids => Some ids end.

Definition intervals_ok (s : state) : Prop := ∀ t, the_runs s = Some t → interval_ok t.

(** The dialog and the rows of results are there exactly if they are in view. *)
Record runs_ok (t : RunsTab) : Prop := {
  runs_ok_modal : is_Some (modal t) ↔ runs_shown t = true ∧ showNewRunModal t = true;
  runs_ok_rows : rows t = if runs_shown t then rows_there t else []
}.

Definition page_ok (s : state) : Prop := tab_ok s ∧ ∀ t, the_runs s = Some t → interval_ok t ∧ runs_ok t.

Definition modal_of (s : state) : option NewRunModal := t ← the_runs s; modal t.

Lemma the_runs_shown s t : the_runs s = Some t ↔ shown s = Some (OfRuns t).
Proof. unfold the_runs. destruct (shown s) as [[]|]; split; intros; by simplify_eq. Qed.

Lemma the_runs_set t s : the_runs (set_runs t s) = Some t.
Proof. done. Qed.

Lemma the_runs_in_runs n f s :
  the_runs (in_runs n f s) = (λ t, if bool_decide (runs_number t = n) then f t else t) <$> the_runs s.
Proof. unfold the_runs, in_runs. simpl. by destruct (shown s) as [[]|]. Qed.

Lemma the_runs_in_items n f s : the_runs (in_items n f s) = the_runs s.
Proof. unfold the_runs, in_items. simpl. by destruct (shown s) as [[]|]. Qed.

Lemma the_runs_in_modal n f s :
  the_runs (in_modal n f s) = (λ t, t <| modal ::= fmap (λ m, if bool_decide (modal_number m = n) then f m else m) |>) <$> the_runs s.
Proof. unfold the_runs, in_modal. simpl. by destruct (shown s) as [[]|]. Qed.

Lemma modal_of_in_modal n f s :
  modal_of (in_modal n f s) = (λ m, if bool_decide (modal_number m = n) then f m else m) <$> modal_of s.
Proof. unfold modal_of. rewrite the_runs_in_modal. by destruct (the_runs s). Qed.

(** Updates inside the tabs keep the tab. *)
Lemma tab_in_runs n f s : tab_ok s → tab_ok (in_runs n f s).
Proof. intros E. transitivity (kind_of <$> shown s); [by unfold in_runs; simpl; destruct (shown s) as [[]|]|exact E]. Qed.

Lemma tab_in_items n f s : tab_ok s → tab_ok (in_items n f s).
Proof. intros E. transitivity (kind_of <$> shown s); [by unfold in_items; simpl; destruct (shown s) as [[]|]|exact E]. Qed.

Lemma tab_in_modal n f s : tab_ok s → tab_ok (in_modal n f s).
Proof. intros E. transitivity (kind_of <$> shown s); [by unfold in_modal; simpl; destruct (shown s) as [[]|]|exact E]. Qed.

Lemma page_in_items n f s : page_ok s → page_ok (in_items n f s).
Proof. intros [H1 H2]. split; [by apply tab_in_items|]. by rewrite the_runs_in_items. Qed.

Lemma page_in_modal n f s : page_ok s → page_ok (in_modal n f s).
Proof.
  intros [H1 H2]. split; [by apply tab_in_modal|]. intros t. rewrite the_runs_in_modal.
  destruct (the_runs s) as [t'|]; [|done]. intros [= <-]. destruct (H2 t' eq_refl) as [Hi [Hm Hr]].
  split; [done|]. split; [|done]. simpl. rewrite fmap_is_Some. exact Hm.
Qed.

Lemma interval_polled t now l e : interval_ok (t <| runs := l |> <| runs_error := e |> <| interval := polled now l |>).
Proof. unfold interval_ok, polled. simpl. by destruct (active_ids l). Qed.

Section page.
Context (datasetId : jsstr).

Abbreviation render_ := (render datasetId).

Lemma rows_there_idem t l : l = rows_there t → rows_there (t <| rows := l |>) = l.
Proof. intros ->. unfold rows_there. simpl. rewrite list_filter_filter. apply list_filter_iff. intros [id i]. tauto. Qed.

Lemma runs_ok_hidden t : runs_shown t = false → runs_ok (t <| modal := None |> <| rows := [] |>).
Proof.
  intros Hs. assert (runs_shown (t <| modal := None |> <| rows := [] |>) = false) as Hs' by exact Hs.
  split; rewrite Hs'; [|done]. split; [by intros [??]|by intros [??]].
Qed.

Lemma runs_ok_visible t m :
  runs_shown t = true → (is_Some m ↔ showNewRunModal t = true) → runs_ok (t <| rows := rows_there t |> <| modal := m |>).
Proof.
  intros Hs Hm. assert (runs_shown (t <| rows := rows_there t |> <| modal := m |>) = true) as Hs' by exact Hs.
  split; rewrite Hs'; simpl; [tauto|]. symmetry. by apply rows_there_idem.
Qed.

Lemma set_same_modal t : t <| modal := modal t |> = t.
Proof. by destruct t. Qed.

(** Rendering the runs' tab brings dialog and rows into line. *)
Lemma render_runs_ok s : tab_ok s → intervals_ok s → page_ok (render_runs s).1.
Proof.
  intros Ht Hi. unfold render_runs. destruct (the_runs s) as [t|] eqn:E; [|split; [done|]; intros t; simpl; by rewrite E].
  assert (interval_ok t) as Hit by by apply Hi. apply the_runs_shown in E. unfold tab_ok in Ht. rewrite E in Ht.
  assert (∀ t' n, interval_ok t' → runs_ok t' → page_ok (set_runs t' s <| mounts ::= n |>)) as Hset.
  { intros t' n H1 H2. split; [exact Ht|]. by intros t'' [= <-]. }
  assert (∀ t', interval_ok t' → runs_ok t' → page_ok (set_runs t' s)) as Hset'.
  { intros t' H1 H2. split; [exact Ht|]. by intros t'' [= <-]. }
  destruct (runs_shown t) eqn:Ev; cbn [negb].
  - cbv zeta. change (showNewRunModal (t <| rows := rows_there t |>)) with (showNewRunModal t).
    change (modal (t <| rows := rows_there t |>)) with (modal t).
    destruct (showNewRunModal t) eqn:En; cbn [fst Ui.now].
    + destruct (modal t) as [m|] eqn:Em; cbn [fst Ui.now fetchRules].
      * apply Hset'; [done|]. rewrite <- (set_same_modal (t <| rows := _ |>)). apply runs_ok_visible; [done|].
        rewrite En. simpl. rewrite Em. by split; [|by eexists].
      * apply Hset; [done|]. apply runs_ok_visible; [done|]. rewrite En. by split; [|by eexists].
    + apply Hset'; [done|]. apply runs_ok_visible; [done|]. rewrite En. split; [by intros [??]|done].
  - apply Hset'; [done|]. by apply runs_ok_hidden.
Qed.

(** ** The programs that wait, and the dialog

    A program that waits is tagged with the dialog whose rules it loads. *)

Definition tag : Type := option nat.

Definition rules_program (n : nat) (p : jsstr) : program state :=
  Fetch (option (list EvalRule)) (rules_request p) (λ a s, now (rules_answer n a s)).

Definition status_resume (n : nat) (p : jsstr) (ids : list jsstr) (a : answer jsstr) (s : state) : outcome state :=
  match ok_body a with
  | Some st =>
    if bool_decide (st = js "running") then poll_loop datasetId n p ids s else
    (s, [Fetch (option (list RunListItem)) (runs_request datasetId p) (λ a s,
           let '(s, ps) := render_runs (runs_answer n a s) in
           let '(s, qs) := poll_loop datasetId n p ids s in
           (s, ps ++ qs))])
  | None => poll_loop datasetId n p ids s
  end.

(** The other programs. *)
Inductive plain : program state → Prop :=
| plain_items q n : plain (Fetch _ q (λ a s, now (items_answer n a s)))
| plain_runs q n : plain (Fetch _ q (λ a s, render_runs (runs_answer n a s)))
| plain_dataset q : plain (Fetch _ q (λ a s, after_render datasetId (now (dataset_answer a s))))
| plain_detail q n id next : plain (Fetch _ q (λ a s, render_runs (detail_answer n id next a s)))
| plain_status q n p ids : plain (Fetch _ q (status_resume n p ids))
| plain_polled q n p ids :
    plain (Fetch _ q (λ a s,
      let '(s, ps) := render_runs (runs_answer n a s) in
      let '(s, qs) := poll_loop datasetId n p ids s in
      (s, ps ++ qs)))
| plain_run q n m p : plain (Fetch _ q (run_answer datasetId n m p)).

Definition tagged (p : program state) (t : tag) : Prop :=
  match t with Some n => ∃ q, p = rules_program n q | None => plain p end.

Definition count (n : nat) (ts : list tag) : nat := length (filter (λ t, t = Some n) ts).
Definition below (k : nat) (ts : list tag) : Prop := Forall (λ t, match t with Some n => (n < k)%nat | None => True end) ts.

Lemma count_app n ts ts' : count n (ts ++ ts') = (count n ts + count n ts')%nat.
Proof. unfold count. by rewrite filter_app, length_app. Qed.

Lemma count_cons n n' ts : count n (Some n' :: ts) = if decide (n' = n) then S (count n ts) else count n ts.
Proof. unfold count. destruct (decide (n' = n)) as [->|Hn]; [by rewrite filter_cons_True|by rewrite filter_cons_False by congruence]. Qed.

Lemma count_below k n ts : below k ts → (k <= n)%nat → count n ts = 0%nat.
Proof.
  intros Hb Hn. unfold count. induction Hb as [|t ts Ht Hb IH]; [done|].
  rewrite filter_cons_False; [done|]. intros ->. lia.
Qed.

Lemma below_le k k' ts : (k <= k')%nat → below k ts → below k' ts.
Proof. intros Hk H. eapply Forall_impl; [exact H|]. intros [n|]; [lia|done]. Qed.

(** The dialog is gone, or the same as far as its rules are concerned. *)
Definition alike (o o' : option NewRunModal) : Prop :=
  ∀ m', o' = Some m' → ∃ m, o = Some m ∧ modal_number m' = modal_number m ∧ rules m' = rules m
    ∧ rules_loading m' = rules_loading m ∧ selectedRuleId m' = selectedRuleId m.

#[local] Instance alike_preorder : PreOrder alike.
Proof.
  split; [by intros o m ->; exists m|]. intros o o' o'' H1 H2 m'' (m' & (m & -> & E1 & E2 & E3 & E4)%H1 & F1 & F2 & F3 & F4)%H2.
  exists m. by rewrite F1, F2, F3, F4.
Qed.

Definition fresh (m : NewRunModal) : Prop := rules m = [] ∧ rules_loading m = true ∧ selectedRuleId m = [].

(** What a handler does to the dialog, and the requests it makes. *)
Definition moved (s : state) (c : outcome state) : Prop :=
  ∃ ts, Forall2 tagged c.2 ts ∧ below (mounts c.1) ts ∧ (mounts s <= mounts c.1)%nat
  ∧ (alike (modal_of s) (modal_of c.1) ∧ (∀ m, modal_of c.1 = Some m → count (modal_number m) ts = 0%nat)
     ∨ ∃ m, modal_of c.1 = Some m ∧ fresh m ∧ (mounts s <= modal_number m < mounts c.1)%nat
            ∧ (count (modal_number m) ts <= 1)%nat).

(** The dialog's rules: at most one answer is waited for, before there are any. *)
Definition modal_ok (s : state) (ts : list tag) : Prop :=
  ∀ m, modal_of s = Some m →
    (modal_number m < mounts s)%nat ∧ (count (modal_number m) ts <= if rules_loading m then 1 else 0)%nat
    ∧ (rules_loading m = true → rules m = [] ∧ selectedRuleId m = [])
    ∧ Forall (λ r, enabled r = true) (rules m)
    ∧ (selectedRuleId m = [] ∨ selectedRuleId m ∈ rule_id <$> rules m).

Definition linked (s : state) (ps : list (program state)) (ts : list tag) : Prop :=
  Forall2 tagged ps ts ∧ below (mounts s) ts ∧ modal_ok s ts.

Lemma moved_same s : moved s (s, []).
Proof. exists []. split_and!; [constructor|constructor|done|]. left. by split. Qed.

Lemma moved_trans s c c' : moved s c → moved c.1 c' → moved s (c'.1, c.2 ++ c'.2).
Proof.
  intros (ts & T1 & B1 & M1 & H1) (ts' & T2 & B2 & M2 & H2). exists (ts ++ ts'). cbn [fst snd].
  split_and!; [by apply Forall2_app|by apply Forall_app; split; [eapply below_le|]|lia|].
  destruct H2 as [[A2 C2]|(m & E2 & F2 & N2 & C2)].
  - destruct H1 as [[A1 C1]|(m & E1 & F1 & N1 & C1)].
    + left. split; [by etrans|]. intros m' Em'. destruct (A2 m' Em') as (m & Em & En & _).
      rewrite count_app, C2 by done. rewrite En. by rewrite (C1 m Em).
    + destruct (modal_of c'.1) as [m'|] eqn:Em'; [right|left; split; [by intros ?|done]]. exists m'. split; [done|].
      destruct (A2 m' eq_refl) as (m0 & Em & En & Er & El & Es). rewrite E1 in Em. injection Em as <-.
      unfold fresh in *. rewrite count_app, C2, En, Er, El, Es by done. split_and!; [tauto..|lia|lia|lia].
  - right. exists m. split_and!; [done|done|lia|lia|]. rewrite count_app, (count_below (mounts c.1) _ ts) by (done || lia). lia.
Qed.

Lemma moved_plain s s' ns :
  Forall plain ns → (mounts s <= mounts s')%nat → alike (modal_of s) (modal_of s') → moved s (s', ns).
Proof.
  intros Hp Hm Ha. exists (replicate (length ns) None). cbn [fst snd].
  assert (∀ n, count n (replicate (length ns) None) = 0%nat) as Hc.
  { intros n. unfold count. clear. induction (length ns) as [|k IH]; [done|]. cbn [replicate]. by rewrite filter_cons_False. }
  split_and!; [|by apply Forall_replicate|done|left; by split].
  clear -Hp. induction Hp; simpl; by constructor.
Qed.

Lemma linked_moved s c ps qs ts :
  linked s (ps ++ qs) ts → moved s c → ∃ ts', linked c.1 (ps ++ c.2 ++ qs) ts'.
Proof.
  intros (T1 & B1 & H1) (ns & T2 & B2 & M2 & H2). apply Forall2_app_inv_l in T1 as (ts1 & ts2 & Ta & Tb & ->).
  exists (ts1 ++ ns ++ ts2). split; [by repeat apply Forall2_app|].
  apply Forall_app in B1 as [Ba Bb]. split; [repeat apply Forall_app_2; [by eapply below_le|done|by eapply below_le]|].
  intros m' Em'. rewrite !count_app.
  destruct H2 as [[A2 C2]|(m & E2 & (F1 & F2 & F3) & N2 & C2)].
  - destruct (A2 m' Em') as (m & Em & En & Er & El & Es). destruct (H1 m Em) as (G1 & G2 & G3 & G4 & G5).
    rewrite count_app in G2. rewrite (C2 m' Em'). rewrite En, Er, El, Es. split_and!; [lia|lia|done|done|done].
  - rewrite Em' in E2. injection E2 as <-. rewrite (count_below (mounts s) _ ts1), (count_below (mounts s) _ ts2) by (done || lia).
    rewrite F1, F2, F3. split_and!; [lia|lia|done|constructor|by left].
Qed.

(** ** Rendering and the handlers *)

Lemma alike_none o : alike o None.
Proof. by intros m. Qed.

Lemma alike_in_modal n f s :
  (∀ m, modal_number (f m) = modal_number m ∧ rules (f m) = rules m ∧ rules_loading (f m) = rules_loading m
        ∧ selectedRuleId (f m) = selectedRuleId m) →
  alike (modal_of s) (modal_of (in_modal n f s)).
Proof.
  intros Hf m'. rewrite modal_of_in_modal. destruct (modal_of s) as [m|]; [|done]. intros [= <-]. exists m. split; [done|].
  case_bool_decide; [apply Hf|done].
Qed.

Lemma modal_of_in_runs n f s : (∀ t, modal (f t) = modal t) → modal_of (in_runs n f s) = modal_of s.
Proof.
  intros Hf. unfold modal_of. rewrite the_runs_in_runs. destruct (the_runs s) as [t|]; [|done]. simpl.
  case_bool_decide; [apply Hf|done].
Qed.

Lemma render_runs_moved s : moved s (render_runs s).
Proof.
  unfold render_runs. destruct (the_runs s) as [t|] eqn:E; [|apply moved_same].
  destruct (runs_shown t); cbn [negb]; [|apply moved_plain; [constructor|simpl; lia|apply alike_none]].
  cbv zeta. change (showNewRunModal (t <| rows := rows_there t |>)) with (showNewRunModal t).
  change (modal (t <| rows := rows_there t |>)) with (modal t).
  destruct (showNewRunModal t); [|apply moved_plain; [constructor|simpl; lia|apply alike_none]].
  destruct (modal t) as [m|] eqn:Em.
  - apply moved_plain; [constructor|simpl; lia|]. unfold modal_of. rewrite E. simpl. rewrite Em. reflexivity.
  - exists [Some (mounts s)]. split_and!.
    + constructor; [by eexists|constructor].
    + constructor; [simpl; lia|constructor].
    + simpl. lia.
    + right. eexists. split; [done|]. simpl. split_and!; [by split_and!|lia|lia|].
      unfold count. rewrite filter_cons_True by done. simpl. lia.
Qed.

Lemma render_moved s : moved s (render_ s).
Proof.
  unfold render. destruct (dataset_shown s); cbn [negb]; [|apply moved_plain; [constructor|simpl; lia|apply alike_none]].
  case_bool_decide; [apply render_runs_moved|]. destruct (activeTab s).
  - cbv zeta. unfold fetchItems, in_items. apply moved_plain; [repeat constructor|simpl; lia|apply alike_none].
  - cbv zeta. unfold fetchRuns. apply moved_plain; [repeat constructor|simpl; lia|apply alike_none].
Qed.

Lemma render_ok s : intervals_ok s → page_ok (render_ s).1.
Proof.
  intros Hi. unfold render. destruct (dataset_shown s) eqn:Ed; cbn [negb].
  - case_bool_decide as Hk.
    + apply render_runs_ok; [|done]. unfold tab_ok. by rewrite Ed.
    + destruct (activeTab s) eqn:Ea.
      * split; [|done]. unfold tab_ok. simpl. change (dataset_shown _) with (dataset_shown s). by rewrite Ed, Ea.
      * split; [unfold tab_ok; simpl; change (dataset_shown _) with (dataset_shown s); by rewrite Ed, Ea|].
        intros t [= <-]. split; [done|]. split; [|done]. simpl. split; [by intros [??]|by intros [??]].
  - split; [|done]. unfold tab_ok. simpl. change (dataset_shown _) with (dataset_shown s). by rewrite Ed.
Qed.

Lemma after_render_moved s c : moved s c → moved s (after_render datasetId c).
Proof.
  intros Hm. unfold after_render. destruct c as [s1 ps]. pose proof (moved_trans _ _ _ Hm (render_moved s1)) as H.
  by destruct (render_ s1).
Qed.

Lemma after_render_ok c : intervals_ok c.1 → page_ok (after_render datasetId c).1.
Proof. intros Hi. unfold after_render. destruct c as [s ps]. pose proof (render_ok s Hi) as H. by destruct (render_ s). Qed.

Lemma poll_loop_spec n p ids s : (poll_loop datasetId n p ids s).1 = s ∧ Forall plain (poll_loop datasetId n p ids s).2.
Proof. destruct ids as [|id ids]; [by repeat constructor|]. split; [done|]. simpl. constructor; [apply plain_status|constructor]. Qed.

Lemma intervals_in_runs n f s : (∀ t, interval_ok t → interval_ok (f t)) → intervals_ok s → intervals_ok (in_runs n f s).
Proof.
  intros Hf Hi t. rewrite the_runs_in_runs. destruct (the_runs s) as [t'|] eqn:E; [|done]. intros [= <-].
  case_bool_decide; [apply Hf|]; by apply Hi.
Qed.

Lemma runs_answer_intervals n a s : intervals_ok s → intervals_ok (runs_answer n a s).
Proof.
  apply intervals_in_runs. intros t Ht. destruct (body_or_error _ a) as [l|m]; [|exact Ht].
  exact (interval_polled t (clock s) (default [] l) None).
Qed.

Lemma runs_answer_moved n a s : moved s (render_runs (runs_answer n a s)).
Proof.
  assert (moved s (now (runs_answer n a s))) as H1.
  { apply moved_plain; [constructor|simpl; lia|]. unfold runs_answer. rewrite modal_of_in_runs; [done|].
    intros t. by destruct (body_or_error _ a). }
  pose proof (moved_trans _ _ _ H1 (render_runs_moved _)) as H2. by destruct (render_runs _).
Qed.

Lemma set_runs_intervals t s : interval_ok t → intervals_ok (set_runs t s).
Proof. by intros Ht t' [= <-]. Qed.

Lemma modal_of_set t s : modal_of (set_runs t s) = modal t.
Proof. done. Qed.

Lemma the_runs_modal s t : the_runs s = Some t → modal_of s = modal t.
Proof. intros E. unfold modal_of. by rewrite E. Qed.

Lemma moved_set t t' s :
  the_runs s = Some t → alike (modal t) (modal t') → moved s (now (set_runs t' s)).
Proof. intros E Ha. apply moved_plain; [constructor|simpl; lia|]. by rewrite modal_of_set, (the_runs_modal s t E). Qed.

(** The effects of the components inside for another project. *)
Lemma inner_effects_moved s :
  (∀ m, modal_of s = Some m → (modal_number m < mounts s)%nat) →
  (∃ ts, Forall2 tagged (inner_effects datasetId s).2 ts ∧ below (mounts s) ts) ∧ mounts (inner_effects datasetId s).1 = mounts s.
Proof.
  intros Hm. unfold inner_effects. destruct (shown s) as [[t|t]|] eqn:E.
  - split; [|done]. exists [None]. split; [repeat constructor|repeat constructor].
  - assert (modal_of s = modal t) as Em by (apply the_runs_modal; by apply the_runs_shown).
    destruct (modal t) as [m|]; cbn.
    + split; [|done]. exists [Some (modal_number m); None]. split; [repeat constructor; by eexists|].
      constructor; [by apply Hm|]. repeat constructor.
    + split; [|done]. exists [None]. split; [repeat constructor|repeat constructor].
  - split; [|done]. exists []. by repeat constructor.
Qed.

(** Everything but the choice of a rule leaves the rules of a dialog alone. *)
Lemma handle_op_intervals o s : intervals_ok s → intervals_ok (handle_op datasetId o s).1.
Proof.
  intros Hi. assert (∀ f, (∀ t, interval_ok t → interval_ok (f t)) → intervals_ok (on_runs f s)) as Hon.
  { intros f Hf. unfold on_runs. destruct (the_runs s) as [t|] eqn:E; [|done]. by apply set_runs_intervals, Hf, Hi. }
  destruct o; cbn [handle_op fst Ui.now fetchDataset]; try exact Hi; try by apply Hon.
  - case_bool_decide; [done|]. unfold inner_effects. simpl. destruct (shown s) as [[t|t]|] eqn:E.
    + cbn. intros t'. unfold the_runs. simpl. by rewrite ?E.
    + assert (interval_ok t) as Ht by by apply Hi, the_runs_shown.
      destruct (modal t); cbn; intros t'; unfold the_runs; simpl; rewrite ?E; by intros [= <-].
    + cbn. intros t'. unfold the_runs. simpl. by rewrite ?E.
  - unfold toggleRunExpand. destruct (the_runs s) as [t|] eqn:E; [|done]. pose proof (Hi t E) as Ht.
    case_bool_decide; [apply set_runs_intervals; exact Ht|].
    destruct (runDetails t !! id); [apply set_runs_intervals; exact Ht|done].
  - unfold handleRun. destruct (the_runs s) as [t|] eqn:E; [|done]. destruct (modal t) as [m|]; [|done].
    destruct (negb (truthy (selectedRuleId m))); [done|]. cbn [fst]. intros t'. rewrite the_runs_in_modal, E. intros [= <-].
    exact (Hi t E).
  - unfold poll. destruct (the_runs s) as [t|] eqn:E; [|done]. destruct (interval t) as [[due ids]|] eqn:Ei; [|done].
    rewrite (proj1 (poll_loop_spec _ _ _ _)). apply set_runs_intervals. pose proof (Hi t E) as Ht. unfold interval_ok in *.
    simpl. by rewrite Ei in Ht.
Qed.

Lemma handle_op_moved o s :
  (∀ m, modal_of s = Some m → (modal_number m < mounts s)%nat) → (∀ id, o ≠ SelectRule id) →
  moved s (after_render datasetId (handle_op datasetId o s)).
Proof.
  intros Hm Ho. assert (∀ f, (∀ t, modal (f t) = modal t) → moved s (now (on_runs f s))) as Hon.
  { intros f Hf. unfold on_runs. destruct (the_runs s) as [t|] eqn:E; [|apply moved_same].
    apply (moved_set t); [done|]. rewrite Hf. reflexivity. }
  assert (∀ s', mounts s' = mounts s → shown s' = shown s → moved s (now s')) as Hsame.
  { intros s' E1 E2. apply moved_plain; [constructor|lia|]. unfold modal_of, the_runs. by rewrite E2. }
  destruct o as [|p|k| |id|id i| | |id| |dt|]; cbn [handle_op].
  - apply after_render_moved. apply moved_plain; [repeat constructor|simpl; lia|]. reflexivity.
  - case_bool_decide; [by apply after_render_moved, Hsame|].
    match goal with |- context [inner_effects datasetId ?x] =>
      destruct (inner_effects_moved x Hm) as [(ts & T1 & B1) M1]; destruct (inner_effects datasetId x) as [s1 ns] end.
    cbn [fst snd] in T1, M1.
    unfold fetchDataset, after_render, render. cbn. rewrite app_nil_r.
    exists (ts ++ [None]). cbn [fst snd]. split_and!.
    + apply Forall2_app; [done|]. repeat constructor.
    + apply Forall_app_2; [|repeat constructor]. simpl. by rewrite M1.
    + simpl. by rewrite M1.
    + left. split; [apply alike_none|done].
  - by apply after_render_moved, Hsame.
  - by apply after_render_moved, Hsame.
  - apply after_render_moved. unfold toggleRunExpand. destruct (the_runs s) as [t|] eqn:E; [|apply moved_same].
    case_bool_decide; [by apply (moved_set t)|]. destruct (runDetails t !! id); [by apply (moved_set t)|].
    apply moved_plain; [repeat constructor|lia|reflexivity].
  - by apply after_render_moved, Hon.
  - by apply after_render_moved, Hon.
  - by apply after_render_moved, Hon.
  - by destruct (Ho id).
  - apply after_render_moved. unfold handleRun. destruct (the_runs s) as [t|]; [|apply moved_same].
    destruct (modal t) as [m|]; [|apply moved_same]. destruct (negb (truthy (selectedRuleId m))); [apply moved_same|].
    apply moved_plain; [repeat constructor|simpl; lia|]. by apply alike_in_modal.
  - by apply after_render_moved, Hsame.
  - apply after_render_moved. unfold poll. destruct (the_runs s) as [t|] eqn:E; [|apply moved_same].
    destruct (interval t) as [[due ids]|]; [|apply moved_same].
    destruct (poll_loop_spec (runs_number t) (activeProject s) ids (set_runs (t <| interval := Some (clock s + 3000, ids) |>) s)) as [P1 P2].
    destruct (poll_loop _ _ _ _ _) as [s1 ns]. simpl in P1. subst s1.
    apply moved_plain; [done|simpl; lia|]. by rewrite modal_of_set, (the_runs_modal s t E).
Qed.

(** ** What the page offers *)

Section offered.
Context `{DateHost}.

(** A rule is chosen and a run started in the dialog only. *)
Definition allowed (s : state) (o : op) : Prop :=
  match o with
  | StartRun => ∃ t m, the_runs s = Some t ∧ modal t = Some m ∧ truthy (selectedRuleId m) = true ∧ running m = false
  | SelectRule id => ∃ t m, the_runs s = Some t ∧ modal t = Some m ∧ rules_loading m = false ∧ id ∈ rule_id <$> rules m
  | _ => True
  end.

Lemma emits_imap {A B} (P : A → Prop) (f : nat → B → view A) l : (∀ i x, emits P (f i x)) → Forall (emits P) (imap f l).
Proof.
  intros Hf. apply Forall_lookup. intros i v. rewrite list_lookup_imap. destruct (l !! i); [|done]. by intros [= <-].
Qed.

Lemma modal_emits s t m : the_runs s = Some t → modal t = Some m → emits (allowed s) (ModalView m).
Proof.
  intros Et Em. unfold ModalView, Spinner. apply emits_el; [by repeat constructor|]. constructor; [|constructor].
  apply emits_el; [constructor|]. apply Forall_app_2.
  - constructor; [by emit|]. constructor; [|constructor]. apply emits_el; [constructor|].
    destruct (rules_loading m) eqn:El; [by emit|]. case_bool_decide; [by emit|].
    constructor; [|by emit]. apply emits_el; [constructor|]. constructor; [by emit|]. constructor; [|constructor].
    unfold Select. apply emits_el; [by repeat constructor|]. apply emits_map. intros [v l] Hv. apply emits_el; [|by emit].
    constructor; [done|]. constructor; [|constructor]. exists t, m. split_and!; [done..|].
    apply list_elem_of_fmap in Hv as (r & [= -> ->] & Hr). by apply list_elem_of_fmap_2.
  - apply emits_when. intros _. apply emits_el; [constructor|]. constructor; [by emit|]. constructor; [|constructor].
    destruct (negb (truthy (selectedRuleId m)) || running m) eqn:E.
    + apply emits_disabled; [done|by repeat constructor|by emit].
    + apply orb_false_iff in E as [E1 E2]. apply negb_false_iff in E1.
      apply emits_el; [|by emit]. constructor; [by exists t, m|]. by repeat constructor.
Qed.

Lemma page_emits s : emits (allowed s) (DatasetDetail s).
Proof.
  unfold DatasetDetail, Spinner. destruct (loading s); [by emit|]. destruct (truthy_opt (error s)); [by emit|].
  destruct (dataset s) as [d|]; [|by emit].
  apply emits_el; [constructor|]. constructor; [unfold Breadcrumb, BreadcrumbButton; simpl; by emit|]. constructor; [by emit|]. constructor; [|constructor].
  apply emits_el; [constructor|]. constructor; [|constructor]. destruct (shown s) as [[t|t]|] eqn:E; [| |by emit].
  - unfold ItemsTabView, failure, Spinner. emit. apply emits_imap. intros i x. unfold ItemView. by emit.
  - unfold RunsTabView, Spinner. destruct (runs_loading t); [by emit|]. destruct (truthy_opt (runs_error t)); [by unfold failure; emit|].
    apply emits_el; [constructor|]. apply Forall_app_2.
    + unfold RunRow, StatusBadge, mean_text, Spinner. emit. apply emits_imap. intros i x. unfold ItemResultRow. by emit.
    + apply emits_when_some. intros m Em. apply (modal_emits s t); [by apply the_runs_shown|done].
Qed.

Lemma legal_allowed o s : legal o s → allowed s o.
Proof. intros Hl. destruct o; try done; by apply (page_emits s). Qed.
End offered.

(** ** Reachable states *)

Section reachable.
Context `{DateHost}.

Definition waiting (c : outcome state) : Prop := page_ok c.1 ∧ ∃ ts, linked c.1 c.2 ts.

Lemma page_intervals s : page_ok s → intervals_ok s.
Proof. intros [_ Hp] t Ht. by apply Hp. Qed.

Lemma linked_moved_end s c ps ts : linked s ps ts → moved s c → ∃ ts', linked c.1 (ps ++ c.2) ts'.
Proof.
  intros Hl Hm. destruct (linked_moved s c ps [] ts) as [ts' Hl']; [by rewrite app_nil_r|done|]. exists ts'.
  by rewrite app_nil_r in Hl'.
Qed.

(** Choosing one of the rules. *)
Lemma select_linked id s ps ts :
  linked s ps ts → allowed s (SelectRule id) → linked (handle_op datasetId (SelectRule id) s).1 ps ts.
Proof.
  intros (T1 & B1 & H1) (t & m & Et & Em & El & Hin). split; [done|]. cbn [handle_op fst Ui.now]. unfold on_runs. rewrite Et.
  split; [done|]. intros m'. rewrite modal_of_set. simpl. rewrite Em. intros [= <-].
  destruct (H1 m) as (G1 & G2 & G3 & G4 & G5); [unfold modal_of; by rewrite Et|]. simpl. rewrite El in *.
  split_and!; [done|done|done|done|by right].
Qed.

Lemma event_waiting o s ps :
  legal o s → waiting (s, ps) → waiting ((handle datasetId o s).1, ps ++ (handle datasetId o s).2).
Proof.
  intros Hl [Hp [ts Hk]]. cbn [fst snd] in *. split; cbn [fst snd].
  - apply after_render_ok, handle_op_intervals, page_intervals, Hp.
  - assert (∀ m, modal_of s = Some m → (modal_number m < mounts s)%nat) as Hm by (intros m Em; by apply Hk).
    unfold handle. destruct o as [|p|k| |id|id i| | |id| |dt|].
    9: { pose proof (select_linked id s ps ts Hk (legal_allowed _ _ Hl)) as Hk'. unfold after_render.
         destruct (handle_op datasetId (SelectRule id) s) as [s1 qs] eqn:E. cbn [handle_op Ui.now] in E. injection E as <- <-.
         pose proof (linked_moved_end _ _ _ _ Hk' (render_moved _)) as Hr. by destruct (render_ _). }
    all: by eapply linked_moved_end, handle_op_moved.
Qed.

Lemma moved_then s s1 c : moved s (now s1) → moved s1 c → moved s c.
Proof. intros H1 H2. pose proof (moved_trans _ _ _ H1 H2) as H3. by destruct c. Qed.

Lemma moved_with s c ns : moved s c → Forall plain ns → moved s (c.1, c.2 ++ ns).
Proof. intros Hm Hn. apply (moved_trans s c (c.1, ns) Hm). apply moved_plain; [done|simpl; lia|reflexivity]. Qed.

Lemma in_runs_moved n f s : (∀ t, modal (f t) = modal t) → moved s (now (in_runs n f s)).
Proof. intros Hf. apply moved_plain; [constructor|simpl; lia|]. by rewrite modal_of_in_runs. Qed.

Lemma in_modal_moved n f s :
  (∀ m, modal_number (f m) = modal_number m ∧ rules (f m) = rules m ∧ rules_loading (f m) = rules_loading m
        ∧ selectedRuleId (f m) = selectedRuleId m) →
  moved s (now (in_modal n f s)).
Proof. intros Hf. apply moved_plain; [constructor|simpl; lia|]. by apply alike_in_modal. Qed.

(** The answer to a program other than that of a dialog's rules. *)
Lemma plain_answer p s c : plain p → answered p s c → page_ok s → moved s c ∧ page_ok c.1.
Proof.
  intros Hp Ha Hok. pose proof (page_intervals s Hok) as Hi. destruct Hok as [Ht Hr].
  destruct Hp as [q n|q n|q|q n id next|q n p ids|q n p ids|q n m p]; destruct Ha as [a ->].
  - split; [|by apply page_in_items]. apply moved_plain; [constructor|simpl; lia|].
    unfold modal_of, items_answer. rewrite the_runs_in_items. reflexivity.
  - split; [apply runs_answer_moved|]. apply render_runs_ok; [by apply tab_in_runs|by apply runs_answer_intervals].
  - assert (shown (dataset_answer a s) = shown s ∧ mounts (dataset_answer a s) = mounts s) as [E1 E2].
    { unfold dataset_answer. by destruct (body_or_error _ a). }
    split; [|apply after_render_ok; intros t; unfold the_runs; cbn [fst Ui.now]; rewrite E1; apply Hi].
    apply after_render_moved, moved_plain; [constructor|lia|]. unfold modal_of, the_runs. by rewrite E1.
  - assert (∀ t, modal (match body_or_error [] a with Ok d => t <| runDetails ::= <[id := d]> |> | Err _ => t end
                         <| expandedRuns := next |>) = modal t) as Hf by (intros t; by destruct (body_or_error [] a)).
    split; [exact (moved_then _ _ _ (in_runs_moved n _ s Hf) (render_runs_moved _))|].
    apply render_runs_ok; [by apply tab_in_runs|]. apply intervals_in_runs; [|done]. intros t Hit. by destruct (body_or_error [] a).
  - unfold status_resume. destruct (ok_body a) as [st|]; [case_bool_decide|].
    2: { split; [by apply moved_plain; [repeat constructor|simpl; lia|]|by split]. }
    all: destruct (poll_loop_spec n p ids s) as [P1 P2]; destruct (poll_loop datasetId n p ids s) as [s' ns]; simpl in P1; subst s'.
    all: split; [by apply moved_plain; [done|lia|]|by split].
  - pose proof (runs_answer_moved n a s) as Hm.
    assert (page_ok (render_runs (runs_answer n a s)).1) as Hq by (apply render_runs_ok; [by apply tab_in_runs|by apply runs_answer_intervals]).
    destruct (render_runs (runs_answer n a s)) as [s1 ps1]. cbn [fst] in Hq.
    destruct (poll_loop_spec n p ids s1) as [P1 P2]. destruct (poll_loop datasetId n p ids s1) as [s2 ps2]. simpl in P1. subst s2.
    split; [|done]. exact (moved_with _ _ _ Hm P2).
  - assert (∀ e, moved s (now (in_modal m (λ m, m <| modal_error := Some e |> <| running := false |>) s))
              ∧ page_ok (in_modal m (λ m, m <| modal_error := Some e |> <| running := false |>) s)) as Hfail.
    { intros e. split; [by apply in_modal_moved|]. by apply page_in_modal. }
    unfold run_answer. cbv zeta. destruct a as [st text bd|msg]; [|apply Hfail]. destruct (ok_status st).
    + set (s1 := in_runs n _ s). assert (moved s (render_runs s1)) as Hm.
      { by refine (moved_then _ _ _ (in_runs_moved n _ s _) (render_runs_moved _)). }
      assert (page_ok (render_runs s1).1) as Hq.
      { apply render_runs_ok; [by apply tab_in_runs|]. by apply intervals_in_runs. }
      destruct (render_runs s1) as [s2 ps2]. cbn. split; [|done]. apply (moved_with _ _ _ Hm). repeat constructor.
    + destruct text as [t|e]; apply Hfail.
Qed.

(** The answer with the rules of a dialog. *)
Lemma rules_linked n q a s ps qs ts1 ts2 :
  Forall2 tagged ps ts1 → Forall2 tagged qs ts2 → linked s (ps ++ rules_program n q :: qs) (ts1 ++ Some n :: ts2) →
  linked (rules_answer n a s) (ps ++ qs) (ts1 ++ ts2).
Proof.
  intros T1 T2 (_ & B1 & H1). split; [by apply Forall2_app|]. apply Forall_app in B1 as [B1 B2]. apply Forall_cons in B2 as [_ B2].
  split; [by apply Forall_app|]. intros m' Em'. unfold rules_answer in Em'. rewrite modal_of_in_modal in Em'.
  destruct (modal_of s) as [m|] eqn:Em; [|done]. destruct (H1 m Em) as (G1 & G2 & G3 & G4 & G5).
  rewrite count_app in *. rewrite count_cons in G2. cbn [fmap option_fmap option_map] in Em'.
  change (mounts (rules_answer n a s)) with (mounts s). destruct (decide (modal_number m = n)) as [En|En].
  - rewrite bool_decide_true in Em' by done. subst n. rewrite decide_True in G2 by done.
    destruct (rules_loading m); [|lia]. destruct (G3 eq_refl) as [G3a G3b]. injection Em' as <-.
    assert (∀ m', rules m' = [] → selectedRuleId m' = [] → modal_number m' = modal_number m →
      (modal_number (m' <| rules_loading := false |>) < mounts s)%nat
      ∧ (count (modal_number (m' <| rules_loading := false |>)) ts1 + count (modal_number (m' <| rules_loading := false |>)) ts2
         <= if rules_loading (m' <| rules_loading := false |>) then 1 else 0)%nat
      ∧ (rules_loading (m' <| rules_loading := false |>) = true → rules (m' <| rules_loading := false |>) = []
         ∧ selectedRuleId (m' <| rules_loading := false |>) = [])
      ∧ Forall (λ r, enabled r = true) (rules (m' <| rules_loading := false |>))
      ∧ (selectedRuleId (m' <| rules_loading := false |>) = []
         ∨ selectedRuleId (m' <| rules_loading := false |>) ∈ rule_id <$> rules (m' <| rules_loading := false |>))) as Hnone.
    { intros m' E1 E2 E3. simpl. rewrite E1, E2, E3. split_and!; [done|lia|done|constructor|by left]. }
    destruct a as [st text [data|e]|e]; [|destruct (ok_status st); by apply Hnone|by apply Hnone].
    destruct (ok_status st); [|by apply Hnone].
    assert (Forall (λ r, enabled r = true) (filter (λ r, enabled r = true) (default [] data))) as Hall.
    { apply Forall_forall. by intros r [? _]%list_elem_of_filter. }
    destruct (filter _ (default [] data)) as [|r [|r' l]]; simpl; (split_and!; [done|lia|done|done|]).
    + by left.
    + right. by left.
    + by left.
  - rewrite bool_decide_false in Em' by done. injection Em' as <-. rewrite decide_False in G2 by congruence.
    split_and!; done.
Qed.

Lemma step_waiting c c' : waiting c → step legal (handle datasetId) c c' → waiting c'.
Proof.
  destruct c as [s ps]. intros Hw [(o & Hl & ->)|(ps1 & p & qs & d & Eps & Ha & ->)]%step_inv; [by apply event_waiting|].
  destruct Hw as [Hok [ts Hk]]. cbn [fst snd] in *. subst ps.
  pose proof (proj1 Hk) as T. apply Forall2_app_inv_l in T as (ts1 & ts2' & T1 & T2 & ->).
  apply Forall2_cons_inv_l in T2 as (t & ts2 & Ht & T2 & ->). destruct t as [n|].
  - destruct Ht as [q ->]. destruct Ha as [a ->]. split; [by apply page_in_modal|]. exists (ts1 ++ ts2).
    by eapply rules_linked.
  - destruct (plain_answer p s d Ht Ha Hok) as [Hm Hq]. split; [done|].
    assert (linked s (ps1 ++ qs) (ts1 ++ ts2)) as Hk'.
    { destruct Hk as (_ & B1 & H1). apply Forall_app in B1 as [B1 B2]. apply Forall_cons in B2 as [_ B2].
      split; [by apply Forall2_app|]. split; [by apply Forall_app|]. intros m Em. destruct (H1 m Em) as (G1 & G2 & G3).
      split; [done|]. split; [|done]. rewrite count_app in *. exact G2. }
    by destruct (linked_moved s d ps1 qs _ Hk' Hm) as [ts' ?]; exists ts'.
Qed.

Lemma detail_waiting p now c : reachable legal (handle datasetId) (initial p now) c → waiting c.
Proof.
  apply (reachable_ind _ _ waiting); [|apply step_waiting]. split; [by split|]. exists []. split_and!; [constructor|constructor|done].
Qed.

(** C35. In every reachable state the tab in view is that of the tab bar, and none while there
    is no dataset to show; the runs are polled exactly if one of them is going on, all
    those and in the order of the list; the dialog is there exactly while it was asked
    for and the list is in view; the rows of results that are open belong to open runs of
    the list and to items of theirs. *)
Theorem runs_polled p now s ps :
  reachable legal (handle datasetId) (initial p now) (s, ps) →
  kind_of <$> shown s = (if dataset_shown s then Some (activeTab s) else None)
  ∧ ∀ t, the_runs s = Some t →
      snd <$> interval t = (match active_ids (runs t) with [] => None | ids => Some ids end)
      ∧ (is_Some (modal t) ↔ runs_shown t = true ∧ showNewRunModal t = true)
      ∧ ∀ id i, (id, i) ∈ rows t →
          id ∈ run_id <$> runs t ∧ id ∈ expandedRuns t ∧ ∃ items, runDetails t !! id = Some items ∧ (i < length items)%nat.
Proof.
  intros [[Ht Hr] _]%detail_waiting. split; [exact Ht|]. intros t Et. destruct (Hr t Et) as [Hi [Hm Hrows]].
  split; [exact Hi|]. split; [exact Hm|]. intros id i. rewrite Hrows. destruct (runs_shown t); [|by intros ?%not_elem_of_nil].
  intros [(H1 & H2 & H3) _]%list_elem_of_filter. split_and!; [done|done|].
  destruct (runDetails t !! id) as [l|]; [by exists l|simpl in H3; lia].
Qed.

(** C17. In every reachable state a run is started, when the button can be pressed, with one
    request for a rule that the list of rules had as enabled. *)
Theorem run_of_enabled_rule p now s ps :
  reachable legal (handle datasetId) (initial p now) (s, ps) → legal StartRun s →
  ∃ t m r q resume, the_runs s = Some t ∧ modal t = Some m ∧ r ∈ rules m ∧ enabled r = true ∧ truthy (rule_id r) = true
    ∧ (handle_op datasetId StartRun s).2 = [Fetch unit q resume]
    ∧ q = send_json "POST" (js "/api/v1/datasets/" ++ datasetId ++ js "/runs") (JObj [(js "eval_rule_id", JStr (rule_id r))]).
Proof.
  intros [_ [ts (_ & _ & Hm)]]%detail_waiting (t & m & Et & Em & Es & Er)%legal_allowed.
  assert (modal_of s = Some m) as Eo by by rewrite (the_runs_modal s t Et).
  destruct (Hm m Eo) as (_ & _ & _ & G4 & G5).
  destruct G5 as [G5|(r & E & Hin)%list_elem_of_fmap]; [by rewrite G5 in Es|].
  rewrite Forall_forall in G4. exists t, m, r. do 2 eexists. cbn [handle_op]. unfold handleRun. rewrite Et, Em, Es. cbn [negb].
  split_and!; [done|done|done|by apply G4|by rewrite <- E|done|]. unfold dataset_url. by rewrite <- E, <- app_assoc.
Qed.
End reachable.

(** ** Rendering again changes nothing *)

Lemma set_runs_same t s : the_runs s = Some t → set_runs t s = s.
Proof. intros E%the_runs_shown. destruct s. simpl in E. by subst. Qed.

Lemma render_runs_idle s : page_ok s → render_runs s = (s, []).
Proof.
  intros [_ Hp]. unfold render_runs. destruct (the_runs s) as [t|] eqn:E; [|done]. destruct (Hp t eq_refl) as [_ [Hm Hr]].
  destruct (runs_shown t) eqn:Ev; cbn [negb].
  - assert (t <| rows := rows_there t |> = t) as Et by (rewrite <- Hr; by destruct t). rewrite Et. cbv zeta.
    destruct (showNewRunModal t) eqn:En.
    + destruct (proj2 Hm (conj eq_refl eq_refl)) as [m Em]. rewrite Em. unfold Ui.now. by rewrite set_runs_same.
    + assert (modal t = None) as Em by (destruct (modal t); [|done]; by destruct (proj1 Hm ltac:(by eexists))).
      rewrite <- Em, set_same_modal. unfold Ui.now. by rewrite set_runs_same.
  - assert (modal t = None) as Em by (destruct (modal t); [|done]; by destruct (proj1 Hm ltac:(by eexists))).
    assert (t <| modal := None |> <| rows := [] |> = t) as Et by (rewrite <- Em, <- Hr; by destruct t).
    rewrite Et. unfold Ui.now. by rewrite set_runs_same.
Qed.

Lemma render_idle s : page_ok s → render_ s = (s, []).
Proof.
  intros Hp. pose proof (proj1 Hp) as Ht. unfold render, tab_ok in *. destruct (dataset_shown s); cbn [negb].
  - rewrite bool_decide_true by done. by apply render_runs_idle.
  - apply fmap_None in Ht. unfold Ui.now. do 2 f_equal. destruct s. simpl in Ht. by subst.
Qed.

Lemma handle_idle o s s' ps : handle_op datasetId o s = (s', ps) → page_ok s' → handle datasetId o s = (s', ps).
Proof. intros E Hp. unfold handle, after_render. rewrite E, (render_idle s' Hp). by rewrite app_nil_r. Qed.

(** Rendering the list of runs keeps what is known of them. *)
Lemma render_runs_keeps s t :
  the_runs s = Some t →
  ∃ t', the_runs (render_runs s).1 = Some t' ∧ runs_number t' = runs_number t ∧ runs t' = runs t ∧ runDetails t' = runDetails t
    ∧ expandedRuns t' = expandedRuns t ∧ interval t' = interval t ∧ runs_loading t' = runs_loading t ∧ runs_error t' = runs_error t.
Proof.
  intros E. unfold render_runs. rewrite E. destruct (negb (runs_shown t)); [by eexists|]. cbv zeta.
  change (showNewRunModal (t <| rows := rows_there t |>)) with (showNewRunModal t).
  change (modal (t <| rows := rows_there t |>)) with (modal t).
  destruct (showNewRunModal t); [destruct (modal t)|]; by eexists.
Qed.

(** ** What goes wrong *)

Section behaviours.
Context `{DateHost}.

Definition request_of {S} (p : program S) : request := match p with Fetch _ q _ => q end.

(** Two runs opened before the first one's items have arrived: the set that the second
    click began with is written last, so the first run is closed again. *)
Theorem expanded_run_collapses s t id1 id2 :
  page_ok s → the_runs s = Some t → id1 ≠ id2 → id1 ∉ expandedRuns t → id2 ∉ expandedRuns t →
  runDetails t !! id1 = None → runDetails t !! id2 = None →
  let c1 := handle datasetId (ToggleRun id1) s in
  let c2 := handle datasetId (ToggleRun id2) c1.1 in
  ∃ r1 r2, c1.2 = [Fetch RunDetail (detail_request datasetId id1 (activeProject s)) r1]
    ∧ c2.2 = [Fetch RunDetail (detail_request datasetId id2 (activeProject s)) r2]
    ∧ ∀ st text d1 a2, ok_status st = true →
        let s' := (r2 a2 (r1 (Answer st text (Ok d1)) c2.1).1).1 in
        ∃ t', the_runs s' = Some t' ∧ expandedRuns t' = expandedRuns t ++ [id2] ∧ is_Some (runDetails t' !! id1).
Proof.
  intros Hok Et Hne N1 N2 D1 D2. cbv zeta.
  assert (∀ id, id ∉ expandedRuns t → runDetails t !! id = None → handle datasetId (ToggleRun id) s
    = (s, [Fetch RunDetail (detail_request datasetId id (activeProject s))
             (λ a s, render_runs (detail_answer (runs_number t) id (expandedRuns t ++ [id]) a s))])) as Hh.
  { intros id Ni Di. apply handle_idle; [|done]. cbn [handle_op]. unfold toggleRunExpand. rewrite Et.
    rewrite bool_decide_false by done. by rewrite Di. }
  rewrite (Hh id1) by done. cbn [fst snd]. rewrite (Hh id2) by done. cbn [fst snd]. do 2 eexists. split; [done|]. split; [done|].
  intros st text d1 a2 Hst. cbv zeta.
  assert (the_runs (detail_answer (runs_number t) id1 (expandedRuns t ++ [id1]) (Answer st text (Ok d1)) s)
    = Some (t <| runDetails ::= <[id1 := d1]> |> <| expandedRuns := expandedRuns t ++ [id1] |>)) as E1.
  { unfold detail_answer. rewrite the_runs_in_runs, Et. cbn. rewrite bool_decide_true by done. by rewrite Hst. }
  destruct (render_runs_keeps _ _ E1) as (t1 & T1 & N & _ & F1 & _).
  set (s1 := (render_runs (detail_answer _ id1 _ _ s)).1) in *.
  assert (∃ t2, the_runs (detail_answer (runs_number t) id2 (expandedRuns t ++ [id2]) a2 s1) = Some t2
    ∧ expandedRuns t2 = expandedRuns t ++ [id2] ∧ is_Some (runDetails t2 !! id1)) as (t2 & T2 & X2 & F2).
  { unfold detail_answer. rewrite the_runs_in_runs, T1. cbn. rewrite bool_decide_true by done. eexists. split; [done|].
    split; [done|]. assert (is_Some (runDetails t1 !! id1)) as Hs by (rewrite F1; cbn; rewrite lookup_insert_eq; by eexists).
    destruct (body_or_error [] a2); cbn; [|done]. by rewrite lookup_insert_ne. }
  destruct (render_runs_keeps _ _ T2) as (t3 & T3 & _ & _ & F3 & X3 & _). exists t3. by rewrite X3, F3.
Qed.

(** The interval does not wait for the polls before: as many polls as one likes can have
    their first request open at the same time. *)
Theorem polls_pile_up n s t due id ids ps :
  page_ok s → the_runs s = Some t → interval t = Some (due, id :: ids) → due <= clock s + 3000 →
  ∃ s' qs, rtc (step legal (handle datasetId)) (s, ps) (s', ps ++ qs) ∧ length qs = n
    ∧ Forall (λ p, request_of p = status_request datasetId id (activeProject s)) qs.
Proof.
  revert s t due ps. induction n as [|n IH]; intros s t due ps Hok Et Ei Hdue.
  { exists s, []. by rewrite app_nil_r. }
  set (s1 := s <| clock ::= Z.add 3000 |>). assert (page_ok s1) as Hok1 by exact Hok.
  assert (handle datasetId (Tick 3000) s = (s1, [])) as Ht by by apply handle_idle.
  set (t2 := t <| interval := Some (clock s1 + 3000, id :: ids) |>). set (s2 := set_runs t2 s1).
  assert (page_ok s2) as Hok2.
  { pose proof (proj1 Hok) as Htab. split.
    - unfold tab_ok in *. apply the_runs_shown in Et. by rewrite Et in Htab.
    - intros t' [= <-]. destruct (proj2 Hok t Et) as [Hi [Hm Hr]]. split; [|by split]. unfold interval_ok in *. by rewrite Ei in Hi. }
  assert (∃ q, handle datasetId Poll s1 = (s2, [q]) ∧ request_of q = status_request datasetId id (activeProject s)) as (q & Hp & Hq).
  { eexists. split; [apply handle_idle; [|done]|].
    - cbn [handle_op]. unfold poll. change (the_runs s1) with (the_runs s). rewrite Et, Ei. reflexivity.
    - reflexivity. }
  destruct (IH s2 t2 (clock s1 + 3000) (ps ++ [q]) Hok2 eq_refl eq_refl) as (s' & qs & Hr & Hl & Hf); [simpl; lia|].
  exists s', (q :: qs). rewrite <- app_assoc in Hr. split; [|split; [by rewrite <- Hl|by constructor]].
  eapply rtc_l; [exact (step_event legal (handle datasetId) (Tick 3000) s ps ltac:(simpl; lia))|]. rewrite Ht. cbn [fst snd].
  rewrite app_nil_r. eapply rtc_l; [apply (step_event legal (handle datasetId) Poll s1 ps)|rewrite Hp; exact Hr].
  exists t, due, (id :: ids). split; [exact Et|]. split; [done|]. simpl. lia.
Qed.

(** When the list of runs cannot be loaded again (after a poll, or after a run was
    started), the runs are kept but nothing of them is shown, and the tab offers nothing,
    not even to try again. *)
Theorem failed_refetch_blocks_tab s t a m :
  the_runs s = Some t → body_or_error (js "Failed to fetch runs") a = Err m → truthy m = true →
  ∃ t', the_runs (render_runs (runs_answer (runs_number t) a s)).1 = Some t' ∧ runs t' = runs t ∧ interval t' = interval t
    ∧ texts (RunsTabView (clock s) t') = [m] ∧ ∀ o, ¬ offers (RunsTabView (clock s) t') o.
Proof.
  intros Et Ha Hm.
  assert (the_runs (runs_answer (runs_number t) a s) = Some (t <| runs_error := Some m |> <| runs_loading := false |>)) as E.
  { unfold runs_answer. rewrite the_runs_in_runs, Et. cbn. rewrite bool_decide_true by done. by rewrite Ha. }
  destruct (render_runs_keeps _ _ E) as (t' & T & _ & R & _ & _ & I & L & F). exists t'. rewrite R, I.
  assert (RunsTabView (clock s) t' = El "div" [] [Text m]) as ->.
  { unfold RunsTabView. rewrite L, F. cbn. by rewrite Hm. }
  split_and!; [done|done|done|done|]. intros o Ho. offer_cases Ho.
Qed.

Lemma no_rules_texts m :
  rules m = [] → rules_loading m = false →
  texts (ModalView m) = [js "New Dataset Run"; js "No active eval rules found. Create an eval rule to start a run."].
Proof. intros Er El. unfold ModalView. by rewrite El, Er. Qed.

(** When the rules cannot be loaded, the dialog says that there are none that are enabled;
    the message it sets is not shown. *)
Theorem unloaded_rules_say_none s m a msg :
  modal_of s = Some m → rules m = [] → rules_answer (modal_number m) (NoAnswer (T := option (list EvalRule)) msg) s = a →
  ∃ m', modal_of a = Some m' ∧ modal_error m' = Some (js "Failed to load eval rules")
    ∧ js "No active eval rules found. Create an eval rule to start a run." ∈ texts (ModalView m')
    ∧ js "Failed to load eval rules" ∉ texts (ModalView m').
Proof.
  intros Em Er <-. exists (m <| modal_error := Some (js "Failed to load eval rules") |> <| rules_loading := false |>).
  split; [unfold rules_answer; rewrite modal_of_in_modal, Em; cbn [fmap option_fmap option_map]; by rewrite bool_decide_true|].
  split; [done|]. rewrite no_rules_texts by done. split; [by right; left|].
  apply (bool_decide_unpack _). by vm_compute.
Qed.

(** Answers are not matched with the project: that for the project before, when it comes
    last, puts its dataset above the new project's items. *)
Theorem late_dataset_shown p p' now d d' st st' text text' :
  p ≠ p' → ok_status st = true → ok_status st' = true →
  let c1 := handle datasetId Mounted (initial p now) in
  let c2 := handle datasetId (SwitchProject p') c1.1 in
  ∃ r r' qi ri, c1.2 = [Fetch DatasetInfo (get_request (dataset_url datasetId ++ of_project p)) r]
    ∧ c2.2 = [Fetch DatasetInfo (get_request (dataset_url datasetId ++ of_project p')) r']
    ∧ (r' (Answer st' text' (Ok d')) c2.1).2 = [Fetch (option (list DatasetItemEntry)) qi ri]
    ∧ qi = items_request datasetId p'
    ∧ let c := r (Answer st text (Ok d)) (r' (Answer st' text' (Ok d')) c2.1).1 in
      activeProject c.1 = p' ∧ dataset c.1 = Some d ∧ loading c.1 = false ∧ error c.1 = None ∧ c.2 = []
      ∧ shown c.1 = shown (r' (Answer st' text' (Ok d')) c2.1).1.
Proof.
  intros Hp Hst Hst'. cbv zeta. unfold handle. cbn [handle_op]. unfold after_render at 1. cbn.
  rewrite bool_decide_false by done. cbn. do 4 eexists. split; [done|]. split; [done|].
  unfold dataset_answer. cbn. rewrite Hst'. cbn. split; [done|]. split; [done|]. by rewrite Hst.
Qed.
End behaviours.
End page.
(** ** Concrete runs *)

Module Runs.
#[local] Instance host : DateHost := {| date_parse _ := None; full_year _ := 2024; to_locale_string _ _ := [] |}.
Definition d : jsstr := js "d".
Definition info : DatasetInfo := {| dataset_name := js "prompts"; dataset_created_at := []; dataset_item_count := 2 |}.
Definition run (id st : string) : RunListItem :=
  {| run_id := js id; eval_rule_id := js "r"; status := js st; item_count := 2; mean_score := None; run_created_at := [] |}.
Definition rule (id : string) (on : bool) : EvalRule := {| rule_id := js id; rule_name := js id; judge_model := js "gpt-4"; enabled := on |}.
Definition ok {T} (b : T) : answer T := Answer 200 (Ok []) (Ok b).
Abbreviation handle_ := (handle d).

(** The page is opened, the tab of the runs chosen, and a run asked for. *)
Definition opened : outcome state := handle_ Mounted (initial (js "p") 0).
Definition loaded : outcome state := after_render d (now (dataset_answer (ok info) opened.1)).
Definition chosen : outcome state := handle_ (ChooseTab runs_tab) loaded.1.
Definition listed : outcome state := render_runs (runs_answer 1 (ok (Some [run "x" "running"; run "y" "complete"])) chosen.1).
Definition asked : outcome state := handle_ NewRun listed.1.
Definition ready : state := rules_answer 2 (ok (Some [rule "a" false; rule "b" true])) asked.1.

Ltac offered := left; vm_compute; repeat first [apply list_elem_of_here | apply list_elem_of_further].

Lemma opened_asks : opened.2 = [Fetch DatasetInfo (get_request (js "/api/v1/datasets/d?project_id=p"))
                                  (λ a s, after_render d (now (dataset_answer a s)))].
Proof. reflexivity. Qed.
Lemma chosen_asks : chosen.2 = [Fetch (option (list RunListItem)) (runs_request d (js "p")) (λ a s, render_runs (runs_answer 1 a s))].
Proof. reflexivity. Qed.
Lemma listed_asks : listed.2 = [].
Proof. reflexivity. Qed.
Lemma asked_asks : asked.2 = [Fetch (option (list EvalRule)) (rules_request (js "p")) (λ a s, now (rules_answer 2 a s))].
Proof. reflexivity. Qed.

Lemma event_to o s ps c : legal o s → c = handle_ o s → step legal handle_ (s, ps) (c.1, ps ++ c.2).
Proof. intros Hl ->. by apply step_event. Qed.
Lemma answer_to {T} s ps q resume (a : answer T) c : c = resume a s → step legal handle_ (s, ps ++ [Fetch T q resume]) (c.1, ps ++ c.2).
Proof. intros ->. rewrite <- (app_nil_r (resume a s).2). apply (step_answer legal handle_ s ps []). Qed.

Lemma ready_reachable : reachable legal handle_ (initial (js "p") 0) (ready, loaded.2).
Proof.
  eapply rtc_l; [exact (event_to Mounted _ [] opened I eq_refl)|]. rewrite opened_asks.
  eapply rtc_l; [apply (answer_to opened.1 [] _ (λ a s, after_render d (now (dataset_answer a s))) (ok info) loaded);
                 cbv beta; unfold loaded; reflexivity|]. change ([] ++ loaded.2) with loaded.2.
  eapply rtc_l; [apply (event_to (ChooseTab runs_tab) loaded.1 loaded.2 chosen); [offered|reflexivity]|]. rewrite chosen_asks.
  eapply rtc_l; [apply (answer_to chosen.1 loaded.2 _ (λ a s, render_runs (runs_answer 1 a s))
                          (ok (Some [run "x" "running"; run "y" "complete"])) listed); cbv beta; unfold listed; reflexivity|].
  rewrite listed_asks, app_nil_r.
  eapply rtc_l; [apply (event_to NewRun listed.1 loaded.2 asked); [offered|reflexivity]|]. rewrite asked_asks.
  eapply rtc_l; [apply (answer_to asked.1 loaded.2 _ (λ a s, now (rules_answer 2 a s))
                          (ok (Some [rule "a" false; rule "b" true])) (now ready)); cbv beta; unfold ready; reflexivity|].
  cbn [Ui.now fst snd]. rewrite app_nil_r. apply rtc_refl.
Qed.

Lemma runs_polled_witness :
  reachable legal handle_ (initial (js "p") 0) (ready, loaded.2)
  ∧ ∃ t, the_runs ready = Some t ∧ snd <$> interval t = Some [js "x"] ∧ is_Some (modal t).
Proof.
  split; [exact ready_reachable|]. destruct (runs_polled d (js "p") 0 ready loaded.2 ready_reachable) as [_ H].
  destruct (the_runs ready) as [t|] eqn:E; [|vm_compute in E; discriminate]. exists t. split; [done|].
  destruct (H t eq_refl) as (H1 & H2 & _).
  assert (runs t = [run "x" "running"; run "y" "complete"] ∧ runs_shown t = true ∧ showNewRunModal t = true) as (E1 & E2 & E3).
  { vm_compute in E. injection E as <-. by vm_compute. }
  rewrite H1, E1. split; [by vm_compute|]. by apply H2.
Defined.

Lemma run_of_enabled_rule_witness :
  legal StartRun ready ∧ ∃ q resume, (handle_op d StartRun ready).2 = [Fetch unit q resume]
    ∧ q = send_json "POST" (js "/api/v1/datasets/d/runs") (JObj [(js "eval_rule_id", JStr (js "b"))]).
Proof.
  assert (legal StartRun ready) as Hl by offered. split; [exact Hl|].
  destruct (run_of_enabled_rule d (js "p") 0 ready loaded.2 ready_reachable Hl) as (t & m & r & q & resume & Et & Em & Hr & He & _ & Hq & Eq).
  exists q, resume. split; [done|]. rewrite Eq. vm_compute in Et. injection Et as <-. vm_compute in Em. injection Em as <-.
  apply list_elem_of_singleton in Hr as ->. by vm_compute.
Defined.

Lemma ready_ok : page_ok ready.
Proof. exact (proj1 (detail_waiting d (js "p") 0 (ready, loaded.2) ready_reachable)). Qed.

Definition ready_runs : RunsTab := default (Runs 0 [] ∅ true None false [] None None []) (the_runs ready).

Lemma ready_shown : the_runs ready = Some ready_runs.
Proof. by vm_compute. Qed.

Lemma expanded_run_collapses_witness :
  ∃ r1 r2 : answer RunDetail → state → outcome state, (handle_ (ToggleRun (js "x")) ready).2 = [Fetch RunDetail (detail_request d (js "x") (js "p")) r1]
    ∧ ∃ t', the_runs (r2 (ok (T := RunDetail) []) (r1 (ok (T := RunDetail) []) (handle_ (ToggleRun (js "y")) (handle_ (ToggleRun (js "x")) ready).1).1).1).1 = Some t'
      ∧ expandedRuns t' = [js "y"].
Proof.
  assert (activeProject ready = js "p" ∧ expandedRuns ready_runs = [] ∧ runDetails ready_runs = ∅) as (Ep & Ee & Ed) by by vm_compute.
  destruct (expanded_run_collapses d ready ready_runs (js "x") (js "y") ready_ok ready_shown) as (r1 & r2 & H1 & _ & H3).
  1: done. 1-2: rewrite Ee; apply not_elem_of_nil. 1-2: by rewrite Ed.
  exists r1, r2. rewrite Ep in H1. split; [exact H1|]. rewrite Ee in H3.
  destruct (H3 200 (Ok []) [] (ok (T := RunDetail) []) eq_refl) as (t' & T & X & _). by exists t'.
Defined.

Lemma polls_pile_up_witness :
  ∃ s' qs, rtc (step legal handle_) (ready, []) (s', [] ++ qs) ∧ length qs = 100%nat
    ∧ Forall (λ p, request_of p = status_request d (js "x") (activeProject ready)) qs.
Proof.
  assert (interval ready_runs = Some (3000, [js "x"])) as Ei by by vm_compute.
  assert (3000 <= clock ready + 3000) as Hc by (assert (clock ready = 0) as -> by (by vm_compute); lia).
  exact (polls_pile_up d 100 ready ready_runs 3000 (js "x") [] [] ready_ok ready_shown Ei Hc).
Defined.

Lemma failed_refetch_blocks_tab_witness :
  ∃ t', the_runs (render_runs (runs_answer (runs_number ready_runs) (NoAnswer (js "down")) ready)).1 = Some t'
    ∧ length (runs t') = 2%nat ∧ ∀ o, ¬ offers (RunsTabView (clock ready) t') o.
Proof.
  destruct (failed_refetch_blocks_tab ready ready_runs (NoAnswer (js "down")) (js "down") ready_shown eq_refl eq_refl)
    as (t' & T & R & _ & _ & H).
  exists t'. split; [exact T|]. split; [rewrite R; by vm_compute|exact H].
Defined.

Lemma unloaded_rules_say_none_witness :
  ∃ m', modal_of (rules_answer 2 (NoAnswer (js "down")) asked.1) = Some m'
    ∧ js "No active eval rules found. Create an eval rule to start a run." ∈ texts (ModalView m').
Proof.
  destruct (unloaded_rules_say_none asked.1 (Modal 2 [] true [] false None) _ (js "down") ltac:(by vm_compute) eq_refl eq_refl)
    as (m' & M & _ & H & _).
  by exists m'.
Defined.

Lemma late_dataset_shown_witness :
  js "p" ≠ js "q" ∧ ∃ r, (handle_ Mounted (initial (js "p") 0)).2
    = [Fetch DatasetInfo (get_request (js "/api/v1/datasets/d?project_id=p")) r].
Proof.
  split; [done|].
  destruct (late_dataset_shown d (js "p") (js "q") 0 info info 200 200 (Ok []) (Ok []) ltac:(done) eq_refl eq_refl) as (r & _ & _ & _ & H & _).
  by exists r.
Defined.
End Runs.
