(* ===== verification/Conversations.v ===== *)
(** The conversations pages (ui/src/pages/Conversations.tsx and ConversationDetail.tsx).

    Module List is the list with its pages.  Module Detail is one conversation: its
    traces, and for each of them what was said, asked for in parallel.  Times in
    milliseconds come from a clock that is part of the state. *)
From S2P Require Import Prelude.
From S2P Require Import JsString.
From S2P Require Import JsNumber.
From S2P Require Import JsJson.
From S2P Require Import JsUrl.
From S2P Require Import Ui.
From S2P Require Import Widgets.
From S2P Require Import Formatters.
From S2P Require Import TimeRange.
From S2P Require Import Visuals.
Local Open Scope Z_scope.

(** ** The list *)

Module List.

Record ConversationListItem : Type := {
  conversation_id : jsstr; service_name : jsstr; trace_count : Z; span_count : Z;
  start_time : jsstr; end_time : jsstr; total_cost_usd : num; total_input_tokens : num; total_output_tokens : num
}.
Record ConversationListResponse : Type := { listed : option (list ConversationListItem); next : option jsstr }.

Record state : Type := State {
  activeProject : jsstr;
  conversations : list ConversationListItem;
  nextCursor : jsstr;
  loading : bool;
  clock : Z;
  opened : list jsstr
}.
#[export] Instance state_eta : Eta state := λ s,
  State (activeProject s) (conversations s) (nextCursor s) (loading s) (clock s) (opened s).
Definition initial (p : jsstr) (now : Z) : state := State p [] [] false now [].

(** [new Date(...).toISOString()] of a time a date can hold. *)
Definition iso (t : Z) : jsstr := default [] (toISOString t).

Definition conversations_url (project cursor : jsstr) (now : Z) : jsstr :=
  js "/api/v1/conversations?" ++
  search_string ([(js "project_id", project); (js "from", iso (now - 7 * 24 * 60 * 60 * 1000)); (js "to", iso now); (js "limit", js "50")]
                 ++ if truthy cursor then [(js "cursor", cursor)] else []).

(** A response that is not ok, or no response, changes nothing but [loading]. *)
Definition conversations_answer (append : bool) (a : answer ConversationListResponse) (s : state) : outcome state :=
  now (match ok_body a with
       | Some data =>
         let l := default [] (listed data) in
         s <| conversations := if append then conversations s ++ l else l |> <| nextCursor := default [] (next data) |>
       | None => s
       end <| loading := false |>).

Definition fetchConversations (project cursor : jsstr) (append : bool) (s : state) : outcome state :=
  (s <| loading := true |>,
   [Fetch ConversationListResponse (get_request (conversations_url project cursor (clock s))) (conversations_answer append)]).

Inductive op : Type :=
| Mounted
| SwitchProject (p : jsstr)
| LoadMore
| Open (conversationId : jsstr)
| Tick (dt : Z).

Definition handle (o : op) (s : state) : outcome state :=
  match o with
  | Mounted => fetchConversations (activeProject s) [] false s
  | SwitchProject p =>
    if bool_decide (p = activeProject s) then now s else fetchConversations p [] false (s <| activeProject := p |>)
  | LoadMore => fetchConversations (activeProject s) (nextCursor s) true s
  | Open c => now (s <| opened ::= λ l, l ++ [c] |>)
  | Tick dt => now (s <| clock ::= Z.add dt |>)
  end.

Section views.
Context `{DateHost} (to_locale : num → jsstr).

Definition headers : list jsstr :=
  [js "Conversation ID"; js "Service"; js "Traces"; js "Spans"; js "Started"; js "Duration"; js "Total Cost"; js "Tokens"].

Definition conversation_row (s : state) (c : ConversationListItem) : view op :=
  let cell t := El "td" [] [Text t] in
  El "tr" [On "click" (Open (conversation_id c)); Attr "role" (js "button");
           Attr "aria-label" (js "Open conversation " ++ conversation_id c)]
    [cell (take 12 (conversation_id c) ++ js "…");
     cell (if truthy (service_name c) then service_name c else js "—");
     cell (show_Z (trace_count c)); cell (show_Z (span_count c));
     cell (formatTimeWithYear (clock s) (start_time c));
     cell (formatDuration (start_time c) (if truthy (end_time c) then end_time c else start_time c));
     cell (formatCost (Some (total_cost_usd c)));
     cell (to_locale (num_add (total_input_tokens c) (total_output_tokens c)))].

Definition pagination (s : state) : view op :=
  El "div" []
    [El "button" [On "click" LoadMore; Flag "disabled" (loading s || negb (truthy (nextCursor s)))]
       [if loading s then txt "Loading..." else if truthy (nextCursor s) then txt "Load Next Page" else txt "No more data"]].

Definition no_conversations : view op :=
  EmptyState default_ (Some (js "No conversations yet"))
    (Some (js "Group an agent session's traces by sending a conversation_id from the SDK — e.g. set_active_conversation_id() in Python, WithConversationID() in Go, or Omneval.setActiveConversationId() in TypeScript"))
    None None.

Definition content (s : state) : list (view op) :=
  if bool_decide (conversations s = []) then
    if loading s then [El "div" [] (replicate 6 Skeleton)] else [no_conversations]
  else [El "div" [] [El "table" [] [El "thead" [] [El "tr" [] ((λ h, El "th" [] [Text h]) <$> headers)];
                                    El "tbody" [] (conversation_row s <$> conversations s)]];
        pagination s].

Definition render (s : state) : view op :=
  El "div" []
    [El "div" [] [El "h1" [] [txt "Conversations"];
                  El "p" [] [txt "Group agent sessions by conversation for structured analysis"]];
     El "div" [] (content s)].

(** What can happen: the page is mounted, the header switches the project, time passes,
    or the user does what the screen offers. *)
Definition legal (o : op) (s : state) : Prop :=
  match o with
  | Mounted | SwitchProject _ => True
  | Tick dt => 0 <= dt
  | _ => offers (render s) o
  end.
End views.
End List.

(** ** One conversation *)

Module Detail.

(** [KIND_COLOR_MAP[kind] || caveWall]: an own table, so that any text has a colour,
    except the members every object has. *)
Definition KIND_COLOR_MAP : list (jsstr * jsstr) :=
  (λ k, (k, match getSpanKindColor k with Found c => c | _ => [] end))
    <$> [js "llm"; js "tool"; js "agent"; js "chain"; js "internal"].

Definition SHOW_FULL_HISTORY_KEY : jsstr := js "omneval_conv_show_full_history".

Record ConversationTraceItem : Type := {
  trace_id : jsstr; root_span_name : jsstr; root_span_kind : jsstr; start_time : jsstr; end_time : jsstr;
  span_count : Z; cost_usd : num; input_tokens : num; output_tokens : num; model : jsstr
}.

Inductive DetailSpan : Type :=
| Span (span_id kind : jsstr) (input output : option jsstr) (children : list DetailSpan).

Record TraceIO : Type := IO { io_input : option jsstr; io_output : option jsstr }.
Definition no_io : TraceIO := IO None None.

Definition has_text (o : option jsstr) : bool := truthy_opt o.

(** [walk]: the last LLM span with a text so far. *)
Definition said (s : DetailSpan) : option TraceIO :=
  match s with
  | Span _ kind i o _ => if bool_decide (kind = js "llm") && (has_text i || has_text o) then Some (IO i o) else None
  end.

Fixpoint walk (s : DetailSpan) (llm : option TraceIO) : option TraceIO :=
  match s with
  | Span _ _ _ _ cs =>
    let llm := match said s with Some io => Some io | None => llm end in
    (fix go (cs : list DetailSpan) (llm : option TraceIO) : option TraceIO :=
       match cs with [] => llm | c :: cs => go cs (walk c llm) end) cs llm
  end.

Definition extractTraceIO (root : option DetailSpan) : TraceIO :=
  match root with
  | None => no_io
  | Some (Span _ _ i o _ as r) => default (IO i o) (walk r None)
  end.

(** ** State

    [collecting] is the [Promise.all] of the traces' requests, for the run of the effect
    that started them: a slot per trace, filled when its request is over. *)

Record state : Type := State {
  conversationId : jsstr;
  activeProject : jsstr;
  traces : list ConversationTraceItem;
  traceIO : list (jsstr * TraceIO);
  loading : bool;
  error : option jsstr;
  showFullHistory : bool;
  stored : option jsstr;
  effect_run : nat;
  collecting : option (list (jsstr * option TraceIO));
  visited : list jsstr;
  backs : nat
}.
#[export] Instance state_eta : Eta state := λ s,
  State (conversationId s) (activeProject s) (traces s) (traceIO s) (loading s) (error s) (showFullHistory s) (stored s)
    (effect_run s) (collecting s) (visited s) (backs s).

Definition readShowFullHistory (stored : option jsstr) : bool := bool_decide (stored = Some (js "true")).
Definition bool_text (b : bool) : jsstr := if b then js "true" else js "false".

(** The effect that stores the toggle runs first. *)
Definition initial (c p : jsstr) (stored : option jsstr) : state :=
  State c p [] [] true None (readShowFullHistory stored) stored 0 None [] 0.

(** ** Requests *)

(** [setTraceIO(Object.fromEntries(results))] once every slot is filled. *)
Definition all_settled (slots : list (jsstr * option TraceIO)) : option (list (jsstr * TraceIO)) :=
  mapM (λ '(i, o), io ← o; Some (i, io)) slots.

Definition fromEntries {A} (l : list (jsstr * A)) : list (jsstr * A) := foldl (λ acc '(k, v), prop_set k v acc) [] l.

Definition settle (slots : list (jsstr * option TraceIO)) (s : state) : state :=
  match all_settled slots with
  | Some l => s <| traceIO := fromEntries l |> <| collecting := None |>
  | None => s <| collecting := Some slots |>
  end.

(** Of the trace only the root span is read; [None] stands for a missing one. *)
Definition io_of (a : answer (option DetailSpan)) : TraceIO :=
  match ok_body a with Some root => extractTraceIO root | None => no_io end.

Definition fill (k : nat) (io : TraceIO) (slots : list (jsstr * option TraceIO)) : list (jsstr * option TraceIO) :=
  alter (λ '(i, _), (i, Some io)) k slots.

(** An answer to a request of an earlier run is that of an aborted request. *)
Definition trace_answer (run k : nat) (a : answer (option DetailSpan)) (s : state) : outcome state :=
  now (match collecting s with
       | Some slots => if bool_decide (run = effect_run s) then settle (fill k (io_of a) slots) s else s
       | None => s
       end).

Definition trace_url (t p : jsstr) : jsstr := js "/api/v1/traces/" ++ t ++ js "?project_id=" ++ encodeURIComponent p.

Definition trace_requests (run : nat) (project : jsstr) (items : list ConversationTraceItem) : list (program state) :=
  imap (λ k t, Fetch (option DetailSpan) (get_request (trace_url (trace_id t) project)) (trace_answer run k)) items.

(** The body is [data.traces]. *)
Definition conversation_answer (run : nat) (project : jsstr) (a : answer (option (list ConversationTraceItem))) (s : state) : outcome state :=
  if negb (bool_decide (run = effect_run s)) then now s else
  let failed m := now (s <| error := Some m |> <| loading := false |>) in
  match a with
  | NoAnswer m => failed m
  | Answer status _ body =>
    if ok_status status then
      match body with
      | Ok data =>
        let items := default [] data in
        let s := s <| traces := items |> <| loading := false |> in
        (settle ((λ t, (trace_id t, None)) <$> items) s, trace_requests run project items)
      | Err m => failed m
      end
    else failed (if status =? 404 then js "Conversation not found"
                 else js "Failed to load conversation (" ++ show_Z status ++ js ")")
  end.

Definition conversation_url (c p : jsstr) : jsstr :=
  js "/api/v1/conversations/" ++ c ++ js "?project_id=" ++ encodeURIComponent p.

(** The effect's start; its requests are numbered by the run. *)
Definition load (s : state) : outcome state :=
  let run := S (effect_run s) in
  (s <| loading := true |> <| error := None |> <| effect_run := run |>,
   [Fetch (option (list ConversationTraceItem)) (get_request (conversation_url (conversationId s) (activeProject s)))
      (conversation_answer run (activeProject s))]).

(** The effect's end: every open request is aborted, which the traces' requests take
    for a failure, so that what has been collected is shown. *)
Definition abort (s : state) : state :=
  match collecting s with
  | Some slots => settle ((λ '(i, o), (i, Some (default no_io o))) <$> slots) s
  | None => s
  end.

(** ** Events *)

Inductive op : Type :=
| Mounted
| SwitchTo (c p : jsstr)
| SetShowFullHistory (b : bool)
| OpenTrace (t : jsstr)
| Back.

Definition store (s : state) : state := s <| stored := Some (bool_text (showFullHistory s)) |>.

Definition handle (o : op) (s : state) : outcome state :=
  match o with
  | Mounted => load (store s)
  | SwitchTo c p =>
    if bool_decide (c = conversationId s ∧ p = activeProject s) then now s
    else load (abort s <| conversationId := c |> <| activeProject := p |>)
  | SetShowFullHistory b => now (store (s <| showFullHistory := b |>))
  | OpenTrace t => now (s <| visited ::= λ l, l ++ [t] |>)
  | Back => now (s <| backs ::= S |>)
  end.

(** ** Views *)

Section views.
Context `{DateHost} (clock : Z) (to_locale : num → jsstr).

(** The turns of a value, and those shown of it: of an input only the last, unless the
    whole history is asked for. *)
Definition turns_of (value : jsstr) (is_input : bool) : list ChatTurn :=
  match parseChatTurns value with
  | Some ((_ :: _) as l) => l
  | _ => [{| role := if is_input then js "user" else js "assistant"; content := value |}]
  end.

Definition visible (value : jsstr) (is_input full : bool) : list ChatTurn :=
  let turns := turns_of value is_input in
  if is_input && negb full then drop (length turns - 1) turns else turns.

Definition ChatPreview (value : option jsstr) (is_input full : bool) : list (view op) :=
  match value with
  | Some v =>
    when (truthy v)
      (El "div" []
         ((λ t, El "div" [Flag "assistant" (bool_decide (role t = js "assistant"))]
                  [El "div" [] [El "span" [] [Text (role t)];
                                Text (if bool_decide (600 < length (content t))%nat then take 600 (content t) ++ js "…" else content t)]])
            <$> visible v is_input full))
  | None => []
  end.

Definition kind_color (k : jsstr) : jsstr :=
  match prop_get k KIND_COLOR_MAP with Some c => if truthy c then c else color "caveWall" backgrounds | None => color "caveWall" backgrounds end.

Definition io_for (s : state) (t : ConversationTraceItem) : TraceIO := default no_io (prop_get (trace_id t) (traceIO s)).

Definition TraceRow (s : state) (t : ConversationTraceItem) : view op :=
  let io := io_for s t in
  El "div" [On "click" (OpenTrace (trace_id t)); On "enter" (OpenTrace (trace_id t)); Attr "role" (js "button");
            Attr "border" (kind_color (root_span_kind t)); Attr "aria-label" (js "Open trace " ++ root_span_name t)]
    (El "div" []
       ([El "span" [] [Text (root_span_kind t)]; El "span" [] [Text (root_span_name t)]]
        ++ when (truthy (model t)) (El "span" [] [Text (model t)])
        ++ [El "span" [] [Text (to_locale (num_add (input_tokens t) (output_tokens t)) ++ js "t")]]
        ++ when (num_lt (of_Z 0) (cost_usd t)) (El "span" [] [Text (formatCost (Some (cost_usd t)))])
        ++ [El "span" [] [Text (formatDuration (start_time t) (if truthy (end_time t) then end_time t else start_time t))]])
     :: when (has_text (io_input io) || has_text (io_output io))
          (El "div" [] (ChatPreview (io_input io) true (showFullHistory s) ++ ChatPreview (io_output io) false (showFullHistory s)))).

Definition totalCost (s : state) : num := foldl (λ sum t, num_add sum (cost_usd t)) (of_Z 0) (traces s).

Definition header (s : state) : view op :=
  let n := Z.of_nat (length (traces s)) in
  let serviceModel := from_option model [] (array_find (λ t, truthy (model t)) (traces s)) in
  let firstStart := from_option start_time [] (head (traces s)) in
  let lastEnd := match last (traces s) with Some t => if truthy (end_time t) then end_time t else start_time t | None => [] end in
  El "div" []
    (Breadcrumb [(js "Conversations", Some Back); (take 8 (conversationId s) ++ js "…", None)]
     ++ [El "div" []
       ([El "span" [] [Text (conversationId s)]; El "CopyButton" [Attr "text" (conversationId s)] [];
         El "span" [] [Text (show_Z n ++ js " trace" ++ (if n =? 1 then [] else js "s"))]]
        ++ when (truthy serviceModel) (El "span" [] [Text serviceModel])
        ++ when (num_lt (of_Z 0) (totalCost s)) (El "span" [] [Text (formatCost (Some (totalCost s)))])
        ++ when (truthy firstStart)
             (El "span" [] [Text (formatTime clock firstStart);
                            Text (if truthy lastEnd && negb (bool_decide (lastEnd = firstStart))
                                  then js " → " ++ formatTime clock lastEnd else [])]))]).

Definition render (s : state) : view op :=
  if loading s then El "div" [] [El "div" [] [Skeleton]; El "div" [] [Skeleton; LoadingState 4 false]] else
  if truthy_opt (error s) || bool_decide (traces s = []) then
    El "div" [] [EmptyState error_ (Some (default (js "Conversation not found") (error s)))
                   (Some (js "The requested conversation could not be loaded")) (Some (js "Back to Conversations")) (Some Back)]
  else
    El "div" []
      [header s;
       El "label" [] [El "input" [Attr "type" (js "checkbox"); Flag "checked" (showFullHistory s);
                                  On "change" (SetShowFullHistory (negb (showFullHistory s)))] [];
                      txt "Show full message history"];
       El "div" [] (TraceRow s <$> traces s)].

(** What can happen: the page is mounted once, the parent changes its properties, or
    the user does what the screen offers. *)
Definition legal (o : op) (s : state) : Prop :=
  match o with
  | Mounted => effect_run s = 0%nat
  | SwitchTo _ _ => effect_run s ≠ 0%nat
  | _ => offers (render s) o
  end.
End views.
End Detail.
