(* ===== verification/ConversationsProps.v ===== *)
(** Theorems on the conversations pages: what is said of a trace, the previews of a
    conversation, the stored toggle, and the pages of the list. *)
From S2P Require Import Prelude.
From S2P Require Import JsString.
From S2P Require Import JsNumber.
From S2P Require Import JsJson.
From S2P Require Import JsUrl.
From S2P Require Import Ui.
From S2P Require Import Widgets.
From S2P Require Import Formatters.
From S2P Require Import Conversations.
Local Open Scope Z_scope.

(** ** One conversation *)

Section detail.
Import Detail.

(** The spans of a trace in the order in which the tree shows them. *)
Fixpoint preorder (s : DetailSpan) : list DetailSpan :=
  match s with Span _ _ _ _ cs => s :: (cs ≫= preorder) end.

Definition span_io (s : DetailSpan) : TraceIO := match s with Span _ _ i o _ => IO i o end.

Lemma detail_span_ind (P : DetailSpan → Prop) :
  (∀ i k a b cs, Forall P cs → P (Span i k a b cs)) → ∀ s, P s.
Proof.
  intros H. fix IH 1. intros [i k a b cs]. apply H. induction cs as [|c cs IHcs]; constructor; [apply IH|exact IHcs].
Qed.

Lemma walk_last s : ∀ llm, walk s llm = match last (omap said (preorder s)) with Some io => Some io | None => llm end.
Proof.
  induction s as [i k a b cs IH] using detail_span_ind. intros llm. cbn [walk preorder].
  assert (∀ llm, (fix go (cs : list DetailSpan) (llm : option TraceIO) : option TraceIO :=
      match cs with [] => llm | c :: cs => go cs (walk c llm) end) cs llm
    = match last (omap said (cs ≫= preorder)) with Some io => Some io | None => llm end) as Hgo.
  { induction IH as [|c cs Hc _ IHcs]; intros l; [done|]. rewrite IHcs, Hc. cbn [mbind list_bind].
    rewrite omap_app, last_app. by destruct (last (omap said (cs ≫= preorder))). }
  rewrite Hgo. cbn [omap list_omap]. destruct (said (Span i k a b cs)) as [io|]; [|done].
  rewrite last_cons. by destruct (last _).
Qed.

(** An LLM span that has a text: an input or an output that is there and not empty. *)
Definition speaks (s : DetailSpan) : Prop :=
  match s with
  | Span _ kind input output _ =>
    kind = js "llm" ∧ ((∃ t, input = Some t ∧ t ≠ []) ∨ (∃ t, output = Some t ∧ t ≠ []))
  end.

Lemma has_text_spec o : has_text o = true ↔ ∃ t, o = Some t ∧ t ≠ [].
Proof.
  unfold has_text. destruct o as [t|]; simpl; [|split; [done|by intros (t & ? & _)]].
  rewrite truthy_spec. split; [by exists t|by intros (t' & [= <-] & ?)].
Qed.

Lemma said_speaks s io : said s = Some io ↔ speaks s ∧ io = span_io s.
Proof.
  destruct s as [i k a b cs]. cbn. rewrite <- !has_text_spec, <- orb_true_iff.
  destruct (has_text a || has_text b); case_bool_decide; naive_solver.
Qed.

Lemma said_none s : said s = None ↔ ¬ speaks s.
Proof.
  rewrite eq_None_not_Some. split; intros H Hs; apply H.
  - exists (span_io s). by apply said_speaks.
  - destruct Hs as [io Hio]. by apply said_speaks in Hio as [? _].
Qed.

(** The last element with a value. *)
Lemma last_omap {A B} (f : A → option B) l y :
  last (omap f l) = Some y →
  ∃ before x after, l = before ++ x :: after ∧ f x = Some y ∧ Forall (λ z, f z = None) after.
Proof.
  induction l as [|z l IH] using rev_ind; [done|]. rewrite omap_app. simpl.
  destruct (f z) as [v|] eqn:Ez; [rewrite last_snoc; intros [= ->]; by exists l, z, []|].
  rewrite app_nil_r. intros (before & x & after & -> & Ex & Ha)%IH.
  exists before, x, (after ++ [z]). rewrite <- app_assoc. split; [done|]. split; [done|].
  apply Forall_app. by split; [|apply Forall_singleton].
Qed.

Lemma last_omap_none {A B} (f : A → option B) l : last (omap f l) = None → Forall (λ z, f z = None) l.
Proof.
  rewrite last_None. induction l as [|z l IH]; [constructor|]. simpl. destruct (f z) eqn:Ez; [done|]. constructor; auto.
Qed.

(** C39. What the page says of a trace: the input and output of its last LLM span that has a
    text, in the order in which the tree shows its spans; if no span is one, those of the
    root span, whatever its kind; and nothing without a trace. *)
Theorem extractTraceIO_last r :
  ((∃ before s after, preorder r = before ++ s :: after ∧ speaks s ∧ Forall (λ x, ¬ speaks x) after
                      ∧ extractTraceIO (Some r) = span_io s)
   ∨ Forall (λ x, ¬ speaks x) (preorder r) ∧ extractTraceIO (Some r) = span_io r)
  ∧ extractTraceIO None = IO None None.
Proof.
  split; [|done].
  assert (extractTraceIO (Some r) = default (span_io r) (last (omap said (preorder r)))) as E.
  { destruct r as [i k a b cs]. unfold extractTraceIO. rewrite walk_last. by destruct (last _). }
  assert (∀ l, Forall (λ z, said z = None) l → Forall (λ x, ¬ speaks x) l) as Hno.
  { intros l Hl. eapply Forall_impl; [exact Hl|]. intros x. apply said_none. }
  rewrite E. destruct (last (omap said (preorder r))) as [io|] eqn:El; [left|right].
  - apply last_omap in El as (before & s & after & Ep & [Hs ->]%said_speaks & Ha).
    exists before, s, after. auto.
  - apply last_omap_none in El. auto.
Qed.

(** ** The toggle *)

Lemma bool_text_read b : readShowFullHistory (Some (bool_text b)) = b.
Proof. by destruct b; vm_compute. Qed.

Definition toggle_ok (s : state) : Prop := readShowFullHistory (stored s) = showFullHistory s.

Lemma settle_toggle slots s : toggle_ok s → toggle_ok (settle slots s).
Proof. unfold settle. by destruct (all_settled slots). Qed.

Lemma abort_toggle s : toggle_ok s → toggle_ok (abort s).
Proof. unfold abort. destruct (collecting s); [apply settle_toggle|done]. Qed.

Lemma trace_requests_toggle run p items : Forall (keeps toggle_ok) (trace_requests run p items).
Proof.
  apply Forall_forall. intros q (k & t & -> & _)%elem_of_lookup_imap. constructor; [|by intros a s q _ ?%not_elem_of_nil].
  intros a s Hs. cbn. destruct (collecting s); [|done]. case_bool_decide; [by apply settle_toggle|done].
Qed.

Lemma load_toggle s : toggle_ok s → toggle_ok (load s).1 ∧ Forall (keeps toggle_ok) (load s).2.
Proof.
  intros Hs. split; [done|]. apply keeps_answers. intros a s' Hs'. unfold conversation_answer.
  destruct (negb _); [split; [done|apply Forall_nil_2]|].
  destruct a as [st t [data|m]|m]; [| |split; [done|apply Forall_nil_2]].
  - destruct (ok_status st); [|split; [done|apply Forall_nil_2]].
    split; [by apply settle_toggle|apply trace_requests_toggle].
  - destruct (ok_status st); (split; [done|apply Forall_nil_2]).
Qed.

(** The toggle is what the store gives back: in every reachable state a page opened
    anew begins with the toggle as it is shown. *)
Theorem history_toggle_persists `{DateHost} clock to_locale c p st s waiting c' p' :
  reachable (legal clock to_locale) handle (initial c p st) (s, waiting) →
  showFullHistory (initial c' p' (stored s)) = showFullHistory s.
Proof.
  intros Hr. apply (invariant (legal clock to_locale) handle toggle_ok _ (s, waiting)) in Hr; [done| |done].
  intros o s' _ Hs'. destruct o; cbn [handle].
  - apply load_toggle. apply bool_text_read.
  - case_bool_decide; [split; [done|apply Forall_nil_2]|]. apply load_toggle. by apply (abort_toggle s').
  - split; [apply bool_text_read|apply Forall_nil_2].
  - split; [done|apply Forall_nil_2].
  - split; [done|apply Forall_nil_2].
Qed.

(** ** The previews *)

Section previews.
Context (items : list ConversationTraceItem) (answers : nat → answer (option DetailSpan)).
#[local] Set Default Proof Using "All".

(** The slots when the requests with the numbers [done_] have been answered. *)
Definition slots_after (done_ : list nat) : list (jsstr * option TraceIO) :=
  imap (λ k t, (trace_id t, if bool_decide (k ∈ done_) then Some (io_of (answers k)) else None)) items.

Lemma fill_slots done_ k : fill k (io_of (answers k)) (slots_after done_) = slots_after (k :: done_).
Proof.
  apply list_eq. intros j. unfold fill, slots_after. rewrite list_lookup_alter, !list_lookup_imap.
  destruct (decide (k = j)) as [<-|Hj].
  - destruct (items !! k); [|done]. cbn. by rewrite (bool_decide_true (k ∈ k :: done_)) by left.
  - destruct (items !! j); [|done]. cbn. do 3 f_equal. erewrite bool_decide_ext; [done|]. rewrite elem_of_cons. naive_solver.
Qed.

Lemma settled_iff done_ :
  all_settled (slots_after done_)
  = if bool_decide (Forall (λ k, k ∈ done_) (seq 0 (length items)))
    then Some (imap (λ k t, (trace_id t, io_of (answers k))) items) else None.
Proof.
  unfold all_settled, slots_after. case_bool_decide as Hall.
  - apply mapM_Some, Forall2_lookup. intros k. rewrite !list_lookup_imap.
    destruct (items !! k) eqn:E; constructor. rewrite bool_decide_true; [done|].
    rewrite Forall_forall in Hall. apply Hall, elem_of_seq. apply lookup_lt_Some in E. lia.
  - destruct (mapM _ _) as [l|] eqn:E; [|done]. destruct Hall. apply mapM_Some in E.
    apply Forall_forall. intros k [_ Hk]%elem_of_seq. destruct (lookup_lt_is_Some_2 items k Hk) as [t Ht].
    assert (slots_after done_ !! k = Some (trace_id t, if bool_decide (k ∈ done_) then Some (io_of (answers k)) else None)) as Es
      by (unfold slots_after; by rewrite list_lookup_imap, Ht).
    destruct (Forall2_lookup_l _ _ _ _ _ E Es) as (x & _ & Hx). by case_bool_decide.
Qed.

Definition answer_in (run : nat) (order : list nat) (s : state) : state :=
  foldl (λ s k, (trace_answer run k (answers k) s).1) s order.

Lemma answers_fill run order : ∀ done_ s,
  effect_run s = run → collecting s = Some (slots_after done_) → NoDup (order ++ done_) →
  (∀ k, k ∈ order ++ done_ → k < length items)%nat → (length (order ++ done_) = length items)%nat → order ≠ [] →
  let s' := answer_in run order s in
  collecting s' = None ∧ traces s' = traces s
  ∧ traceIO s' = fromEntries (imap (λ k t, (trace_id t, io_of (answers k))) items).
Proof.
  induction order as [|k order IH]; intros done_ s Hrun Hc Hnd Hlt Hlen Hne; [done|].
  cbn [answer_in foldl].
  assert ((trace_answer run k (answers k) s).1 = settle (slots_after (k :: done_)) s) as ->.
  { unfold trace_answer. rewrite Hc, bool_decide_true, fill_slots by done. done. }
  assert (order ++ k :: done_ ≡ₚ k :: order ++ done_) as Hp by (symmetry; apply Permutation_middle).
  destruct order as [|k' order].
  - unfold settle. rewrite settled_iff, bool_decide_true; [done|].
    assert (k :: done_ ≡ₚ seq 0 (length items)) as Hseq.
    { apply submseteq_length_Permutation; [apply NoDup_submseteq; [done|]|rewrite length_seq; simpl in *; lia].
      intros j Hj. apply elem_of_seq. specialize (Hlt j Hj). lia. }
    apply Forall_forall. intros j Hj. by rewrite Hseq.
  - unfold settle. rewrite settled_iff, bool_decide_false.
    + apply (IH (k :: done_)); [done|done| | | |done].
      * by rewrite Hp.
      * intros j. rewrite Hp. apply Hlt.
      * by rewrite Hp.
    + intros Hall. rewrite Forall_forall in Hall. apply NoDup_app in Hnd as (Hnd & Hdis & _).
      assert (k' ∈ k :: done_) as Hin.
      { apply Hall, elem_of_seq. specialize (Hlt k' ltac:(right; left)). lia. }
      apply NoDup_cons in Hnd as [Hk _]. apply elem_of_cons in Hin as [->|Hin]; [destruct Hk; left|].
      apply (Hdis k'); [right; left|done].
Qed.

Lemma fromEntries_get {A} (l : list (jsstr * A)) : ∀ acc k, NoDup l.*1 →
  prop_get k (foldl (λ acc '(k, v), prop_set k v acc) acc l) = match prop_get k l with Some v => Some v | None => prop_get k acc end.
Proof using.
  induction l as [|[i v] l IH]; intros acc k Hnd; [done|]. apply NoDup_cons in Hnd as [Hi Hnd].
  cbn [foldl prop_get]. rewrite IH, prop_get_set by done. destruct (decide (k = i)) as [->|Hk]; [|done].
  destruct (prop_get i l) as [w|] eqn:E; [|done]. destruct Hi. apply prop_get_in in E. apply list_elem_of_fmap. by exists (i, w).
Qed.
End previews.

(** Once a conversation with traces of different ids has arrived, the answers to the
    requests for its traces may come in any order: when the last is there, and not
    before, the previews are shown, and that of each trace is what its own answer
    says. *)
Theorem previews_any_order run project t items answers order s :
  run = effect_run s → items ≠ [] → NoDup (trace_id <$> items) → order ≡ₚ seq 0 (length items) →
  let s1 := (conversation_answer run project (Answer 200 t (Ok (Some items))) s).1 in
  let s2 := answer_in answers run order s1 in
  length (conversation_answer run project (Answer 200 t (Ok (Some items))) s).2 = length items
  ∧ traceIO s1 = traceIO s ∧ collecting s2 = None
  ∧ traces s2 = items
  ∧ ∀ k it, items !! k = Some it → io_for s2 it = io_of (answers k).
Proof.
  intros Hrun Hne Hnd Hp s1 s2.
  assert ((λ t, (trace_id t, @None TraceIO)) <$> items = slots_after items answers []) as Eslots.
  { apply list_eq. intros k. unfold slots_after. rewrite list_lookup_fmap, list_lookup_imap. by destruct (items !! k). }
  assert (s1 = s <| traces := items |> <| loading := false |> <| collecting := Some (slots_after items answers []) |>) as E1.
  { assert (s1 = settle ((λ t, (trace_id t, None)) <$> items) (s <| traces := items |> <| loading := false |>)) as ->
      by (unfold s1, conversation_answer; by rewrite bool_decide_true by done).
    rewrite Eslots. unfold settle. rewrite settled_iff, bool_decide_false; [done|].
    destruct items as [|it items]; [done|]. intros Hall. apply Forall_cons in Hall as [Hall _]. by apply not_elem_of_nil in Hall. }
  split; [|split; [by rewrite E1|]].
  { unfold conversation_answer. rewrite bool_decide_true by done. cbn [negb]. simpl (ok_status 200). cbv iota.
    apply length_imap. }
  assert (NoDup order) as Hndo by (rewrite Hp; apply NoDup_seq).
  destruct (answers_fill items answers run order [] s1) as (Hc & Ht & Hio).
  - by rewrite E1.
  - by rewrite E1.
  - by rewrite app_nil_r.
  - intros k. rewrite app_nil_r, Hp, elem_of_seq. lia.
  - by rewrite app_nil_r, Hp, length_seq.
  - intros ->. apply (f_equal length) in Hp || (apply Permutation_length in Hp); rewrite length_seq in Hp. by destruct items.
  - fold s2 in Hc, Ht, Hio. split; [done|]. split; [by rewrite Ht, E1|]. intros k it Hk. unfold io_for. rewrite Hio. unfold fromEntries.
    assert ((imap (λ k t, (trace_id t, io_of (answers k))) items).*1 = trace_id <$> items) as Ek.
    { apply list_eq. intros j. rewrite !list_lookup_fmap, list_lookup_imap. by destruct (items !! j). }
    rewrite fromEntries_get by by rewrite Ek.
    rewrite (prop_get_elem (trace_id it) (io_of (answers k))); [done|by rewrite Ek|].
    apply elem_of_lookup_imap. by exists k, it.
Qed.
End detail.

(** ** The list *)

Section list.
Import List.
Context `{DateHost} (to_locale : num → jsstr).
#[local] Set Default Proof Using "All".
Let legal := legal to_locale.

(** When the conversations cannot be listed, for whatever reason, the page says that
    there are none. *)
Theorem failed_conversations_say_none p now a :
  ok_body a = None →
  let s := (conversations_answer false a (handle Mounted (initial p now)).1).1 in
  loading s = false ∧ content to_locale s = [no_conversations].
Proof. intros Ha. unfold conversations_answer. by rewrite Ha. Qed.

Definition response (l : list ConversationListItem) (n : option jsstr) : answer ConversationListResponse :=
  Answer 200 (Ok []) (Ok {| listed := Some l; next := n |}).

Lemma offers_more s : conversations s ≠ [] → loading s = false → nextCursor s ≠ [] → legal LoadMore s.
Proof.
  intros Hc Hl Hn. eapply offers_child; [right; left|].
  eapply offers_child; [unfold content; rewrite bool_decide_false by done; right; left|].
  eapply offers_child; [left|]. apply (offers_on _ _ _ "click"); [|left].
  cbn. rewrite Hl. by destruct (nextCursor s).
Qed.

(** A next page of the project before a switch that arrives after the list of the new
    project is added to it, and the following pages continue from the old project's. *)
Theorem late_page_mixes p q now (c1 : ConversationListItem) l2 l3 n n' :
  p ≠ q → n ≠ [] →
  ∃ s, reachable legal handle (initial p now) (s, []) ∧ activeProject s = q ∧ loading s = false
    ∧ conversations s = l2 ++ l3 ∧ nextCursor s = n'
    ∧ ∃ s1 s2 r, reachable legal handle (initial p now) (s1, r) ∧ activeProject s1 = p
        ∧ (handle LoadMore s1).2 = [Fetch _ (get_request (conversations_url p n (clock s1))) (conversations_answer true)]
        ∧ s = (conversations_answer true (response l3 (Some n')) s2).1.
Proof.
  intros Hpq Hn. pose (s0 := (handle Mounted (initial p now)).1).
  pose (s1 := (conversations_answer false (response [c1] (Some n)) s0).1).
  pose (sm := (handle LoadMore s1).1). pose (sq := (handle (SwitchProject q) sm).1).
  pose (s2 := (conversations_answer false (response l2 None) sq).1).
  assert (sq = (fetchConversations q [] false (sm <| activeProject := q |>)).1
          ∧ (handle (SwitchProject q) sm).2 = (fetchConversations q [] false (sm <| activeProject := q |>)).2) as [Esq Eq].
  { unfold sq. cbn [handle]. by rewrite bool_decide_false by done. }
  assert (reachable legal handle (initial p now) (s1, [])) as Hr1.
  { eapply rtc_l; [exact (step_event legal handle Mounted (initial p now) [] I)|]. apply rtc_once.
    exact (step_answer legal handle s0 [] [] _ _ _ (response [c1] (Some n))). }
  exists (conversations_answer true (response l3 (Some n')) s2).1. split; [|split; [|split; [done|split; [|split; [done|]]]]].
  - unfold reachable. etrans; [exact Hr1|].
    eapply rtc_l; [apply (step_event legal handle LoadMore s1 []); by apply offers_more|]. cbn [app].
    eapply rtc_l; [exact (step_event legal handle (SwitchProject q) sm _ I)|]. fold sq. rewrite Eq.
    eapply rtc_l; [exact (step_answer legal handle sq [_] [] _ _ _ (response l2 None))|].
    apply rtc_once. exact (step_answer legal handle s2 [] [] _ _ _ (response l3 (Some n'))).
  - change (activeProject sq = q). by rewrite Esq.
  - done.
  - exists s1, s2, []. split; [exact Hr1|]. by repeat split.
Qed.
End list.

(** ** Runs *)

Module Runs.

#[local] Instance host : DateHost := {| date_parse _ := None; full_year _ := 2024; to_locale_string _ _ := [] |}.

Definition llm (i o : string) : Detail.DetailSpan := Detail.Span (js "s1") (js "llm") (Some (js i)) (Some (js o)) [].
Definition trace (i : string) : Detail.ConversationTraceItem :=
  {| Detail.trace_id := js i; Detail.root_span_name := []; Detail.root_span_kind := js "agent"; Detail.start_time := [];
     Detail.end_time := []; Detail.span_count := 1; Detail.cost_usd := of_Z 0; Detail.input_tokens := of_Z 0;
     Detail.output_tokens := of_Z 0; Detail.model := [] |}.
Definition item (i : string) : List.ConversationListItem :=
  {| List.conversation_id := js i; List.service_name := []; List.trace_count := 1; List.span_count := 1; List.start_time := [];
     List.end_time := []; List.total_cost_usd := of_Z 0; List.total_input_tokens := of_Z 0; List.total_output_tokens := of_Z 0 |}.

(** Two LLM spans with a text, one without, and a tool's span after them. *)
Definition talk : Detail.DetailSpan :=
  Detail.Span (js "root") (js "agent") (Some (js "in")) None
    [llm "a" "b"; Detail.Span (js "s2") (js "chain") None None [llm "c" "d"];
     Detail.Span (js "s3") (js "llm") (Some []) None []; Detail.Span (js "s4") (js "tool") (Some (js "x")) (Some (js "y")) []].

Lemma extractTraceIO_last_witness :
  ∃ s, s ∈ preorder talk ∧ speaks s ∧ Detail.extractTraceIO (Some talk) = span_io s
    ∧ span_io s = Detail.IO (Some (js "c")) (Some (js "d")).
Proof.
  destruct (extractTraceIO_last talk) as [[(before & s & after & Ep & Hs & _ & E)|[Hno _]] _].
  - exists s. split; [rewrite Ep; apply elem_of_app; right; left|]. split; [exact Hs|]. split; [exact E|].
    rewrite <- E. by vm_compute.
  - exfalso. rewrite Forall_forall in Hno. apply (Hno (llm "a" "b")).
    + right. apply elem_of_app. left. left.
    + split; [done|]. left. by exists (js "a").
Defined.

Lemma history_toggle_persists_witness :
  Detail.showFullHistory (Detail.initial (js "c2") (js "team") (Detail.stored (Detail.initial (js "c1") (js "team") (Some (js "true"))))) = true.
Proof.
  rewrite (history_toggle_persists 0 show_num (js "c1") (js "team") (Some (js "true")) (Detail.initial (js "c1") (js "team") (Some (js "true"))) []
    (js "c2") (js "team") (rtc_refl _ _)).
  by vm_compute.
Defined.

Lemma previews_any_order_witness :
  let items := [trace "t1"; trace "t2"] in
  let answers k := Answer 200 (Ok []) (Ok (Some (if decide (k = 0%nat) then llm "a" "b" else llm "c" "d"))) in
  let s := Detail.initial (js "c") (js "team") None in
  let s1 := (Detail.conversation_answer 0 (js "team") (Answer 200 (Ok []) (Ok (Some items))) s).1 in
  Detail.io_for (answer_in answers 0 [1; 0]%nat s1) (trace "t1") = Detail.IO (Some (js "a")) (Some (js "b")).
Proof.
  pose (items := [trace "t1"; trace "t2"]).
  pose (answers (k : nat) := Answer 200 (Ok []) (Ok (Some (if decide (k = 0%nat) then llm "a" "b" else llm "c" "d")))).
  pose (s := Detail.initial (js "c") (js "team") None).
  assert (NoDup (Detail.trace_id <$> items)) as Hnd by (eapply bool_decide_unpack; by vm_compute).
  assert ([1; 0]%nat ≡ₚ seq 0 (length items)) as Hp by apply perm_swap.
  destruct (previews_any_order 0 (js "team") (Ok []) items answers [1; 0]%nat s eq_refl ltac:(done) Hnd Hp) as (_ & _ & _ & _ & H).
  exact (H 0%nat (trace "t1") eq_refl).
Defined.

Lemma failed_conversations_say_none_witness :
  ok_body (T := List.ConversationListResponse) (NoAnswer []) = None
  ∧ List.content show_num (List.conversations_answer false (NoAnswer []) (List.handle List.Mounted (List.initial [] 0)).1).1
    = [List.no_conversations].
Proof. split; [done|]. exact (proj2 (failed_conversations_say_none show_num [] 0 (NoAnswer []) eq_refl)). Defined.

Lemma late_page_mixes_witness :
  js "a" ≠ js "b" ∧ ∃ s, List.activeProject s = js "b" ∧ List.conversations s = [item "new"; item "old"].
Proof.
  assert (js "a" ≠ js "b") as Hn by by vm_compute. split; [exact Hn|].
  destruct (late_page_mixes show_num (js "a") (js "b") 0 (item "first") [item "new"] [item "old"] (js "n") (js "n'") Hn ltac:(by vm_compute))
    as (s & _ & Hp & _ & Hc & _).
  exists s. split; [exact Hp|exact Hc].
Defined.
End Runs.
