(* ===== verification/Traces.v ===== *)
(** The trace list (ui/src/pages/Traces.tsx): filters, search, paging, refreshing and
    selecting, and the requests for spans, of which only the latest may change the
    page.

    Times are a clock that the environment advances; the debounce of the search and
    the 30 second refresh are events that can happen while their timers are set, and a
    request that takes longer than [QUERY_TIMEOUT_MS] is aborted, which is an answer
    that never came ([NoAnswer]).  The code checks the number of a request when its
    status arrives and again when the body has; a body that is read makes its change
    only then, so one event stands for both. *)
From S2P Require Import Prelude.
From S2P Require Import JsString.
From S2P Require Import JsNumber.
From S2P Require Import JsJson.
From S2P Require Import Formatters.
From S2P Require Import TimeRange.
From S2P Require Import Ui.
From S2P Require Import Widgets.
From S2P Require Import Visuals.
Local Open Scope nat_scope.

Record Span : Type := {
  span_id : jsstr; trace_id : jsstr; parent_id : jsstr; span_project : jsstr; name : jsstr; kind : jsstr;
  model : option jsstr; start_time : jsstr; end_time : jsstr; cost_usd : num;
  input_tokens : num; output_tokens : num; input : option jsstr; output : option jsstr;
  status_code : option jsstr; span_count : option num; kind_counts : option (list (jsstr * num))
}.

Record SpanQueryResponse : Type := { r_spans : option (list Span); r_next : option jsstr; r_limit : num }.

Inductive query_value : Type :=
| QTexts (l : list jsstr)
| QText (s : jsstr)
| QNumber (n : num).

Record QueryFilter : Type := { field : jsstr; op_ : jsstr; value : query_value }.

(** ** Filters *)

(** A bound of a range is a number or the empty text. *)
Inductive filter_value : Type :=
| Values (l : list jsstr)
| Range (min max : option num).

(** A value with the identity of its object. *)
Record ref : Type := Ref { address : nat; contents : filter_value }.

Abbreviation FilterState := (list (jsstr * ref)).

Definition FILTER_SECTIONS : list jsstr :=
  [js "trace_name"; js "model"; js "kind"; js "status"; js "duration"; js "tokens"; js "cost"].

Definition FILTER_LABELS : list (jsstr * jsstr) :=
  [(js "trace_name", js "Trace Name"); (js "model", js "Model"); (js "kind", js "Kind");
   (js "status", js "Status Code"); (js "duration", js "Duration"); (js "tokens", js "Tokens"); (js "cost", js "Cost")].

Definition OBSERVATION_KINDS : list jsstr := [js "llm"; js "tool"; js "agent"; js "chain"].
Definition KNOWN_KINDS : list jsstr := [js "llm"; js "tool"; js "agent"; js "chain"].
Definition KNOWN_STATUS : list jsstr := [js "OK"; js "ERROR"; js "UNSET"].

Definition SPAN_KIND_LABELS : list (jsstr * jsstr) :=
  [(js "llm", js "LLM"); (js "tool", js "Tool"); (js "agent", js "Agent"); (js "chain", js "Chain");
   (js "internal", js "Internal")].

Definition DEFAULT_FILTERS : FilterState :=
  [(js "trace_name", Ref 0 (Values [])); (js "model", Ref 0 (Values [])); (js "kind", Ref 0 (Values []));
   (js "status", Ref 0 (Values [])); (js "duration", Ref 0 (Range None None));
   (js "tokens", Ref 0 (Range None None)); (js "cost", Ref 0 (Range None None))].

Record section_config : Type := { api_field : jsstr; api_op : jsstr; isRange : bool }.

Definition filterSectionConfig : list (jsstr * section_config) :=
  let config f o r := {| api_field := js f; api_op := js o; isRange := r |} in
  [(js "trace_name", config "name" "in" false); (js "model", config "model" "in" false);
   (js "kind", config "kind" "in" false); (js "status", config "status_code" "in" false);
   (js "duration", config "duration_ms" "gte" true); (js "tokens", config "input_tokens" "gte" true);
   (js "cost", config "cost_usd" "gte" true)]%string.

Definition QUERY_TIMEOUT_MS : Z := 30000.
Definition NARROW_TIME_RANGES : list jsstr := [js "1h"; js "6h"; js "1d"].

(** The filters of one section. *)
Definition section_filters (s : jsstr) (v : filter_value) : list QueryFilter :=
  match v with
  | Values l =>
    if bool_decide (0 < length l) then
      match prop_get s filterSectionConfig with
      | Some c => if isRange c then [] else [{| field := api_field c; op_ := api_op c; value := QTexts l |}]
      | None => []
      end
    else []
  | Range min max =>
    match prop_get s filterSectionConfig with
    | Some c =>
      if isRange c then
        match min with
        | Some n => [{| field := api_field c; op_ := api_op c; value := QNumber n |}]
        | None => []
        end
        ++ match max with
           | Some n =>
             [{| field := api_field c;
                 op_ := if bool_decide (api_op c = js "gte") then js "lte" else js "gte"; value := QNumber n |}]
           | None => []
           end
      else []
    | None => []
    end
  end.

Definition buildFiltersFromState (filterState : FilterState) : list QueryFilter :=
  filterState ≫= λ '(s, v), section_filters s (contents v).

(** What a free text field applies: its comma-separated entries. *)
Definition text_values (text : jsstr) : list jsstr := filter (λ s, truthy s = true) (trim <$> str_split 44%N text).
Definition values_text (l : list jsstr) : jsstr := str_join (js ", ") l.

Definition values_of (v : option ref) : list jsstr :=
  match v with Some (Ref _ (Values l)) => l | _ => [] end.
Definition range_of (v : option ref) : option num * option num :=
  match v with Some (Ref _ (Range min max)) => (min, max) | _ => (None, None) end.

(** [Array.from(new Set(l))]: each element once, where it is first. *)
Fixpoint unique (l : list jsstr) : list jsstr :=
  match l with [] => [] | x :: l => x :: filter (.≠ x) (unique l) end.

(** The entries of the model field, with the checked models that are known. *)
Definition merge_models (known checked typed : list jsstr) : list jsstr :=
  unique (filter (λ v, v ∈ known) checked ++ typed).

(** Ticking and unticking an option. *)
Definition toggle_option (option : jsstr) (l : list jsstr) : list jsstr :=
  if bool_decide (option ∈ l) then filter (.≠ option) l else l ++ [option].

(** A number field: its text is empty or a number. *)
Definition range_input (raw : jsstr) : option num :=
  if bool_decide (raw = []) then None else Some (num_max (of_Z 0) (parse_float raw)).

Definition formatRange (min max : option num) : jsstr :=
  match min, max with
  | None, None => []
  | _, _ => from_option show_num (js "0") min ++ js "–" ++ from_option show_num (js "∞") max
  end.

(** ** State *)

(** What [fetchSpans] depends on: when one of these changes, spans are fetched anew. *)
Record query : Type := Query {
  activeProject : jsstr;
  timeRange : option jsstr;
  pageSize : Z;
  debouncedQuery : jsstr;
  filterState : FilterState
}.
#[export] Instance query_eta : Eta query := λ q,
  Query (activeProject q) (timeRange q) (pageSize q) (debouncedQuery q) (filterState q).

Inductive query_state : Type := Pending | Resolved | Failed.

(** The component's hooks and properties, the text fields of its filter sections, and
    the clock.  Three fields are there for the theorems only: [rows_of] is the query
    whose answers the rows on the page are, if they are those of one query; [kept]
    says that a fresh query ended without a response that could be read, which leaves
    the earlier rows in place. *)
Record state : Type := State {
  deps : query;
  filters_address : nat;
  activeOverlayTraceId : option jsstr;
  spans : list Span;
  nextCursor : jsstr;
  loading : bool;
  queryState : query_state;
  searchQuery : jsstr;
  debouncing : bool;
  requestSeq : nat;
  autoRefresh : bool;
  columnVisibility : list (jsstr * bool);
  expandedFilters : list (jsstr * bool);
  bookmarks : list jsstr;
  showColumnsMenu : bool;
  selectedSpanIds : list jsstr;
  isBulkModalOpen : bool;
  nameInput : jsstr;
  modelInput : jsstr;
  knownModels : list jsstr;
  modelRun : nat;
  next_address : nat;
  clock : Z;
  rows_of : option query;
  kept : bool
}.
#[export] Instance state_eta : Eta state := λ s,
  State (deps s) (filters_address s) (activeOverlayTraceId s) (spans s) (nextCursor s) (loading s) (queryState s)
    (searchQuery s) (debouncing s) (requestSeq s) (autoRefresh s) (columnVisibility s) (expandedFilters s)
    (bookmarks s) (showColumnsMenu s) (selectedSpanIds s) (isBulkModalOpen s) (nameInput s) (modelInput s)
    (knownModels s) (modelRun s) (next_address s) (clock s) (rows_of s) (kept s).

Definition default_columns : list (jsstr * bool) :=
  [(js "bookmark", true); (js "timestamp", true); (js "name", true); (js "latency", true); (js "tokens", true);
   (js "cost", true); (js "input", false); (js "output", false); (js "observationLevels", false)].

Definition default_expanded : list (jsstr * bool) := [(js "trace_name", true)].

Definition initial (project : jsstr) (range overlay : option jsstr) (now : Z) : state :=
  State (Query project range 25 [] DEFAULT_FILTERS) 0 overlay [] [] false Pending [] false 0 false default_columns
    default_expanded [] false [] false [] [] [] 0 1 now None false.

Definition flag (k : jsstr) (l : list (jsstr * bool)) : bool := default false (prop_get k l).
Definition section_value (k : jsstr) (s : state) : option ref := prop_get k (filterState (deps s)).

(** ** Requests *)

Definition query_value_json (v : query_value) : json :=
  match v with QTexts l => JArr (JStr <$> l) | QText s => JStr s | QNumber n => JNum n end.
Definition filter_json (f : QueryFilter) : json :=
  JObj [(js "field", JStr (field f)); (js "op", JStr (op_ f)); (js "value", query_value_json (value f))].

Definition query_filters (q : query) : list QueryFilter :=
  (if truthy (debouncedQuery q)
   then [{| field := js "name"; op_ := js "contains"; value := QText (debouncedQuery q) |}] else [])
  ++ buildFiltersFromState (filterState q).

Definition query_body (q : query) (from to cursor : jsstr) : json :=
  JObj ([(js "project_id", JStr (activeProject q)); (js "from", JStr from); (js "to", JStr to);
         (js "limit", JNum (of_Z (pageSize q)))]
        ++ (if truthy cursor then [(js "cursor", JStr cursor)] else [])
        ++ (if bool_decide (query_filters q = []) then [] else [(js "filters", JArr (filter_json <$> query_filters q))])).

Definition models_body (q : query) (from to : jsstr) : json :=
  JObj [(js "project_id", JStr (activeProject q)); (js "from", JStr from); (js "to", JStr to);
        (js "group_by", JArr [JObj [(js "field", JStr (js "model"))]])].

(** The end of a list request that is still the latest one: the [finally] block. *)
Definition settle (seq : nat) (s : state) : state :=
  if bool_decide (seq = requestSeq s) then s <| loading := false |> else s.

(** The answer to the list request number [seq], which was made for [q]. *)
Definition spans_answer (q : query) (seq : nat) (append : bool) (a : answer SpanQueryResponse) (s : state) : state :=
  settle seq
    (if negb (bool_decide (seq = requestSeq s)) then s else
     match a with
     | NoAnswer _ => if append then s else s <| queryState := Failed |> <| kept := true |>
     | Answer status _ body =>
       if ok_status status then
         match body with
         | Err _ => if append then s else s <| kept := true |>
         | Ok data =>
           let rows := default [] (r_spans data) in
           (if append
            then s <| spans ::= λ l, l ++ rows |>
                   <| rows_of := match rows_of s with
                                 | Some q' => if kept s then None else Some q'
                                 | None => None
                                 end |>
            else s <| spans := rows |> <| rows_of := Some q |> <| kept := false |>)
           <| nextCursor := default [] (r_next data) |> <| queryState := Resolved |>
         end
       else if append then s
       else s <| spans := [] |> <| nextCursor := [] |> <| queryState := Failed |> <| rows_of := Some q |> <| kept := false |>
     end).

Definition models_answer (run : nat) (a : answer (option (list (option jsstr)))) (s : state) : state :=
  match ok_body a with
  | Some rows =>
    if bool_decide (run = modelRun s)
    then s <| knownModels := filter (λ m, truthy m = true) (omap id (default [] rows)) |>
    else s
  | None => s
  end.

(** The requests the page waits for. *)
Inductive waiting : Type :=
| WList (q : query) (body : json) (seq : nat) (append : bool)
| WModels (body : json) (run : nat)
| WBookmark (id : jsstr) (on : bool).

Definition post (url : jsstr) (body : json) : request := Request (js "POST") url (Some (stringify body)).

Definition program_of (w : waiting) : program state :=
  match w with
  | WList q body seq append =>
    Fetch SpanQueryResponse (post (js "/api/v1/spans/query") body) (λ a s, now (spans_answer q seq append a s))
  | WModels body run =>
    Fetch (option (list (option jsstr))) (post (js "/api/v1/analytics/spans") body) (λ a s, now (models_answer run a s))
  | WBookmark id on =>
    Fetch unit (post (js "/api/v1/traces/" ++ id ++ js "/bookmark") (JObj [(js "bookmarked", JBool on)])) (λ _ s, now s)
  end.

(** A preset that has no window throws within the [try], so only [finally] runs. *)
Definition fetchSpans (cursor : jsstr) (append : bool) (s : state) : state * list waiting :=
  let seq := S (requestSeq s) in
  let s := s <| requestSeq := seq |> <| loading := true |> in
  let s := if append then s else s <| queryState := Pending |> in
  let q := deps s in
  match presetToFromTo (timeRange q) (clock s) with
  | Some (from, to) => (s, [WList q (query_body q from to cursor) seq append])
  | None => (settle seq (if append then s else s <| kept := true |>), [])
  end.

Definition fetchDistinctModels (s : state) : state * list waiting :=
  let run := S (modelRun s) in
  let s := s <| modelRun := run |> in
  match presetToFromTo (timeRange (deps s)) (clock s) with
  | Some (from, to) => (s, [WModels (models_body (deps s) from to) run])
  | None => (s, [])
  end.

(** ** Handlers *)

Inductive op : Type :=
| Mounted
| SwitchProject (p : jsstr)
| SwitchTimeRange (r : option jsstr)
| ChangeOverlay (o : option jsstr)
| Tick (dt : Z)
| Search (t : jsstr)
| Debounced
| SetPageSize (n : Z)
| LoadNext
| Retry
| Refresh
| SetAutoRefresh (b : bool)
| ToggleFilter (section : jsstr)
| EditText (section t : jsstr)
| ApplyText (section : jsstr)
| ToggleOption (section option : jsstr)
| EditRange (section : jsstr) (is_min : bool) (t : jsstr)
| ApplyRange (section : jsstr)
| ClearFilters
| ToggleBookmark (trace : jsstr)
| ToggleColumn (k : jsstr)
| ToggleColumnsMenu
| CloseColumnsMenu
| SelectAll
| SelectRow (span : jsstr)
| OpenBulk
| CloseBulk
| BulkAdded
| OpenTrace (trace : jsstr)
| Arrow (down : bool)
| Copy (t : jsstr).

Definition nothing (s : state) : state * list waiting := (s, []).
Definition andthen (c : state * list waiting) (f : state → state * list waiting) : state * list waiting :=
  let '(s, ws) := c in let '(s', ws') := f s in (s', ws ++ ws').

(** The effect of changed dependencies. *)
Definition refetch (s : state) : state * list waiting := fetchSpans [] false s.

Definition is_model (section : jsstr) : bool := bool_decide (section = js "model").
Definition model_shown (s : state) : bool := flag (js "model") (expandedFilters s).

(** The project or the time range changed: the model field, if shown, looks for models
    again, and the page for spans. *)
Definition changed (q : query) (s : state) : state * list waiting :=
  let s := s <| deps := q |> in
  andthen (if model_shown s then fetchDistinctModels s else nothing s) refetch.

Definition set_toggle (x : jsstr) (l : list jsstr) : list jsstr :=
  if bool_decide (x ∈ l) then filter (.≠ x) l else l ++ [x].

(** The text of a section's field is set when the field is mounted, and again whenever
    the value of the section is another object. *)
Definition reset_input (section : jsstr) (s : state) : state :=
  let text := values_text (values_of (section_value section s)) in
  if bool_decide (section = js "trace_name") then s <| nameInput := text |>
  else if is_model section then s <| modelInput := text |> else s.

Definition input_text (section : jsstr) (s : state) : jsstr := if is_model section then modelInput s else nameInput s.

Definition toggleFilter (section : jsstr) (s : state) : state * list waiting :=
  let shown := negb (flag section (expandedFilters s)) in
  let s := s <| expandedFilters ::= prop_set section shown |> in
  if shown then
    let s := reset_input section s in
    if is_model section then fetchDistinctModels (s <| knownModels := [] |>) else nothing s
  else if is_model section then nothing (s <| modelRun ::= S |>) else nothing s.

Definition applyFilter (section : jsstr) (v : filter_value) (s : state) : state * list waiting :=
  let n := next_address s in
  let s := s <| deps ::= λ q, q <| filterState ::= prop_set section (Ref n v) |> |>
             <| filters_address := n |> <| next_address := S n |> in
  refetch (reset_input section s).

Definition same_object (a b : option ref) : bool := bool_decide (address <$> a = address <$> b).

(** Only the name section stays open; its field is mounted again, or it is reset if
    the default value is another object than the section's. *)
Definition clearFilters (s : state) : state * list waiting :=
  let keep := flag (js "trace_name") (expandedFilters s)
              && same_object (section_value (js "trace_name") s) (prop_get (js "trace_name") DEFAULT_FILTERS) in
  let cancel := model_shown s in
  let pristine := bool_decide (filters_address s = 0) in
  let s := s <| deps ::= λ q, q <| filterState := DEFAULT_FILTERS |> |> <| filters_address := 0 |>
             <| expandedFilters := default_expanded |> in
  let s := if keep then s else s <| nameInput := [] |> in
  let s := if cancel then s <| modelRun ::= S |> else s in
  if pristine then nothing s else refetch s.

Definition applied_text (section : jsstr) (s : state) : filter_value :=
  let typed := text_values (input_text section s) in
  if is_model section then Values (merge_models (knownModels s) (values_of (section_value section s)) typed)
  else Values typed.

Definition edited_range (section : jsstr) (is_min : bool) (t : jsstr) (s : state) : filter_value :=
  let '(min, max) := range_of (section_value section s) in
  if is_min then Range (range_input t) max else Range min (range_input t).

Definition handleSelectAll (s : state) : state :=
  if bool_decide (length (selectedSpanIds s) = length (spans s)) then s <| selectedSpanIds := [] |>
  else s <| selectedSpanIds := unique (span_id <$> spans s) |>.

Definition toggleBookmark (trace : jsstr) (s : state) : state * list waiting :=
  let s := s <| bookmarks ::= set_toggle trace |> in
  (s, [WBookmark trace (bool_decide (trace ∈ bookmarks s))]).

(** The row of the trace that is shown in the overlay. *)
Definition overlay_row (s : state) : option nat :=
  o ← activeOverlayTraceId s; fst <$> list_find (λ p, trace_id p = o) (spans s).

Definition handleKeyDown (down : bool) (s : state) : state :=
  if truthy_opt (activeOverlayTraceId s) then
    match overlay_row s with
    | Some i =>
      let next := if down then Some (S i) else match i with O => None | S j => Some j end in
      match next ≫= (λ j, spans s !! j) with
      | Some p => s <| activeOverlayTraceId := Some (trace_id p) |>
      | None => s
      end
    | None => s
    end
  else s.

Definition handle (o : op) (s : state) : state * list waiting :=
  match o with
  | Mounted => refetch (reset_input (js "trace_name") s)
  | SwitchProject p => if bool_decide (p = activeProject (deps s)) then nothing s else changed (deps s <| activeProject := p |>) s
  | SwitchTimeRange r => if bool_decide (r = timeRange (deps s)) then nothing s else changed (deps s <| timeRange := r |>) s
  | ChangeOverlay o => nothing (s <| activeOverlayTraceId := o |>)
  | Tick dt => nothing (s <| clock ::= λ t, (t + Z.max 0 dt)%Z |>)
  | Search t => nothing (if bool_decide (t = searchQuery s) then s else s <| searchQuery := t |> <| debouncing := true |>)
  | Debounced =>
    let s' := s <| debouncing := false |> in
    if bool_decide (searchQuery s = debouncedQuery (deps s)) then nothing s'
    else refetch (s' <| deps ::= λ q, q <| debouncedQuery := searchQuery s |> |>)
  | SetPageSize n =>
    if bool_decide (n = pageSize (deps s)) then nothing s
    else refetch (s <| deps ::= λ q, q <| pageSize := n |> |>)
  | LoadNext => fetchSpans (nextCursor s) true s
  | Retry | Refresh => fetchSpans [] false s
  | SetAutoRefresh b => nothing (s <| autoRefresh := b |>)
  | ToggleFilter section => toggleFilter section s
  | EditText section t => nothing (if is_model section then s <| modelInput := t |> else s <| nameInput := t |>)
  | ApplyText section => applyFilter section (applied_text section s) s
  | ToggleOption section option => applyFilter section (Values (toggle_option option (values_of (section_value section s)))) s
  | EditRange section is_min t => applyFilter section (edited_range section is_min t s) s
  | ApplyRange section => let '(min, max) := range_of (section_value section s) in applyFilter section (Range min max) s
  | ClearFilters => clearFilters s
  | ToggleBookmark trace => toggleBookmark trace s
  | ToggleColumn k => nothing (s <| columnVisibility ::= λ l, prop_set k (negb (flag k l)) l |>)
  | ToggleColumnsMenu => nothing (s <| showColumnsMenu ::= negb |>)
  | CloseColumnsMenu => nothing (s <| showColumnsMenu := false |>)
  | SelectAll => nothing (handleSelectAll s)
  | SelectRow span => nothing (s <| selectedSpanIds ::= set_toggle span |>)
  | OpenBulk => nothing (s <| isBulkModalOpen := true |>)
  | CloseBulk => nothing (s <| isBulkModalOpen := false |>)
  | BulkAdded => fetchSpans [] false (s <| selectedSpanIds := [] |> <| isBulkModalOpen := false |>)
  | OpenTrace trace => nothing (s <| activeOverlayTraceId := Some trace |>)
  | Arrow down => nothing (handleKeyDown down s)
  | Copy _ => nothing s
  end.

Definition run (o : op) (s : state) : outcome state := let '(s', ws) := handle o s in (s', program_of <$> ws).

(** ** Views *)

Section views.
Context `{DateHost} (to_locale : num → jsstr) (copied : jsstr → bool).

Definition upper3 (k : jsstr) : jsstr := to_upper (take 3 k).

Definition ObservationPills (kindCounts : option (list (jsstr * num))) : list (view op) :=
  match kindCounts with
  | Some ((_ :: _) as l) =>
    [El "div" []
       ((λ '(k, c),
          let label := default (upper3 k) (prop_get k SPAN_KIND_LABELS) in
          El "span" [Attr "title" (label ++ js " " ++ show_num c)] [Text (upper3 k ++ js " " ++ show_num c)]) <$> l)]
  | _ => []
  end.

Definition BookmarkStar (starred : bool) (onClick : op) : view op :=
  El "button" [On "click" onClick; Attr "title" (if starred then js "Remove bookmark" else js "Bookmark this trace")]
    [El "svg" [] []].

Definition TextFilter (section input : jsstr) (placeholder : string) : view op :=
  El "div" []
    [El "input" [Attr "value" input; OnValue "change" (EditText section); Attr "placeholder" (js placeholder)] [];
     El "button" [On "click" (ApplyText section)] [txt "Apply"]].

Definition CheckboxFilter (section : jsstr) (options : list jsstr) (labels : list (jsstr * jsstr)) (value : list jsstr) : view op :=
  El "div" []
    ((λ o, El "label" []
             [El "input" [Flag "checked" (bool_decide (o ∈ value)); On "change" (ToggleOption section o)] [];
              El "span" [] [Text (default o (prop_get o labels))]]) <$> options).

Definition ModelFilter (s : state) (value : list jsstr) : view op :=
  El "div" []
    (when (bool_decide (0 < length (knownModels s))) (CheckboxFilter (js "model") (knownModels s) [] value)
     ++ [TextFilter (js "model") (modelInput s) "e.g. gpt-4, claude-3…"]).

Definition range_unit (name : jsstr) : jsstr :=
  if bool_decide (name = js "duration") then js " (ms)" else if bool_decide (name = js "cost") then js " ($)" else [].

Definition RangeFilterField (name : jsstr) (min max : option num) : view op :=
  let bound is_min label v :=
    El "div" []
      [El "span" [] [Text (label ++ range_unit name)];
       El "input" [Attr "value" (from_option show_num [] v); OnValue "change" (EditRange name is_min)] []] in
  El "div" []
    [El "div" [] [bound true (js "Min") min; El "span" [] [txt "—"]; bound false (js "Max") max];
     El "button" [On "click" (ApplyRange name)] [txt "Apply"]].

Definition FilterSection (s : state) (name : jsstr) : view op :=
  let value := section_value name s in
  let chosen := values_of value in
  let '(min, max) := range_of value in
  let is_range := match value with Some (Ref _ (Range _ _)) => true | _ => false end in
  El "div" []
    (El "button" [On "click" (ToggleFilter name)]
       [El "span" [] [Text (default name (prop_get name FILTER_LABELS))];
        El "span" []
          (when is_range (El "span" [] [Text (formatRange min max)])
           ++ when (negb is_range && bool_decide (0 < length chosen))
                (El "span" [] [Text (show_Z (Z.of_nat (length chosen)) ++ js " selected")])
           ++ [El "svg" [] []])]
     :: when (flag name (expandedFilters s))
          (El "div" []
             [if is_model name then ModelFilter s chosen else
              if bool_decide (name = js "trace_name") then TextFilter name (nameInput s) "Search trace names…" else
              if bool_decide (name = js "kind") then CheckboxFilter name KNOWN_KINDS [] chosen else
              if bool_decide (name = js "status") then CheckboxFilter name KNOWN_STATUS [(js "UNSET", js "Unset")] chosen
              else RangeFilterField name min max])).

Definition COLUMNS : list (jsstr * jsstr) :=
  [(js "selection", []); (js "bookmark", []); (js "timestamp", js "Timestamp"); (js "name", js "Name");
   (js "latency", js "Latency"); (js "tokens", js "Tokens"); (js "cost", js "Cost"); (js "input", js "Input");
   (js "output", js "Output"); (js "observationLevels", js "Levels")].

Definition column_visible (s : state) (k : jsstr) : bool :=
  bool_decide (k = js "selection") || flag k (columnVisibility s).

Definition visibleColumns (s : state) : list (jsstr * jsstr) := filter (λ c, column_visible s c.1 = true) COLUMNS.

Definition preview (v : option jsstr) : jsstr :=
  match v with Some t => if truthy t then formatJsonPreview t 40 else js "—" | None => js "—" end.

Definition TableCellRenderer (s : state) (p : Span) (k : jsstr) : list (view op) :=
  let col c := bool_decide (k = js c) in
  if col "bookmark"%string then [BookmarkStar (bool_decide (trace_id p ∈ bookmarks s)) (ToggleBookmark (trace_id p))] else
  if col "timestamp"%string then [El "span" [] [Text (formatTimeWithYear (clock s) (start_time p))]] else
  if col "name"%string then
    [El "button" [On "click" (OpenTrace (trace_id p)); Attr "title" (js "View trace")]
       [El "div" [] [El "span" [Attr "title" (kind p)] (when_some (SpanKindIcon (kind p)) id); El "span" [] [Text (name p)]];
        El "div" [] [Text (take 12 (trace_id p) ++ js "…")]]] else
  if col "input"%string then [El "div" [] [Text (preview (input p))]] else
  if col "output"%string then [El "div" [] [Text (preview (output p))]] else
  if col "observationLevels"%string then ObservationPills (kind_counts p) else
  if col "latency"%string then [El "span" [] [Text (formatDuration (start_time p) (end_time p))]] else
  if col "tokens"%string then
    [El "span" []
       [Text (to_locale (totalTokens {| Formatters.input_tokens := input_tokens p; Formatters.output_tokens := output_tokens p |}));
        El "span" [] [Text (js "(" ++ show_num (num_max (of_Z 0) (input_tokens p)) ++ js "+"
                            ++ show_num (num_max (of_Z 0) (output_tokens p)) ++ js ")")]]] else
  if col "cost"%string then [El "span" [] [Text (formatCost (Some (cost_usd p)))]] else [].

Definition PAGE_SIZES : list Z := [10; 25; 50; 100]%Z.

Definition PaginationControls (s : state) : view op :=
  let hasMore := truthy (nextCursor s) in
  El "div" []
    [El "div" []
       [El "span" [] [txt "Rows per page:"];
        El "select" [Attr "value" (show_Z (pageSize (deps s)))]
          ((λ n, El "option" [On "change" (SetPageSize n)] [Text (show_Z n)]) <$> PAGE_SIZES)];
     El "div" []
       [El "button" [Flag "disabled" (loading s || negb hasMore); On "click" LoadNext]
          [txt (if loading s then "Loading..." else if hasMore then "Load Next Page" else "No more data")%string]]].

Definition Toolbar (s : state) : view op :=
  let toggle '(k, l) :=
    El "button" [On "click" (ToggleColumn k); Attr "aria-label" (js "Toggle " ++ l ++ js " column")]
      [El "span" [] (when (flag k (columnVisibility s)) (El "svg" [] [])); El "span" [] [Text l]] in
  let toggles := toggle <$> filter (λ c, c.1 ≠ js "bookmark") COLUMNS in
  El "div" []
    ([El "input" [Attr "placeholder" (js "Search by ID/Name..."); Attr "value" (searchQuery s); OnValue "change" Search] [];
      El "label" [] [El "input" [Flag "checked" (autoRefresh s); On "change" (SetAutoRefresh (negb (autoRefresh s)))] [];
                     El "span" [] [txt "30s"]]]
     ++ when (bool_decide (0 < length (selectedSpanIds s)))
          (El "button" [On "click" OpenBulk; Attr "aria-label" (js "Add to dataset")]
             [Text (js "Add to dataset (" ++ show_Z (Z.of_nat (length (selectedSpanIds s))) ++ js ")")])
     ++ [El "div" []
           ([El "div" [] toggles;
             El "button" [On "click" ToggleColumnsMenu; Attr "aria-label" (js "Column visibility")] [txt "Columns"]]
            ++ when (showColumnsMenu s)
                 (El "div" [] (toggles ++ [El "div" [] [El "button" [On "click" CloseColumnsMenu] [txt "Close"]]])))]).

Definition hasActiveFilters (s : state) : bool := bool_decide (0 < length (buildFiltersFromState (filterState (deps s)))).
Definition isNarrowTimeRange (s : state) : bool := bool_decide (default [] (timeRange (deps s)) ∈ NARROW_TIME_RANGES).

Definition no_rows (s : state) : bool := bool_decide (length (spans s) = 0).
Definition failed (s : state) : bool := match queryState s with Failed => true | _ => false end.
Definition resolved (s : state) : bool := match queryState s with Resolved => true | _ => false end.

Definition span_row (s : state) (p : Span) : view op :=
  El "tr" []
    ((λ c, if bool_decide (c.1 = js "selection")
           then El "td" [] [El "input" [Flag "checked" (bool_decide (span_id p ∈ selectedSpanIds s));
                                        On "change" (SelectRow (span_id p)); Attr "aria-label" (js "Select trace " ++ name p)] []]
           else El "td" [] (TableCellRenderer s p c.1)) <$> visibleColumns s).

Definition span_table (s : state) : view op :=
  El "table" []
    [El "thead" []
       [El "tr" []
          ((λ c, if bool_decide (c.1 = js "selection")
                 then El "th" [] [El "input" [Flag "checked" (bool_decide (0 < length (spans s)
                                                               ∧ length (selectedSpanIds s) = length (spans s)));
                                              On "change" SelectAll; Attr "aria-label" (js "Select all traces")] []]
                 else El "th" [] [Text c.2]) <$> visibleColumns s)];
     El "tbody" [] (span_row s <$> spans s)].

(** What the page shows in the place of the rows. *)
Definition content (s : state) : view op :=
  if failed s && no_rows s then
    El "div" []
      [ErrorBanner (js "Failed to load traces. The query timed out or the server returned an error.") None (Some Retry) (js "Retry")]
  else if no_rows s && resolved s then
    if truthy (searchQuery s) then
      EmptyState search (Some (js "No results found")) (Some (js "No traces match " ++ [c_quote] ++ searchQuery s ++ [c_quote]))
        (Some (js "Clear Search")) (Some (Search []))
    else if hasActiveFilters s || isNarrowTimeRange s then
      EmptyState search (Some (js "No matching traces")) (Some (js "No traces match your filters or time range")) None None
    else OnboardingEmptyState copied Copy
  else if no_rows s then El "div" [] (replicate 8 Skeleton)
  else span_table s.

Definition render (s : state) : view op :=
  El "div" []
    [El "div" []
       [El "div" [] [El "h3" [] [txt "Filters"]];
        El "div" [] (FilterSection s <$> FILTER_SECTIONS);
        El "div" [] [El "button" [On "click" ClearFilters] [txt "Clear All Filters"]]];
     El "div" []
       ([Toolbar s; El "div" [] [content s]; PaginationControls s]
        ++ when (isBulkModalOpen s)
             (El "BulkAddToDatasetModal" [Callback "onClose" (λ o, o = CloseBulk); Callback "onSuccess" (λ o, o = BulkAdded)] []))].

(** Drawing the name of a span whose kind cannot be drawn throws; the application's error
    boundary then takes the place of the page. *)
Definition render_throws (s : state) : bool :=
  negb (no_rows s) && column_visible s (js "name") && existsb (λ p, negb (kind_drawn (kind p))) (spans s).

(** What can happen: the parent changes its properties, time passes, a timer fires, or
    the user does what the page offers. *)
Definition legal (o : op) (s : state) : Prop :=
  render_throws s = false
  ∧ match o with
    | SwitchProject _ | SwitchTimeRange _ | ChangeOverlay _ | Tick _ => True
    | Mounted => requestSeq s = 0
    | Debounced => debouncing s = true
    | Refresh => autoRefresh s = true
    | Arrow _ => truthy_opt (activeOverlayTraceId s) = true
    | _ => offers (render s) o
    end.
End views.
