(* ===== verification/TracesProps.v ===== *)
(** The trace list keeps to its latest request: what every reachable state of the page
    of [Traces] satisfies, and a specification without request numbers it refines. *)
From S2P Require Import Prelude.
From S2P Require Import JsString.
From S2P Require Import JsNumber.
From S2P Require Import JsJson.
From S2P Require Import Formatters.
From S2P Require Import TimeRange.
From S2P Require Import Ui.
From S2P Require Import Widgets.
From S2P Require Import Visuals.
From S2P Require Import Traces.
Local Open Scope nat_scope.

(** ** The latest request *)

(** The list requests among those the page waits for. *)
Definition lists (ws : list waiting) : list (query * nat * bool) :=
  omap (λ w, match w with WList q _ n append => Some (q, n, append) | _ => None end) ws.

Definition in_flight (s : state) (ls : list (query * nat * bool)) (append : bool) : Prop :=
  (deps s, requestSeq s, append) ∈ ls.

(** The rows are those of the page's query, or were kept when a fresh query failed. *)
Definition rows_known (s : state) : Prop := kept s = true ∨ rows_of s = Some (deps s).

Record consistent (s : state) (ls : list (query * nat * bool)) : Prop := {
  numbers_differ : NoDup ls.*1.*2;
  numbers_bounded : ∀ q n b, (q, n, b) ∈ ls → n ≤ requestSeq s ∧ (n = requestSeq s → q = deps s);
  loading_iff : loading s = true ↔ requestSeq s ∈ ls.*1.*2;
  resolved_rows : queryState s = Resolved → rows_known s;
  pending_fresh : queryState s = Pending → kept s = true ∨ nextCursor s = [] ∨ in_flight s ls false;
  failed_rows : queryState s = Failed → kept s = true ∨ nextCursor s = [];
  append_rows : in_flight s ls true → rows_known s
}.

(** What consistency is about, the query apart. *)
Definition tracked (s : state) := (spans s, nextCursor s, loading s, queryState s, requestSeq s, rows_of s, kept s).

Lemma consistent_ext s s' ls : deps s' = deps s → tracked s' = tracked s → consistent s ls → consistent s' ls.
Proof.
  unfold tracked. intros Ed E [H1 H2 H3 H4 H5 H6 H7]. injection E as E0 E1 E2 E3 E4 E5 E6.
  split; unfold in_flight, rows_known in *; rewrite ?Ed, ?E1, ?E2, ?E3, ?E4, ?E5, ?E6; assumption.
Qed.

Lemma lists_app ws ws' : lists (ws ++ ws') = lists ws ++ lists ws'.
Proof. apply omap_app. Qed.

Lemma number_in (ls : list (query * nat * bool)) q n b : (q, n, b) ∈ ls → n ∈ ls.*1.*2.
Proof. intros H. apply list_elem_of_fmap. exists (q, n). split; [done|]. apply list_elem_of_fmap. by exists (q, n, b). Qed.

Lemma number_out (ls : list (query * nat * bool)) n : n ∈ ls.*1.*2 → ∃ q b, (q, n, b) ∈ ls.
Proof.
  intros ([q m] & -> & ([[q' m'] b] & E & H)%list_elem_of_fmap)%list_elem_of_fmap. simpl in E. simplify_eq. eauto.
Qed.

Section numbers.
Context (s : state) (ls : list (query * nat * bool)).
Hypothesis (Hc : consistent s ls).

Lemma next_is_new q n b : (q, n, b) ∈ ls → n ≠ S (requestSeq s).
Proof using Hc. intros H. pose proof (proj1 (numbers_bounded _ _ Hc _ _ _ H)). lia. Qed.

Lemma next_not_in : S (requestSeq s) ∉ ls.*1.*2.
Proof using Hc. intros (q & b & H)%number_out. by eapply next_is_new. Qed.

Lemma add_number q b : NoDup (ls ++ [(q, S (requestSeq s), b)]).*1.*2.
Proof using Hc.
  rewrite !fmap_app. apply NoDup_app. split; [apply Hc|]. split; [|apply NoDup_singleton].
  intros n Hn ->%list_elem_of_singleton. by apply next_not_in.
Qed.

(** A fresh request, for whatever query the page has now. *)
Lemma fresh_consistent s' cursor :
  tracked s' = tracked s → consistent (fetchSpans cursor false s').1 (ls ++ lists (fetchSpans cursor false s').2).
Proof using Hc.
  intros E. unfold tracked in E. injection E as E0 E1 E2 E3 E4 E5 E6.
  unfold fetchSpans. cbv zeta. destruct (presetToFromTo _ _) as [[from to]|]; cbn [fst snd lists omap list_omap].
  - split; unfold in_flight; cbn.
    + rewrite E4. apply add_number.
    + rewrite E4. intros q n b [H|H%list_elem_of_singleton]%elem_of_app; [|by simplify_eq].
      split; [pose proof (proj1 (numbers_bounded _ _ Hc _ _ _ H)); lia|]. intros ->. by apply next_is_new in H.
    + split; [|done]. intros _. rewrite !fmap_app. apply elem_of_app. right. simpl. left.
    + done.
    + intros _. right. right. apply elem_of_app. right. left.
    + done.
    + rewrite E4. intros [H|H%list_elem_of_singleton]%elem_of_app; [by apply next_is_new in H|done].
  - rewrite app_nil_r. unfold settle. cbn. rewrite bool_decide_true by done.
    split; unfold in_flight, rows_known; cbn; auto.
    + apply Hc.
    + rewrite E4. intros q n b H. split; [pose proof (proj1 (numbers_bounded _ _ Hc _ _ _ H)); lia|].
      intros ->. by apply next_is_new in H.
    + split; [done|]. rewrite E4. intros []%next_not_in.
Qed.

(** The next page, asked for when nothing is loading and there is one. *)
Lemma append_consistent cursor :
  loading s = false → nextCursor s ≠ [] →
  consistent (fetchSpans cursor true s).1 (ls ++ lists (fetchSpans cursor true s).2).
Proof using Hc.
  intros Hl Hn.
  assert (requestSeq s ∉ ls.*1.*2) as Hidle by (rewrite <- (loading_iff _ _ Hc), Hl; done).
  assert (rows_known s) as Hrows.
  { destruct (queryState s) eqn:E.
    - destruct (pending_fresh _ _ Hc E) as [?|[?|H]]; [by left|done|]. by apply number_in in H.
    - by apply (resolved_rows _ _ Hc).
    - destruct (failed_rows _ _ Hc E) as [?|?]; [by left|done]. }
  unfold fetchSpans. cbv zeta. destruct (presetToFromTo _ _) as [[from to]|]; cbn [fst snd lists omap list_omap].
  - split; unfold in_flight; cbn.
    + apply add_number.
    + intros q n b [H|H%list_elem_of_singleton]%elem_of_app; [|by simplify_eq].
      split; [pose proof (proj1 (numbers_bounded _ _ Hc _ _ _ H)); lia|]. intros ->. by apply next_is_new in H.
    + split; [|done]. intros _. rewrite !fmap_app. apply elem_of_app. right. simpl. left.
    + intros _. exact Hrows.
    + intros E. destruct (pending_fresh _ _ Hc E) as [?|[?|H]]; [by left|done|]. by apply number_in in H.
    + apply (failed_rows _ _ Hc).
    + intros _. exact Hrows.
  - rewrite app_nil_r. unfold settle. cbn. rewrite bool_decide_true by done.
    split; unfold in_flight, rows_known; cbn.
    + apply Hc.
    + intros q n b H. split; [pose proof (proj1 (numbers_bounded _ _ Hc _ _ _ H)); lia|].
      intros ->. by apply next_is_new in H.
    + split; [done|]. intros []%next_not_in.
    + intros _. exact Hrows.
    + intros E. destruct (pending_fresh _ _ Hc E) as [?|[?|H]]; [by left|done|]. by apply number_in in H.
    + apply (failed_rows _ _ Hc).
    + intros H. by apply next_is_new in H.
Qed.
End numbers.

Section answered.
Context (s : state) (l1 l2 : list (query * nat * bool)) (q : query) (n : nat) (b : bool).
Hypothesis (Hc : consistent s (l1 ++ (q, n, b) :: l2)).

Lemma rest_in x : x ∈ l1 ++ l2 → x ∈ l1 ++ (q, n, b) :: l2.
Proof. rewrite !elem_of_app, elem_of_cons. tauto. Qed.

Lemma rest_numbers : NoDup (l1 ++ l2).*1.*2 ∧ n ∉ (l1 ++ l2).*1.*2.
Proof using Hc.
  pose proof (numbers_differ _ _ Hc) as H. rewrite !fmap_app, !fmap_cons in *.
  assert ((l1.*1.*2 ++ n :: l2.*1.*2) ≡ₚ n :: l1.*1.*2 ++ l2.*1.*2) as E by (symmetry; apply Permutation_middle).
  simpl in H. rewrite E in H. apply NoDup_cons in H. tauto.
Qed.

(** An answer to another request than the latest changes nothing. *)
Lemma outdated_answer append a s' : n ≠ requestSeq s' → spans_answer q n append a s' = s'.
Proof.
  intros Hn. unfold spans_answer, settle. rewrite (bool_decide_false (n = requestSeq s')) by done. cbn [negb].
  by rewrite bool_decide_false by done.
Qed.

Lemma outdated_consistent : n ≠ requestSeq s → consistent s (l1 ++ l2).
Proof using Hc.
  intros Hn. destruct rest_numbers as [Hnd Hni]. split.
  - done.
  - intros q' n' b' H%rest_in. by apply (numbers_bounded _ _ Hc) in H.
  - rewrite (loading_iff _ _ Hc), !fmap_app, !fmap_cons, !elem_of_app, elem_of_cons. simpl. naive_solver.
  - apply Hc.
  - intros E. destruct (pending_fresh _ _ Hc E) as [?|[?|H]]; [by left|by right; left|right; right].
    unfold in_flight in *. rewrite elem_of_app, elem_of_cons in H. rewrite elem_of_app. naive_solver.
  - apply Hc.
  - intros H%rest_in. by apply (append_rows _ _ Hc).
Qed.

(** What the answer to the latest request leaves behind. *)
Lemma settled_consistent s' :
  n = requestSeq s → requestSeq s' = requestSeq s → deps s' = deps s → loading s' = false →
  (queryState s' = Resolved → rows_known s') →
  (queryState s' = Pending → kept s' = true ∨ nextCursor s' = []) →
  (queryState s' = Failed → kept s' = true ∨ nextCursor s' = []) →
  consistent s' (l1 ++ l2).
Proof using Hc.
  intros Hn Es Ed El Hr Hp Hf. destruct rest_numbers as [Hnd Hni].
  assert (requestSeq s' ∉ (l1 ++ l2).*1.*2) as Hidle by by rewrite Es, <- Hn.
  split; try assumption.
  - rewrite Es, Ed. intros q' n' b' H%rest_in. by apply (numbers_bounded _ _ Hc) in H.
  - by rewrite El.
  - intros E. destruct (Hp E); auto.
  - by intros []%number_in%Hidle.
Qed.

Lemma answer_consistent a : consistent (spans_answer q n b a s) (l1 ++ l2).
Proof using Hc.
  destruct (decide (n = requestSeq s)) as [Hn|Hn]; [|rewrite outdated_answer by done; by apply outdated_consistent].
  assert (q = deps s) as Hq.
  { apply (numbers_bounded _ _ Hc q n b); [|done]. apply elem_of_app. right. left. }
  assert (b = true → rows_known s) as Happ.
  { intros E. apply (append_rows _ _ Hc). unfold in_flight. rewrite <- Hn, <- Hq. apply elem_of_app. right. rewrite E. left. }
  assert (b = true → queryState s = Pending → kept s = true ∨ nextCursor s = []) as Hpend.
  { intros Eb E. destruct (pending_fresh _ _ Hc E) as [?|[?|H]]; [by left|by right|]. exfalso.
    destruct rest_numbers as [_ Hni]. apply Hni. unfold in_flight in H. rewrite elem_of_app, elem_of_cons in H.
    rewrite Hn. apply (number_in _ (deps s) _ false). rewrite elem_of_app. naive_solver. }
  pose proof (failed_rows _ _ Hc) as Hfail. pose proof (resolved_rows _ _ Hc) as Hres.
  pose proof settled_consistent as Hset. clear Hc.
  unfold spans_answer. rewrite bool_decide_true by done. cbn [negb].
  assert (∀ t, requestSeq t = requestSeq s → settle n t = t <| loading := false |>) as Hsettle.
  { intros t Et. unfold settle. by rewrite bool_decide_true by by rewrite Et. }
  destruct a as [status text body|m]; [destruct (ok_status status); [destruct body as [data|e]|]|];
    destruct b; rewrite Hsettle by done; apply Hset; try done; unfold rows_known in *; cbn; auto.
  - intros _. destruct (Happ eq_refl) as [->| ->]; [by left|]. destruct (kept s); auto.
  - rewrite Hq. auto.
Qed.
End answered.

(** ** The page *)

Section page.
Context `{DateHost} (to_locale : num → jsstr) (copied : jsstr → bool).
Let legal := legal to_locale copied.

(** The next page is offered only when nothing is loading and there is one. *)
Definition fair (s : state) (o : op) : Prop := o = LoadNext → loading s = false ∧ nextCursor s ≠ [].

Lemma pagination_fair s : emits (fair s) (PaginationControls s).
Proof.
  unfold PaginationControls. cbv zeta. apply emits_el; [constructor|]. apply Forall_cons. split.
  { emit. }
  apply Forall_singleton, emits_el; [constructor|]. apply Forall_singleton.
  destruct (loading s || negb (truthy (nextCursor s))) eqn:E.
  { apply emits_disabled; [done|by repeat constructor|emit]. }
  apply orb_false_iff in E as [E1 E2]. emit.
  split; [done|]. by destruct (nextCursor s).
Qed.

Lemma sections_fair s section : emits (fair s) (FilterSection s section).
Proof.
  unfold FilterSection, ModelFilter, TextFilter, CheckboxFilter, RangeFilterField.
  destruct (range_of _) as [min max]. emit.
Qed.

Lemma toolbar_fair s : emits (fair s) (Toolbar s).
Proof. unfold Toolbar. cbv zeta. emit. Qed.

Lemma content_fair s : emits (fair s) (content to_locale copied s).
Proof.
  unfold content, ErrorBanner, EmptyState, OnboardingEmptyState, onboarding_step, CopyButton, span_table, span_row,
    TableCellRenderer, BookmarkStar, ObservationPills, Skeleton. emit.
  - simplify_eq. done.
  - apply Forall_replicate, emits_el; constructor.
  - eapply emits_icon; eassumption.
Qed.

Lemma load_next_fair s : legal LoadNext s → loading s = false ∧ nextCursor s ≠ [].
Proof.
  intros [_ Hl]. enough (emits (fair s) (render to_locale copied s)) as He by by apply (He _ Hl).
  unfold render. apply emits_el; [constructor|]. repeat apply Forall_cons_2; [| |constructor].
  - apply emits_el; [constructor|]. repeat apply Forall_cons_2; [emit| |emit|constructor].
    apply emits_el; [constructor|]. apply emits_map. intros k _. apply sections_fair.
  - apply emits_el; [constructor|]. apply Forall_app_2; [|emit].
    + repeat apply Forall_cons_2; [apply toolbar_fair| |apply pagination_fair|constructor].
      apply emits_el; [constructor|]. apply Forall_singleton, content_fair.
    + by subst.
    + by subst.
Qed.
(** A handler that leaves the list alone. *)
Definition quiet (s : state) (c : state * list waiting) : Prop :=
  deps c.1 = deps s ∧ tracked c.1 = tracked s ∧ lists c.2 = [].

(** A handler that ends with a fresh request for the rows. *)
Definition refreshes (s : state) (c : state * list waiting) : Prop :=
  ∃ s' ws, tracked s' = tracked s ∧ lists ws = []
  ∧ c = ((fetchSpans [] false s').1, ws ++ (fetchSpans [] false s').2).

Lemma quiet_consistent s ls c : quiet s c → consistent s ls → consistent c.1 (ls ++ lists c.2).
Proof. intros (E1 & E2 & ->). rewrite app_nil_r. by apply consistent_ext. Qed.

Lemma refreshes_consistent s ls c : refreshes s c → consistent s ls → consistent c.1 (ls ++ lists c.2).
Proof.
  intros (s' & ws & Et & Ew & ->) Hc. cbn [fst snd]. rewrite lists_app, Ew. cbn [app].
  by eapply fresh_consistent.
Qed.

Lemma refetch_refreshes s s' ws : tracked s' = tracked s → lists ws = [] → refreshes s (andthen (s', ws) refetch).
Proof.
  intros Et Ew. exists s', ws. split; [done|]. split; [done|]. unfold andthen, refetch. by destruct (fetchSpans [] false s').
Qed.

Lemma just_refetch s s' : tracked s' = tracked s → refreshes s (refetch s').
Proof. intros Et. exists s', []. split; [done|]. split; [done|]. unfold refetch. by destruct (fetchSpans [] false s'). Qed.

Lemma models_quiet s : quiet s (fetchDistinctModels s).
Proof. unfold fetchDistinctModels, quiet. cbv zeta. by destruct (presetToFromTo _ _) as [[]|]. Qed.

Lemma reset_input_tracked k s : deps (reset_input k s) = deps s ∧ tracked (reset_input k s) = tracked s.
Proof. unfold reset_input. cbv zeta. by repeat case_match. Qed.

Lemma changed_refreshes q s : refreshes s (changed q s).
Proof.
  unfold changed. cbv zeta. destruct (model_shown _); [|by apply refetch_refreshes].
  destruct (models_quiet (s <| deps := q |>)) as (_ & Et & El).
  destruct (fetchDistinctModels _) as [s' ws]. by apply refetch_refreshes.
Qed.

Lemma applyFilter_refreshes k v s : refreshes s (applyFilter k v s).
Proof. unfold applyFilter. cbv zeta. apply just_refetch. by rewrite (proj2 (reset_input_tracked _ _)). Qed.

Lemma toggleFilter_quiet k s : quiet s (toggleFilter k s).
Proof.
  unfold toggleFilter. cbv zeta. set (s1 := s <| expandedFilters ::= _ |>).
  destruct (reset_input_tracked k s1) as [E1 E2].
  destruct (negb _); [|by destruct (is_model k)]. destruct (is_model k); [|by split_and!].
  destruct (models_quiet (reset_input k s1 <| knownModels := [] |>)) as (F1 & F2 & F3).
  split_and!; [by rewrite F1|by rewrite F2|done].
Qed.

(** The filters are the default ones while they are the default object. *)
Definition addressed (s : state) : Prop :=
  0 < next_address s ∧ (filters_address s = 0 → filterState (deps s) = DEFAULT_FILTERS).

Lemma clearFilters_cases s : addressed s → refreshes s (clearFilters s) ∨ quiet s (clearFilters s).
Proof.
  intros [_ Ha]. unfold clearFilters. cbv zeta. case_bool_decide as E.
  - right. specialize (Ha E).
    assert (deps s = deps s <| filterState := DEFAULT_FILTERS |>) as Ed by (destruct (deps s); cbn in *; by subst).
    destruct (_ && _), (model_shown s); (split_and!; [exact (eq_sym Ed)|done..]).
  - left. apply just_refetch. by destruct (_ && _), (model_shown s).
Qed.

#[local] Opaque fetchSpans.

(** Every handler leaves the list alone, asks for it anew, or asks for its next page. *)
Lemma handle_cases o s : addressed s →
  quiet s (handle o s) ∨ refreshes s (handle o s) ∨ o = LoadNext.
Proof.
  intros Ha. assert (quiet s (nothing s)) as Hnothing by done.
  destruct o as [|p|r|o|dt|t| |n| | | |b|k|k t|k|k o|k b t|k| |t|k| | | |i| | | |t|d|t]; unfold handle.
  - right; left. apply just_refetch. by rewrite (proj2 (reset_input_tracked _ _)).
  - case_bool_decide; [by left|right; left; apply changed_refreshes].
  - case_bool_decide; [by left|right; left; apply changed_refreshes].
  - by left.
  - by left.
  - left. by case_bool_decide.
  - cbv zeta. case_bool_decide; [by left|right; left; by apply just_refetch].
  - case_bool_decide; [by left|right; left; by apply just_refetch].
  - by right; right.
  - right; left. by apply just_refetch.
  - right; left. by apply just_refetch.
  - by left.
  - left. apply toggleFilter_quiet.
  - left. by destruct (is_model k).
  - right; left. apply applyFilter_refreshes.
  - right; left. apply applyFilter_refreshes.
  - right; left. apply applyFilter_refreshes.
  - right; left. destruct (range_of _). apply applyFilter_refreshes.
  - destruct (clearFilters_cases s Ha); [by right; left|by left].
  - by left.
  - by left.
  - by left.
  - by left.
  - left. unfold handleSelectAll. by case_bool_decide.
  - by left.
  - by left.
  - by left.
  - right; left. by apply (just_refetch s (s <| selectedSpanIds := [] |> <| isBulkModalOpen := false |>)).
  - by left.
  - left. unfold handleKeyDown. by repeat case_match.
  - by left.
Qed.

#[local] Transparent fetchSpans.

Lemma handle_consistent o s ls :
  legal o s → addressed s → consistent s ls → consistent (handle o s).1 (ls ++ lists (handle o s).2).
Proof.
  intros Hl Ha Hc. destruct (handle_cases o s Ha) as [Hq|[Hr| ->]].
  - by apply (quiet_consistent s).
  - by apply (refreshes_consistent s).
  - destruct (load_next_fair s Hl). by apply append_consistent.
Qed.

Lemma fetchSpans_addressed cursor append s : addressed s → addressed (fetchSpans cursor append s).1.
Proof. intros Ha. unfold fetchSpans, settle. cbv zeta. destruct append; by repeat case_match. Qed.

Lemma reset_input_addressed k s : addressed s → addressed (reset_input k s).
Proof. intros Ha. unfold reset_input. cbv zeta. by repeat case_match. Qed.

Lemma models_addressed s : addressed s → addressed (fetchDistinctModels s).1.
Proof. intros Ha. unfold fetchDistinctModels. cbv zeta. by repeat case_match. Qed.

Lemma changed_addressed q s :
  filterState q = filterState (deps s) → addressed s → addressed (changed q s).1.
Proof.
  intros E [Hn Ha]. unfold changed. cbv zeta.
  assert (addressed (s <| deps := q |>)) as H1 by (split; [done|]; cbn; by rewrite E).
  assert (∀ c, addressed c.1 → addressed (andthen c refetch).1) as Hthen.
  { intros [t ws] Ht. unfold andthen, refetch. pose proof (fetchSpans_addressed [] false t Ht). by destruct (fetchSpans _ _ t). }
  destruct (model_shown _); apply Hthen; [by apply models_addressed|done].
Qed.

Lemma applyFilter_addressed k v s : addressed s → addressed (applyFilter k v s).1.
Proof.
  intros [Hn _]. unfold applyFilter. cbv zeta. apply fetchSpans_addressed, reset_input_addressed.
  split; cbn; lia.
Qed.

Lemma handle_addressed o s : addressed s → addressed (handle o s).1.
Proof.
  intros Ha. pose proof (λ c b, fetchSpans_addressed c b s Ha) as Hf.
  destruct o as [|p|r|o|dt|t| |n| | | |b|k|k t|k|k o|k b t|k| |t|k| | | |i| | | |t|d|t]; cbn [handle].
  - by apply fetchSpans_addressed, reset_input_addressed.
  - case_bool_decide; [done|by apply changed_addressed].
  - case_bool_decide; [done|by apply changed_addressed].
  - done.
  - done.
  - by case_bool_decide.
  - cbv zeta. case_bool_decide; [done|by apply fetchSpans_addressed].
  - case_bool_decide; [done|by apply fetchSpans_addressed].
  - apply Hf.
  - apply Hf.
  - apply Hf.
  - done.
  - unfold toggleFilter. cbv zeta. destruct (negb _), (is_model _); try done.
    + apply models_addressed. by apply (reset_input_addressed k).
    + by apply reset_input_addressed.
  - by destruct (is_model k).
  - by apply applyFilter_addressed.
  - by apply applyFilter_addressed.
  - by apply applyFilter_addressed.
  - destruct (range_of _). by apply applyFilter_addressed.
  - unfold clearFilters. cbv zeta. assert (0 < next_address s) as Hn by apply Ha.
    destruct (bool_decide (filters_address s = 0)), (_ && _), (model_shown s); try done; by apply fetchSpans_addressed.
  - done.
  - done.
  - done.
  - done.
  - unfold handleSelectAll. by case_bool_decide.
  - done.
  - done.
  - done.
  - by apply fetchSpans_addressed.
  - done.
  - unfold handleKeyDown. by repeat case_match.
  - done.
Qed.

Lemma answer_addressed q n b a s : addressed s → addressed (spans_answer q n b a s).
Proof. intros Ha. unfold spans_answer, settle. by repeat (case_match; try done). Qed.
End page.

(** ** The abstract list

    The page as it is meant: a query, rows, and at most one request.  Asking anew
    forgets the request that was out; nothing is numbered and nothing arrives late. *)

Module Spec.
Record view : Type := View {
  shown_query : query;
  rows : list Span;
  cursor : jsstr;
  phase : query_state;
  outstanding : option bool
}.
#[export] Instance view_eta : Eta view := λ v, View (shown_query v) (rows v) (cursor v) (phase v) (outstanding v).

Inductive step : view → view → Prop :=
| ask q v : step v (v <| shown_query := q |> <| phase := Pending |> <| outstanding := Some false |>)
| ask_in_vain q v : step v (v <| shown_query := q |> <| phase := Pending |> <| outstanding := None |>)
| ask_more v : outstanding v = None → cursor v ≠ [] → step v (v <| outstanding := Some true |>)
| arrive rs c v : outstanding v = Some false →
    step v (v <| rows := rs |> <| cursor := c |> <| phase := Resolved |> <| outstanding := None |>)
| arrive_more rs c v : outstanding v = Some true →
    step v (v <| rows ::= λ l, l ++ rs |> <| cursor := c |> <| phase := Resolved |> <| outstanding := None |>)
| refuse v : outstanding v = Some false →
    step v (v <| rows := [] |> <| cursor := [] |> <| phase := Failed |> <| outstanding := None |>)
| lose v : outstanding v = Some false → step v (v <| phase := Failed |> <| outstanding := None |>)
| forget b v : outstanding v = Some b → step v (v <| outstanding := None |>).

Definition initial (q : query) : view := View q [] [] Pending None.
End Spec.

(** The abstract list of a state and the list requests it waits for. *)
Definition abstracts (s : state) (ls : list (query * nat * bool)) (v : Spec.view) : Prop :=
  Spec.shown_query v = deps s ∧ Spec.rows v = spans s ∧ Spec.cursor v = nextCursor s ∧ Spec.phase v = queryState s
  ∧ match Spec.outstanding v with Some b => in_flight s ls b | None => loading s = false end.

Section refinement.
Context `{DateHost} (to_locale : num → jsstr) (copied : jsstr → bool).
Let legal := legal to_locale copied.

Lemma abstracts_ext s s' ls v :
  deps s' = deps s → tracked s' = tracked s → abstracts s ls v → abstracts s' ls v.
Proof.
  unfold tracked, abstracts, in_flight. intros Ed [= E0 E1 E2 E3 E4 _ _]. by rewrite Ed, E0, E1, E2, E3, E4.
Qed.

(** One machine step or none. *)
Definition follows (v v' : Spec.view) : Prop := v' = v ∨ Spec.step v v'.

Lemma fetch_follows s s' ls v :
  tracked s' = tracked s → abstracts s ls v →
  ∃ v', follows v v' ∧ abstracts (fetchSpans [] false s').1 (ls ++ lists (fetchSpans [] false s').2) v'.
Proof.
  unfold tracked. intros [= E0 E1 E2 E3 _ _ _] (V1 & V2 & V3 & V4 & _).
  unfold fetchSpans. cbv zeta. destruct (presetToFromTo _ _) as [[from to]|].
  - eexists. split; [right; exact (Spec.ask (deps s') v)|]. unfold abstracts, in_flight. cbn.
    split; [done|]. split; [congruence|]. split; [congruence|]. split; [done|]. apply elem_of_app. right. left.
  - eexists. split; [right; exact (Spec.ask_in_vain (deps s') v)|].
    unfold abstracts, settle. cbn. rewrite bool_decide_true by done. cbn. split_and!; congruence.
Qed.

Lemma more_follows s ls v :
  loading s = false → nextCursor s ≠ [] → consistent s ls → abstracts s ls v →
  ∃ v', follows v v' ∧ abstracts (fetchSpans (nextCursor s) true s).1 (ls ++ lists (fetchSpans (nextCursor s) true s).2) v'.
Proof.
  intros Hl Hn Hc (V1 & V2 & V3 & V4 & V5).
  assert (Spec.outstanding v = None) as Ho.
  { destruct (Spec.outstanding v); [|done]. apply number_in in V5. apply (loading_iff _ _ Hc) in V5. congruence. }
  unfold fetchSpans. cbv zeta. destruct (presetToFromTo _ _) as [[from to]|].
  - eexists. split; [right; apply (Spec.ask_more v Ho); congruence|].
    unfold abstracts, in_flight. cbn. split_and!; try congruence. apply elem_of_app. right. left.
  - exists v. split; [by left|]. unfold abstracts, settle. cbn. rewrite bool_decide_true by done. rewrite Ho. done.
Qed.
Lemma handle_follows o s ls v :
  legal o s → addressed s → consistent s ls → abstracts s ls v →
  ∃ v', follows v v' ∧ abstracts (handle o s).1 (ls ++ lists (handle o s).2) v'.
Proof.
  intros Hl Ha Hc Hv. destruct (handle_cases o s Ha) as [(E1 & E2 & ->)|[(s' & ws & Et & Ew & ->)| ->]].
  - exists v. split; [by left|]. rewrite app_nil_r. by eapply abstracts_ext.
  - cbn [fst snd]. rewrite lists_app, Ew. cbn [app]. by eapply fetch_follows.
  - destruct (load_next_fair to_locale copied s Hl). by apply more_follows.
Qed.

(** The request that is out is the abstract one. *)
Lemma outstanding_is s l1 l2 q b v :
  consistent s (l1 ++ (q, requestSeq s, b) :: l2) → abstracts s (l1 ++ (q, requestSeq s, b) :: l2) v →
  Spec.outstanding v = Some b.
Proof.
  intros Hc (_ & _ & _ & _ & Ho). pose proof (rest_numbers _ _ _ _ _ _ Hc) as [_ Hni].
  assert (requestSeq s ∈ (l1 ++ (q, requestSeq s, b) :: l2).*1.*2) as Hin.
  { apply (number_in _ q _ b). apply elem_of_app. right. left. }
  destruct (Spec.outstanding v) as [b'|]; [|apply (loading_iff _ _ Hc) in Hin; congruence].
  unfold in_flight in Ho. rewrite elem_of_app, elem_of_cons in Ho. destruct Ho as [Ho|[Ho|Ho]]; [|by simplify_eq|].
  all: destruct Hni; apply (number_in _ (deps s) _ b'), elem_of_app; tauto.
Qed.

Lemma answer_follows s l1 l2 q n b a v :
  consistent s (l1 ++ (q, n, b) :: l2) → abstracts s (l1 ++ (q, n, b) :: l2) v →
  ∃ v', follows v v' ∧ abstracts (spans_answer q n b a s) (l1 ++ l2) v'.
Proof.
  intros Hc Hv. destruct (decide (n = requestSeq s)) as [->|Hn].
  - pose proof (outstanding_is _ _ _ _ _ _ Hc Hv) as Ho. destruct Hv as (V1 & V2 & V3 & V4 & _). clear Hc.
    unfold spans_answer, settle. rewrite (bool_decide_true (requestSeq s = requestSeq s)) by done. cbn [negb].
    assert (∀ v', Spec.outstanding v' = None →
      Spec.shown_query v' = Spec.shown_query v → Spec.step v v' →
      ∀ t, spans t = Spec.rows v' → nextCursor t = Spec.cursor v' → queryState t = Spec.phase v' →
           deps t = deps s → requestSeq t = requestSeq s →
      ∃ v', follows v v' ∧ abstracts (if bool_decide (requestSeq s = requestSeq t) then t <| loading := false |> else t) (l1 ++ l2) v') as Hgo.
    { intros v' Hnone Hq Hstep t T1 T2 T3 T4 T5. exists v'. split; [by right|]. rewrite bool_decide_true by done.
      unfold abstracts. rewrite Hnone. cbn. split_and!; congruence. }
    destruct a as [st tx body|m]; [destruct (ok_status st); [destruct body as [d|e]|]|]; destruct b.
    + eapply Hgo; [| |exact (Spec.arrive_more (default [] (r_spans d)) (default [] (r_next d)) v Ho)|..]; cbn; congruence.
    + eapply Hgo; [| |exact (Spec.arrive (default [] (r_spans d)) (default [] (r_next d)) v Ho)|..]; cbn; congruence.
    + eapply Hgo; [| |exact (Spec.forget _ v Ho)|..]; cbn; congruence.
    + eapply Hgo; [| |exact (Spec.forget _ v Ho)|..]; cbn; congruence.
    + eapply Hgo; [| |exact (Spec.forget _ v Ho)|..]; cbn; congruence.
    + eapply Hgo; [| |exact (Spec.refuse v Ho)|..]; cbn; congruence.
    + eapply Hgo; [| |exact (Spec.forget _ v Ho)|..]; cbn; congruence.
    + eapply Hgo; [| |exact (Spec.lose v Ho)|..]; cbn; congruence.
  - exists v. split; [by left|]. rewrite outdated_answer by done.
    destruct Hv as (V1 & V2 & V3 & V4 & V5). unfold abstracts. split_and!; try done.
    destruct (Spec.outstanding v); [|done]. unfold in_flight in *. rewrite elem_of_app, elem_of_cons in V5.
    rewrite elem_of_app. naive_solver.
Qed.

Definition page_reachable (s0 : state) := reachable legal run s0.

(** The page waits for requests of the three kinds, is consistent with them, and shows
    what the abstract list shows. *)
Definition tracks (c : outcome state) (v : Spec.view) : Prop :=
  ∃ ws, c.2 = program_of <$> ws ∧ consistent c.1 (lists ws) ∧ addressed c.1 ∧ abstracts c.1 (lists ws) v.

Lemma initial_tracks p r o t : tracks (initial p r o t, []) (Spec.initial (deps (initial p r o t))).
Proof.
  exists []. split; [done|]. split; [|split; [split; [simpl; lia|done]|by split_and!]].
  split; unfold in_flight; cbn; try done; try (by intros; exfalso; eapply not_elem_of_nil); auto using NoDup_nil_2.
  split; [done|]. by intros ?%not_elem_of_nil.
Qed.

Lemma step_tracks c c' v : tracks c v → step legal run c c' → ∃ v', follows v v' ∧ tracks c' v'.
Proof.
  intros (ws & Ews & Hc & Ha & Hv) [(op & Hl & ->)|(l1 & pr & l2 & d & E & Hd & ->)]%step_inv.
  - destruct (handle_follows op _ _ _ Hl Ha Hc Hv) as (v' & Hf & Hv').
    pose proof (handle_consistent to_locale copied op _ _ Hl Ha Hc) as Hc2. pose proof (handle_addressed op _ Ha) as Ha2.
    unfold run. destruct (handle op c.1) as [s' ws']. exists v'. split; [done|]. exists (ws ++ ws').
    cbn. rewrite fmap_app, Ews, lists_app. done.
  - rewrite Ews in E. apply fmap_app_inv in E as (w1 & w2' & -> & E & ->).
    symmetry in E. apply fmap_cons_inv in E as (w & w2 & -> & -> & ->).
    rewrite lists_app in *. destruct w as [q body n b|body n|i on]; cbn in Hd, Hc, Hv; destruct Hd as [a ->]; cbn.
    + destruct (answer_follows _ _ _ _ _ _ a _ Hc Hv) as (v' & Hf & Hv'). exists v'. split; [done|].
      exists (w1 ++ w2). rewrite fmap_app, lists_app. split; [done|].
      split; [by apply answer_consistent|]. split; [by apply answer_addressed|done].
    + exists v. split; [by left|]. exists (w1 ++ w2). rewrite fmap_app, lists_app. split; [done|]. unfold models_answer.
      destruct (ok_body a); [|done]. case_bool_decide; [|done].
      split; [by eapply consistent_ext; [..|exact Hc]|]. split; [done|by eapply abstracts_ext; [..|exact Hv]].
    + exists v. split; [by left|]. exists (w1 ++ w2). by rewrite fmap_app, lists_app.
Qed.

Lemma reachable_tracks p r o t c :
  page_reachable (initial p r o t) c →
  ∃ v, rtc Spec.step (Spec.initial (deps (initial p r o t))) v ∧ tracks c v.
Proof.
  apply (reachable_ind legal run (λ c, ∃ v, rtc Spec.step (Spec.initial (deps (initial p r o t))) v ∧ tracks c v)).
  - eexists. split; [apply rtc_refl|apply initial_tracks].
  - intros c' c'' (v & Hr & Ht) Hs. destruct (step_tracks _ _ _ Ht Hs) as (v' & [->|Hf] & Ht'); [by exists v|].
    exists v'. split; [by eapply rtc_r|done].
Qed.
End refinement.

(** ** Text fields *)

Lemma trim_start_split s : ∃ p, s = p ++ trim_start s ∧ Forall (λ c, is_space c = true) p.
Proof.
  induction s as [|c s (p & E & Hp)]; [by exists []|]. simpl. destruct (is_space c) eqn:Ec.
  - exists (c :: p). split; [by rewrite E at 1|by constructor].
  - by exists [].
Qed.

Lemma trim_start_done s : match trim_start s with c :: _ => is_space c = false | [] => True end.
Proof. induction s as [|c s IH]; simpl; [done|]. by destruct (is_space c) eqn:E. Qed.

Lemma trim_start_fixed s : match s with c :: _ => is_space c = false | [] => True end → trim_start s = s.
Proof. destruct s as [|c s]; simpl; [done|]. by intros ->. Qed.

Lemma trim_start_last s c : is_space c = false → trim_start (s ++ [c]) = trim_start s ++ [c].
Proof. intros Hc. induction s as [|a s IH]; simpl; [by rewrite Hc|]. by destruct (is_space a). Qed.

(** No white space at either end. *)
Definition trimmed (s : jsstr) : Prop := trim s = s.

Lemma trim_trim s : trimmed (trim s).
Proof.
  unfold trimmed, trim. set (u := trim_start s).
  assert (trim_start (trim_end u) = trim_end u) as ->.
  - apply trim_start_fixed. unfold trim_end. pose proof (trim_start_done s) as Hd. fold u in Hd.
    destruct u as [|c u']; [done|]. simpl. rewrite trim_start_last by done. by rewrite rev_app_distr.
  - unfold trim_end. rewrite rev_involutive. f_equal. apply trim_start_fixed, trim_start_done.
Qed.

Lemma trim_keeps c s : c ∈ trim s → c ∈ s.
Proof.
  unfold trim, trim_end. intros H. apply list_elem_of_In, in_rev, list_elem_of_In in H.
  destruct (trim_start_split (rev (trim_start s))) as (p & E & _).
  assert (c ∈ rev (trim_start s)) as H1 by (rewrite E; apply elem_of_app; by right).
  apply list_elem_of_In, in_rev, list_elem_of_In in H1.
  destruct (trim_start_split s) as (p' & E' & _). rewrite E'. apply elem_of_app. by right.
Qed.

Lemma trim_space s : trim (32%N :: s) = trim s.
Proof. done. Qed.

(** An entry a text field gives: not empty, trimmed and without a comma. *)
Definition entry (s : jsstr) : Prop := s ≠ [] ∧ trimmed s ∧ 44%N ∉ s.

Lemma text_values_entries t : Forall entry (text_values t).
Proof.
  apply Forall_forall. intros s [Hs (w & -> & Hw)%list_elem_of_fmap]%list_elem_of_filter.
  split; [by apply truthy_spec|]. split; [apply trim_trim|]. intros H%trim_keeps. by eapply str_split_no_sep.
Qed.

Lemma text_values_nil : text_values [] = [].
Proof. done. Qed.

Lemma text_values_entry s : entry s → text_values s = [s].
Proof.
  intros (Hn & Ht & Hc). unfold text_values. rewrite str_split_no_occurrence by done. cbn [fmap list_fmap]. rewrite Ht.
  rewrite filter_cons_True by by apply truthy_spec. done.
Qed.

Lemma text_values_cons s t : entry s → text_values (s ++ 44%N :: t) = s :: text_values t.
Proof.
  intros (Hn & Ht & Hc). unfold text_values. rewrite str_split_app_sep by done. cbn [fmap list_fmap]. rewrite Ht.
  by rewrite filter_cons_True by by apply truthy_spec.
Qed.

Lemma text_values_space t : text_values (32%N :: t) = text_values t.
Proof.
  unfold text_values. simpl. destruct (str_split 44%N t) as [|w ws] eqn:E; [by apply str_split_nonempty in E|].
  cbn [fmap list_fmap]. by rewrite trim_space.
Qed.

Lemma values_text_entries l : Forall entry l → text_values (values_text l) = l.
Proof.
  unfold values_text. induction 1 as [|s l Hs Hl IH]; [apply text_values_nil|].
  destruct l as [|s' l]; [by apply text_values_entry|].
  change (str_join (js ", ") (s :: s' :: l)) with (s ++ 44%N :: 32%N :: str_join (js ", ") (s' :: l)).
  by rewrite text_values_cons, text_values_space, IH.
Qed.

(** ** Properties *)

Section properties.
Context `{DateHost} (to_locale : num → jsstr) (copied : jsstr → bool).
Abbreviation legal := (legal to_locale copied).
Abbreviation page_reachable := (page_reachable to_locale copied).

(** C4. The list refines the page as it is meant, which has one query, its rows and at
    most one request, and no request numbers: every step of the page, the late answers
    included, is a step of that machine or none; both show the same query, rows,
    phase and cursor, and the page says it is loading exactly when the machine has a
    request out. *)
Theorem trace_list_refines p r o t :
  let s0 := initial p r o t in
  tracks (s0, []) (Spec.initial (deps s0))
  ∧ (∀ c c' v, tracks c v → step legal run c c' → ∃ v', (v' = v ∨ Spec.step v v') ∧ tracks c' v')
  ∧ ∀ s ps v, tracks (s, ps) v →
      Spec.shown_query v = deps s ∧ Spec.rows v = spans s ∧ Spec.cursor v = nextCursor s ∧ Spec.phase v = queryState s
      ∧ (loading s = true ↔ is_Some (Spec.outstanding v)).
Proof.
  split; [apply initial_tracks|]. split; [intros c c' v Hv Hs; exact (step_tracks to_locale copied c c' v Hv Hs)|].
  intros s ps v (ws & _ & Hc & _ & V1 & V2 & V3 & V4 & V5). cbn in *. split_and!; try done.
  destruct (Spec.outstanding v) as [b|].
  - apply number_in, (loading_iff _ _ Hc) in V5. by rewrite V5.
  - rewrite V5. split; [done|]. by intros [].
Qed.

(** C16. Rows and query stay together: an answer changes the page only if it is the
    answer to the latest request, which was made for the page's present query; and
    when the page says its rows are there, they are those of that query, unless a
    fresh query ended without a readable response before. *)
Theorem rows_follow_query p r o t s ps :
  page_reachable (initial p r o t) (s, ps) →
  (∃ ws, ps = program_of <$> ws
     ∧ ∀ q body n b a, WList q body n b ∈ ws → spans_answer q n b a s ≠ s → n = requestSeq s ∧ q = deps s)
  ∧ (queryState s = Resolved → kept s = false → rows_of s = Some (deps s)).
Proof.
  intros (v & _ & ws & E & Hc & _)%reachable_tracks. cbn in *. split.
  - exists ws. split; [done|]. intros q body n b a Hw Hne.
    assert ((q, n, b) ∈ lists ws) as Hin by (apply list_elem_of_omap; by exists (WList q body n b)).
    destruct (decide (n = requestSeq s)) as [En|En]; [|by rewrite outdated_answer in Hne].
    split; [done|]. by apply (numbers_bounded _ _ Hc) in Hin as [_ Hq]; apply Hq.
  - intros Hr Hk. destruct (resolved_rows _ _ Hc Hr); [congruence|done].
Qed.

(** A text filter shows what it has applied: applying the shown text again gives the
    same values, whatever was typed. *)
Theorem text_filter_stable t : text_values (values_text (text_values t)) = text_values t.
Proof. apply values_text_entries, text_values_entries. Qed.

(** Where the overlay's trace is in the list. *)
Lemma overlay_row_is s i x :
  NoDup (trace_id <$> spans s) → spans s !! i = Some x → activeOverlayTraceId s = Some (trace_id x) →
  overlay_row s = Some i.
Proof.
  intros Hnd Hi Ho. unfold overlay_row. rewrite Ho. cbn.
  enough (list_find (λ p, trace_id p = trace_id x) (spans s) = Some (i, x)) as -> by done.
  apply list_find_Some. split; [done|]. split; [done|]. intros j y Hj Hlt E.
  enough (j = i) by lia. apply (NoDup_lookup _ _ _ (trace_id x) Hnd); rewrite list_lookup_fmap; [by rewrite Hj, <- E|by rewrite Hi].
Qed.

Lemma arrow_moves s i x down :
  NoDup (trace_id <$> spans s) → spans s !! i = Some x → activeOverlayTraceId s = Some (trace_id x) → trace_id x ≠ [] →
  (handle (Arrow down) s).1
  = match (if down then spans s !! S i else match i with O => None | S j => spans s !! j end) with
    | Some y => s <| activeOverlayTraceId := Some (trace_id y) |>
    | None => s
    end.
Proof.
  intros Hnd Hi Ho Hx. cbn [handle nothing fst]. unfold handleKeyDown.
  assert (truthy_opt (activeOverlayTraceId s) = true) as -> by (rewrite Ho; by apply truthy_spec).
  rewrite (overlay_row_is s i x) by done. destruct down, i; done.
Qed.

(** With the trace of a row in the overlay, the arrow keys move to the trace of the
    next and of the previous row and stop at the ends of the list; going down and up
    again gives back the same state. *)
Theorem arrows_move s i x :
  NoDup (trace_id <$> spans s) → spans s !! i = Some x → activeOverlayTraceId s = Some (trace_id x) → trace_id x ≠ [] →
  activeOverlayTraceId (handle (Arrow true) s).1 = Some (trace_id (default x (spans s !! S i)))
  ∧ activeOverlayTraceId (handle (Arrow false) s).1
    = Some (trace_id (default x (match i with O => None | S j => spans s !! j end)))
  ∧ (∀ y, spans s !! S i = Some y → trace_id y ≠ [] → (handle (Arrow false) (handle (Arrow true) s).1).1 = s).
Proof.
  intros Hnd Hi Ho Hx. split_and!.
  - rewrite (arrow_moves s i x) by done. by destruct (spans s !! S i).
  - rewrite (arrow_moves s i x) by done. by destruct i as [|j]; [|destruct (spans s !! j)].
  - intros y Hy Hn. rewrite (arrow_moves s i x true), Hy by done.
    rewrite (arrow_moves _ (S i) y false) by done. cbn. rewrite Hi.
    destruct s. cbn in *. by rewrite Ho.
Qed.

(** What a request that can be made does. *)
Definition asking (append : bool) (s : state) : state :=
  let s := s <| requestSeq ::= S |> <| loading := true |> in if append then s else s <| queryState := Pending |>.

Lemma fetch_asks cursor append s :
  presetToFromTo (timeRange (deps s)) (clock s) ≠ None →
  ∃ body, fetchSpans cursor append s = (asking append s, [WList (deps s) body (S (requestSeq s)) append]).
Proof.
  intros Hw. unfold fetchSpans, asking. cbv zeta.
  destruct append; cbn; destruct (presetToFromTo _ _) as [[from to]|]; by eauto.
Qed.

(** What the answer to the latest request does, by its kind. *)
Lemma fresh_lost q m s : spans_answer q (requestSeq s) false (NoAnswer m) s
  = s <| queryState := Failed |> <| kept := true |> <| loading := false |>.
Proof. unfold spans_answer, settle. cbn. by rewrite !(bool_decide_true (requestSeq s = requestSeq s)) by done. Qed.

Lemma fresh_unreadable q st t e s : ok_status st = true →
  spans_answer q (requestSeq s) false (Answer st t (Err e)) s = s <| kept := true |> <| loading := false |>.
Proof.
  intros Hst. unfold spans_answer, settle. rewrite Hst. cbn.
  by rewrite !(bool_decide_true (requestSeq s = requestSeq s)) by done.
Qed.

Lemma more_arrived q st t data s : ok_status st = true →
  let s' := spans_answer q (requestSeq s) true (Answer st t (Ok data)) s in
  deps s' = deps s ∧ queryState s' = Resolved ∧ spans s' = spans s ++ default [] (r_spans data).
Proof.
  intros Hst. unfold spans_answer, settle. rewrite Hst. cbn.
  by rewrite !(bool_decide_true (requestSeq s = requestSeq s)) by done.
Qed.

(** The button for the next page is there when nothing is loading and there is one. *)
Lemma load_next_offered s :
  render_throws s = false → loading s = false → nextCursor s ≠ [] → legal LoadNext s.
Proof.
  intros Hr Hl Hn. split; [done|]. unfold render. eapply offers_child; [right; left|].
  eapply offers_child; [do 2 right; left|]. unfold PaginationControls. cbv zeta.
  eapply offers_child; [right; left|]. eapply offers_child; [left|].
  assert (truthy (nextCursor s) = true) as Ht by by apply truthy_spec.
  apply (offers_on _ _ _ "click"); [simpl; by rewrite Hl, Ht|right; left].
Qed.

(** After a switch of the project whose request fails without a response the page
    shows the previous project's rows: no error and no way to retry, and the next page,
    which is offered as before, adds the new project's rows to the old ones. *)
Theorem failed_switch_keeps_rows s p m data st t :
  queryState s = Resolved → spans s ≠ [] → nextCursor s ≠ [] → p ≠ activeProject (deps s) →
  model_shown s = false → render_throws s = false →
  presetToFromTo (timeRange (deps s)) (clock s) ≠ None → ok_status st = true →
  ∃ body1 body2,
    let '(s1, ws1) := handle (SwitchProject p) s in
    let q := deps s <| activeProject := p |> in
    let s2 := spans_answer q (requestSeq s1) false (NoAnswer m) s1 in
    let '(s3, ws3) := handle LoadNext s2 in
    let s4 := spans_answer q (requestSeq s3) true (Answer st t (Ok data)) s3 in
    legal (SwitchProject p) s ∧ ws1 = [WList q body1 (requestSeq s1) false]
    ∧ queryState s2 = Failed ∧ loading s2 = false ∧ content to_locale copied s2 = span_table to_locale s2 ∧ spans s2 = spans s
    ∧ legal LoadNext s2 ∧ ws3 = [WList q body2 (requestSeq s3) true]
    ∧ deps s4 = q ∧ queryState s4 = Resolved ∧ spans s4 = spans s ++ default [] (r_spans data).
Proof.
  intros Hq Hs Hn Hp Hm Hr Ht Hst. cbn [handle]. rewrite bool_decide_false by done.
  unfold changed. cbv zeta. set (s0 := s <| deps := _ |>).
  assert (model_shown s0 = false) as -> by done.
  destruct (fetch_asks [] false s0 Ht) as [body1 E1]. unfold refetch, andthen, nothing. rewrite E1.
  set (s1 := asking false s0). set (s2 := spans_answer _ _ _ _ s1).
  assert (s2 = s1 <| queryState := Failed |> <| kept := true |> <| loading := false |>) as E2 by apply fresh_lost.
  assert (presetToFromTo (timeRange (deps s2)) (clock s2) ≠ None) as Ht2 by by rewrite E2.
  destruct (fetch_asks (nextCursor s2) true s2 Ht2) as [body2 E3]. rewrite E3.
  exists body1, body2. set (s3 := asking true s2).
  assert (nextCursor s2 ≠ [] ∧ loading s2 = false) as [Hn2 Hl2] by by rewrite E2.
  split; [done|]. split; [done|]. split; [by rewrite E2|]. split; [done|]. split.
  { unfold content, no_rows, failed, resolved. rewrite E2. cbn. destruct (spans s) eqn:E; [done|]. by cbn. }
  split; [by rewrite E2|]. split; [apply load_next_offered; [by rewrite E2|done..]|]. split; [unfold s3; by rewrite E2|].
  destruct (more_arrived (deps s <| activeProject := p |>) st t data s3 Hst) as (-> & -> & ->).
  unfold s3. by rewrite E2.
Qed.

Lemma sections_no_retry s section : emits (λ o, o ≠ Retry) (FilterSection s section).
Proof.
  unfold FilterSection, ModelFilter, TextFilter, CheckboxFilter, RangeFilterField.
  destruct (range_of _) as [min max]. emit.
Qed.

(** When the rows arrive with a body that cannot be read, the page stays as if it
    were waiting: without rows it shows only placeholders, and although nothing is on
    its way there is no message and no way to ask again but to change the query. *)
Theorem unreadable_answer_hides_retry s q st t e :
  spans s = [] → queryState s = Pending → ok_status st = true →
  let s' := spans_answer q (requestSeq s) false (Answer st t (Err e)) s in
  loading s' = false ∧ queryState s' = Pending ∧ content to_locale copied s' = El "div" [] (replicate 8 Skeleton)
  ∧ emits (λ o, o ≠ Retry) (render to_locale copied s').
Proof.
  intros Hs Hq Hst s'.
  assert (s' = s <| kept := true |> <| loading := false |>) as E by by apply fresh_unreadable.
  assert (content to_locale copied s' = El "div" [] (replicate 8 Skeleton)) as Ec.
  { unfold content, failed, no_rows, resolved. rewrite E. cbn. by rewrite Hs, Hq. }
  split; [by rewrite E|]. split; [by rewrite E|]. split; [done|].
  unfold render. rewrite Ec. apply emits_el; [constructor|]. repeat apply Forall_cons_2; [| |constructor].
  - apply emits_el; [constructor|]. repeat apply Forall_cons_2; [emit| |emit|constructor].
    apply emits_el; [constructor|]. apply emits_map. intros k _. apply sections_no_retry.
  - apply emits_el; [constructor|]. apply Forall_app_2; [|emit].
    + repeat apply Forall_cons_2; [unfold Toolbar; cbv zeta; emit| |unfold PaginationControls; cbv zeta; emit|constructor].
      apply emits_el; [constructor|]. apply Forall_singleton, emits_el; [constructor|].
      apply Forall_replicate, emits_el; constructor.
    + by subst.
    + by subst.
Qed.
End properties.

(** ** Runs *)

Module Runs.

#[local] Instance host : DateHost := {| date_parse _ := None; full_year _ := 2024%Z; to_locale_string _ _ := [] |}.

Definition locale (n : num) : jsstr := show_num n.
Definition no_copy (_ : jsstr) : bool := false.
Definition team : jsstr := js "team".

Definition row (id : jsstr) : Span :=
  {| span_id := id; trace_id := id; parent_id := []; span_project := team; name := js "run"; kind := js "llm";
     model := None; start_time := []; end_time := []; cost_usd := of_Z 0; input_tokens := of_Z 1; output_tokens := of_Z 2;
     input := None; output := None; status_code := None; span_count := None; kind_counts := None |}.

Definition two_rows : SpanQueryResponse :=
  {| r_spans := Some [row (js "a"); row (js "b")]; r_next := Some (js "next"); r_limit := of_Z 25 |}.

Definition start : state := initial team (Some (js "1d")) None 1700000000000%Z.
Definition asked : state := asking false (reset_input (js "trace_name") start).
Definition loaded : state := spans_answer (deps asked) 1 false (Answer 200 (Ok []) (Ok two_rows)) asked.
Definition opened : state := loaded <| activeOverlayTraceId := Some (js "a") |>.

Lemma list_answered s q body n append a :
  step (legal locale no_copy) run (s, [program_of (WList q body n append)]) (spans_answer q n append a s, []).
Proof. exact (step_answer (legal locale no_copy) run s [] [] _ _ _ a). Qed.

Lemma rows_reachable : page_reachable locale no_copy start (loaded, []).
Proof.
  assert (presetToFromTo (timeRange (deps start)) (clock start) ≠ None) as Hw by by vm_compute.
  destruct (fetch_asks [] false (reset_input (js "trace_name") start) Hw) as [body E].
  assert (run Mounted start = (asked, [program_of (WList (deps asked) body 1 false)])) as Er.
  { unfold run. cbn [handle]. unfold refetch. by rewrite E. }
  apply (rtc_l _ _ (asked, [program_of (WList (deps asked) body 1 false)])).
  - assert (legal locale no_copy Mounted start) as Hl by (split; by vm_compute).
    pose proof (step_event (legal locale no_copy) run Mounted start [] Hl) as Hs. by rewrite Er in Hs.
  - apply rtc_once. unfold loaded. apply list_answered.
Qed.

Lemma rows_follow_query_witness : queryState loaded = Resolved ∧ rows_of loaded = Some (deps loaded).
Proof.
  assert (queryState loaded = Resolved) as Hq by by vm_compute. split; [exact Hq|].
  apply (rows_follow_query locale no_copy _ _ _ _ _ _ rows_reachable); [exact Hq|by vm_compute].
Defined.

Lemma arrows_move_witness :
  activeOverlayTraceId (handle (Arrow true) opened).1 = Some (js "b")
  ∧ activeOverlayTraceId (handle (Arrow false) opened).1 = Some (js "a").
Proof.
  assert (NoDup (trace_id <$> spans opened)) as Hnd.
  { change (NoDup [js "a"; js "b"]). repeat constructor; rewrite ?list_elem_of_singleton; [by vm_compute|apply not_elem_of_nil]. }
  destruct (arrows_move opened 0 (row (js "a")) Hnd eq_refl eq_refl ltac:(done)) as (E1 & E2 & _).
  exact (conj E1 E2).
Defined.

Lemma failed_switch_keeps_rows_witness :
  let s1 := (handle (SwitchProject (js "other")) loaded).1 in
  let s2 := spans_answer (deps s1) (requestSeq s1) false (NoAnswer (js "offline")) s1 in
  activeProject (deps s2) = js "other" ∧ queryState s2 = Failed ∧ spans s2 = spans loaded.
Proof.
  split; [by vm_compute|].
  destruct (failed_switch_keeps_rows locale no_copy loaded (js "other") (js "offline") two_rows 200 (Ok [])
    eq_refl ltac:(by vm_compute) ltac:(by vm_compute) ltac:(by vm_compute) eq_refl eq_refl ltac:(by vm_compute) eq_refl)
    as (b1 & b2 & H).
  vm_compute. split; reflexivity.
Defined.

Lemma unreadable_answer_hides_retry_witness :
  let s' := spans_answer (deps asked) 1 false (Answer 200 (Ok (js "<html>")) (Err (js "Unexpected token"))) asked in
  loading s' = false ∧ ¬ offers (render locale no_copy s') Retry.
Proof.
  destruct (unreadable_answer_hides_retry locale no_copy asked (deps asked) 200 (Ok (js "<html>")) (js "Unexpected token")
    eq_refl eq_refl eq_refl) as (H1 & _ & _ & H2).
  split; [exact H1|]. intros Ho. exact (H2 Retry Ho eq_refl).
Defined.
End Runs.
