(* ===== verification/TraceDetail.v ===== *)
(** The overlay with the details of a trace (ui/src/pages/TraceDetail.tsx): loading and
    live polling, the waterfall and the tree, the panel of a span.

    The module uses a function it does not import: calling [formatCost] throws.  The
    names it imports are a parameter of the views ([imports] as the module has them),
    so that what it does and what it would do with the import can both be stated.

    The requests of an effect run that is over were aborted: their answers do nothing.
    The parts of React that matter are which rows and which panel stay mounted, since
    their state lives as long as they do. *)
From Stdlib Require Import QArith_base.
From S2P Require Import Prelude.
From S2P Require Import JsString.
From S2P Require Import JsNumber.
From S2P Require Import JsJson.
From S2P Require Import JsUrl.
From S2P Require Import Formatters.
From S2P Require Import SpanMessages.
From S2P Require Import SpanRollup.
From S2P Require Import Ui.
From S2P Require Import Widgets.
From S2P Require Import Visuals.
From S2P Require Import JsonCodeBlock.
Local Open Scope Z_scope.

(** ** Data *)

Record TraceResponse : Type := {
  root_span : option Span;
  total_input_tokens : option num;
  total_output_tokens : option num;
  total_cost_usd : option num
}.

Record WaterfallEntry : Type := {
  entry_name : jsstr; spanId : jsstr; start : num; duration : num; entry_color : jsstr;
  entry_kind : jsstr; entry_model : option jsstr
}.

Definition fields (s : AnnotatedSpan) : SpanFields := match s with AnnotatedNode f _ _ => f end.
Definition children (s : AnnotatedSpan) : option (list AnnotatedSpan) := match s with AnnotatedNode _ _ cs => cs end.
Definition root_fields (s : Span) : SpanFields := match s with SpanNode f _ => f end.

(** Something is in the text, or in one of its messages. *)
Definition hasRealContent (val : option jsstr) : bool :=
  match val with
  | None => false
  | Some v =>
    if negb (truthy v) || negb (truthy (trim v)) then false else
    match parse v with
    | Some (JArr l) => existsb (λ m, match string_field (js "content") m with Some c => truthy (trim c) | None => false end) l
    | _ => truthy (trim v)
    end
  end.

(** [Math.max(...l)]. *)
Definition max_of (l : list num) : num := foldr num_max NInf l.

Definition computeWaterfallAxisDomain (entries : list WaterfallEntry) : num * num :=
  match entries with
  | [] => (of_Z 0, of_Z 0)
  | _ => (of_Z 0, max_of ((λ e, num_add (start e) (duration e)) <$> entries))
  end.

Definition LIVE_POLL_INTERVAL_MS : Z := 5000.

(** From the number the variable of the environment gives ([NaN] without one). *)
Definition LIVE_TIMEOUT_MS (parsed : num) : num :=
  num_mul (num_mul (if is_finite parsed && num_lt (of_Z 0) parsed then parsed else of_Z 20) (of_Z 60)) (of_Z 1000).

Definition DEFAULT_WORD_WRAP (env : option jsstr) : bool := negb (bool_decide (env = Some (js "false"))).

(** The names from the module of the formatters that this module imports. *)
Definition imports : list jsstr :=
  [js "formatTime"; js "formatDuration"; js "formatMs"; js "formatStatus"; js "totalTokens"; js "parseChatTurns";
   js "getToolSummary"].

(** ** State *)

Inductive live_status : Type := Live | Stalled.
Inductive view_mode : Type := Waterfall | Tree.
Inductive tab : Type := Chat | Raw.
#[export] Instance view_mode_dec : EqDecision view_mode.
Proof. solve_decision. Defined.
#[export] Instance tab_dec : EqDecision tab.
Proof. solve_decision. Defined.

Record totals : Type := { inputTokens : num; outputTokens : num; costUsd : num }.
Record saving : Type := { save_span : SpanFields; save_input : jsstr; save_output : option jsstr }.

(** The panel's own state, and that of a row of the tree: the spans on the way to it,
    the row's last, and whether its children are shown. *)
Record panel_state : Type := Panel { wordWrap : bool; activeTab : tab }.
#[export] Instance panel_eta : Eta panel_state := λ p, Panel (wordWrap p) (activeTab p).
Abbreviation row_path := (list jsstr).

(** The properties, the hooks, the state of the components inside, and the clock.
    [toasted] is what was announced.  Two fields are there for the theorems only:
    [shown_for] is the trace and project whose answer was shown last, and [polls]
    counts the polls of the present effect run. *)
Record state : Type := State {
  traceId : jsstr;
  activeProject : jsstr;
  trace : option Span;
  traceRollup : option totals;
  loading : bool;
  error : option jsstr;
  saveSpan : option saving;
  liveStatus : option live_status;
  liveStart : option Z;
  viewMode : view_mode;
  selectedSpanId : option jsstr;
  expandedSpanId : option jsstr;
  effect_run : nat;
  next_poll : option Z;
  panel : option panel_state;
  rows : list (row_path * bool);
  toasted : list jsstr;
  clock : Z;
  shown_for : option (jsstr * jsstr);
  polls : Z
}.
#[export] Instance state_eta : Eta state := λ s,
  State (traceId s) (activeProject s) (trace s) (traceRollup s) (loading s) (error s) (saveSpan s) (liveStatus s)
    (liveStart s) (viewMode s) (selectedSpanId s) (expandedSpanId s) (effect_run s) (next_poll s) (panel s) (rows s)
    (toasted s) (clock s) (shown_for s) (polls s).

Definition initial (t p : jsstr) (now : Z) : state :=
  State t p None None true None None None None Waterfall None None 0 None None [] [] now None 0.

(** ** What is derived from the trace *)

Definition annotatedTrace (s : state) : option AnnotatedSpan := annotateSpanTree <$> trace s.

(** The spans of the tree, each before its children. *)
Definition allSpans (s : state) : list AnnotatedSpan := from_option nodes [] (annotatedTrace s).

Definition selectedSpan (s : state) : option SpanFields :=
  array_find (λ f, bool_decide (Some (span_id f) = selectedSpanId s)) (fields <$> allSpans s).

(** Whether the row at a path shows its children, if it is mounted. *)
Definition row_state (path : row_path) (l : list (row_path * bool)) : option bool :=
  (λ r, r.2.2) <$> list_find (λ r, r.1 = path) l.

(** The row of a span at a depth, and the rows below it that are mounted, with the
    state each keeps if it was mounted before. *)
Fixpoint mounted_rows (old : list (row_path * bool)) (depth : nat) (above : row_path) (a : AnnotatedSpan)
    : list (row_path * bool) :=
  match a with
  | AnnotatedNode f _ cs =>
    let path := above ++ [span_id f] in
    let open := default (bool_decide (depth <= 1)%nat) (row_state path old) in
    (path, open) :: if open then match cs with Some l => l ≫= mounted_rows old (S depth) path | None => [] end else []
  end.

Definition failed (s : state) : bool := truthy_opt (error s) || negb (bool_decide (is_Some (trace s))).
Definition tree_shown (s : state) : bool := negb (loading s) && negb (failed s) && bool_decide (viewMode s = Tree).

Section page.
Context `{DateHost} `{Random}.
Context (timeout_minutes : num) (word_wrap : option jsstr).

(** Rendering: rows and panel are mounted when they come into view and lose their
    state when they leave it. *)
Definition commit (s : state) : state :=
  let s := s <| rows := if tree_shown s then from_option (mounted_rows (rows s) 0 []) [] (annotatedTrace s) else [] |> in
  s <| panel := match selectedSpan s with
                | Some _ => Some (default (Panel (DEFAULT_WORD_WRAP word_wrap) Chat) (panel s))
                | None => None
                end |>.

(** ** Requests *)

Definition trace_url (t p : jsstr) : jsstr := js "/api/v1/traces/" ++ t ++ js "?project_id=" ++ encodeURIComponent p.

Definition applyData (data : TraceResponse) (s : state) : state :=
  s <| trace := root_span data |>
    <| traceRollup := Some {| inputTokens := default (of_Z 0) (total_input_tokens data);
                              outputTokens := default (of_Z 0) (total_output_tokens data);
                              costUsd := default (of_Z 0) (total_cost_usd data) |} |>
    <| shown_for := Some (traceId s, activeProject s) |>.

(** [!data.root_span?.parent_id]. *)
Definition rootArrived (data : TraceResponse) : bool :=
  match root_span data with Some r => negb (truthy (parent_id (root_fields r))) | None => true end.

Definition loadTrace (a : answer TraceResponse) : result jsstr TraceResponse :=
  match a with
  | NoAnswer m => Err m
  | Answer status _ body =>
    if ok_status status then body
    else if bool_decide (status = 404) then Err (js "Trace not found")
    else Err (js "Failed to load trace (" ++ show_Z status ++ js ")")
  end.

(** The first answer of an effect run. *)
Definition load_answer (run : nat) (a : answer TraceResponse) (s : state) : state :=
  if negb (bool_decide (run = effect_run s)) then s else
  match loadTrace a with
  | Ok data =>
    let s := applyData data s <| loading := false |> in
    if rootArrived data then s
    else s <| liveStatus := Some Live |> <| liveStart := Some (clock s) |>
           <| next_poll := Some (clock s + LIVE_POLL_INTERVAL_MS) |>
  | Err m => s <| error := Some m |> <| loading := false |>
  end.

Definition poll_answer (run : nat) (a : answer TraceResponse) (s : state) : state :=
  if negb (bool_decide (run = effect_run s)) then s else
  match loadTrace a with
  | Ok data =>
    let s := applyData data s in
    if rootArrived data then s <| liveStatus := None |> <| next_poll := None |> else s
  | Err _ => s
  end.

Inductive waiting : Type :=
| WLoad (url : jsstr) (run : nat)
| WPoll (url : jsstr) (run : nat).

Definition resume (w : waiting) (a : answer TraceResponse) (s : state) : state :=
  match w with
  | WLoad _ run => commit (load_answer run a s)
  | WPoll _ run => commit (poll_answer run a s)
  end.
Definition url_of (w : waiting) : jsstr := match w with WLoad u _ | WPoll u _ => u end.
Definition run_of (w : waiting) : nat := match w with WLoad _ r | WPoll _ r => r end.

Definition program_of (w : waiting) : program state :=
  Fetch TraceResponse (get_request (url_of w)) (λ a s, now (resume w a s)).

(** The effect of a new trace or project. *)
Definition load (s : state) : state * list waiting :=
  let run := S (effect_run s) in
  (s <| effect_run := run |> <| loading := true |> <| error := None |> <| liveStatus := None |> <| liveStart := None |>
     <| next_poll := None |> <| polls := 0 |>,
   [WLoad (trace_url (traceId s) (activeProject s)) run]).

(** The interval's function. *)
Definition poll (s : state) : state * list waiting :=
  let stalled := match liveStart s with
                 | Some t0 => num_lt (LIVE_TIMEOUT_MS timeout_minutes) (of_Z (clock s - t0))
                 | None => false
                 end in
  if stalled : bool then (s <| liveStatus := Some Stalled |> <| next_poll := None |>, [])
  else (s <| next_poll := Some (clock s + LIVE_POLL_INTERVAL_MS) |> <| polls ::= Z.succ |>,
        [WPoll (trace_url (traceId s) (activeProject s)) (effect_run s)]).

(** ** Handlers *)

Inductive op : Type :=
| Mounted
| SwitchTrace (t : jsstr)
| SwitchProject (p : jsstr)
| Tick (dt : Z)
| Poll
| Close
| SetViewMode (m : view_mode)
| SelectSpan (id : jsstr)
| ClosePanel
| ToggleExpand (id : jsstr)
| ToggleRow (path : row_path)
| ShowSaveModal (span : SpanFields)
| CloseSaveModal
| SaveSucceeded
| ToggleWordWrap
| SetActiveTab (t : tab)
| Copy (t : jsstr).

Definition saving_of (f : SpanFields) : saving :=
  {| save_span := f; save_input := default [] (input f); save_output := output f |}.

Definition toggled (id : jsstr) (current : option jsstr) : option jsstr :=
  if bool_decide (current = Some id) then None else Some id.

Definition toggle_row (path : row_path) (l : list (row_path * bool)) : list (row_path * bool) :=
  (λ r, if bool_decide (r.1 = path) then (r.1, negb r.2) else r) <$> l.

Definition handle_raw (o : op) (s : state) : state * list waiting :=
  match o with
  | Mounted => load s
  | SwitchTrace t => if bool_decide (t = traceId s) then (s, []) else load (s <| traceId := t |>)
  | SwitchProject p => if bool_decide (p = activeProject s) then (s, []) else load (s <| activeProject := p |>)
  | Tick dt => (s <| clock ::= Z.add dt |>, [])
  | Poll => poll s
  | Close => (s, [])
  | SetViewMode m => (s <| viewMode := m |>, [])
  | SelectSpan id => (s <| selectedSpanId ::= toggled id |>, [])
  | ClosePanel => (s <| selectedSpanId := None |>, [])
  | ToggleExpand id => (s <| expandedSpanId ::= toggled id |>, [])
  | ToggleRow path => (s <| rows ::= toggle_row path |>, [])
  | ShowSaveModal f => (s <| saveSpan := Some (saving_of f) |>, [])
  | CloseSaveModal => (s <| saveSpan := None |>, [])
  | SaveSucceeded => (s <| saveSpan := None |> <| toasted ::= λ l, l ++ [js "Span saved to dataset"] |>, [])
  | ToggleWordWrap => (s <| panel ::= fmap (λ p, p <| wordWrap ::= negb |>) |>, [])
  | SetActiveTab t => (s <| panel ::= fmap (λ p, p <| activeTab := t |>) |>, [])
  | Copy _ => (s, [])
  end.

Definition handle (o : op) (s : state) : state * list waiting := let '(s', ws) := handle_raw o s in (commit s', ws).
Definition run (o : op) (s : state) : outcome state := let '(s', ws) := handle o s in (s', program_of <$> ws).

(** ** The waterfall *)

Definition entry_of (base : num) (f : SpanFields) : WaterfallEntry :=
  let s := num_sub (get_time (start_time f)) base in
  let e := num_sub (get_time (end_time f)) base in
  {| entry_name := name f; spanId := span_id f; start := s; duration := num_sub e s;
     entry_color := match getSpanKindColor (kind f) with Found c => c | _ => [] end;
     entry_kind := kind f; entry_model := model f |}.

Definition waterfallData (s : state) : list WaterfallEntry :=
  match trace s with
  | Some r => entry_of (get_time (start_time (root_fields r))) ∘ fields <$> allSpans s
  | None => []
  end.

(** ** Views *)

Section views.
Context (imports : list jsstr) (to_locale : num → jsstr).

(** What [formatCost(...)] shows, if the name is known. *)
Definition cost_bound : bool := bool_decide (js "formatCost" ∈ imports).
Definition cost (c : num) : jsstr := formatCost (Some c).

Definition ChatTurnsView (value label : jsstr) (wordWrap : bool) : view op :=
  match parseChatTurns value with
  | None => JsonCodeBlock value label
  | Some turns =>
    El "div" []
      [El "div" [] [Text label];
       El "div" []
         ((λ t, El "div" []
             [El "span" [] [Text (Formatters.role t)];
              El "span" [Flag "whitespace-pre-wrap" wordWrap] [Text (Formatters.content t)]]) <$> turns)]
  end.

(** What a value is as the child of an element: an object cannot be one. *)
Fixpoint child_of (j : json) : option (list (view op)) :=
  match j with
  | JStr s => Some [Text s]
  | JNum n => Some [Text (show_num n)]
  | JBool _ | JNull => Some []
  | JArr l => foldr (λ j acc, a ← child_of j; b ← acc; Some (a ++ b)) (Some []) l
  | JObj _ => None
  end.
Definition child (v : value) : option (list (view op)) := match v with Some j => child_of j | None => Some [] end.

Definition message_view (m : ChatMessage) : option (view op) :=
  r ← child (SpanMessages.role m); c ← child (SpanMessages.content m);
  Some (El "div" [] [El "span" [] r; El "span" [] c]).

Definition tool_call_view (tc : ToolCall) : option (view op) :=
  i ← child_of (SpanMessages.id tc); f ← child_of (SpanMessages.function tc); o ← child (SpanMessages.output tc);
  Some (El "div" []
    ([El "div" [] ([El "span" [] [txt "call"]; txt ":"] ++ i ++ [txt " · "] ++ f);
      El "div" [] [El "span" [] [txt "Input:"]; El "span" [] [Text (default [] (SpanMessages.input tc))]]]
     ++ if truthy_value (SpanMessages.output tc)
        then [El "div" [] [El "span" [] [txt "Output:"]; El "span" [] o]] else o)).

(** [None]: rendering throws. *)
Definition FormattedChatMessages (messages : list ChatMessage) (toolCalls : option (list ToolCall)) : option (view op) :=
  ms ← mapM message_view messages;
  ts ← mapM tool_call_view (default [] toolCalls);
  Some (El "div" []
    ((if bool_decide (messages = []) then [] else [El "div" [] [txt "Messages"]; El "div" [] ms])
     ++ when (bool_decide (default [] toolCalls ≠ []))
          (El "div" [] (El "div" [] [Text (js "Tool Calls (" ++ show_Z (Z.of_nat (length (default [] toolCalls))) ++ js ")")] :: ts)))).

Definition ScoreBadges (scores : list (jsstr * num)) : view op :=
  let level v := if num_le (rnd (4 # 5)) v then js "high" else if num_le (rnd (1 # 2)) v then js "middle" else js "low" in
  El "div" [] ((λ '(n, v), El "span" [Attr "level" (level v)] [Text (n ++ js ": " ++ to_fixed 2 v)]) <$> scores).

Definition kind_badge (k : jsstr) : list (view op) :=
  when (truthy k) (El "span" [] (when_some (SpanKindIcon k) Datatypes.id ++ [Text k])).

(** The chart draws the entries and reports a click on one of them. *)
Definition GanttWaterfall (data : list WaterfallEntry) (selected : option jsstr) : view op :=
  match data with
  | [] => EmptyState default_ (Some (js "No spans")) (Some (js "This trace has no child spans")) None None
  | _ =>
    El "div" []
      [El "div" []
         [El "div" [] [El "span" [] [txt "Waterfall Timeline"]];
          El "BarChart" []
            ((λ e, El "Cell" [Flag "selected" (bool_decide (selected = Some (spanId e))); On "click" (SelectSpan (spanId e))] []) <$> data)];
       El "div" []
         (El "div" [] [El "span" [] [Text (js "Spans (" ++ show_Z (Z.of_nat (length data)) ++ js ")")]]
          :: ((λ e, El "div" [On "click" (SelectSpan (spanId e)); Attr "role" (js "button");
                              Attr "aria-label" (js "Select span: " ++ entry_name e)]
                      [El "div" []
                         (El "div" [] [Text (entry_name e)]
                          :: when (truthy_opt (entry_model e)) (El "div" [] [Text (default [] (entry_model e))]));
                       El "span" [] [Text (formatMs (duration e))]]) <$> data))]
  end.

Definition no_messages : SpanMessages.SpanMessages :=
  {| SpanMessages.messages := None; SpanMessages.toolCalls := None; SpanMessages.raw := [] |}.

(** [None]: the extraction throws. *)
Definition extracted (f : SpanFields) : option SpanMessages.SpanMessages :=
  match attributes f with
  | Some a => match extractSpanMessages a with Ok m => Some m | Err _ => None end
  | None => Some no_messages
  end.

Definition nonempty {A} (l : option (list A)) : bool := match l with Some (_ :: _) => true | _ => false end.
Definition hasChatContent (m : SpanMessages.SpanMessages) : bool :=
  nonempty (SpanMessages.messages m) || nonempty (SpanMessages.toolCalls m).

Definition metadata (f : SpanFields) : view op :=
  let item (label : string) t := El "div" [] [El "span" [] [txt label]; El "div" [] [Text t]] in
  El "div" []
    ([item "Span ID"%string (span_id f);
      item "Parent ID"%string (if truthy (parent_id f) then parent_id f else js "—")]
     ++ when (truthy_opt (model f)) (item "Model"%string (default [] (model f)))
     ++ when (truthy_opt (status_code f)) (item "Status"%string (formatStatus (status_code f)))).

Definition raw_view (f : SpanFields) (wrap : bool) : list (view op) :=
  when (hasRealContent (input f)) (ChatTurnsView (default [] (input f)) (js "Input") wrap)
  ++ when (hasRealContent (output f)) (ChatTurnsView (default [] (output f)) (js "Output") wrap)
  ++ when (nonempty (attributes f))
       (El "div" [] [El "div" [] [txt "Attributes"];
                     JsonCodeBlock (pretty 0 (JObj (default [] (attributes f)))) (js "Attributes")]).

(** The panel's body; its header shows a cost. *)
Definition SlideInDetailPanel (f : SpanFields) (p : panel_state) : option (view op) :=
  m ← extracted f;
  chat ← if hasChatContent m && bool_decide (activeTab p = Chat)
         then v ← FormattedChatMessages (default [] (SpanMessages.messages m)) (SpanMessages.toolCalls m); Some [v]
         else Some [];
  if negb cost_bound || truthy (kind f) && negb (kind_drawn (kind f)) then None else
  Some (El "aside" [Attr "aria-label" (js "Span detail panel")]
    ([El "div" []
        [El "div" []
           [El "div" [] (El "span" [] [Text (name f)] :: kind_badge (kind f));
            El "div" []
              [El "span" [] [Text (formatDuration (start_time f) (end_time f))];
               El "span" [] [Text (to_locale (totalTokens {| Formatters.input_tokens := input_tokens f;
                                                             Formatters.output_tokens := output_tokens f |}) ++ js " tokens")];
               El "span" [] [Text (cost (cost_usd f))]]];
         El "div" []
           [El "button" [On "click" ToggleWordWrap; Attr "aria-label" (if wordWrap p then js "Disable word wrap" else js "Enable word wrap")] [];
            El "button" [On "click" ClosePanel; Attr "aria-label" (js "Close detail panel")] []]]]
     ++ when (hasChatContent m)
          (El "div" [] [El "button" [On "click" (SetActiveTab Chat)] [txt "Chat"];
                        El "button" [On "click" (SetActiveTab Raw)] [txt "Raw"]])
     ++ [El "div" []
           ([metadata f]
            ++ when (nonempty (scores f)) (El "div" [] [El "div" [] [txt "Scores"]; ScoreBadges (default [] (scores f))])
            ++ chat
            ++ (if negb (hasChatContent m) || bool_decide (activeTab p = Raw) then raw_view f (wordWrap p) else [])
            ++ when (hasRealContent (input f)) (El "button" [On "click" (ShowSaveModal f)] [txt "Save to Dataset"]))])).

(** ** The tree *)

Definition tool_summary (f : SpanFields) : option ToolSummary :=
  if bool_decide (kind f = js "tool") || ends_with (js "Action") (name f)
  then getToolSummary (Some (name f)) (input f) (output f) else None.

Definition has_text (o : option jsstr) : bool := match o with Some t => truthy t | None => false end.
Definition has_children (a : AnnotatedSpan) : bool := nonempty (children a).

Definition row_details (f : SpanFields) : view op :=
  El "div" []
    (when_some (tool_summary f) (λ t, El "div" [] [El "div" [] [txt "Tool Call"];
                                                   El "div" [] [El "div" [] [Text (title t)]; El "pre" [] [Text (detail t)]]])
     ++ [El "div" []
           (when (has_text (input f)) (JsonCodeBlock (default [] (input f)) (js "Input"))
            ++ when (has_text (output f)) (JsonCodeBlock (default [] (output f)) (js "Output")))]
     ++ when (nonempty (scores f)) (El "div" [] [El "div" [] [txt "Scores"]; ScoreBadges (default [] (scores f))])).

Definition row_head (s : state) (path : row_path) (open : bool) (a : AnnotatedSpan) : view op :=
  let f := fields a in
  let expanded := bool_decide (expandedSpanId s = Some (span_id f)) in
  El "div" [On "click" (SelectSpan (span_id f)); Flag "selected" (bool_decide (selectedSpanId s = Some (span_id f)))]
    ([(if has_children a
       then El "button" [On "click" (ToggleRow path); Attr "aria-label" (if open then js "Collapse" else js "Expand")] []
       else El "div" [] []);
      El "button" [On "click" (ToggleExpand (span_id f)); Attr "aria-label" (if expanded then js "Hide details" else js "Show details")] [];
      El "div" []
        ([El "div" [] [Text (name f)];
          El "div" [] (Text (take 8 (span_id f)) :: when (truthy_opt (model f)) (El "span" [] [Text (default [] (model f))]))]
         ++ when_some (tool_summary f) (λ t, El "div" [] [Text (title t)]));
      El "span" [] [Text (formatDuration (start_time f) (end_time f))];
      El "span" [] [Text (show_num (num_add (rollup_input_tokens (totals_of a)) (rollup_output_tokens (totals_of a)))); txt " t"];
      El "span" [] [Text (cost (rollup_cost_usd (totals_of a)))]]
     ++ when (has_text (input f)) (El "button" [On "click" (ShowSaveModal f); Attr "aria-label" (js "Save span to dataset")] [txt "Save"])).

(** A row that is mounted, and those below it. *)
Fixpoint SpanRow (s : state) (above : row_path) (a : AnnotatedSpan) : view op :=
  match a with
  | AnnotatedNode f _ cs =>
    let path := above ++ [span_id f] in
    let open := default false (row_state path (rows s)) in
    El "div" []
      ([row_head s path open a]
       ++ when (bool_decide (expandedSpanId s = Some (span_id f))) (row_details f)
       ++ when (open && has_children a) (El "div" [] (match cs with Some l => SpanRow s path <$> l | None => [] end)))
  end.

(** ** The page *)

Definition info_bar (s : state) (f : SpanFields) : view op :=
  let total g := from_option g (of_Z 0) (traceRollup s) in
  El "div" []
    [El "div" [] (El "span" [] [Text (name f)] :: kind_badge (kind f)
                  ++ when (truthy_opt (model f)) (El "span" [] [Text (default [] (model f))]));
     El "div" []
       ([El "span" [] [Text (formatTime (clock s) (start_time f))];
         El "span" [] [Text (formatDuration (start_time f) (end_time f))];
         El "span" [] [Text (to_locale (num_add (total inputTokens) (total outputTokens))); txt " tokens"]]
        ++ when (num_lt (of_Z 0) (total costUsd)) (El "span" [] [Text (cost (total costUsd))]))].

Definition content (s : state) : list (view op) :=
  if loading s then [El "div" [] [El "div" [] [Skeleton]; El "div" [] [Skeleton; LoadingState 5 false]]] else
  match trace s, annotatedTrace s with
  | Some r, Some a =>
    if truthy_opt (error s) then [EmptyState error_ (error s) (Some (js "The requested trace could not be loaded")) (Some (js "Close")) (Some Close)] else
    [info_bar s (root_fields r);
     El "div" []
       [match viewMode s with
        | Waterfall => GanttWaterfall (waterfallData s) (selectedSpanId s)
        | Tree => El "div" [] [SpanRow s [] a]
        end]]
  | _, _ =>
    [EmptyState error_ (Some (default (js "Trace not found") (error s))) (Some (js "The requested trace could not be loaded"))
       (Some (js "Close")) (Some Close)]
  end.

Definition render (s : state) : view op :=
  El "div" []
    ([El "div" [On "click" Close] [];
      El "aside" [Attr "aria-label" (js "Trace detail")]
        ([El "div" []
            ([El "button" [On "click" Close; Attr "aria-label" (js "Close trace detail")] [txt "Back"]; El "span" [] [Text (traceId s)]]
             ++ when_some (liveStatus s) (λ l, El "div" [] [txt (match l with Live => "Live" | Stalled => "Stalled" end)])
             ++ [El "button" [On "click" Close; Attr "aria-label" (js "Close trace detail")] []]);
          El "div" []
            [El "button" [On "click" (SetViewMode Waterfall); Attr "aria-label" (js "Switch to waterfall view")] [txt "Waterfall"];
             El "button" [On "click" (SetViewMode Tree); Attr "aria-label" (js "Switch to tree view")] [txt "Tree"]];
          El "div" []
            (El "div" [] (content s)
             :: match selectedSpan s, panel s with
                | Some f, Some p =>
                  El "div" [On "click" ClosePanel] [] :: when_some (SlideInDetailPanel f p) Datatypes.id
                | _, _ => []
                end)]
         ++ when_some (saveSpan s) (λ v,
              El "SaveToDatasetModal"
                [Attr "spanId" (span_id (save_span v)); Attr "traceId" (traceId s); Attr "input" (save_input v);
                 Callback "onClose" (λ o, o = CloseSaveModal); Callback "onSuccess" (λ o, o = SaveSucceeded)] []))]).

(** ** What throws

    The waterfall is computed with every rendering, so a kind without a colour throws
    as soon as a trace is there; the bar above it draws the root's kind. *)
Definition kinds_coloured (s : state) : bool := forallb (λ a, kind_coloured (kind (fields a))) (allSpans s).

Definition root_drawn (s : state) : bool :=
  match trace s with
  | Some r => negb (truthy (kind (root_fields r))) || kind_drawn (kind (root_fields r))
  | None => true
  end.

Definition content_throws (s : state) : bool :=
  negb (loading s) && negb (failed s)
  && (negb (root_drawn s)
      || negb cost_bound
         && (bool_decide (viewMode s = Tree) || num_lt (of_Z 0) (from_option costUsd (of_Z 0) (traceRollup s)))).

Definition panel_throws (s : state) : bool :=
  match selectedSpan s, panel s with
  | Some f, Some p => match SlideInDetailPanel f p with Some _ => false | None => true end
  | _, _ => false
  end.

Definition render_throws (s : state) : bool := negb (kinds_coloured s) || content_throws s || panel_throws s.

(** A time value of the language. *)
Definition time_value (t : Z) : Prop := 0 <= t <= 8640000000000000.

(** What can happen: the parent changes its properties, time passes, the interval
    fires, or the user does what the page offers. *)
Definition legal (o : op) (s : state) : Prop :=
  render_throws s = false
  ∧ match o with
    | Mounted => effect_run s = 0%nat
    | SwitchTrace _ | SwitchProject _ => effect_run s ≠ 0%nat
    | Tick dt => 0 <= dt ∧ time_value (clock s + dt)
    | Poll => match next_poll s with Some t => t <= clock s | None => False end
    | _ => offers (render s) o
    end.
End views.
End page.
