(* ===== verification/TraceDetailProps.v ===== *)
(** What holds of the trace overlay of [TraceDetail]: whose data it shows, how long it
    polls, what the waterfall covers, and what fails. *)
From Stdlib Require Import QArith_base.
From S2P Require Import Prelude.
From S2P Require Import JsString.
From S2P Require Import JsNumber.
From S2P Require Import JsJson.
From S2P Require Import JsUrl.
From S2P Require Import Formatters.
From S2P Require Import SpanMessages.
From S2P Require Import SpanRollup.
From S2P Require Import Ui.
From S2P Require Import Widgets.
From S2P Require Import Visuals.
From S2P Require Import JsonCodeBlock.
From S2P Require Import TraceDetail.
Local Open Scope Z_scope.

#[local] Set Default Proof Using "All".

Section props.
Context `{DateHost} `{Random}.
Context (timeout_minutes : num) (word_wrap : option jsstr) (names : list jsstr) (to_locale : num → jsstr).
Abbreviation handle := (handle timeout_minutes word_wrap).
Abbreviation resume := (resume word_wrap).
Abbreviation program_of := (program_of word_wrap).
Abbreviation run := (run timeout_minutes word_wrap).
Abbreviation legal := (legal names to_locale).
Abbreviation page_reachable t p now := (reachable legal run (initial t p now)).

(** ** The invariant *)

(** The time limit of the live mode, where it is a whole number of milliseconds. *)
Definition limit (L : Z) : Prop := LIVE_TIMEOUT_MS timeout_minutes = of_Z L ∧ 0 <= L < 2 ^ 53.

Definition current_requests (r : nat) (ws : list waiting) : nat := length (filter (λ w, run_of w = r) ws).

Lemma current_app r ws ws' : current_requests r (ws ++ ws') = (current_requests r ws + current_requests r ws')%nat.
Proof. unfold current_requests. by rewrite filter_app, length_app. Qed.

Lemma current_one r w : current_requests r [w] = if bool_decide (run_of w = r) then 1%nat else 0%nat.
Proof. unfold current_requests. rewrite filter_cons. case_decide; case_bool_decide; done. Qed.

Lemma current_some r w ws : w ∈ ws → run_of w = r → (1 ≤ current_requests r ws)%nat.
Proof.
  intros (l1 & l2 & ->)%list_elem_of_split E. change (w :: l2) with ([w] ++ l2).
  rewrite !current_app, current_one, bool_decide_true by done. lia.
Qed.

Lemma current_none r ws : (∀ w, w ∈ ws → run_of w ≠ r) → current_requests r ws = 0%nat.
Proof.
  intros Hw. unfold current_requests. rewrite filter_all_false; [done|]. intros w Hin. by apply Hw.
Qed.

Record consistent (s : state) (ws : list waiting) : Prop := {
  own_requests : ∀ w, w ∈ ws → (run_of w ≤ effect_run s)%nat
                 ∧ (run_of w = effect_run s → url_of w = trace_url (traceId s) (activeProject s));
  shown_is_own : loading s = false → error s = None → shown_for s = Some (traceId s, activeProject s);
  pending_load : ∀ u, WLoad u (effect_run s) ∈ ws →
    polls s = 0 ∧ next_poll s = None ∧ current_requests (effect_run s) ws = 1%nat;
  polling : ∀ t, next_poll s = Some t →
    liveStatus s = Some Live ∧ ∃ t0, liveStart s = Some t0 ∧ t0 + LIVE_POLL_INTERVAL_MS * (polls s + 1) <= t;
  few_polls : 0 <= polls s ∧ ∀ L, limit L → LIVE_POLL_INTERVAL_MS * polls s <= L;
  start_past : ∀ t0, liveStart s = Some t0 → 0 <= t0 <= clock s;
  clock_ok : time_value (clock s)
}.

Definition tracked (s : state) :=
  (effect_run s, traceId s, activeProject s, loading s, error s, shown_for s, (next_poll s, liveStatus s, liveStart s, polls s, clock s)).

Lemma detail_consistent_ext s s' ws : tracked s' = tracked s → consistent s ws → consistent s' ws.
Proof.
  unfold tracked. intros [= E1 E2 E3 E4 E5 E6 E7 E8 E9 E10 E11] [H1 H2 H7 H3 H4 H5 H6].
  split; rewrite ?E1, ?E2, ?E3, ?E4, ?E5, ?E6, ?E7, ?E8, ?E9, ?E10, ?E11; assumption.
Qed.

Lemma commit_tracked s : tracked (commit word_wrap s) = tracked s.
Proof. done. Qed.

Lemma commit_consistent s ws : consistent s ws → consistent (commit word_wrap s) ws.
Proof. by apply detail_consistent_ext. Qed.

Lemma load_consistent s ws :
  (∀ w, w ∈ ws → (run_of w ≤ effect_run s)%nat) → time_value (clock s) → consistent (load s).1 (ws ++ (load s).2).
Proof.
  intros Hruns Hclock. split; cbn.
  - intros w [Hw%Hruns| ->%list_elem_of_singleton]%elem_of_app; [|by split]. split; [lia|]. intros E. lia.
  - done.
  - intros u _. split; [done|]. split; [done|]. rewrite current_app, current_one, bool_decide_true by done.
    rewrite current_none; [done|]. intros w Hw%Hruns. lia.
  - done.
  - split; [done|]. intros L [_ HL]. unfold LIVE_POLL_INTERVAL_MS. lia.
  - done.
  - done.
Qed.

Lemma poll_consistent s ws : 
  (match next_poll s with Some t => t <= clock s | None => False end) →
  consistent s ws → consistent (poll timeout_minutes s).1 (ws ++ (poll timeout_minutes s).2).
Proof.
  intros Hdue Hc. destruct (next_poll s) as [t|] eqn:Et; [|done].
  destruct (polling _ _ Hc t Et) as (Hlive & t0 & Hstart & Ht).
  pose proof (start_past _ _ Hc t0 Hstart) as Hpast. pose proof (clock_ok _ _ Hc) as [_ Hclock].
  pose proof (few_polls _ _ Hc) as [Hp0 Hp].
  assert (∀ u, WLoad u (effect_run s) ∉ ws) as Hno.
  { intros u E. destruct (pending_load _ _ Hc _ E) as (_ & ? & _). congruence. }
  unfold poll. unfold LIVE_POLL_INTERVAL_MS in *. rewrite Hstart.
  destruct (num_lt _ _) eqn:Elt.
  - rewrite app_nil_r. destruct Hc as [H1 H2 H7 H3 H4 H5 H6]. split; try done. by intros u ?%Hno.
  - destruct Hc as [H1 H2 H7 H3 H4 H5 H6]. unfold LIVE_POLL_INTERVAL_MS in *. split; cbn; unfold LIVE_POLL_INTERVAL_MS.
    + intros w [Hw| ->%list_elem_of_singleton]%elem_of_app; [by apply H1|]. by split.
    + done.
    + intros u [E%Hno|E%list_elem_of_singleton]%elem_of_app; done.
    + intros t' [= <-]. split; [done|]. exists t0. split; [done|]. lia.
    + split; [lia|]. intros L [HL Hs]. rewrite HL, lt_of_Z in Elt by (unfold safe; lia).
      apply Z.ltb_ge in Elt. lia.
    + done.
    + done.
Qed.

Lemma detail_handle_consistent o s ws : legal o s → consistent s ws → consistent (handle o s).1 (ws ++ (handle o s).2).
Proof.
  intros [_ Hl] Hc. unfold TraceDetail.handle. destruct (handle_raw timeout_minutes o s) as [s' ws'] eqn:E.
  cbn [fst snd]. apply commit_consistent.
  assert (∀ t, tracked t = tracked s → (s', ws') = (t, []) → consistent s' (ws ++ ws')) as Hsame.
  { intros t Ht [= -> ->]. rewrite app_nil_r. by eapply detail_consistent_ext. }
  assert (∀ w, w ∈ ws → (run_of w ≤ effect_run s)%nat) as Hruns by (intros w Hw; by apply (own_requests _ _ Hc)).
  pose proof (clock_ok _ _ Hc) as Hclock.
  assert (∀ t, effect_run t = effect_run s → clock t = clock s → (s', ws') = load t → consistent s' (ws ++ ws')) as Hload.
  { intros t E1 E2 El. replace s' with (load t).1 by by rewrite <- El. replace ws' with (load t).2 by by rewrite <- El.
    apply load_consistent; [by rewrite E1|by rewrite E2]. }
  destruct o as [|t|p|dt| | |m|id| |id|path|f| | | |tb|t]; cbn [handle_raw] in E;
    try (eapply Hsame; [|symmetry; exact E]; done).
  - by apply (Hload s).
  - case_bool_decide; [eapply Hsame; [|symmetry; exact E]; done|]. by apply (Hload (s <| traceId := t |>)).
  - case_bool_decide; [eapply Hsame; [|symmetry; exact E]; done|]. by apply (Hload (s <| activeProject := p |>)).
  - injection E as <- <-. rewrite app_nil_r. destruct Hl as [Hdt Hv], Hc as [H1 H2 H7 H3 H4 H5 H6]. split; try done.
    + intros t0 Ht0. specialize (H5 t0 Ht0). cbn. lia.
    + cbn. by rewrite Z.add_comm.
  - replace s' with (poll timeout_minutes s).1 by by rewrite E.
    replace ws' with (poll timeout_minutes s).2 by by rewrite E. by apply poll_consistent.
Qed.

(** One request less. *)
Lemma consistent_rest s l1 w l2 : consistent s (l1 ++ w :: l2) → consistent s (l1 ++ l2).
Proof.
  intros [H1 H2 H7 H3 H4 H5 H6].
  assert (∀ x, x ∈ l1 ++ l2 → x ∈ l1 ++ w :: l2) as Hin by (intros x; rewrite !elem_of_app, elem_of_cons; tauto).
  split; try done; [auto|]. intros u Hu. destruct (H7 u (Hin _ Hu)) as (E1 & E2 & E3). split; [done|]. split; [done|].
  pose proof (current_some (effect_run s) _ _ Hu eq_refl) as Hone.
  change (w :: l2) with ([w] ++ l2) in E3. rewrite !current_app in E3. rewrite current_app in Hone |- *. clear -E3 Hone. lia.
Qed.

(** The answer to a request. *)
Lemma detail_answer_consistent s l1 w l2 a : consistent s (l1 ++ w :: l2) → consistent (resume w a s) (l1 ++ l2).
Proof.
  intros Hc. pose proof (consistent_rest _ _ _ _ Hc) as Hr.
  unfold TraceDetail.resume. destruct w as [u r|u r]; apply commit_consistent.
  - unfold load_answer. case_bool_decide as Er; [|done]. cbn [negb]. subst r.
    destruct (pending_load _ _ Hc u) as (E1 & E2 & E3); [apply elem_of_app; right; left|].
    assert (∀ v, WLoad v (effect_run s) ∉ l1 ++ l2) as Hno.
    { intros v Hv. apply (current_some (effect_run s)) in Hv; [|done]. change (WLoad u (effect_run s) :: l2) with ([WLoad u (effect_run s)] ++ l2) in E3.
      rewrite !current_app, current_one, bool_decide_true in E3 by done. rewrite current_app in Hv. clear -E3 Hv. lia. }
    destruct (loadTrace a) as [data|m]; [destruct (rootArrived data)|];
      destruct Hr as [H1 H2 H7 H3 H4 H5 H6]; split; try done; cbn.
    + by intros v ?%Hno.
    + intros t [= <-]. split; [done|]. exists (clock s). split; [done|]. rewrite E1. lia.
    + intros t0 [= <-]. destruct H6. lia.
  - unfold poll_answer. case_bool_decide as Er; [|done]. cbn [negb]. destruct (loadTrace a) as [data|m]; [|done].
    destruct (rootArrived data); destruct Hr as [H1 H2 H7 H3 H4 H5 H6]; (split; try done).
    cbn. intros v Hv. by destruct (H7 v Hv) as (? & _ & ?).
Qed.

(** The page waits for requests of the two kinds and is consistent with them. *)
Definition tracks (c : outcome state) : Prop := ∃ ws, c.2 = program_of <$> ws ∧ consistent c.1 ws.

Lemma detail_step_tracks c c' : tracks c → step legal run c c' → tracks c'.
Proof.
  intros (ws & Ews & Hc) [(op & Hl & ->)|(l1 & pr & l2 & d & E & Hd & ->)]%step_inv.
  - pose proof (detail_handle_consistent op _ _ Hl Hc) as Hc2. unfold TraceDetail.run. destruct (handle op c.1) as [s' ws'].
    exists (ws ++ ws'). cbn. by rewrite fmap_app, Ews.
  - rewrite Ews in E. apply fmap_app_inv in E as (w1 & w2' & -> & E & ->).
    symmetry in E. apply fmap_cons_inv in E as (w & w2 & -> & -> & ->).
    destruct Hd as [a ->]. exists (w1 ++ w2). cbn. split; [by rewrite fmap_app|]. by apply detail_answer_consistent.
Qed.

Lemma detail_tracks t p now c : time_value now → page_reachable t p now c → tracks c.
Proof.
  intros Hnow. apply (reachable_ind legal run tracks).
  - exists []. split; [done|]. split; cbn; try done; [by intros ? ?%not_elem_of_nil..|]. split; [done|]. intros L [_ HL]. unfold LIVE_POLL_INTERVAL_MS. lia.
  - intros c' c''. apply detail_step_tracks.
Qed.

(** ** Properties *)

Lemma other_answer w a s : run_of w ≠ effect_run s → resume w a s = commit word_wrap s.
Proof.
  intros Hw. unfold TraceDetail.resume, load_answer, poll_answer.
  destruct w as [u r|u r]; cbn in Hw; by rewrite (bool_decide_false (r = effect_run s)).
Qed.

(** C20. The overlay shows the trace it is opened for: an answer to a request for another
    trace or project, however late, changes nothing, and once something is shown
    without an error it is the answer for the present trace and project. *)
Theorem shown_trace_is_asked t p now s ps :
  time_value now → page_reachable t p now (s, ps) →
  (∃ ws, ps = program_of <$> ws
     ∧ ∀ w a, w ∈ ws → url_of w ≠ trace_url (traceId s) (activeProject s) → resume w a s = commit word_wrap s)
  ∧ (loading s = false → error s = None → shown_for s = Some (traceId s, activeProject s)).
Proof using Type.
  intros Hnow (ws & E & Hc)%detail_tracks; [|done]. cbn in *. split; [|apply Hc].
  exists ws. split; [done|]. intros w a Hw Hu. apply other_answer. intros Er.
  destruct (own_requests _ _ Hc w Hw) as [_ Hurl]. auto.
Qed.

(** C31. Live polling ends: polls are at least five seconds apart, so that no more than the
    time limit allows are ever sent for a trace; it goes on only while the status is
    live, and the first time the interval fires after the limit it sends nothing, stops
    and says that the trace is stalled. *)
Theorem live_polling_ends t p now s ps L :
  time_value now → page_reachable t p now (s, ps) → limit L →
  LIVE_POLL_INTERVAL_MS * polls s <= L
  ∧ (∀ due, next_poll s = Some due →
     liveStatus s = Some Live
     ∧ ∃ t0, liveStart s = Some t0
       ∧ (L < clock s - t0 → next_poll (handle Poll s).1 = None ∧ liveStatus (handle Poll s).1 = Some Stalled
                             ∧ (handle Poll s).2 = [])).
Proof using Type.
  intros Hnow (ws & E & Hc)%detail_tracks HL; [|done]. cbn in *. split; [by apply Hc|].
  intros due Hdue. destruct (polling _ _ Hc due Hdue) as (Hlive & t0 & Hstart & _). split; [done|].
  exists t0. split; [done|]. intros Hlt. destruct HL as [HL Hs].
  pose proof (start_past _ _ Hc t0 Hstart). destruct (clock_ok _ _ Hc).
  unfold TraceDetail.handle. cbn [handle_raw]. unfold poll. rewrite Hstart, HL, lt_of_Z by (unfold safe; lia).
  by rewrite (proj2 (Z.ltb_lt _ _) Hlt).
Qed.

(** The answers to polls are not put in order: when the answer to a later poll, which
    has the complete trace and ends the live mode, comes first, the answer to the
    earlier one puts the incomplete trace back, and nothing will load it again. *)
Theorem late_poll_reverts s u1 u2 st t full partial :
  rootArrived full = true → rootArrived partial = false → ok_status st = true →
  let s1 := resume (WPoll u2 (effect_run s)) (Answer st t (Ok full)) s in
  let s2 := resume (WPoll u1 (effect_run s)) (Answer st t (Ok partial)) s1 in
  trace s1 = root_span full ∧ liveStatus s1 = None ∧ next_poll s1 = None
  ∧ trace s2 = root_span partial ∧ liveStatus s2 = None ∧ next_poll s2 = None.
Proof using Type.
  intros Hf Hp Hst s1 s2.
  assert (s1 = commit word_wrap (applyData full s <| liveStatus := None |> <| next_poll := None |>)) as E1.
  { unfold s1, TraceDetail.resume, poll_answer, loadTrace. rewrite bool_decide_true by done. cbn [negb]. by rewrite Hst, Hf. }
  assert (s2 = commit word_wrap (applyData partial s1)) as E2.
  { unfold s2, TraceDetail.resume, poll_answer, loadTrace. rewrite bool_decide_true by by rewrite E1. cbn [negb]. by rewrite Hst, Hp. }
  rewrite E2, E1. done.
Qed.

Lemma bind_none {A B} (m : option A) : (m ≫= λ _, @None B) = None.
Proof using Type. by destruct m. Qed.

(** [formatCost] is not imported: showing the tree, showing a span's panel, or showing
    a trace that has a cost makes rendering throw, so the button for the tree and every
    span of the waterfall end the page; with the import a trace whose span kinds have
    a colour and whose root's kind can be drawn is drawn in both views. *)
Theorem missing_import_breaks s f :
  loading s = false → failed s = false → selectedSpanId s = None →
  render_throws imports to_locale (handle (SetViewMode Tree) s).1 = true
  ∧ (f ∈ fields <$> allSpans s → render_throws imports to_locale (handle (SelectSpan (span_id f)) s).1 = true)
  ∧ (num_lt (of_Z 0) (from_option costUsd (of_Z 0) (traceRollup s)) = true → render_throws imports to_locale s = true)
  ∧ (kinds_coloured s = true → root_drawn s = true → ∀ m, render_throws (js "formatCost" :: imports) to_locale (handle (SetViewMode m) s).1 = false).
Proof using Type.
  intros Hl Hf Hsel.
  assert (cost_bound imports = false) as Hn by by vm_compute.
  assert (cost_bound (js "formatCost" :: imports) = true) as Hy by by vm_compute.
  assert (selectedSpan s = None) as Hnone.
  { unfold selectedSpan. apply array_find_None. intros g _. rewrite Hsel. by apply bool_decide_eq_false. }
  split_and!.
  - set (s' := (handle (SetViewMode Tree) s).1).
    assert (loading s' = false) as Hl' by exact Hl. assert (failed s' = false) as Hf' by exact Hf.
    assert (viewMode s' = Tree) as Hv by done.
    unfold render_throws, content_throws. rewrite Hn, Hl', Hf', Hv, bool_decide_true by done.
    by destruct (kinds_coloured s'), (root_drawn s').
  - intros Hin. set (s' := (handle (SelectSpan (span_id f)) s).1).
    assert (selectedSpanId s' = Some (span_id f)) as Hid.
    { change (selectedSpanId s') with (toggled (span_id f) (selectedSpanId s)). by rewrite Hsel. }
    assert (∃ g, selectedSpan s' = Some g) as [g Hg].
    { destruct (selectedSpan s') as [g|] eqn:E; [by exists g|]. exfalso. unfold selectedSpan in E.
      rewrite array_find_None in E. specialize (E f Hin). rewrite Hid in E. by apply bool_decide_eq_false in E. }
    assert (∃ q, panel s' = Some q) as [q Hq].
    { change (panel s') with (match selectedSpan s' with
                              | Some _ => Some (default (Panel (DEFAULT_WORD_WRAP word_wrap) Chat) (panel s))
                              | None => None end). rewrite Hg. eauto. }
    unfold render_throws. apply orb_true_iff. right. unfold panel_throws. rewrite Hg, Hq.
    unfold SlideInDetailPanel. rewrite Hn. destruct (extracted g); [|done]. cbn [negb orb mbind option_bind].
    by rewrite bind_none.
  - intros Hc. unfold render_throws, content_throws. rewrite Hn, Hl, Hf, Hc. cbn.
    by destruct (kinds_coloured s), (root_drawn s); cbn; rewrite ?orb_true_r.
  - intros Hk Hroot m. set (s' := (handle (SetViewMode m) s).1).
    assert (kinds_coloured s' = true) as Hk' by exact Hk. assert (root_drawn s' = true) as Hr' by exact Hroot.
    assert (selectedSpan s' = None) as Hs' by exact Hnone.
    unfold render_throws, content_throws, panel_throws. rewrite Hk', Hr', Hy, Hs'. cbn. by rewrite andb_false_r.
Qed.
End props.

(** ** The waterfall *)

Lemma fields_of_nodes r : fields <$> nodes (annotateSpanTree r) = spans r.
Proof.
  induction r as [f cs IH] using Span_tree_ind. rewrite annotate_node. destruct cs as [cs|]; csimpl; [|done]. f_equal.
  specialize (IH cs eq_refl). induction IH as [|c cs Hc _ IH']; csimpl; [done|]. by rewrite fmap_app, Hc, IH'.
Qed.

Lemma max_of_Z (l : list Z) : l ≠ [] → Forall safe l →
  ∃ M, max_of (of_Z <$> l) = of_Z M ∧ M ∈ l ∧ ∀ z, z ∈ l → z <= M.
Proof.
  intros Hl Hs. induction Hs as [|z l Hz Hs IH]; [done|]. csimpl. unfold max_of in *. simpl.
  destruct l as [|z' l].
  - exists z. split; [|split; [left|by intros ? ->%list_elem_of_singleton]].
    simpl. rewrite of_Z_safe by done. done.
  - destruct IH as (M & -> & HM & Hle); [done|]. assert (safe M) as HsM by (rewrite Forall_forall in Hs; by apply Hs).
    assert (num_max (of_Z z) (of_Z M) = of_Z (Z.max z M)) as ->.
    { assert (num_le (of_Z z) (of_Z M) = (z <=? M)) as E by by apply le_of_Z. rewrite (of_Z_safe z), (of_Z_safe M) in * by done. unfold num_max. rewrite E.
      destruct (Z.leb_spec z M); [rewrite Z.max_r by lia; by rewrite of_Z_safe|rewrite Z.max_l by lia; by rewrite of_Z_safe]. }
    exists (Z.max z M). split; [done|]. split.
    + destruct (Z.max_spec z M) as [[_ ->]|[_ ->]]; [by right|left].
    + intros y [->|Hy%Hle]%elem_of_cons; lia.
Qed.

Lemma domain_max es : es ≠ [] →
  computeWaterfallAxisDomain es = (of_Z 0, max_of ((λ e, num_add (start e) (duration e)) <$> es)).
Proof. by destruct es. Qed.


(** ** Runs *)

Module Runs.

(** A host that reads a text of digits as a time. *)
#[local] Instance host : DateHost :=
  {| date_parse t := Some (digits_val t); full_year _ := 2024; to_locale_string _ _ := [] |}.
#[local] Instance draws : Random := λ _, [].

Definition span (id parent from to : string) : SpanFields :=
  {| span_id := js id; trace_id := js "t1"; parent_id := js parent; project_id := js "team"; name := js "step"; kind := js "chain";
     model := None; start_time := js from; end_time := js to; cost_usd := of_Z 0; input_tokens := of_Z 1;
     output_tokens := of_Z 2; input := None; output := None; status_code := None; scores := None; attributes := None |}.

Definition complete : Span := SpanNode (span "root" "" "1000" "9000") (Some [SpanNode (span "child" "root" "2000" "5000") None]).
Definition orphan : Span := SpanNode (span "child" "root" "2000" "5000") None.
Definition response (r : Span) : TraceResponse :=
  {| root_span := Some r; total_input_tokens := None; total_output_tokens := None; total_cost_usd := None |}.
Definition answered_with (r : Span) : answer TraceResponse := Answer 200 (Ok []) (Ok (response r)).

Abbreviation names := imports.
Abbreviation do o s := (handle NaN None o s).1.
Abbreviation step_of o s ps := (step_event (legal names show_num) (run NaN None) o s ps).

Definition s0 : state := initial (js "t1") (js "team") 1700000000000.
Definition s1 : state := do Mounted s0.
Definition url : jsstr := trace_url (js "t1") (js "team").
Definition loaded : state := resume None (WLoad url 1) (answered_with orphan) s1.
Definition s3 : state := do (Tick 5000) loaded.
Definition s4 : state := do Poll s3.
Definition s5 : state := do (Tick 5000) s4.
Definition s6 : state := do Poll s5.
Abbreviation waits ws := (program_of None <$> ws).

Lemma run_parts o s : run NaN None o s = (do o s, waits (handle NaN None o s).2).
Proof. unfold run. by destruct (handle NaN None o s). Qed.

Lemma mounted_step : step (legal names show_num) (run NaN None) (s0, []) (s1, waits [WLoad url 1]).
Proof.
  assert ((handle NaN None Mounted s0).2 = [WLoad url 1]) as E by by vm_compute.
  pose proof (step_of Mounted s0 [] (conj eq_refl eq_refl)) as Hs. by rewrite run_parts, E in Hs.
Qed.

Lemma loaded_step : step (legal names show_num) (run NaN None) (s1, waits [WLoad url 1]) (loaded, []).
Proof. exact (step_answer (legal names show_num) (run NaN None) s1 [] [] _ _ _ (answered_with orphan)). Qed.

Lemma orphan_reachable : reachable (legal names show_num) (run NaN None) s0 (loaded, []).
Proof. eapply rtc_l; [exact mounted_step|]. apply rtc_once, loaded_step. Qed.

Lemma shown_trace_is_asked_witness : loading loaded = false ∧ shown_for loaded = Some (js "t1", js "team").
Proof.
  split; [by vm_compute|].
  destruct (shown_trace_is_asked NaN None names show_num (js "t1") (js "team") 1700000000000 loaded []
    ltac:(by vm_compute) orphan_reachable) as [_ H].
  exact (H eq_refl eq_refl).
Defined.

Lemma default_limit : limit NaN 1200000.
Proof. split; [by vm_compute|lia]. Qed.

Lemma live_polling_ends_witness : limit NaN 1200000 ∧ liveStatus loaded = Some Live ∧ 5000 * polls loaded <= 1200000.
Proof.
  destruct (live_polling_ends NaN None names show_num (js "t1") (js "team") 1700000000000 loaded [] 1200000
    ltac:(by vm_compute) orphan_reachable default_limit) as [H1 H2].
  split; [exact default_limit|]. split; [exact (proj1 (H2 1700000005000 eq_refl))|exact H1].
Defined.
Lemma two_polls_reachable : reachable (legal names show_num) (run NaN None) s0 (s6, waits [WPoll url 1; WPoll url 1]).
Proof.
  assert (∀ o s ws ws', legal names show_num o s → (handle NaN None o s).2 = ws' →
    step (legal names show_num) (run NaN None) (s, waits ws) (do o s, waits (ws ++ ws'))) as Hdo.
  { intros o s ws ws' Hl E. pose proof (step_of o s (waits ws) Hl) as Hs. rewrite run_parts, E in Hs. cbn [fst snd] in Hs.
    by rewrite <- fmap_app in Hs. }
  unfold reachable. etrans; [exact orphan_reachable|].
  assert (∀ dt s, time_value (clock s + dt) → 0 <= dt → render_throws names show_num s = false → legal names show_num (Tick dt) s) as Ht
    by by intros dt s H1 H2 H3.
  eapply rtc_l; [apply (Hdo (Tick 5000) loaded [] []); [apply Ht; by vm_compute|by vm_compute]|].
  eapply rtc_l; [apply (Hdo Poll s3 [] [WPoll url 1]); [split; by vm_compute|by vm_compute]|].
  eapply rtc_l; [apply (Hdo (Tick 5000) s4 _ []); [apply Ht; by vm_compute|by vm_compute]|].
  apply rtc_once. apply (Hdo Poll s5 [WPoll url 1] [WPoll url 1]); [split; by vm_compute|by vm_compute].
Qed.

Lemma late_poll_reverts_witness :
  reachable (legal names show_num) (run NaN None) s0 (s6, waits [WPoll url 1; WPoll url 1])
  ∧ trace (resume None (WPoll url 1) (answered_with orphan) (resume None (WPoll url 1) (answered_with complete) s6))
    = Some orphan.
Proof.
  split; [exact two_polls_reachable|].
  exact (proj1 (proj2 (proj2 (proj2 (late_poll_reverts None s6 url url 200 (Ok []) (response complete) (response orphan)
    eq_refl eq_refl eq_refl))))).
Defined.

Lemma missing_import_breaks_witness :
  render_throws imports show_num (do (SetViewMode Tree) loaded) = true
  ∧ render_throws (js "formatCost" :: imports) show_num (do (SetViewMode Tree) loaded) = false.
Proof.
  destruct (missing_import_breaks NaN None show_num loaded (span "child" "root" "2000" "5000")
    ltac:(by vm_compute) ltac:(by vm_compute) ltac:(by vm_compute)) as (H1 & _ & _ & H4).
  split; [exact H1|]. apply H4; by vm_compute.
Defined.

End Runs.
